(* ===== verification/_CoqProject ===== *)
-Q . S2P
Prelude.v
GoStd.v
Sha256.v
Base64.v
GoNet.v
GoTime.v
GoDate.v
Waiting.v
Runs.v
K8s.v
Types.v
Kube.v
Effects.v
Names.v
K3s.v
Translate.v
Ports.v
Capacity.v
Mounts.v
Expose.v
Startup.v
Server.v
Access.v
UserConfig.v
Agent.v
Hcp.v
Policy.v
Network.v
Lab.v
Cluster.v
Cli.v
Isolation.v
Lifecycle.v
Release.v
StatefulSets.v
Snapshot.v
Syncers.v
Tokens.v
Pods.v
Metrics.v
Streams.v
Forward.v
Kubelet.v
Controller.v
Manage.v
