(* ===== verification/Prelude.v ===== *)
(** * k3k: a verified model of virtual clusters on Kubernetes

    k3k runs k3s clusters inside the namespaces of a host cluster.  This library
    translates the Go program under src/ to executable definitions and proves what
    makes it correct.  This file holds what every other file uses: errors,
    outcomes, the effect monad and its triples, maps that may be nil, the hint
    databases and the notations.

    ** The program and its parts

    - The controller process (src/main.go) runs, on the host, the reconcilers of
      the clusters, of their StatefulSets, pods and services, of the policies and
      of the etcd snapshots (src/pkg/controller).  They read and write the objects
      of the host through the Kubernetes API, the objects of a virtual cluster
      through a client made from its kubeconfig, and its k3s server through an
      internal HTTP API (src/pkg/k3s).
    - A virtual kubelet (src/k3k-kubelet) runs one pod per agent of a cluster in
      shared mode: it registers a node in the virtual cluster, runs the pods of
      that node as pods of the host namespace, and copies what they depend on.
    - The command line k3kcli (src/cli) creates, updates, deletes and lists the
      clusters and the policies, and keeps the kubeconfig of the user.

    The parts interact through the stored objects only: a Cluster that one writes
    is what another reconciles, and names ([Names], [Translate]) are how one part
    finds what another part made.

    ** How the code is translated

    A Go function is a definition of the same name, in the Module of its file.  A
    computation is a value of [M W A]: from a world [W] it gives an outcome (a
    value, an error, or a panic) and the new world; its writes stay when it fails,
    as the writes of the code do.  A pure function that can fail gives an
    [outcome].  A struct is a record with the fields that the source uses, a
    pointer an [option], a map a [gomap] (nil or a [gmap]), an [int32] or an
    [int64] a [Z] whose operations wrap, a byte string a [string], an error a tree
    that [errors.Is] and [apierrors.ReasonForError] search.  Where the code hands
    one pointer to every step of a reconciler ([*Cluster], [*EtcdSnapshot], the
    ConfigMap of the port allocator), the object is a state that the steps assign
    to and that a write overwrites with the answer of the server.  Code that runs
    on several goroutines is a step relation, whose runs are those of [Runs].

    ** The files

    The language and its standard library: Prelude, GoStd (strings, strconv, hex,
    slices, filepath), Sha256, Base64, GoNet (IP addresses), GoTime (durations as
    they are parsed), GoDate (instants, RFC 3339), Waiting (polling, retries and
    the order of a range over a map), Runs (transition systems and fairness).

    The Kubernetes API: K8s (the objects), Types (k3k.io/v1beta1), Kube (the
    clients, the helpers of controller-runtime, what they promise, and an API
    server in memory), Effects (what a computation can change in the stored
    objects: the relation [evolves], its lemmas and its hint database).

    pkg/controller, the objects of a cluster: Names (controller.go), Mounts
    (mounts.go), Expose (server/service.go, config.go, endpoint.go, ingress.go),
    Startup (server/template.go), Server (server/server.go), Access (token.go,
    server/bootstrap, certs, kubeconfig, client.go, filter.go, pod.go,
    service.go), Agent (agent/agent.go, shared.go, virtual.go), Ports
    (agent/ports.go), Hcp (hcp.go).  K3s is pkg/k3s.

    pkg/controller, the reconcilers: Cluster (cluster.go, status.go,
    cluster_finalize.go), with its properties in Isolation, Lifecycle and Release;
    StatefulSets (statefulset.go); Snapshot (snapshot/); Policy (policy/), with what
    its network policy comes to in Network.
    Controller is main.go, the flags of cli/cmds/root.go and pkg/logging.

    k3k-kubelet: Translate (translate/host.go), Syncers (controller/syncer),
    Capacity (provider/configure_capacity.go), Tokens (provider/token.go), Pods
    (provider/provider.go: the pods), Metrics (its metrics and
    provider/collectors), Streams and Forward (its streams), Kubelet (kubelet.go,
    node.go, config.go, main.go, provider/configure.go, provider/node.go).

    cli: UserConfig (cli/kubeconfig), Cli (creation of a cluster, its flags and
    its kubeconfig), Manage (the other commands).

    Lab puts two API servers in memory and a k3s server side by side: the worlds
    in which the theorems on the reconcilers are applied to concrete runs.

    ** What the theorems show

    - Identity: a derived name is a DNS label of at most 63 characters
      ([SafeConcatName_dns_label]); distinct virtual objects have distinct host
      names unless two shortened names agree on 20 bits of their digests
      ([TranslateName_injective]), and translating an object to the host and
      back gives it again ([TranslateFrom_TranslateTo]).
    - Isolation of tenants: a run of the cluster reconciler changes nothing out of
      the namespace of its cluster but the named objects of [Reconcile_isolated];
      the policy reconciler has the frame [Policy.Reconcile_frame]; a host pod
      names no object of the host namespace but the translated ones and those of
      the volumes that the code leaves untranslated ([createPod_isolated]) and holds no token of the host
      ([transformTokens_no_host_token]); the network policies that are stored for a
      reconciled namespace keep its synced pods off the pod network of the others
      ([reconciled_namespace_isolated]); events, metrics and statistics
      go to the virtual cluster they belong to ([event_goes_home],
      [GetMetricsResource_scoped]).
    - Allocation: ports are held by one cluster each and the record agrees with
      the range allocator ([port_map_consistent]); the quota of a resource is
      divided without loss, within the capacity of each node
      ([distributeQuotas_spec]).
    - Life of a cluster: validation ([validate_spec]), reports of its failures and
      of its success ([Reconcile_reports]), objects of its agents
      ([shared_EnsureResources_spec]), volumes for every mount of its servers
      ([StatefulServer_mounts_backed]), release of what it held
      ([finalizeCluster_releases]), departure of a server from etcd before its pod
      is let go ([Reconcile_leaves_etcd_first]), snapshots
      ([snapshot_reported], [snapshot_finalized]).
    - Policies: [reconcileNamespace_spec] is a refinement: a successful run leaves
      the objects that the policy asks for and removes those it does not; the
      labels of pod security follow its level
      ([reconcileNamespacePodSecurityLabels_spec]).
    - Pods and the objects they depend on: [created_pod_reported],
      [update_pod_spec], [mergeEnvVars_spec], [withRetry_ends]; the syncers
      ([secret_synced], [copy_deleted_first], [claim_bound]); fresh tokens
      ([refreshToken_fresh], [token_refresh_schedule]).
    - Concurrency: a call of PortForward returns, under fairness, when the copy from
      the pod is over, the copy to the pod has failed or its context is done, and
      the host ends the error stream; when it has returned its connection is closed
      and no goroutine is left blocked ([PortForward_returns],
      [PortForward_result]).  The kubelet returns, under
      fairness, once a task of it has stopped and its wait for the node is over
      ([start_returns]); the watch of the virtual API server gives up after three
      failures in a row, and goes on to the end of its context without
      ([watchVirtualAPI_spec]).
    - The user: a creation changes no existing object ([createAction_additive]),
      the kubeconfig keeps its other entries ([Add_additive], [Add_Remove]), an
      update stores what its flags ask for and no older version
      ([updateAction_guarded]), a policy takes no
      namespace from another one unless told to ([policyCreateAction_spec]).

    The other theorems of a file describe its operations, branch by branch.

    ** Parameters and their laws

    Code that is not under src/ is an argument of the definitions that use it.
    Its documented behaviour is a class of laws, with a concrete instance that the
    witnesses use: [Client] and [ClientLaws] (the API server: a call that fails
    changes nothing, a call that succeeds acts on one object, a deletion waits for
    the finalizers), [Keeps] (a part of an object that the server stores as it
    receives it), [KubeUtil] (controllerutil and apimachinery), [QuantityOps],
    [Poller], [Retrier] and [MapRange] (Waiting), [PortLib] (the range allocator
    and the YAML codec), [Transport], [Codec] and [ExecLib] (HTTP, JSON and
    the commands run in a pod), [CertUtil] (X.509), [EtcdLib] (with its
    membership), [StatusPatcher], [OwnerPatcher], [EphemeralUpdater], [TokenAPI],
    [StatsAPI], [Registry], [PodStreams], [ConfigFiles] (the files of the user),
    [CliLib], [OwnerUtil], [Semver], [JsonPath], [KubeletLib], [NodeUtil] and [ManagerLib].  The random source, the
    clock, the DNS resolver, the construction of a client from a kubeconfig, the
    marshalling of a configuration and the addresses of a network block are plain
    arguments.

    ** Fuel and bounds

    The redistribution of a quota ([Capacity.redistribute]) has one unit of fuel
    more than there are nodes: each turn drops a node, so the fuel never runs out
    ([redistribute_spec]).  The loops on a text (split, templates, durations,
    addresses, the blocks of a digest) have its length as fuel and consume some of
    it at each turn.  A poll runs at most once per interval until its timeout
    ([PollerLaw]), a retry has the number of steps of its backoff
    ([RetrierLaw]).  A loop that ends with its context only (the capacity updater,
    the token refresher) takes the number of its rounds as an argument, and its
    theorems hold for every number.

    ** Not modelled

    The registration of the controllers with their managers and of the flags with
    cobra, caches and work queues (a reconciler is one call on one request; the
    event handlers give the requests they add), logs, metrics of the process, what
    is only printed, the parts of the API objects that the source passes through
    without reading, the validation rules that the API server enforces (kubebuilder
    markers), the HTTP server of the kubelet, and the timeouts of single calls (a
    call may fail at any time instead).  The generated deep copies, the tests, the
    documentation and the scripts are not part of the program's logic. *)

From Stdlib Require Export ZArith Lia.
From stdpp Require Export base option list gmap strings sorting countable.

(** The scope of the notations of this development. *)
Declare Scope k3k_scope.
Delimit Scope k3k_scope with k3k.

(** ** Go errors

    An error value is a tree.  [EStatus] is an error answered by the
    Kubernetes API server, [ESentinel] is a package variable made with
    [errors.New] (its identity is its name), [EText] is an anonymous error or
    a text fragment, [EFmt] is [fmt.Errorf] (the fragments of the message in
    order, the [%w] operands among them) and [EJoin] is [errors.Join]. *)
Inductive reason : Set :=
| ReasonNotFound
| ReasonAlreadyExists
| ReasonConflict
| ReasonOther.

Inductive error : Set :=
| EStatus (r : reason) (msg : string)
| ESentinel (name msg : string)
| EText (msg : string)
| EFmt (parts : list error)
| EJoin (errs : list error).

#[export] Instance reason_eq_dec : EqDecision reason.
Proof. solve_decision. Defined.

(** The text of an error, as [err.Error()] returns it. *)
Fixpoint error_text (e : error) : string :=
  match e with
  | EStatus _ m | ESentinel _ m | EText m => m
  | EFmt ps => String.concat EmptyString (map error_text ps)
  | EJoin es => String.concat (String (Ascii.ascii_of_nat 10) EmptyString) (map error_text es)
  end.

(** [errors.Is(err, target)] for a sentinel: a search in the tree of wrapped
    errors. *)
Fixpoint errors_is (target : string) (e : error) : bool :=
  match e with
  | EStatus _ _ | EText _ => false
  | ESentinel n _ => bool_decide (n = target)
  | EFmt es | EJoin es => existsb (errors_is target) es
  end.

(** [apierrors.ReasonForError(err) == r]: the first status error found in the
    tree decides ([errors.As] stops at the first match, depth first). *)
Fixpoint status_reason (e : error) : option reason :=
  match e with
  | EStatus r _ => Some r
  | ESentinel _ _ | EText _ => None
  | EFmt es | EJoin es =>
      (fix go es := match es with
                    | [] => None
                    | e :: es' => match status_reason e with
                                  | Some r => Some r
                                  | None => go es'
                                  end
                    end) es
  end.

Definition IsNotFound (e : error) : bool := bool_decide (status_reason e = Some ReasonNotFound).
Definition IsAlreadyExists (e : error) : bool :=
  bool_decide (status_reason e = Some ReasonAlreadyExists).

(** [errors.Join]: the [nil] operands are dropped; no operand left means
    [nil]. *)
Definition errors_join (es : list (option error)) : option error :=
  match omap id es with
  | [] => None
  | es' => Some (EJoin es')
  end.

(** ** Outcomes and the effect monad

    A Go function that returns [(T, error)] ends with a value or an error; a
    nil dereference, an index out of range or a write to a nil map panics.  An
    effectful function threads a world [W], whose type is a parameter. *)
Inductive outcome (A : Type) : Type :=
| Ok (a : A)
| Err (e : error)
| Panic.
Arguments Ok {A} a.
Arguments Err {A} e.
Arguments Panic {A}.

Definition M (W A : Type) : Type := W → outcome A * W.

#[export] Instance M_ret {W} : MRet (M W) := λ A a w, (Ok a, w).
#[export] Instance M_bind {W} : MBind (M W) := λ A B f m w,
  match m w with
  | (Ok a, w') => f a w'
  | (Err e, w') => (Err e, w')
  | (Panic, w') => (Panic, w')
  end.

#[export] Instance outcome_ret : MRet outcome := λ A a, Ok a.
#[export] Instance outcome_bind : MBind outcome := λ A B f m,
  match m with
  | Ok a => f a
  | Err e => Err e
  | Panic => Panic
  end.

(** [return err] *)
Definition fail {W A} (e : error) : M W A := λ w, (Err e, w).

(** A run-time panic. *)
Definition panic {W A} : M W A := λ w, (Panic, w).

(** Run [m] and hand its error to the caller ([if err := m; err != nil]).  A
    panic is not caught. *)
Definition attempt {W A} (m : M W A) : M W (A + error) := λ w,
  match m w with
  | (Ok a, w') => (Ok (inl a), w')
  | (Err e, w') => (Ok (inr e), w')
  | (Panic, w') => (Panic, w')
  end.

(** A pure computation that can fail or panic, in the effect monad. *)
Definition lift {W A} (o : outcome A) : M W A := λ w, (o, w).

(** [return err] where [err] may be nil. *)
Definition ret_err {W} (e : option error) : M W unit :=
  match e with
  | None => mret tt
  | Some e => fail e
  end.

(** [client.IgnoreNotFound] applied to the error of a call. *)
Definition ignore_not_found {W} (m : M W unit) : M W unit :=
  r ← attempt m;
  match r with
  | inl _ => mret tt
  | inr e => if IsNotFound e then mret tt else fail e
  end.

(** Dereference of a pointer: a nil pointer panics. *)
Definition deref {A} (p : option A) : outcome A :=
  match p with
  | Some a => Ok a
  | None => Panic
  end.

(** A [for _, x := range l] loop whose body can return an error. *)
Fixpoint for_each {W A} (l : list A) (body : A → M W unit) : M W unit :=
  match l with
  | [] => mret tt
  | x :: l' => body x ;; for_each l' body
  end.

(** A loop that carries a state. *)
Fixpoint fold_m {W A S} (f : S → A → M W S) (l : list A) (s : S) : M W S :=
  match l with
  | [] => mret s
  | x :: l' => s' ← f s x; fold_m f l' s'
  end.

(** Run every call, whatever the others return, and collect the errors in
    order: the arguments of an [errors.Join(a(), b(), ...)] call. *)
Fixpoint join_all {W} (ms : list (M W unit)) : M W (list (option error)) :=
  match ms with
  | [] => mret []
  | m :: ms' =>
      r ← attempt m;
      es ← join_all ms';
      mret ((match r with inl _ => None | inr e => Some e end) :: es)
  end.

(** *** Laws of the monad *)
Section Monad.
Context {W : Type}.
Implicit Types w : W.

Lemma bind_ok {A B} (m : M W A) (f : A → M W B) w a w' :
  m w = (Ok a, w') → (x ← m; f x) w = f a w'.
Proof. intros H. unfold mbind, M_bind. by rewrite H. Qed.

Lemma bind_err {A B} (m : M W A) (f : A → M W B) w e w' :
  m w = (Err e, w') → (x ← m; f x) w = (Err e, w').
Proof. intros H. unfold mbind, M_bind. by rewrite H. Qed.

Lemma bind_ret {A B} (a : A) (f : A → M W B) w : (x ← mret a; f x) w = f a w.
Proof. done. Qed.

Lemma bind_inv_ok {A B} (m : M W A) (f : A → M W B) w b w' :
  (x ← m; f x) w = (Ok b, w') →
  ∃ a w1, m w = (Ok a, w1) ∧ f a w1 = (Ok b, w').
Proof.
  unfold mbind, M_bind. intros H. destruct (m w) as [[a|e|] w1] eqn:E; naive_solver.
Qed.

Lemma attempt_ok {A} (m : M W A) w a w' :
  m w = (Ok a, w') → attempt m w = (Ok (inl a), w').
Proof. unfold attempt. by intros ->. Qed.

Lemma attempt_err {A} (m : M W A) w e w' :
  m w = (Err e, w') → attempt m w = (Ok (inr e), w').
Proof. unfold attempt. by intros ->. Qed.

Lemma attempt_inv {A} (m : M W A) w r w' :
  attempt m w = (Ok r, w') →
  match r with inl a => m w = (Ok a, w') | inr e => m w = (Err e, w') end.
Proof.
  unfold attempt. destruct (m w) as [[a|e|] w1] eqn:E; intros; simplify_eq; done.
Qed.

Lemma ret_err_ok (e : option error) w x w' :
  ret_err e w = (Ok x, w') → e = None ∧ w' = w.
Proof. destruct e; cbn; unfold fail, mret, M_ret; naive_solver. Qed.
End Monad.

(** Split the hypotheses of the form [(x ← m; f x) w = (Ok b, w')]. *)
Ltac inv_ok :=
  repeat match goal with
    | H : mbind _ _ _ = (Ok _, _) |- _ =>
        apply bind_inv_ok in H as (? & ? & ? & H)
    | H : mret _ _ = (Ok _, _) |- _ => cbv [mret M_ret] in H; simplify_eq
    | H : fail _ _ = (Ok _, _) |- _ => by inversion H
    | H : panic _ = (Ok _, _) |- _ => by inversion H
    | H : attempt _ _ = (Ok _, _) |- _ => apply attempt_inv in H
    end.

(** ** Go maps

    A Go map value can be nil: reads and deletes on nil behave as on an empty
    map, a write panics, and [reflect.DeepEqual] tells nil from empty. *)
Definition gomap (V : Type) : Type := option (gmap string V).

Definition map_get {V} (m : gomap V) (k : string) : option V :=
  match m with None => None | Some g => g !! k end.

(** [m[k]] for a map of strings: the zero value when the key is absent. *)
Definition map_str (m : gomap string) (k : string) : string := default EmptyString (map_get m k).

Definition map_del {V} (m : gomap V) (k : string) : gomap V :=
  match m with None => None | Some g => Some (delete k g) end.

(** [m[k] = v] on a map that may be nil. *)
Definition map_set {V} (m : gomap V) (k : string) (v : V) : outcome (gomap V) :=
  match m with
  | None => Panic
  | Some g => Ok (Some (<[k := v]> g))
  end.

(** [len(m)] *)
Definition map_len {V} (m : gomap V) : nat := match m with None => 0 | Some g => size g end.

(** The map of a literal. *)
Definition map_lit {V} (l : list (string * V)) : gomap V := Some (list_to_map l).

Lemma map_get_del {V} (m : gomap V) k k' :
  map_get (map_del m k) k' = if decide (k = k') then None else map_get m k'.
Proof.
  destruct m as [g|]; cbn; [|by case_decide].
  by rewrite lookup_delete.
Qed.

Lemma map_get_insert {V} (g : gmap string V) k v k' :
  map_get (Some (<[k := v]> g)) k' = if decide (k = k') then Some v else map_get (Some g) k'.
Proof. cbn. by rewrite lookup_insert. Qed.

Create HintDb k3k.
Create Rewrite HintDb k3k.
#[export] Hint Rewrite @map_get_del @map_get_insert : k3k.

(** ** Generic lemmas *)
Section Lists.
Context {A : Type}.

Lemma existsb_true_iff (f : A → bool) l : existsb f l = true ↔ ∃ x, x ∈ l ∧ f x = true.
Proof.
  split; [intros H%existsb_exists; revert H|intros H; apply existsb_exists; revert H];
    intros (x & H & ?); exists x;
    (split; [by apply list_elem_of_In|done]).
Qed.

Lemma omap_app {B} (f : A → option B) l1 l2 : omap f (l1 ++ l2) = omap f l1 ++ omap f l2.
Proof. induction l1 as [|x l1 IH]; cbn; [done|]. destruct (f x); cbn; by rewrite IH. Qed.
End Lists.

Lemma errors_join_None es : errors_join es = None ↔ Forall (λ e, e = None) es.
Proof.
  unfold errors_join. induction es as [|[e|] es IH]; cbn.
  - split; [constructor|done].
  - split; [done|]. by inversion 1.
  - etransitivity; [apply IH|]. rewrite Forall_cons_iff. naive_solver.
Qed.

(** ** Hoare triples

    [hoare P m Q E]: from a world in [P], the call [m] ends with a value in
    [Q], or with an error ([Some err]) or a panic ([None]) in [E]. *)
Definition hoare {W A} (P : W → Prop) (m : M W A) (Q : A → W → Prop) (E : option error → W → Prop)
  : Prop :=
  ∀ w, P w → match m w with
             | (Ok a, w') => Q a w'
             | (Err e, w') => E (Some e) w'
             | (Panic, w') => E None w'
             end.

Section Hoare.
Context {W : Type}.
Implicit Types P : W → Prop.
Implicit Types E : option error → W → Prop.

Lemma hoare_bind {A B} P (m : M W A) (f : A → M W B) R Q E :
  hoare P m R E → (∀ a, hoare (R a) (f a) Q E) → hoare P (x ← m; f x) Q E.
Proof.
  intros Hm Hf w Hw. specialize (Hm w Hw). unfold mbind, M_bind.
  destruct (m w) as [[a|e|] w']; [|done..]. by apply Hf.
Qed.

Lemma hoare_ret {A} P (a : A) Q E : (∀ w, P w → Q a w) → hoare P (mret a) Q E.
Proof. intros H w Hw. by apply H. Qed.

Lemma hoare_lift {A} P (o : outcome A) (Q : A → W → Prop) E :
  (∀ w a, P w → o = Ok a → Q a w) →
  (∀ w e, P w → o = Err e → E (Some e) w) →
  (∀ w, P w → o = Panic → E None w) → hoare P (lift o) Q E.
Proof. intros H1 H2 H3 w Hw. unfold lift. destruct o; eauto. Qed.

Lemma hoare_fail {A} P e (Q : A → W → Prop) E :
  (∀ w, P w → E (Some e) w) → hoare P (fail e) Q E.
Proof. intros H w Hw. by apply H. Qed.

Lemma hoare_panic {A} P (Q : A → W → Prop) E : (∀ w, P w → E None w) → hoare P panic Q E.
Proof. intros H w Hw. by apply H. Qed.

Lemma hoare_attempt {A} P (m : M W A) (Q : A + error → W → Prop) E :
  hoare P m (λ a, Q (inl a))
    (λ e w, match e with Some e => Q (inr e) w | None => E None w end) →
  hoare P (attempt m) Q E.
Proof.
  intros H w Hw. specialize (H w Hw). unfold attempt. by destruct (m w) as [[a|e|] w'].
Qed.

Lemma hoare_conseq {A} P P' (m : M W A) (Q Q' : A → W → Prop) E E' :
  hoare P' m Q' E' → (∀ w, P w → P' w) → (∀ a w, Q' a w → Q a w) → (∀ e w, E' e w → E e w) →
  hoare P m Q E.
Proof.
  intros H HP HQ HE w Hw. specialize (H w (HP w Hw)). destruct (m w) as [[a|e|] w']; auto.
Qed.

Lemma hoare_weaken {A} P P' (m : M W A) (Q : A → W → Prop) E :
  hoare P' m Q E → (∀ w, P w → P' w) → hoare P m Q E.
Proof. intros H HP w Hw. apply (H w), HP, Hw. Qed.

Lemma hoare_assoc {A B C} P (m : M W A) (f : A → M W B) (g : B → M W C) Q E :
  hoare P (y ← (x ← m; f x); g y) Q E → hoare P (x ← m; y ← f x; g y) Q E.
Proof.
  intros H w Hw. specialize (H w Hw). revert H. unfold mbind, M_bind.
  by destruct (m w) as [[a|e|] w'].
Qed.

Lemma hoare_pre {A} P (R : Prop) (m : M W A) (Q : A → W → Prop) E :
  (∀ w, P w → R) → (R → hoare P m Q E) → hoare P m Q E.
Proof. intros H1 H2 w Hw. by apply H2; [eapply H1|]. Qed.

Lemma hoare_for_each {A} (I : W → Prop) (l : list A) (body : A → M W unit) E :
  (∀ x, x ∈ l → hoare I (body x) (λ _, I) E) → hoare I (for_each l body) (λ _, I) E.
Proof.
  induction l as [|x l IH]; cbn; intros H; [by apply hoare_ret|].
  eapply hoare_bind; [apply H; set_solver|]. intros []. apply IH. set_solver.
Qed.

(** A pure step keeps the assertion and tells its result. *)
Lemma hoare_lift_bind {A B} P (o : outcome A) (f : A → M W B) Q E :
  (∀ e w, P w → E e w) → (∀ a, o = Ok a → hoare P (f a) Q E) → hoare P (x ← lift o; f x) Q E.
Proof.
  intros HE Hf w Hw. unfold mbind, M_bind, lift. destruct o as [a|e|]; [by apply Hf|auto..].
Qed.

(** The error case of a triple is the invariant alone. *)
Lemma hoare_of_run {A} P (m : M W A) Q (I : W → Prop) :
  (∀ w r w', P w → m w = (r, w') → I w' ∧ match r with Ok a => Q a w' | _ => True end) →
  hoare P m Q (λ _, I).
Proof.
  intros H w Hw. destruct (m w) as [r w'] eqn:E. specialize (H w r w' Hw E). destruct r; tauto.
Qed.

(** A triple about a run. *)
Lemma hoare_run {A} P (m : M W A) Q E w r w' :
  hoare P m Q E → P w → m w = (r, w') →
  match r with Ok a => Q a w' | Err e => E (Some e) w' | Panic => E None w' end.
Proof. intros H Hw Hm. specialize (H w Hw). rewrite Hm in H. by destruct r. Qed.
End Hoare.
