(* ===== verification/GoStd.v ===== *)
(** * The parts of the Go standard library the source uses

    [strings], [encoding/hex], [slices], [strconv], [path/filepath] on byte
    strings (a [string] is a list of bytes, as in Go), with the lemmas about
    them that the components share. *)

From S2P Require Import Prelude.
From stdpp Require Export pretty.
From Stdlib Require Export Ascii.

Local Open Scope string_scope.
#[global] Arguments String.append !_ _ : simpl nomatch.

(** ** Slices of strings *)

(** [s[:n]] and [s[n:]]; the callers guard the bounds. *)
Fixpoint str_take (n : nat) (s : string) : string :=
  match n, s with
  | S n', String c s' => String c (str_take n' s')
  | _, _ => ""
  end.

Fixpoint str_drop (n : nat) (s : string) : string :=
  match n, s with
  | O, _ => s
  | S n', String _ s' => str_drop n' s'
  | S _, "" => ""
  end.

(** [s[i]] *)
Definition str_at (s : string) (i : nat) : option ascii := String.get i s.

(** ** package strings *)
Definition strings_Join (l : list string) (sep : string) : string := String.concat sep l.

Definition strings_HasPrefix (s p : string) : bool := String.prefix p s.

Definition strings_TrimPrefix (s p : string) : string :=
  if strings_HasPrefix s p then str_drop (String.length p) s else s.

(** [strings.Cut] before/after the first separator; [None] when it is absent. *)
Fixpoint cut (s sep : string) : option (string * string) :=
  if strings_HasPrefix s sep then Some ("", str_drop (String.length sep) s)
  else match s with
       | "" => None
       | String c s' =>
           match cut s' sep with
           | Some (a, b) => Some (String c a, b)
           | None => None
           end
       end.

Definition strings_Cut (s sep : string) : string * string * bool :=
  match cut s sep with
  | Some (a, b) => (a, b, true)
  | None => (s, "", false)
  end.

Definition strings_Contains (s sub : string) : bool :=
  match cut s sub with Some _ => true | None => false end.

(** [strings.Replace(s, old, new, 1)] *)
Definition strings_Replace1 (s old new : string) : string :=
  match cut s old with
  | Some (a, b) => a +:+ new +:+ b
  | None => s
  end.

(** [strings.Split] with a non-empty separator; every cut removes at least one
    byte, so the length of the text is enough fuel. *)
Fixpoint split_fuel (fuel : nat) (s sep : string) : list string :=
  match fuel with
  | O => [s]
  | S n => match cut s sep with
           | Some (a, b) => a :: split_fuel n b sep
           | None => [s]
           end
  end.

Definition strings_Split (s sep : string) : list string :=
  split_fuel (S (String.length s)) s sep.

(** [strings.ReplaceAll].  An empty [old] matches before every character and at
    the end (a UTF-8 character starts with a byte that continues none). *)
Fixpoint interleave (s new : string) : string :=
  match s with
  | EmptyString => new
  | String c s' =>
      let continuation := ((128 <=? nat_of_ascii c) && (nat_of_ascii c <? 192))%nat in
      (if continuation then "" else new) +:+ String c (interleave s' new)
  end.

Definition strings_ReplaceAll (s old new : string) : string :=
  if decide (old = "") then interleave s new else strings_Join (strings_Split s old) new.

(** ASCII white space, as [strings.TrimSpace] removes it. *)
Definition is_space (c : ascii) : bool :=
  let n := nat_of_ascii c in
  bool_decide (n = 32)%nat || (bool_decide (9 ≤ n)%nat && bool_decide (n ≤ 13)%nat).

Fixpoint trim_left (s : string) : string :=
  match s with
  | String c s' => if is_space c then trim_left s' else s
  | "" => ""
  end.

Fixpoint str_rev_app (s acc : string) : string :=
  match s with
  | "" => acc
  | String c s' => str_rev_app s' (String c acc)
  end.

Definition str_rev (s : string) : string := str_rev_app s "".

Definition strings_TrimSpace (s : string) : string :=
  str_rev (trim_left (str_rev (trim_left s))).

(** ** encoding/hex *)
Definition hex_digit (n : nat) : ascii :=
  if decide (n < 10)%nat then ascii_of_nat (48 + n)%nat else ascii_of_nat (87 + n)%nat.

Fixpoint hex_encode (s : string) : string :=
  match s with
  | "" => ""
  | String c s' =>
      String (hex_digit (nat_of_ascii c / 16))
        (String (hex_digit (nat_of_ascii c `mod` 16)) (hex_encode s'))
  end.

(** ** package slices *)
Definition slices_Contains {A} `{EqDecision A} (l : list A) (x : A) : bool := bool_decide (x ∈ l).

(** [slices.DeleteFunc] keeps the elements the predicate refuses. *)
Definition slices_DeleteFunc {A} (l : list A) (del : A → bool) : list A :=
  List.filter (λ x, negb (del x)) l.

Definition str_le (s t : string) : Prop := String.leb s t = true.
#[export] Instance str_le_dec : RelDecision str_le.
Proof. intros s t. unfold str_le. apply _. Defined.

Definition slices_Sort (l : list string) : list string := merge_sort str_le l.

(** ** package strconv *)
Definition strconv_Itoa (n : Z) : string := pretty n.

Definition is_digit (c : ascii) : bool :=
  bool_decide (48 ≤ nat_of_ascii c)%nat && bool_decide (nat_of_ascii c ≤ 57)%nat.

Fixpoint digits_value (s : string) (acc : Z) : option Z :=
  match s with
  | "" => Some acc
  | String c s' =>
      if is_digit c then digits_value s' (acc * 10 + (Z.of_nat (nat_of_ascii c) - 48)) else None
  end.

Definition int64_max : Z := 2 ^ 63 - 1.
Definition int64_min : Z := - 2 ^ 63.

(** [strconv.Atoi] on a 64-bit platform: an optional sign, decimal digits, and
    a value in the range of [int]. *)
Definition strconv_Atoi (s : string) : option Z :=
  let in_range z := if decide (int64_min ≤ z ≤ int64_max)%Z then Some z else None in
  match s with
  | "" | "+" | "-" => None
  | String "+" s' => digits_value s' 0 ≫= in_range
  | String "-" s' => digits_value s' 0 ≫= λ z, in_range (- z)%Z
  | _ => digits_value s 0 ≫= in_range
  end.

(** A double quote, and [%q] of [fmt]: a quote, a backslash and the control
    characters of ASCII are escaped.  The bytes of other characters are kept, as
    [%q] does for those that are printable. *)
Definition dquote : ascii := ascii_of_nat 34.

Definition quote_char (c : ascii) : string :=
  let n := nat_of_ascii c in
  if decide (c = dquote ∨ c = "\"%char) then String "\" (String c "")
  else if decide (n = 7) then "\a"
  else if decide (n = 8) then "\b"
  else if decide (n = 9) then "\t"
  else if decide (n = 10) then "\n"
  else if decide (n = 11) then "\v"
  else if decide (n = 12) then "\f"
  else if decide (n = 13) then "\r"
  else if decide (n < 32 ∨ n = 127) then "\x" +:+ hex_encode (String c "")
  else String c "".

Fixpoint quote_body (s : string) : string :=
  match s with
  | "" => ""
  | String c s' => quote_char c +:+ quote_body s'
  end.

Definition fmt_q (s : string) : string :=
  String dquote (quote_body s) +:+ String dquote "".

(** ** package path/filepath, for absolute paths *)
Fixpoint clean_components (l : list string) (stack : list string) : list string :=
  match l with
  | [] => rev stack
  | c :: l' =>
      if decide (c = "" ∨ c = ".") then clean_components l' stack
      else if decide (c = "..") then clean_components l' (tail stack)
      else clean_components l' (c :: stack)
  end.

Definition filepath_Join (l : list string) : string :=
  "/" +:+ strings_Join (clean_components (strings_Split (strings_Join l "/") "/") []) "/".

(** ** Lemmas on strings *)
Lemma str_app_assoc s t u : (s +:+ t) +:+ u = s +:+ t +:+ u.
Proof. induction s as [|c s IH]; cbn; [done|]. by f_equal. Qed.

Lemma str_app_nil_r s : s +:+ "" = s.
Proof. induction s as [|c s IH]; cbn; [done|]. by f_equal. Qed.

Lemma str_app_length s t : String.length (s +:+ t) = String.length s + String.length t.
Proof. induction s as [|c s IH]; cbn; [done|]. by f_equal. Qed.

Lemma str_app_inj_l s t u : s +:+ t = s +:+ u → t = u.
Proof. induction s as [|c s IH]; cbn; [done|]. intros H. simplify_eq. auto. Qed.

Lemma str_take_length n s : String.length (str_take n s) = n `min` String.length s.
Proof. revert s. induction n as [|n IH]; intros [|c s]; cbn; auto. Qed.

Lemma str_take_drop n s : str_take n s +:+ str_drop n s = s.
Proof. revert s. induction n as [|n IH]; intros [|c s]; cbn; auto. by rewrite IH. Qed.

Lemma str_take_app n s t : String.length s = n → str_take n (s +:+ t) = s.
Proof. revert s. induction n as [|n IH]; intros [|c s]; cbn; intros; auto; [lia|lia|]. rewrite IH; auto. Qed.

Lemma str_drop_app n s t : String.length s = n → str_drop n (s +:+ t) = t.
Proof. revert s. induction n as [|n IH]; intros [|c s]; cbn; intros; auto; lia. Qed.

(** The characters of a string. *)
Definition str_elem (c : ascii) (s : string) : Prop := c ∈ String.list_ascii_of_string s.

Definition str_forall (P : ascii → Prop) (s : string) : Prop :=
  Forall P (String.list_ascii_of_string s).

Lemma list_ascii_app s t :
  String.list_ascii_of_string (s +:+ t) = (String.list_ascii_of_string s ++ String.list_ascii_of_string t)%list.
Proof. induction s as [|c s IH]; cbn; [done|]. by rewrite IH. Qed.

Lemma str_forall_app P s t : str_forall P (s +:+ t) ↔ str_forall P s ∧ str_forall P t.
Proof. unfold str_forall. rewrite list_ascii_app. apply Forall_app. Qed.

Lemma str_forall_cons P c s : str_forall P (String c s) ↔ P c ∧ str_forall P s.
Proof. unfold str_forall. cbn. apply Forall_cons_iff. Qed.

Lemma str_forall_take P n s : str_forall P s → str_forall P (str_take n s).
Proof.
  revert s. induction n as [|n IH]; intros [|c s]; cbn; rewrite ?str_forall_cons;
    try (constructor); naive_solver.
Qed.

Lemma str_forall_drop P n s : str_forall P s → str_forall P (str_drop n s).
Proof.
  revert s. induction n as [|n IH]; intros [|c s]; cbn; rewrite ?str_forall_cons; naive_solver.
Qed.

(** The last character of a non-empty string. *)
Fixpoint str_last (s : string) : option ascii :=
  match s with
  | "" => None
  | String c "" => Some c
  | String _ s' => str_last s'
  end.

Lemma str_last_cons c d s : str_last (String c (String d s)) = str_last (String d s).
Proof. done. Qed.

Lemma str_last_app s t : t ≠ "" → str_last (s +:+ t) = str_last t.
Proof.
  intros Ht. induction s as [|c s IH]; [done|].
  cbn [String.append]. destruct (s +:+ t) as [|d u] eqn:E.
  - destruct s; [by cbn in E; subst|done].
  - by rewrite str_last_cons.
Qed.

Lemma str_prefix_app p s : String.prefix p (p +:+ s) = true.
Proof. induction p as [|c p IH]; cbn; [by destruct s|]. by destruct (ascii_dec c c). Qed.

Lemma str_prefix_spec p s : String.prefix p s = true → ∃ t, s = p +:+ t.
Proof.
  revert s. induction p as [|c p IH]; intros [|d s]; cbn; intros H; try done.
  - by exists "".
  - by eexists.
  - destruct (ascii_dec c d) as [->|]; [|done]. destruct (IH _ H) as [t ->]. by exists t.
Qed.

Lemma str_prefix_drop p s : String.prefix p s = true → s = p +:+ str_drop (String.length p) s.
Proof. intros [t ->]%str_prefix_spec. by rewrite str_drop_app. Qed.

(** [cut] returns the two sides of the first occurrence. *)
Lemma cut_spec s sep a b : cut s sep = Some (a, b) → s = a +:+ sep +:+ b.
Proof.
  revert a b. induction s as [|c s IH]; intros a b; cbn [cut]; unfold strings_HasPrefix.
  - destruct (String.prefix sep "") eqn:E; [|done].
    intros [= <- <-]. by apply str_prefix_drop.
  - destruct (String.prefix sep (String c s)) eqn:E.
    + intros [= <- <-]. by apply str_prefix_drop.
    + destruct (cut s sep) as [[a' b']|]; [|done]. intros [= <- <-]. cbn. f_equal. eauto.
Qed.

Lemma cut_shorter s sep a b :
  cut s sep = Some (a, b) → sep ≠ "" → String.length b < String.length s.
Proof.
  intros H%cut_spec Hsep. rewrite H, !str_app_length. destruct sep; [done|cbn; lia].
Qed.

(** No occurrence of a one-character separator means the character is absent. *)
Lemma cut_char_None s c : cut s (String c "") = None ↔ ¬ str_elem c s.
Proof.
  unfold str_elem. induction s as [|d s IH]; cbn; [set_solver|].
  unfold strings_HasPrefix. cbn. destruct (ascii_dec c d) as [->|Hne].
  - destruct s; cbn; set_solver.
  - destruct (cut s (String c "")) as [[x y]|] eqn:E; set_solver.
Qed.

(** [strings.Cut] on a one-character separator: the text before it does not
    contain the separator. *)
Lemma cut_char_before s c a b : cut s (String c "") = Some (a, b) → ¬ str_elem c a.
Proof.
  unfold str_elem. revert a b. induction s as [|d s IH]; intros a b; cbn; [done|].
  unfold strings_HasPrefix. cbn. destruct (ascii_dec c d) as [->|Hne].
  - destruct s; cbn; intros [= <- <-]; cbn; set_solver.
  - destruct (cut s (String c "")) as [[x y]|] eqn:E; [|done]. intros [= <- <-].
    cbn. set_solver.
Qed.

Lemma cut_char_first s t c :
  ¬ str_elem c s → cut (s +:+ String c t) (String c "") = Some (s, t).
Proof.
  unfold str_elem. induction s as [|d s IH]; cbn; intros H.
  - unfold strings_HasPrefix. cbn. destruct (ascii_dec c c); [|done]. by destruct t.
  - unfold strings_HasPrefix. cbn. destruct (ascii_dec c d) as [->|]; [set_solver|].
    rewrite IH by set_solver. done.
Qed.

(** The head of [strings.Split] is the text before the first separator. *)
Lemma split_head s c :
  ∃ l, strings_Split s (String c "") = (fst (fst (strings_Cut s (String c ""))) :: l).
Proof.
  unfold strings_Split, strings_Cut. cbn [split_fuel].
  destruct (cut s (String c "")) as [[a b]|]; by eexists.
Qed.

(** ** Lemmas on hex *)
Lemma hex_encode_app s t : hex_encode (s +:+ t) = hex_encode s +:+ hex_encode t.
Proof. induction s as [|c s IH]; cbn; [done|]. by rewrite IH. Qed.

Lemma hex_encode_length s : String.length (hex_encode s) = 2 * String.length s.
Proof. induction s as [|c s IH]; cbn; [done|]. rewrite IH. lia. Qed.

Lemma nat_of_ascii_lt c : nat_of_ascii c < 256.
Proof. apply nat_ascii_bounded. Qed.

Lemma hex_digit_inj m n : m < 16 → n < 16 → hex_digit m = hex_digit n → m = n.
Proof.
  intros Hm Hn. unfold hex_digit. repeat case_decide; intros E;
    apply (f_equal nat_of_ascii) in E; rewrite !nat_ascii_embedding in E by lia; lia.
Qed.

Lemma String_eq_inv a s b t : String a s = String b t → a = b ∧ s = t.
Proof. by intros [= -> ->]. Qed.

Lemma hex_encode_inj s t : hex_encode s = hex_encode t → s = t.
Proof.
  revert t. induction s as [|c s IH]; intros [|d t]; cbn [hex_encode]; intros H; try done.
  apply String_eq_inv in H as [H1 [H2 H3]%String_eq_inv].
  pose proof (nat_of_ascii_lt c). pose proof (nat_of_ascii_lt d).
  apply hex_digit_inj in H1; [|apply Nat.Div0.div_lt_upper_bound; lia..].
  apply hex_digit_inj in H2; [|apply Nat.mod_upper_bound; lia..].
  f_equal; [|by apply IH].
  rewrite <- (ascii_nat_embedding c), <- (ascii_nat_embedding d). f_equal.
  rewrite (Nat.div_mod_eq (nat_of_ascii c) 16), (Nat.div_mod_eq (nat_of_ascii d) 16). lia.
Qed.

(** The characters a hexadecimal text is made of. *)
Definition is_hex (c : ascii) : Prop :=
  (48 ≤ nat_of_ascii c ≤ 57)%nat ∨ (97 ≤ nat_of_ascii c ≤ 102)%nat.

Lemma hex_digit_is_hex n : n < 16 → is_hex (hex_digit n).
Proof.
  intros Hn. unfold is_hex, hex_digit. case_decide; rewrite nat_ascii_embedding by lia; lia.
Qed.

Lemma hex_encode_chars s : str_forall is_hex (hex_encode s).
Proof.
  induction s as [|c s IH]; cbn [hex_encode]; [constructor|]. rewrite !str_forall_cons.
  pose proof (nat_of_ascii_lt c). split_and!; [..|done]; apply hex_digit_is_hex.
  - apply Nat.Div0.div_lt_upper_bound; lia.
  - apply Nat.mod_upper_bound; lia.
Qed.

(** ** Lemmas on sorting *)
#[export] Instance str_le_total : Total str_le.
Proof. intros s t. unfold str_le. destruct (String.leb_total s t); auto. Qed.

#[export] Instance str_le_antisymm : AntiSymm eq str_le.
Proof. intros s t H1 H2. by apply String.leb_antisym. Qed.

Lemma str_le_cons c s d t :
  str_le (String c s) (String d t) ↔
  (N_of_ascii c < N_of_ascii d)%N ∨ (c = d ∧ str_le s t).
Proof.
  unfold str_le, String.leb. cbn. unfold Ascii.compare.
  destruct (N.compare_spec (N_of_ascii c) (N_of_ascii d)) as [He|Hl|Hg].
  - apply (f_equal ascii_of_N) in He. rewrite !ascii_N_embedding in He. subst.
    destruct (String.compare s t) eqn:E; naive_solver lia.
  - split; [by left|done].
  - split; [done|]. intros [?|[-> _]]; lia.
Qed.

#[export] Instance str_le_trans : Transitive str_le.
Proof.
  intros s. induction s as [|c s IH]; intros [|d t] [|e u]; try done.
  rewrite !str_le_cons. intros [?|[-> ?]] [?|[-> ?]]; [left; lia|by left|by left|].
  right. split; [done|]. by eapply IH.
Qed.

(** Sorting forgets the order of the elements. *)
Lemma slices_Sort_perm l l' : l ≡ₚ l' → slices_Sort l = slices_Sort l'.
Proof.
  intros Hp. unfold slices_Sort. apply (Sorted_unique str_le).
  - apply Sorted_merge_sort, _.
  - apply Sorted_merge_sort, _.
  - by rewrite !merge_sort_Permutation.
Qed.

(** ** A quoted text is read back

    [unquote_char] reads one character of the body of a quoted text. *)
Definition unhex (c : ascii) : nat :=
  let n := nat_of_ascii c in if decide (n < 58) then n - 48 else n - 87.

Definition unquote_char (s : string) : option (ascii * string) :=
  match s with
  | "" => None
  | String c r =>
      if decide (c = dquote) then None
      else if decide (c = "\"%char) then
        match r with
        | String e r' =>
            if decide (e = "x"%char) then
              match r' with
              | String h (String l r'') => Some (ascii_of_nat (unhex h * 16 + unhex l), r'')
              | _ => None
              end
            else if decide (e = "a"%char) then Some (ascii_of_nat 7, r')
            else if decide (e = "b"%char) then Some (ascii_of_nat 8, r')
            else if decide (e = "t"%char) then Some (ascii_of_nat 9, r')
            else if decide (e = "n"%char) then Some (ascii_of_nat 10, r')
            else if decide (e = "v"%char) then Some (ascii_of_nat 11, r')
            else if decide (e = "f"%char) then Some (ascii_of_nat 12, r')
            else if decide (e = "r"%char) then Some (ascii_of_nat 13, r')
            else Some (e, r')
        | "" => None
        end
      else Some (c, r)
  end.

Lemma unquote_quote_char c x : unquote_char (quote_char c +:+ x) = Some (c, x).
Proof. destruct c as [[] [] [] [] [] [] [] []]; vm_compute; reflexivity. Qed.

Lemma unquote_dquote x : unquote_char (String dquote x) = None.
Proof. reflexivity. Qed.

(** What follows a quoted text does not blur it. *)
Lemma quote_body_inj s s' t t' :
  quote_body s +:+ String dquote t = quote_body s' +:+ String dquote t' → s = s' ∧ t = t'.
Proof.
  revert s'. induction s as [|c s IH]; intros [|c' s']; cbn [quote_body]; rewrite ?str_app_assoc; intros E.
  - by apply String_eq_inv in E as [_ ->].
  - apply (f_equal unquote_char) in E. by rewrite unquote_quote_char in E.
  - apply (f_equal unquote_char) in E. by rewrite unquote_quote_char in E.
  - apply (f_equal unquote_char) in E. rewrite !unquote_quote_char in E. injection E as -> E.
    by apply IH in E as [-> ->].
Qed.

Lemma fmt_q_inj s s' t t' : fmt_q s +:+ t = fmt_q s' +:+ t' → s = s' ∧ t = t'.
Proof.
  unfold fmt_q. cbn [String.append]. rewrite !str_app_assoc. cbn [String.append].
  intros [_ E]%String_eq_inv. by apply quote_body_inj.
Qed.
