(* ===== verification/Sha256.v ===== *)
(** * crypto/sha256

    The source names resources with the SHA-256 digest of [sha256.Sum256].
    This is the function of FIPS 180-4 on byte strings, on 32-bit words kept in
    [Z] modulo [2^32], checked on the test vectors of the standard. *)

From S2P Require Import Prelude GoStd.

Local Open Scope Z_scope.

Definition w32 (x : Z) : Z := x mod 2 ^ 32.
Definition rotr (n x : Z) : Z := Z.lor (Z.shiftr x n) (w32 (Z.shiftl x (32 - n))).
Definition not32 (x : Z) : Z := Z.lxor x (2 ^ 32 - 1).

Definition sha_ch (x y z : Z) : Z := Z.lxor (Z.land x y) (Z.land (not32 x) z).
Definition sha_maj (x y z : Z) : Z :=
  Z.lxor (Z.land x y) (Z.lxor (Z.land x z) (Z.land y z)).
Definition sha_Sigma0 (x : Z) : Z := Z.lxor (rotr 2 x) (Z.lxor (rotr 13 x) (rotr 22 x)).
Definition sha_Sigma1 (x : Z) : Z := Z.lxor (rotr 6 x) (Z.lxor (rotr 11 x) (rotr 25 x)).
Definition sha_sigma0 (x : Z) : Z := Z.lxor (rotr 7 x) (Z.lxor (rotr 18 x) (Z.shiftr x 3)).
Definition sha_sigma1 (x : Z) : Z := Z.lxor (rotr 17 x) (Z.lxor (rotr 19 x) (Z.shiftr x 10)).

(** The constants of the standard: the first 32 bits of the fractional parts of
    the cube roots of the first 64 primes, and of the square roots of the first
    8.  The cube root is found bit by bit, from bit 35 down. *)
Fixpoint cube_root (bits : nat) (n acc : Z) : Z :=
  match bits with
  | O => acc
  | S b =>
      let acc' := acc + 2 ^ Z.of_nat b in
      cube_root b n (if acc' ^ 3 <=? n then acc' else acc)
  end.

Definition is_prime (n : Z) : bool :=
  forallb (λ d, negb (n mod Z.of_nat d =? 0)) (seq 2 (Z.to_nat n - 2)).

Definition primes64 : list Z :=
  Eval vm_compute in List.filter is_prime (map Z.of_nat (seq 2 310)).

Definition sha_k : list Z :=
  Eval vm_compute in map (λ p, w32 (cube_root 36 (p * 2 ^ 96) 0)) primes64.

Definition sha_h0 : list Z :=
  Eval vm_compute in map (λ p, w32 (Z.sqrt (p * 2 ^ 64))) (take 8 primes64).

(** The message as bytes, padded to a multiple of 64 bytes with its length in
    bits. *)
Definition sha_pad (msg : list Z) : list Z :=
  let len := Z.of_nat (length msg) in
  let zeros := Z.to_nat ((55 - len) mod 64) in
  msg ++ [0x80] ++ replicate zeros 0
      ++ map (λ i, Z.land (Z.shiftr (8 * len) (8 * i)) 255) [7; 6; 5; 4; 3; 2; 1; 0].

Fixpoint words_of (fuel : nat) (bs : list Z) : list Z :=
  match fuel, bs with
  | S n, a :: b :: c :: d :: bs' =>
      (a * 2 ^ 24 + b * 2 ^ 16 + c * 2 ^ 8 + d) :: words_of n bs'
  | _, _ => []
  end.

(** The message schedule: the last 16 words, newest first, give the next. *)
Fixpoint schedule (n : nat) (acc : list Z) : list Z :=
  match n with
  | O => acc
  | S n' =>
      let nth i := List.nth i acc 0 in
      schedule n'
        (w32 (sha_sigma1 (nth 1%nat) + nth 6%nat + sha_sigma0 (nth 14%nat) + nth 15%nat) :: acc)
  end.

Definition sha_round (st : list Z) (kw : Z * Z) : list Z :=
  match st with
  | [a; b; c; d; e; f; g; h] =>
      let t1 := h + sha_Sigma1 e + sha_ch e f g + kw.1 + kw.2 in
      let t2 := sha_Sigma0 a + sha_maj a b c in
      [w32 (t1 + t2); a; b; c; w32 (d + t1); e; f; g]
  | _ => st
  end.

Definition sha_block (st : list Z) (block : list Z) : list Z :=
  let w := rev (schedule 48 (rev (words_of 16 block))) in
  let st' := foldl sha_round st (zip sha_k w) in
  zip_with (λ x y, w32 (x + y)) st st'.

Fixpoint sha_blocks (fuel : nat) (st bs : list Z) : list Z :=
  match fuel, bs with
  | S n, _ :: _ => sha_blocks n (sha_block st (take 64 bs)) (drop 64 bs)
  | _, _ => st
  end.

Definition byte_string (bs : list Z) : string :=
  String.string_of_list_ascii (map (λ b, ascii_of_nat (Z.to_nat b)) bs).

(** [sha256.Sum256([]byte(s))] *)
Definition sha256_Sum256 (s : string) : string :=
  let bs := sha_pad (map (λ c, Z.of_nat (nat_of_ascii c)) (String.list_ascii_of_string s)) in
  let h := sha_blocks (length bs) sha_h0 bs in
  byte_string (flat_map (λ x, [Z.shiftr x 24; Z.land (Z.shiftr x 16) 255;
                               Z.land (Z.shiftr x 8) 255; Z.land x 255]) h).

(** FIPS 180-4 test vectors: one block and two blocks. *)
Example sha256_abc :
  hex_encode (sha256_Sum256 "abc")
  = "ba7816bf8f01cfea414140de5dae2223b00361a396177a9cb410ff61f20015ad"%string.
Proof. vm_compute. reflexivity. Qed.

Example sha256_two_blocks :
  hex_encode (sha256_Sum256 "abcdbcdecdefdefgefghfghighijhijkijkljklmklmnlmnomnopnopq")
  = "248d6a61d20638b8e5c026930c3e6039a33ce45964ff2167f6ecedd419db06c1"%string.
Proof. vm_compute. reflexivity. Qed.

(** ** The digest has 32 bytes *)
Lemma byte_string_length bs : String.length (byte_string bs) = length bs.
Proof. unfold byte_string. induction bs as [|b bs IH]; cbn; [done|]. by rewrite IH. Qed.

Lemma sha_round_length st kw : length st = 8%nat → length (sha_round st kw) = 8%nat.
Proof. by intros H; do 9 (destruct st as [|? st]; try done). Qed.

Lemma sha_block_length st b : length st = 8%nat → length (sha_block st b) = 8%nat.
Proof.
  intros H. unfold sha_block. rewrite length_zip_with_l_eq; [done|].
  rewrite H. symmetry. generalize (zip sha_k (rev (schedule 48 (rev (words_of 16 b))))) as l.
  intros l. revert st H. induction l as [|x l IH]; intros st H; cbn; [done|].
  apply IH. by apply sha_round_length.
Qed.

Lemma sha_blocks_length n st bs : length st = 8%nat → length (sha_blocks n st bs) = 8%nat.
Proof.
  revert st bs. induction n as [|n IH]; intros st [|b bs] H; cbn; try done.
  apply IH. by apply sha_block_length.
Qed.

Lemma sha256_Sum256_length s : String.length (sha256_Sum256 s) = 32%nat.
Proof.
  unfold sha256_Sum256. rewrite byte_string_length.
  pose proof (sha_blocks_length
    (length (sha_pad (map (λ c, Z.of_nat (nat_of_ascii c)) (String.list_ascii_of_string s))))
    sha_h0 (sha_pad (map (λ c, Z.of_nat (nat_of_ascii c)) (String.list_ascii_of_string s)))
    eq_refl) as H.
  revert H. generalize (sha_blocks
    (length (sha_pad (map (λ c, Z.of_nat (nat_of_ascii c)) (String.list_ascii_of_string s))))
    sha_h0 (sha_pad (map (λ c, Z.of_nat (nat_of_ascii c)) (String.list_ascii_of_string s)))).
  intros l H. by do 9 (destruct l as [|? l]; try done).
Qed.

(** Proofs never look inside the digest; evaluation still does. *)
#[global] Opaque sha256_Sum256.
