(* ===== verification/Base64.v ===== *)
(** * encoding/base64, the standard encoding

    [base64.StdEncoding] on strings of bytes, by groups of six bits.  Decoding
    skips carriage returns and line feeds and does not check the unused bits
    of a padded group, as the Go decoder. *)

From S2P Require Import Prelude GoStd.

Local Open Scope string_scope.
Local Open Scope nat_scope.

Module Base64.

Definition alphabet : string := "ABCDEFGHIJKLMNOPQRSTUVWXYZabcdefghijklmnopqrstuvwxyz0123456789+/".

(** Six bits, the most significant first. *)
Record sextet : Type := Sextet { s5 : bool; s4 : bool; s3 : bool; s2 : bool; s1 : bool; s0 : bool }.

Definition sextet_index (s : sextet) : nat :=
  let b (x : bool) := if x then 1 else 0 in
  32 * b (s5 s) + 16 * b (s4 s) + 8 * b (s3 s) + 4 * b (s2 s) + 2 * b (s1 s) + b (s0 s).

Definition sextet_of_index (n : nat) : sextet :=
  Sextet (Nat.testbit n 5) (Nat.testbit n 4) (Nat.testbit n 3) (Nat.testbit n 2)
         (Nat.testbit n 1) (Nat.testbit n 0).

Definition b64_char (s : sextet) : ascii := default "="%char (String.get (sextet_index s) alphabet).

Fixpoint index_of (c : ascii) (l : string) (n : nat) : option nat :=
  match l with
  | EmptyString => None
  | String d l' => if decide (c = d) then Some n else index_of c l' (S n)
  end.

Definition b64_value (c : ascii) : option sextet := sextet_of_index <$> index_of c alphabet 0.

Definition pad : ascii := "="%char.

Fixpoint EncodeToString (s : string) : string :=
  match s with
  | EmptyString => ""
  | String (Ascii a0 a1 a2 a3 a4 a5 a6 a7) r =>
      String (b64_char (Sextet a7 a6 a5 a4 a3 a2))
      match r with
      | EmptyString =>
          String (b64_char (Sextet a1 a0 false false false false)) (String pad (String pad ""))
      | String (Ascii b0 b1 b2 b3 b4 b5 b6 b7) r =>
          String (b64_char (Sextet a1 a0 b7 b6 b5 b4))
          match r with
          | EmptyString =>
              String (b64_char (Sextet b3 b2 b1 b0 false false)) (String pad "")
          | String (Ascii c0 c1 c2 c3 c4 c5 c6 c7) r =>
              String (b64_char (Sextet b3 b2 b1 b0 c7 c6))
                (String (b64_char (Sextet c5 c4 c3 c2 c1 c0)) (EncodeToString r))
          end
      end
  end.

Definition first_byte (x y : sextet) : ascii :=
  Ascii (s4 y) (s5 y) (s0 x) (s1 x) (s2 x) (s3 x) (s4 x) (s5 x).
Definition second_byte (y z : sextet) : ascii :=
  Ascii (s2 z) (s3 z) (s4 z) (s5 z) (s0 y) (s1 y) (s2 y) (s3 y).
Definition third_byte (z t : sextet) : ascii :=
  Ascii (s0 t) (s1 t) (s2 t) (s3 t) (s4 t) (s5 t) (s0 z) (s1 z).

Fixpoint decode_groups (s : string) : option string :=
  match s with
  | EmptyString => Some ""
  | String a (String b (String c (String d r))) =>
      x ← b64_value a;
      y ← b64_value b;
      if decide (c = pad) then
        if decide (d = pad ∧ r = "") then Some (String (first_byte x y) "") else None
      else
        z ← b64_value c;
        if decide (d = pad) then
          if decide (r = "") then Some (String (first_byte x y) (String (second_byte y z) "")) else None
        else
          t ← b64_value d;
          rest ← decode_groups r;
          Some (String (first_byte x y) (String (second_byte y z) (String (third_byte z t) rest)))
  | _ => None
  end.

Fixpoint skip_newlines (s : string) : string :=
  match s with
  | EmptyString => ""
  | String c r => if decide (Ascii.nat_of_ascii c = 10 ∨ Ascii.nat_of_ascii c = 13) then skip_newlines r
                  else String c (skip_newlines r)
  end.

(** [DecodeString]; the message of the error gives the offset, which is left
    out. *)
Definition DecodeString (s : string) : outcome string :=
  match decode_groups (skip_newlines s) with
  | Some d => Ok d
  | None => Err (EText "illegal base64 data")
  end.

Lemma b64_value_char s : b64_value (b64_char s) = Some s.
Proof. destruct s as [[] [] [] [] [] []]; vm_compute; reflexivity. Qed.

Lemma b64_char_not_pad s : b64_char s ≠ pad.
Proof. destruct s as [[] [] [] [] [] []]; vm_compute; discriminate. Qed.

Lemma skip_char s r : skip_newlines (String (b64_char s) r) = String (b64_char s) (skip_newlines r).
Proof.
  cbn [skip_newlines]. rewrite decide_False; [done|].
  destruct s as [[] [] [] [] [] []]; vm_compute; intros [|]; discriminate.
Qed.

Opaque b64_value b64_char.

Lemma skip_encoded n s : String.length s ≤ n → skip_newlines (EncodeToString s) = EncodeToString s.
Proof.
  revert s. induction n as [|n IH]; intros [|[] r] Hn; try done; cbn in Hn; [lia|].
  destruct r as [|[] [|[] r]]; cbn [EncodeToString]; rewrite !skip_char; [done|done|].
  do 4 f_equal. apply IH. cbn in Hn. lia.
Qed.

Lemma decode_encoded n s : String.length s ≤ n → decode_groups (EncodeToString s) = Some s.
Proof.
  revert s. induction n as [|n IH]; intros [|[] r] Hn; try done; cbn in Hn; [lia|].
  destruct r as [|[] [|[] r]]; cbn [EncodeToString decode_groups]; rewrite !b64_value_char; cbn.
  - done.
  - by rewrite decide_False by apply b64_char_not_pad.
  - rewrite !decide_False by apply b64_char_not_pad. by rewrite IH by (cbn in Hn; lia).
Qed.

Lemma Decode_Encode s : DecodeString (EncodeToString s) = Ok s.
Proof. unfold DecodeString. by rewrite (skip_encoded _ _ (le_n _)), (decode_encoded _ _ (le_n _)). Qed.

Transparent b64_value b64_char.
End Base64.
