(* ===== verification/GoNet.v ===== *)
(** * The parts of package net the source uses

    [net.ParseIP], [net.ParseCIDR], [IP.To4], [IP.IsLoopback], [IP.String],
    [IPNet.String] and [net.JoinHostPort], on the 16-byte form of an address
    (bytes as [Z]). *)

From S2P Require Import Prelude GoStd.

Local Open Scope Z_scope.

(** A [net.IP] of 16 bytes (an IPv4 address is kept in its mapped form). *)
Definition IP : Type := list Z.

Definition v4_in_v6_prefix : list Z := [0; 0; 0; 0; 0; 0; 0; 0; 0; 0; 255; 255].

(** ** Parsing *)

(** One octet of a dotted address: 1 to 3 digits, no leading zero, at most
    255. *)
Definition parse_octet (s : string) : option Z :=
  match s with
  | EmptyString => None
  | String "0" (String _ _) => None
  | _ => v ← digits_value s 0; if decide (v ≤ 255) then Some v else None
  end.

Definition parse_v4_fields (s : string) : option (list Z) :=
  match strings_Split s "." with
  | [a; b; c; d] =>
      a ← parse_octet a; b ← parse_octet b; c ← parse_octet c; d ← parse_octet d;
      Some [a; b; c; d]
  | _ => None
  end.

Definition hex_value (c : ascii) : option Z :=
  let n := Z.of_nat (nat_of_ascii c) in
  if decide (48 ≤ n ≤ 57) then Some (n - 48)
  else if decide (97 ≤ n ≤ 102) then Some (n - 87)
  else if decide (65 ≤ n ≤ 70) then Some (n - 55)
  else None.

(** The leading hexadecimal group: its value, its number of digits and what
    follows. *)
Fixpoint scan_hex (s : string) (acc : Z) (n : nat) : Z * nat * string :=
  match s with
  | String c s' =>
      match hex_value c with
      | Some v => scan_hex s' (acc * 16 + v) (S n)
      | None => (acc, n, s)
      end
  | EmptyString => (acc, n, s)
  end.

(** The loop of [netip.parseIPv6]: [ip] holds the bytes read so far and
    [ellipsis] the number of bytes before [::].  Each turn adds two bytes and
    the loop stops at 16, so 8 turns of fuel are enough. *)
Fixpoint v6_loop (fuel : nat) (ip : list Z) (ellipsis : option nat) (s : string)
  : option (list Z * option nat * string) :=
  match fuel with
  | O => Some (ip, ellipsis, s)
  | S fuel' =>
      let '(acc, off, rest) := scan_hex s 0 0 in
      if decide (off = 0%nat ∨ (4 < off)%nat) then None
      else match rest with
      | String "." _ =>
          if decide (ellipsis = None ∧ length ip ≠ 12%nat) then None
          else if decide (16 < length ip + 4)%nat then None
          else v4 ← parse_v4_fields s; Some (ip ++ v4, ellipsis, EmptyString)
      | _ =>
          let ip' := ip ++ [acc / 256; acc mod 256] in
          match rest with
          | EmptyString => Some (ip', ellipsis, EmptyString)
          | String ":" EmptyString => None
          | String ":" (String ":" s2) =>
              match ellipsis with
              | Some _ => None
              | None =>
                  match s2 with
                  | EmptyString => Some (ip', Some (length ip'), EmptyString)
                  | _ => v6_loop fuel' ip' (Some (length ip')) s2
                  end
              end
          | String ":" s1 => v6_loop fuel' ip' ellipsis s1
          | _ => None
          end
      end
  end.

Definition v6_finish (r : list Z * option nat * string) : option (list Z) :=
  let '(ip, ellipsis, s) := r in
  match s with
  | EmptyString =>
      match ellipsis with
      | None => if decide (length ip = 16%nat) then Some ip else None
      | Some e =>
          if decide (length ip < 16)%nat
          then Some (take e ip ++ replicate (16 - length ip) 0 ++ drop e ip)
          else None
      end
  | _ => None
  end.

Definition parse_v6 (s : string) : option (list Z) :=
  match s with
  | String ":" (String ":" EmptyString) => Some (replicate 16 0)
  | String ":" (String ":" s') => v6_loop 8 [] (Some 0%nat) s' ≫= v6_finish
  | _ => v6_loop 8 [] None s ≫= v6_finish
  end.

(** The first of ['.'], [':'] and ['%'] in the text chooses the parser; an
    IPv6 zone makes [net.ParseIP] refuse the address.  The flag tells a dotted
    IPv4 address. *)
Fixpoint first_mark (s : string) : option ascii :=
  match s with
  | EmptyString => None
  | String c s' =>
      if decide (c = "."%char ∨ c = ":"%char ∨ c = "%"%char) then Some c else first_mark s'
  end.

Definition ParseAddr (s : string) : option (IP * bool) :=
  match first_mark s with
  | Some "."%char => v4 ← parse_v4_fields s; Some (v4_in_v6_prefix ++ v4, true)
  | Some ":"%char =>
      if strings_Contains s "%" then None else ip ← parse_v6 s; Some (ip, false)
  | _ => None
  end.

Definition ParseIP (s : string) : option IP := fst <$> ParseAddr s.

(** ** Queries *)
Definition To4 (ip : IP) : option (list Z) :=
  if decide (length ip = 16%nat ∧ take 12 ip = v4_in_v6_prefix) then Some (drop 12 ip) else None.

Definition IsLoopback (ip : IP) : bool :=
  match To4 ip with
  | Some v4 => bool_decide (head v4 = Some 127)
  | None => bool_decide (ip = replicate 15 0 ++ [1])
  end.

(** ** Printing *)
Definition v4_string (l : list Z) : string := strings_Join (map strconv_Itoa l) ".".

Fixpoint v6_groups (ip : list Z) : list Z :=
  match ip with
  | a :: b :: ip' => (a * 256 + b) :: v6_groups ip'
  | _ => []
  end.

Fixpoint zero_run (l : list Z) : nat :=
  match l with
  | 0 :: l' => S (zero_run l')
  | _ => O
  end.

(** The first longest run of at least two zero groups: start and length. *)
Fixpoint best_run (i : nat) (l : list Z) (best : nat * nat) : nat * nat :=
  match l with
  | [] => best
  | _ :: l' =>
      let n := zero_run l in
      best_run (S i) l' (if decide (2 ≤ n ∧ best.2 < n)%nat then (i, n) else best)
  end.

(** A group in hexadecimal without leading zeros. *)
Fixpoint drop_zeros (s : string) : string :=
  match s with
  | String "0" ((String _ _) as s') => drop_zeros s'
  | _ => s
  end.

Definition hex_group (v : Z) : string :=
  drop_zeros (hex_encode (String (ascii_of_nat (Z.to_nat (v / 256)))
                           (String (ascii_of_nat (Z.to_nat (v mod 256))) EmptyString))).

Definition v6_string (ip : IP) : string :=
  let g := v6_groups ip in
  let (start, len) := best_run 0 g (0%nat, 0%nat) in
  if decide (len = 0%nat) then strings_Join (map hex_group g) ":"
  else strings_Join (map hex_group (take start g)) ":" +:+ "::"
       +:+ strings_Join (map hex_group (drop (start + len) g)) ":".

Definition IP_String (ip : IP) : string :=
  match To4 ip with
  | Some v4 => v4_string v4
  | None => v6_string ip
  end.

(** [net.ParseCIDR(s)] followed by [IPNet.String()]: the network address and
    the length of the prefix; [None] is the parse error. *)
Definition mask_byte (ones : Z) (i : nat) (b : Z) : Z :=
  let k := Z.max 0 (Z.min 8 (ones - 8 * Z.of_nat i)) in
  Z.land b (255 - Z.ones (8 - k)).

Definition ParseCIDR (s : string) : option string :=
  match cut s "/" with
  | None => None
  | Some (addr, mask) =>
      '(ip, is4) ← ParseAddr addr;
      n ← (match mask with EmptyString => None | _ => digits_value mask 0 end);
      if (is4 : bool)
      then if decide (n ≤ 32)
           then Some (v4_string (imap (mask_byte n) (drop 12 ip)) +:+ "/" +:+ strconv_Itoa n)
           else None
      else if decide (n ≤ 128)
           then let ip' := imap (mask_byte n) ip in
                match To4 ip' with
                | Some v4 => Some (v4_string v4 +:+ "/" +:+ strconv_Itoa (n - 96))
                | None => Some (v6_string ip' +:+ "/" +:+ strconv_Itoa n)
                end
           else None
  end.

(** [net.JoinHostPort]: an IPv6 host is bracketed. *)
Definition JoinHostPort (host port : string) : string :=
  if strings_Contains host ":" then "[" +:+ host +:+ "]:" +:+ port
  else host +:+ ":" +:+ port.

(** ** Checks *)
Example parse_v4 : ParseIP "192.168.1.254" = Some (v4_in_v6_prefix ++ [192; 168; 1; 254]).
Proof. vm_compute. reflexivity. Qed.
Example parse_v4_leading_zero : ParseIP "192.168.01.1" = None.
Proof. vm_compute. reflexivity. Qed.
Example parse_dns : ParseIP "api.example.com" = None.
Proof. vm_compute. reflexivity. Qed.
Example parse_v6_mixed : IP_String <$> ParseIP "2001:DB8:0:0:1::10" = Some "2001:db8::1:0:0:10"%string.
Proof. vm_compute. reflexivity. Qed.
Example parse_v6_mapped : IP_String <$> ParseIP "::ffff:10.0.0.1" = Some "10.0.0.1"%string.
Proof. vm_compute. reflexivity. Qed.
Example parse_loopback : IsLoopback <$> ParseIP "::1" = Some true.
Proof. vm_compute. reflexivity. Qed.
Example parse_bad_v6 : ParseIP "1:2:3:4:5:6:7:8:9" = None.
Proof. vm_compute. reflexivity. Qed.
Example parse_full_v6 : IP_String <$> ParseIP "1:2:3:4:5:6:7:8" = Some "1:2:3:4:5:6:7:8"%string.
Proof. vm_compute. reflexivity. Qed.
Example parse_cidr : ParseCIDR "10.43.7.9/16" = Some "10.43.0.0/16"%string.
Proof. vm_compute. reflexivity. Qed.
Example parse_cidr_v6 : ParseCIDR "fd00:1::5/64" = Some "fd00:1::/64"%string.
Proof. vm_compute. reflexivity. Qed.
