(* ===== verification/GoTime.v ===== *)
(** * Durations and booleans as Go parses them

    [time.ParseDuration] and [strconv.ParseBool].  A duration is a number of
    nanoseconds; the fraction of a unit is computed with [float64], here the
    binary64 numbers of the Standard Library's [SpecFloat]. *)

From Stdlib Require Import SpecFloat.
From S2P Require Import Prelude GoStd.

Local Open Scope string_scope.
Local Open Scope Z_scope.

Module GoTime.

(** ** float64 *)
Definition float64 : Type := spec_float.
Definition float_of_Z (z : Z) : float64 := binary_normalize 53 1024 z 0 false.
Definition fmul : float64 → float64 → float64 := SFmul 53 1024.
Definition fdiv : float64 → float64 → float64 := SFdiv 53 1024.

(** [uint64(f)] of a float that is not negative: the fraction is dropped. *)
Definition uint64_of_float (f : float64) : Z :=
  match f with
  | S754_finite _ m e => if 0 <=? e then Z.pos m * 2 ^ e else Z.pos m / 2 ^ (- e)
  | _ => 0
  end.

(** ** ParseDuration *)
Definition digit_of (c : ascii) : Z := Z.of_nat (nat_of_ascii c) - 48.

(** [time.leadingInt]: the number before the first character that is no digit,
    unless it exceeds 2^63. *)
Fixpoint leadingInt (x : Z) (s : string) : option (Z * string) :=
  match s with
  | String c s' =>
      if is_digit c then
        if 2 ^ 63 / 10 <? x then None
        else let x' := x * 10 + digit_of c in
             if 2 ^ 63 <? x' then None else leadingInt x' s'
      else Some (x, s)
  | "" => Some (x, "")
  end.

(** [time.leadingFraction]: the digits that fit and the power of ten that they
    are divided by. *)
Fixpoint leadingFraction (x : Z) (scale : float64) (overflow : bool) (s : string) : Z * float64 * string :=
  match s with
  | String c s' =>
      if is_digit c then
        if overflow then leadingFraction x scale true s'
        else if (2 ^ 63 - 1) / 10 <? x then leadingFraction x scale true s'
        else let y := x * 10 + digit_of c in
             if 2 ^ 63 <? y then leadingFraction x scale true s'
             else leadingFraction y (fmul scale (float_of_Z 10)) false s'
      else (x, scale, s)
  | "" => (x, scale, "")
  end.

(** The unit: the characters up to the next digit or dot. *)
Fixpoint unit_name (s : string) : string * string :=
  match s with
  | String c s' =>
      if (bool_decide (c = "."%char) || is_digit c)%bool then ("", s)
      else let '(u, r) := unit_name s' in (String c u, r)
  | "" => ("", "")
  end.

Definition byte (n : nat) : ascii := ascii_of_nat n.
(** U+00B5 and U+03BC in UTF-8 *)
Definition micro_sign : string := String (byte 194) (String (byte 181) "s").
Definition greek_mu : string := String (byte 206) (String (byte 188) "s").

Definition unitMap (u : string) : option Z :=
  if decide (u = "ns") then Some 1
  else if decide (u = "us") then Some (10 ^ 3)
  else if decide (u = micro_sign) then Some (10 ^ 3)
  else if decide (u = greek_mu) then Some (10 ^ 3)
  else if decide (u = "ms") then Some (10 ^ 6)
  else if decide (u = "s") then Some (10 ^ 9)
  else if decide (u = "m") then Some (60 * 10 ^ 9)
  else if decide (u = "h") then Some (3600 * 10 ^ 9)
  else None.

(** [time.quote]: the bytes that are not printable ASCII in hexadecimal. *)
Fixpoint time_quote_body (s : string) : string :=
  match s with
  | "" => ""
  | String c r =>
      (if ((nat_of_ascii c <? 32) || (127 <? nat_of_ascii c))%nat then "\x" +:+ hex_encode (String c "")
       else if (bool_decide (c = dquote) || bool_decide (c = "\"%char))%bool then String "\"%char (String c "")
       else String c "") +:+ time_quote_body r
  end.
Definition time_quote (s : string) : string :=
  String dquote (time_quote_body s) +:+ String dquote "".

Definition invalid_duration (s : string) : error := EText ("time: invalid duration " +:+ time_quote s).

(** One number and its unit: its value and what follows.  [s] is not empty. *)
Definition duration_part (orig s : string) : outcome (Z * string) :=
  match s with
  | String c _ =>
      if negb (bool_decide (c = "."%char) || is_digit c)%bool then Err (invalid_duration orig) else
      match leadingInt 0 s with
      | None => Err (invalid_duration orig)
      | Some (v, s1) =>
          let pre := negb (String.length s1 =? String.length s)%nat in
          let '(f, scale, s2, post) :=
            match s1 with
            | String "." s2 =>
                let '(f, scale, s3) := leadingFraction 0 (float_of_Z 1) false s2 in
                (f, scale, s3, negb (String.length s3 =? String.length s2)%nat)
            | _ => (0, float_of_Z 1, s1, false)
            end in
          if (negb pre && negb post)%bool then Err (invalid_duration orig) else
          let '(u, s3) := unit_name s2 in
          if decide (u = "") then Err (EText ("time: missing unit in duration " +:+ time_quote orig)) else
          match unitMap u with
          | None => Err (EText ("time: unknown unit " +:+ time_quote u +:+ " in duration " +:+ time_quote orig))
          | Some unit =>
              if 2 ^ 63 / unit <? v then Err (invalid_duration orig) else
              let v := v * unit in
              let v := if 0 <? f
                       then v + uint64_of_float (fmul (float_of_Z f) (fdiv (float_of_Z unit) scale))
                       else v in
              if 2 ^ 63 <? v then Err (invalid_duration orig) else Ok (v, s3)
          end
      end
  | "" => Err (invalid_duration orig)
  end.

(** The loop over the parts; each one takes at least one character, so the
    length of the text is enough fuel. *)
Fixpoint duration_parts (fuel : nat) (orig s : string) (d : Z) : outcome Z :=
  match fuel, s with
  | _, "" => Ok d
  | S fuel, _ =>
      '(v, s) ← duration_part orig s;
      if 2 ^ 63 <? d + v then Err (invalid_duration orig) else duration_parts fuel orig s (d + v)
  | 0%nat, _ => Err (invalid_duration orig)
  end.

Definition ParseDuration (s : string) : outcome Z :=
  let orig := s in
  let '(neg, s) := match s with
                   | String "-" s' => (true, s')
                   | String "+" s' => (false, s')
                   | _ => (false, s)
                   end in
  if decide (s = "0") then Ok 0
  else if decide (s = "") then Err (invalid_duration orig)
  else
    d ← duration_parts (String.length s) orig s 0;
    if (neg : bool) then Ok (- d)
    else if 2 ^ 63 - 1 <? d then Err (invalid_duration orig) else Ok d.

(** ** ParseBool *)
Definition ParseBool (s : string) : option bool :=
  if decide (s ∈ ["1"; "t"; "T"; "TRUE"; "true"; "True"]) then Some true
  else if decide (s ∈ ["0"; "f"; "F"; "FALSE"; "false"; "False"]) then Some false
  else None.

(** [strconv.NumError] *)
Definition NumError (func num err : string) : error :=
  EText ("strconv." +:+ func +:+ ": parsing " +:+ fmt_q num +:+ ": " +:+ err).

Example ex_durations :
  map ParseDuration ["5m"; "1h15m30.918s"; "-1.5h"; ".5s"; "0"; "1"; ""; "3000000h"; "100us"] =
  [Ok (300 * 10 ^ 9); Ok (4530918 * 10 ^ 6); Ok (-5400 * 10 ^ 9); Ok (5 * 10 ^ 8); Ok 0;
   Err (EText ("time: missing unit in duration " +:+ time_quote "1"));
   Err (invalid_duration ""); Err (invalid_duration "3000000h"); Ok 100000].
Proof. vm_compute. reflexivity. Qed.

(** ** The fuel is enough *)
Lemma leadingInt_length x s v s' : leadingInt x s = Some (v, s') → (String.length s' ≤ String.length s)%nat.
Proof.
  revert x. induction s as [|c s IH]; intros x; cbn [leadingInt]; [by intros [= _ <-]|].
  destruct (is_digit c); [|by intros [= _ <-]].
  destruct (_ <? x); [done|]. destruct (_ <? _); [done|]. intros E%IH. cbn. lia.
Qed.

Lemma leadingFraction_length x sc o s v sc' s' :
  leadingFraction x sc o s = (v, sc', s') → (String.length s' ≤ String.length s)%nat.
Proof.
  revert x sc o. induction s as [|c s IH]; intros x sc o; cbn [leadingFraction]; [by intros [= _ _ <-]|].
  destruct (is_digit c); [|by intros [= _ _ <-]].
  destruct o; [|destruct (_ <? x); [|destruct (_ <? _)]]; intros E%IH; cbn; lia.
Qed.

Lemma unit_name_length s u s' : unit_name s = (u, s') → (String.length u + String.length s' = String.length s)%nat.
Proof.
  revert u s'. induction s as [|c s IH]; intros u s'; cbn [unit_name]; [by intros [= <- <-]|].
  destruct (_ || _)%bool; [by intros [= <- <-]|]. destruct (unit_name s) as [u1 r] eqn:E. intros [= <- <-].
  specialize (IH _ _ eq_refl). cbn. lia.
Qed.

Lemma duration_part_shorter orig s v s' :
  duration_part orig s = Ok (v, s') → (String.length s' < String.length s)%nat.
Proof.
  destruct s as [|c s]; [done|]. unfold duration_part.
  destruct (negb _); [done|]. destruct (leadingInt 0 _) as [[v1 s1]|] eqn:E1; [|done].
  apply leadingInt_length in E1. set (p := match s1 with String _ _ => _ | _ => _ end).
  assert (String.length p.1.2 ≤ String.length s1)%nat as Hp.
  { subst p. destruct s1 as [|d s1]; [done|].
    destruct (leadingFraction 0 (float_of_Z 1) false s1) as [[f sc] s3] eqn:E2.
    apply leadingFraction_length in E2. repeat case_match; cbn in *; simplify_eq; cbn; lia. }
  destruct p as [[[f scale] s2] post]. cbn in Hp. destruct (_ && _)%bool; [done|].
  destruct (unit_name s2) as [u s3] eqn:E3. apply unit_name_length in E3.
  case_decide as Hu; [done|]. destruct (unitMap u); [|done]. destruct (_ <? v1); [done|].
  destruct (2 ^ 63 <? _); [done|]. intros [= _ <-]. destruct u; [done|]. cbn in *. lia.
Qed.

(** More fuel than the length changes nothing. *)
Lemma duration_parts_fuel f1 f2 orig s d :
  (String.length s ≤ f1)%nat → (String.length s ≤ f2)%nat →
  duration_parts f1 orig s d = duration_parts f2 orig s d.
Proof.
  revert f2 s d. induction f1 as [|f1 IH]; intros f2 s d H1 H2.
  { destruct s; [by destruct f2|cbn in H1; lia]. }
  destruct s as [|c s]; [by destruct f2|]. destruct f2 as [|f2]; [cbn in H2; lia|]. cbn [duration_parts].
  destruct (duration_part orig (String c s)) as [[v s']|e|] eqn:E; [|done..].
  apply duration_part_shorter in E. cbn in *. destruct (_ <? _); [done|]. apply IH; lia.
Qed.
End GoTime.
