(* ===== verification/GoDate.v ===== *)
(** * Instants and their RFC 3339 text

    The part of package [time] that the token refresher uses: an instant is a
    number of nanoseconds since January 1 of the year 1 (UTC), [Sub], [Add] and
    [Before], the proleptic Gregorian calendar, [Format] and [Parse] with the
    layout [time.RFC3339].  A duration is an [int64] of nanoseconds. *)

From S2P Require Import Prelude GoStd.

Local Open Scope string_scope.
Local Open Scope Z_scope.

Module GoDate.

(** ** Instants and durations *)
Definition Time : Type := Z.
Definition Duration : Type := Z.

Definition nano : Z := 10 ^ 9.
Definition Second : Duration := nano.
Definition Hour : Duration := 3600 * nano.

(** The wrap-around of [int64]. *)
Definition int64 (x : Z) : Z := (x + 2 ^ 63) mod 2 ^ 64 - 2 ^ 63.

(** [int32(n)] of a wider integer. *)
Definition int32 (n : Z) : Z := (n + 2 ^ 31) mod 2 ^ 32 - 2 ^ 31.

(** [t.Sub(u)] saturates at the ends of [int64]. *)
Definition Sub (t u : Time) : Duration := Z.max int64_min (Z.min int64_max (t - u)).
Definition Add (t : Time) (d : Duration) : Time := t + d.
Definition Before (t u : Time) : bool := t <? u.

(** The quotient of two [int64] truncates towards zero. *)
Definition quot64 (x y : Z) : Z := int64 (Z.quot x y).
Definition mul64 (x y : Z) : Z := int64 (x * y).

(** ** The calendar *)
Definition is_leap (y : Z) : bool :=
  (y mod 4 =? 0) && (negb (y mod 100 =? 0) || (y mod 400 =? 0)).

Definition month_lengths (leap : bool) : list Z :=
  [31; if leap then 29 else 28; 31; 30; 31; 30; 31; 31; 30; 31; 30; 31].

(** The days before a year and before a month of the year. *)
Definition days_before_year (y : Z) : Z :=
  365 * (y - 1) + (y - 1) / 4 - (y - 1) / 100 + (y - 1) / 400.
Definition days_before_month (leap : bool) (m : Z) : Z :=
  foldr Z.add 0 (take (Z.to_nat (m - 1)) (month_lengths leap)).
Definition daysIn (m y : Z) : Z := nth (Z.to_nat (m - 1)) (month_lengths (is_leap y)) 0.

Definition days_of_date (y m d : Z) : Z :=
  days_before_year y + days_before_month (is_leap y) m + (d - 1).

(** The year of a day and the day of that year, by the cycles of 400, 100, 4
    and 1 years. *)
Definition year_of_days (n : Z) : Z * Z :=
  let n400 := n / 146097 in let r := n mod 146097 in
  let n100 := Z.min 3 (r / 36524) in let r := r - 36524 * n100 in
  let n4 := r / 1461 in let r := r mod 1461 in
  let n1 := Z.min 3 (r / 365) in let r := r - 365 * n1 in
  (400 * n400 + 100 * n100 + 4 * n4 + n1 + 1, r).

Fixpoint month_of_yday (lengths : list Z) (m yday : Z) : Z * Z :=
  match lengths with
  | [] => (m, yday + 1)
  | l :: ls => if yday <? l then (m, yday + 1) else month_of_yday ls (m + 1) (yday - l)
  end.

Record Date_ : Type := { Year : Z; Month : Z; Day : Z }.
Definition date_of_days (n : Z) : Date_ :=
  let '(y, yday) := year_of_days n in
  let '(m, d) := month_of_yday (month_lengths (is_leap y)) 1 yday in
  {| Year := y; Month := m; Day := d |}.

Definition seconds_per_day : Z := 86400.

(** [time.Date(year, month, day, hour, min, sec, nsec, time.UTC)], of parts in
    range. *)
Definition Date (y mo d h mi s ns : Z) : Time :=
  (days_of_date y mo d * seconds_per_day + h * 3600 + mi * 60 + s) * nano + ns.

(** ** Format *)

(** [time.appendInt]: a number padded with zeros. *)
Definition append_int (x : Z) (width : nat) : string :=
  let s := strconv_Itoa (Z.abs x) in
  let padded := foldr String s (replicate (width - String.length s) "0"%char) in
  if x <? 0 then String "-" padded else padded.

(** [t.UTC().Format(time.RFC3339)] *)
Definition Format_RFC3339 (t : Time) : string :=
  let secs := t / nano in
  let date := date_of_days (secs / seconds_per_day) in
  let r := secs mod seconds_per_day in
  append_int (Year date) 4 +:+ "-" +:+ append_int (Month date) 2 +:+ "-" +:+ append_int (Day date) 2
    +:+ "T" +:+ append_int (r / 3600) 2 +:+ ":" +:+ append_int (r mod 3600 / 60) 2
    +:+ ":" +:+ append_int (r mod 60) 2 +:+ "Z".

(** ** Parse

    [time.Parse(time.RFC3339, s)], which takes more than the RFC: an hour of one
    digit, a comma before the fraction, offsets of 24 hours and of 60 minutes. *)
Definition digit (c : ascii) : Z := Z.of_nat (nat_of_ascii c) - 48.

(** [time.getnum]: two digits, or one unless [fixed]. *)
Definition getnum (s : string) (fixed : bool) : option (Z * string) :=
  match s with
  | String a s1 =>
      if is_digit a then
        match s1 with
        | String b s2 =>
            if is_digit b then Some (10 * digit a + digit b, s2)
            else if fixed then None else Some (digit a, s1)
        | "" => if fixed then None else Some (digit a, s1)
        end
      else None
  | "" => None
  end.

Definition getyear (s : string) : option (Z * string) :=
  match s with
  | String a (String b (String c (String d s'))) =>
      if is_digit a && is_digit b && is_digit c && is_digit d
      then Some (1000 * digit a + 100 * digit b + 10 * digit c + digit d, s') else None
  | _ => None
  end.

Definition skip (c : ascii) (s : string) : option string :=
  match s with
  | String d s' => if decide (d = c) then Some s' else None
  | "" => None
  end.

Definition guard_ (b : bool) : option unit := if b then Some tt else None.

(** The digits of a fraction: the first nine count. *)
Fixpoint fraction (s : string) (scale acc : Z) : Z * string :=
  match s with
  | String c s' =>
      if is_digit c then fraction s' (scale / 10) (acc + digit c * scale) else (acc, s)
  | "" => (acc, "")
  end.

Definition getfraction (s : string) : Z * string :=
  match s with
  | String p (String c s') =>
      if (bool_decide (p = "."%char) || bool_decide (p = ","%char)) && is_digit c
      then fraction (String c s') (nano / 10) 0 else (0, s)
  | _ => (0, s)
  end.

(** The offset in seconds east of UTC, at the end of the text. *)
Definition getzone (s : string) : option Z :=
  match s with
  | "Z" => Some 0
  | String sign s1 =>
      '(hr, s2) ← getnum s1 true; s3 ← skip ":" s2; '(mm, s4) ← getnum s3 true;
      _ ← guard_ ((hr <=? 24) && (mm <=? 60) && bool_decide (s4 = ""));
      if decide (sign = "+"%char) then Some ((hr * 60 + mm) * 60)
      else if decide (sign = "-"%char) then Some (- ((hr * 60 + mm) * 60))
      else None
  | "" => None
  end.

Definition Parse_RFC3339 (s : string) : option Time :=
  '(y, s) ← getyear s; s ← skip "-" s;
  '(mo, s) ← getnum s true; _ ← guard_ ((0 <? mo) && (mo <=? 12)); s ← skip "-" s;
  '(d, s) ← getnum s true; s ← skip "T" s;
  '(h, s) ← getnum s false; _ ← guard_ (h <? 24); s ← skip ":" s;
  '(mi, s) ← getnum s true; _ ← guard_ (mi <? 60); s ← skip ":" s;
  '(sec, s) ← getnum s true; _ ← guard_ (sec <? 60);
  let '(ns, s) := getfraction s in
  offset ← getzone s;
  _ ← guard_ ((1 <=? d) && (d <=? daysIn mo y));
  Some (Date y mo d h mi sec ns - offset * nano).

(** ** Lemmas *)
Ltac divlia := Z.to_euclidean_division_equations; lia.

Lemma int32_range n : - 2 ^ 31 ≤ int32 n < 2 ^ 31.
Proof. unfold int32. pose proof (Z.mod_pos_bound (n + 2 ^ 31) (2 ^ 32)). lia. Qed.

Lemma int32_small n : - 2 ^ 31 ≤ n < 2 ^ 31 → int32 n = n.
Proof. intros Hn. unfold int32. rewrite Z.mod_small by lia. lia. Qed.

Lemma int64_id x : int64_min ≤ x ≤ int64_max → int64 x = x.
Proof. unfold int64_min, int64_max, int64. intros ?. rewrite Z.mod_small; lia. Qed.

Lemma is_leap_spec n400 n100 n4 n1 :
  0 ≤ n100 ≤ 3 → 0 ≤ n4 ≤ 24 → 0 ≤ n1 ≤ 3 →
  is_leap (400 * n400 + 100 * n100 + 4 * n4 + n1 + 1)
  = bool_decide (n1 = 3 ∧ (n4 ≠ 24 ∨ n100 = 3)).
Proof.
  intros. unfold is_leap. apply eq_bool_prop_intro. rewrite bool_decide_spec.
  rewrite Is_true_true, andb_true_iff, orb_true_iff, negb_true_iff, Z.eqb_eq, Z.eqb_neq, Z.eqb_eq.
  set (y := 400 * n400 + 100 * n100 + 4 * n4 + n1 + 1).
  assert (y mod 4 = if decide (n1 = 3) then 0 else n1 + 1) as ->.
  { symmetry. apply (Z.mod_unique y 4 (100 * n400 + 25 * n100 + n4 + if decide (n1 = 3) then 1 else 0));
      subst y; case_decide; lia. }
  assert (y mod 100 = if decide (n4 = 24 ∧ n1 = 3) then 0 else 4 * n4 + n1 + 1) as ->.
  { symmetry. apply (Z.mod_unique y 100 (4 * n400 + n100 + if decide (n4 = 24 ∧ n1 = 3) then 1 else 0));
      subst y; case_decide; lia. }
  assert (y mod 400 = if decide (n100 = 3 ∧ n4 = 24 ∧ n1 = 3) then 0 else 100 * n100 + 4 * n4 + n1 + 1) as ->.
  { symmetry. apply (Z.mod_unique y 400 (n400 + if decide (n100 = 3 ∧ n4 = 24 ∧ n1 = 3) then 1 else 0));
      subst y; case_decide; lia. }
  repeat case_decide; lia.
Qed.

Lemma days_before_year_spec n400 n100 n4 n1 :
  0 ≤ n100 ≤ 3 → 0 ≤ n4 ≤ 24 → 0 ≤ n1 ≤ 3 →
  days_before_year (400 * n400 + 100 * n100 + 4 * n4 + n1 + 1)
  = 146097 * n400 + 36524 * n100 + 1461 * n4 + 365 * n1.
Proof. intros. unfold days_before_year. divlia. Qed.

(** A year covers the days that its number is computed from. *)
Lemma year_of_days_spec n y yday :
  year_of_days n = (y, yday) →
  days_before_year y + yday = n ∧ 0 ≤ yday < if is_leap y then 366 else 365.
Proof.
  unfold year_of_days. intros [= <- <-].
  set (n400 := n / 146097). set (r := n mod 146097).
  set (n100 := Z.min 3 (r / 36524)). set (r1 := r - 36524 * n100).
  set (n4 := r1 / 1461). set (r2 := r1 mod 1461). set (n1 := Z.min 3 (r2 / 365)).
  assert (0 ≤ r < 146097) by (subst r; divlia).
  assert (n = 146097 * n400 + r) by (subst n400 r; divlia).
  assert (0 ≤ n100 ≤ 3 ∧ 0 ≤ r1 ∧ (r1 < 36524 ∨ (n100 = 3 ∧ r1 ≤ 36524))) by (subst r1 n100; divlia).
  assert (0 ≤ r2 < 1461 ∧ r1 = 1461 * n4 + r2 ∧ 0 ≤ n4 ≤ 24) by (subst r2 n4; divlia).
  assert (0 ≤ n1 ≤ 3 ∧ 0 ≤ r2 - 365 * n1 ∧ (r2 - 365 * n1 < 365 ∨ (n1 = 3 ∧ r2 - 365 * n1 ≤ 365)))
    by (subst n1; divlia).
  rewrite days_before_year_spec, is_leap_spec by lia. subst r1. split; [lia|].
  case_bool_decide; lia.
Qed.

Lemma month_of_yday_spec lengths m yday m' d :
  Forall (λ l, 0 < l) lengths → 0 ≤ yday < foldr Z.add 0 lengths →
  month_of_yday lengths m yday = (m', d) →
  m ≤ m' < m + Z.of_nat (length lengths) ∧
  1 ≤ d ≤ nth (Z.to_nat (m' - m)) lengths 0 ∧
  foldr Z.add 0 (take (Z.to_nat (m' - m)) lengths) + (d - 1) = yday.
Proof.
  revert m yday. induction lengths as [|l ls IH]; intros m yday Hl Hy E; cbn in *; [lia|].
  apply Forall_cons in Hl as [Hl Hls]. destruct (Z.ltb_spec yday l) as [Hlt|Hlt].
  - injection E as <- <-. rewrite Z.sub_diag. change (Z.to_nat 0) with 0%nat. rewrite take_0. cbn [foldr]. lia.
  - apply IH in E as (H1 & H2 & H3); [|done|lia].
    replace (Z.to_nat (m' - m)) with (S (Z.to_nat (m' - (m + 1)))) by lia. cbn [take nth foldr]. lia.
Qed.

Lemma month_lengths_sum leap : foldr Z.add 0 (month_lengths leap) = if leap then 366 else 365.
Proof. by destruct leap. Qed.

(** The date of a day is in range, and its day number is that day. *)
Lemma date_of_days_spec n :
  let d := date_of_days n in
  days_of_date (Year d) (Month d) (Day d) = n ∧ 1 ≤ Month d ≤ 12 ∧
  1 ≤ Day d ≤ daysIn (Month d) (Year d).
Proof.
  unfold date_of_days. destruct (year_of_days n) as [y yday] eqn:Ey.
  apply year_of_days_spec in Ey as [Hy Hd].
  destruct (month_of_yday _ 1 yday) as [m d] eqn:Em.
  apply month_of_yday_spec in Em as (H1 & H2 & H3).
  - cbn [Year Month Day]. unfold days_of_date, days_before_month, daysIn.
    change (Z.of_nat (length (month_lengths (is_leap y)))) with 12 in H1. lia.
  - destruct (is_leap y); repeat constructor; lia.
  - by rewrite month_lengths_sum.
Qed.

(** *** Numbers of two and of four digits *)
Lemma below_all (n : Z) (P : Z → bool) :
  forallb P (seqZ 0 n) = true → ∀ x, 0 ≤ x < n → P x = true.
Proof. intros H x Hx. apply (proj1 (forallb_forall P _) H). apply list_elem_of_In, elem_of_seqZ. lia. Qed.

Definition two_digits (x : Z) : bool :=
  match append_int x 2 with
  | String a (String b "") => is_digit a && is_digit b && (10 * digit a + digit b =? x)
  | _ => false
  end.
Definition four_digits (x : Z) : bool :=
  match append_int x 4 with
  | String a (String b (String c (String d ""))) =>
      is_digit a && is_digit b && is_digit c && is_digit d &&
      (1000 * digit a + 100 * digit b + 10 * digit c + digit d =? x)
  | _ => false
  end.

Lemma getnum_append x s fixed : 0 ≤ x < 100 → getnum (append_int x 2 +:+ s) fixed = Some (x, s).
Proof.
  intros Hx. assert (two_digits x = true) as H by (apply (below_all 100 two_digits); [by vm_compute|done]).
  unfold two_digits in H. destruct (append_int x 2) as [|a [|b [|]]]; try done.
  apply andb_true_iff in H as [[Ha Hb]%andb_true_iff E%Z.eqb_eq]. cbn. by rewrite Ha, Hb, E.
Qed.

Lemma getyear_append x s : 0 ≤ x < 10000 → getyear (append_int x 4 +:+ s) = Some (x, s).
Proof.
  intros Hx. assert (four_digits x = true) as H
    by (apply (below_all 10000 four_digits); [by vm_compute|done]).
  unfold four_digits in H. destruct (append_int x 4) as [|a [|b [|c [|d [|]]]]]; try done.
  apply andb_true_iff in H as [H E%Z.eqb_eq]. unfold getyear. cbn. by rewrite H, E.
Qed.

Lemma daysIn_le m y : daysIn m y ≤ 31.
Proof.
  unfold daysIn. destruct (nth_in_or_default (Z.to_nat (m - 1)) (month_lengths (is_leap y)) 0) as [H| ->];
    [|lia].
  assert (Forall (λ l, l ≤ 31) (month_lengths (is_leap y))) as Hf by (destruct (is_leap y); repeat constructor; lia).
  rewrite List.Forall_forall in Hf. by apply Hf.
Qed.

Lemma skip_cons c s : skip c (String c s) = Some s.
Proof. cbn. by rewrite decide_True. Qed.

Lemma guard_true b : b = true → guard_ b = Some tt.
Proof. by intros ->. Qed.

(** ** Properties *)

(** an instant of the years 0 to 9999 is read back from its text, less the
    fraction of its second: parsing undoes formatting. *)
Theorem Parse_Format t :
  0 ≤ Year (date_of_days (t / nano / seconds_per_day)) < 10000 →
  Parse_RFC3339 (Format_RFC3339 t) = Some (t / nano * nano).
Proof.
  intros Hy. unfold Format_RFC3339, Parse_RFC3339.
  destruct (date_of_days_spec (t / nano / seconds_per_day)) as (En & Hm & Hd).
  set (date := date_of_days (t / nano / seconds_per_day)) in *.
  pose proof (daysIn_le (Month date) (Year date)).
  set (r := t / nano mod seconds_per_day).
  assert (0 ≤ r < 86400) by (subst r; unfold seconds_per_day; divlia).
  assert (0 ≤ r / 3600 < 24 ∧ 0 ≤ r mod 3600 / 60 < 60 ∧ 0 ≤ r mod 60 < 60) as (Hh & Hmi & Hs) by divlia.
  rewrite getyear_append by done. cbn [mbind option_bind String.append]. rewrite skip_cons.
  cbn [mbind option_bind]. rewrite getnum_append by lia. cbn [mbind option_bind String.append].
  rewrite guard_true, skip_cons by lia. cbn [mbind option_bind]. rewrite getnum_append by lia.
  cbn [mbind option_bind String.append]. rewrite skip_cons. cbn [mbind option_bind].
  rewrite getnum_append by lia. cbn [mbind option_bind String.append]. rewrite guard_true, skip_cons by lia.
  cbn [mbind option_bind]. rewrite getnum_append by lia. cbn [mbind option_bind String.append].
  rewrite guard_true, skip_cons by lia. cbn [mbind option_bind]. rewrite getnum_append by lia.
  cbn [mbind option_bind]. rewrite !guard_true by lia. cbn [mbind option_bind getfraction getzone].
  f_equal. unfold Date. rewrite En.
  subst r. unfold seconds_per_day, nano in *. divlia.
Qed.

Lemma Parse_Format_witness :
  Parse_RFC3339 (Format_RFC3339 (Date 2024 2 29 23 59 60 123)) = Some (Date 2024 2 29 23 59 60 0).
Proof. apply (Parse_Format (Date 2024 2 29 23 59 60 123)). vm_compute. by split. Defined.

Example format_example : Format_RFC3339 (Date 2026 7 28 9 5 7 0) = "2026-07-28T09:05:07Z".
Proof. by vm_compute. Qed.
Example parse_examples :
  Parse_RFC3339 "2026-07-28T09:05:07Z" = Some (Date 2026 7 28 9 5 7 0) ∧
  Parse_RFC3339 "2026-07-28T9:05:07,25-01:30" = Some (Date 2026 7 28 10 35 7 250000000) ∧
  Parse_RFC3339 "2026-02-29T09:05:07Z" = None ∧ Parse_RFC3339 "" = None.
Proof. by vm_compute. Qed.

End GoDate.
