(* ===== verification/Waiting.v ===== *)
(** * Polling, retrying and the iteration over maps

    What the source calls of k8s.io/apimachinery/pkg/util/wait and of
    k8s.io/client-go/util/retry, and the order in which Go ranges over a map,
    as parameters with the laws that their documentation states. *)

From S2P Require Import Prelude GoStd GoDate.

Local Open Scope string_scope.
Local Open Scope Z_scope.

Module Waiting.
Import GoDate.

(** ** wait.PollUntilContextTimeout and wait.PollUntilContextCancel

    The condition threads the variables that it captures, a value of type [S],
    and answers whether it holds and its error; the result of a call is its
    error and the variables. *)
Definition Condition (W S : Type) : Type := S → M W (bool * option error * S).

Class Poller (W : Type) := {
  PollUntilContextTimeout : ∀ {S}, Duration → Duration → bool → Condition W S → S → M W (option error * S);
  PollUntilContextCancel : ∀ {S}, Duration → bool → Condition W S → S → M W (option error * S);
}.

(** A condition polled at most [n] times, until it holds or fails; [stop] is
    the error of the context when it is not. *)
Fixpoint poll_loop {W S} (stop : error) (n : nat) (condition : Condition W S) (s : S) : M W (option error * S) :=
  match n with
  | O => mret (Some stop, s)
  | Datatypes.S n =>
      '(done, err, s) ← condition s;
      match err with
      | Some e => mret (Some e, s)
      | None => if done : bool then mret (None, s) else poll_loop stop n condition s
      end
  end.

(** The errors of a context that is over. *)
Definition context_Canceled : error := ESentinel "context.Canceled" "context canceled".
Definition context_DeadlineExceeded : error := ESentinel "context.DeadlineExceeded" "context deadline exceeded".
Definition context_error (e : error) : Prop := e = context_Canceled ∨ e = context_DeadlineExceeded.

(** The condition is polled at every interval, and at once when the call says so,
    until it holds or the context is over: the timeout is one way for it to end. *)
Class PollerLaw (W : Type) `{Poller W} : Prop := {
  poll_timeout_spec : ∀ {S} interval timeout immediate (condition : Condition W S) s w,
    0 < interval →
    ∃ (n : nat) stop, context_error stop ∧
      (if immediate : bool then 1 else 0) ≤ Z.of_nat n ≤
        Z.max 0 timeout / interval + (if immediate then 1 else 0) ∧
      PollUntilContextTimeout interval timeout immediate condition s w = poll_loop stop n condition s w;
  poll_cancel_spec : ∀ {S} interval immediate (condition : Condition W S) s w,
    0 < interval →
    ∃ (n : nat) stop, context_error stop ∧ (if immediate : bool then 1 else 0) ≤ Z.of_nat n ∧
      PollUntilContextCancel interval immediate condition s w = poll_loop stop n condition s w;
}.

(** ** retry.OnError

    The number of steps of the backoff and the errors that are retried; the waits
    in between are not part of the state. *)
Class Retrier (W : Type) := {
  retry_OnError : ∀ {A}, nat → (error → bool) → M W A → M W A;
}.

Fixpoint retry_loop {W A} (steps : nat) (retriable : error → bool) (f : M W A) : M W A :=
  r ← attempt f;
  match r with
  | inl a => mret a
  | inr e => match steps with
             | Datatypes.S (Datatypes.S _ as steps) =>
                 if retriable e then retry_loop steps retriable f else fail e
             | _ => fail e
             end
  end.

Class RetrierLaw (W : Type) `{Retrier W} : Prop :=
  retry_spec : ∀ {A} steps retriable (f : M W A) w,
    (0 < steps)%nat → retry_OnError steps retriable f w = retry_loop steps retriable f w.

(** ** The order of the iteration over a map *)
Class MapRange := { range_map : ∀ {V}, gmap string V → list (string * V) }.
Class MapRangeLaw `{MapRange} : Prop :=
  range_map_perm : ∀ {V} (m : gmap string V), range_map m ≡ₚ map_to_list m.

(** ** Lemmas *)
Section Lemmas.
Context {W : Type}.

Lemma poll_loop_S {S} stop n (condition : Condition W S) s w done err s1 w1 :
  condition s w = (Ok (done, err, s1), w1) →
  poll_loop stop (Datatypes.S n) condition s w =
  match err with
  | Some e => (Ok (Some e, s1), w1)
  | None => if done then (Ok (None, s1), w1) else poll_loop stop n condition s1 w1
  end.
Proof. intros E. cbn [poll_loop]. unfold mbind, M_bind. rewrite E. by destruct err, done. Qed.

(** A poll that ends without error ends with a condition that holds; what the
    conditions keep of the variables holds where it starts. *)
Lemma poll_loop_done {S} (I : S → Prop) stop n (condition : Condition W S) s w s' w' :
  (∀ s w done err s' w', I s → condition s w = (Ok (done, err, s'), w') → I s') →
  I s → poll_loop stop n condition s w = (Ok (None, s'), w') →
  ∃ s0 w0, I s0 ∧ condition s0 w0 = (Ok (true, None, s'), w').
Proof.
  intros Hk. revert s w. induction n as [|n IH]; intros s w Hs; cbn [poll_loop]; [done|].
  unfold mbind, M_bind. destruct (condition s w) as [[[[b err] s1]|e|] w1] eqn:E; [|done|done].
  destruct err as [e|]; [done|]. destruct b.
  - intros [= <- <-]. by exists s, w.
  - apply IH. by eapply Hk.
Qed.

Lemma retry_loop_ok {A} steps retriable (f : M W A) w a w' :
  f w = (Ok a, w') → retry_loop steps retriable f w = (Ok a, w').
Proof. intros E. destruct steps; cbn; unfold mbind, M_bind, attempt; by rewrite E. Qed.

Lemma retry_loop_fatal {A} steps retriable (f : M W A) w e w' :
  f w = (Err e, w') → retriable e = false → retry_loop steps retriable f w = (Err e, w').
Proof.
  intros E Hr. destruct steps as [|[|steps]]; cbn; unfold mbind, M_bind, attempt; rewrite E; [done..|].
  by rewrite Hr.
Qed.

(** A successful retry ends with a successful call. *)
Lemma retry_loop_inv {A} steps retriable (f : M W A) w a w' :
  retry_loop steps retriable f w = (Ok a, w') → ∃ w1, f w1 = (Ok a, w').
Proof.
  revert w. induction steps as [|steps IH]; intros w.
  - cbn. unfold mbind, M_bind, attempt. destruct (f w) as [[x|e|] w1] eqn:E; cbn; intros [= <- <-]. by exists w.
  - cbn [retry_loop]. unfold mbind, M_bind, attempt. destruct (f w) as [[x|e|] w1] eqn:E; cbn.
    + intros [= <- <-]. by exists w.
    + destruct steps as [|steps]; [done|]. destruct (retriable e); [|done]. apply IH.
    + done.
Qed.

(** What every call keeps, a retry keeps. *)
Lemma retry_loop_keeps {A} (R : W → W → Prop) `{!PreOrder R} steps retriable (f : M W A) w r w' :
  (∀ w r w', f w = (r, w') → R w w') → retry_loop steps retriable f w = (r, w') → R w w'.
Proof.
  intros Hf. revert w r w'. induction steps as [|steps IH]; intros w r w';
    cbn [retry_loop]; unfold mbind, M_bind, attempt; destruct (f w) as [[x|e|] w1] eqn:E; cbn;
    apply Hf in E; try (intros [= <- <-]; done).
  destruct steps as [|steps]; [by intros [= <- <-]|]. destruct (retriable e); [|by intros [= <- <-]].
  intros HH%IH. by etrans.
Qed.
End Lemmas.

(** ** Concrete instances *)

(** A poll that is never cancelled: the last condition is polled when the time
    is over; one that is polled until it is cancelled is cancelled after [n]
    polls. *)
Definition loop_poller (W : Type) (cancelled_after : nat) : Poller W := {|
  PollUntilContextTimeout S interval timeout immediate condition s :=
    poll_loop context_DeadlineExceeded (Z.to_nat (Z.max 0 timeout / interval) + if immediate then 1 else 0)
      condition s;
  PollUntilContextCancel S interval immediate condition s :=
    poll_loop context_Canceled (Datatypes.S cancelled_after) condition s |}.

Lemma loop_poller_law W n : @PollerLaw W (loop_poller W n).
Proof.
  split; intros S interval.
  - intros timeout immediate condition s w Hi. eexists _, context_DeadlineExceeded.
    split; [by right|]. split; [|reflexivity].
    assert (0 ≤ Z.max 0 timeout / interval) by (apply Z.div_pos; lia). destruct immediate; lia.
  - intros immediate condition s w Hi. eexists _, context_Canceled. split; [by left|]. split; [|reflexivity].
    destruct immediate; lia.
Qed.

Definition loop_retrier (W : Type) : Retrier W := {| retry_OnError A := retry_loop |}.
Lemma loop_retrier_law W : @RetrierLaw W (loop_retrier W).
Proof. by intros A steps retriable f w _. Qed.

Definition key_order : MapRange := {| range_map V m := map_to_list m |}.
Lemma key_order_law : @MapRangeLaw key_order.
Proof. by intros V m. Qed.
End Waiting.
