(* ===== verification/Runs.v ===== *)
(** * Runs of labelled transition systems

    A system moves by the steps of its threads, in any order.  A run is an
    infinite sequence of states, which may stand still; it is fair to a thread
    when the thread, if it can move, moves or stops being able to. *)

From S2P Require Import Prelude.

Module Runs.
Section Runs.
Context {T S : Type} (step : T → S → S → Prop).
Implicit Types (t : T) (s : S) (r : nat → S) (P Q : S → Prop).

Definition reachable (start : S) : S → Prop := rtc (λ s s', ∃ t, step t s s') start.

Definition enabled t s : Prop := ∃ s', step t s s'.

Definition run (start : S) r : Prop :=
  r 0 = start ∧ ∀ n, r (Datatypes.S n) = r n ∨ ∃ t, step t (r n) (r (Datatypes.S n)).

Definition fair t r : Prop :=
  ∀ n, ∃ m, n ≤ m ∧ (step t (r m) (r (Datatypes.S m)) ∨ ¬ enabled t (r m)).

#[local] Set Default Proof Using "Type*".

Lemma reachable_ind start P :
  P start → (∀ t s s', step t s s' → P s → P s') → ∀ s, reachable start s → P s.
Proof.
  intros H0 Hs s Hr. induction Hr as [|s1 s2 s3 [t Ht] _ IH]; [done|]. apply IH. by eapply Hs.
Qed.

Lemma run_reachable start r n : run start r → reachable start (r n).
Proof.
  intros [H0 Hn]. induction n as [|n IH]; [rewrite H0; apply rtc_refl|].
  destruct (Hn n) as [->|Hs]; [done|]. eapply rtc_r; [exact IH|exact Hs].
Qed.

(** What every step keeps holds from where it holds. *)
Lemma run_stable start r P n m :
  run start r → (∀ t s s', step t s s' → P s → P s') → n ≤ m → P (r n) → P (r m).
Proof.
  intros [_ Hr] Hs Hle Hn. induction Hle as [|m _ IH]; [done|].
  destruct (Hr m) as [->|[t Ht]]; [done|]. by eapply Hs.
Qed.

(** The rule of weak fairness: the thread [t] stays able to move and its move
    helps. *)
Lemma leads_to start r t P Q n :
  run start r → fair t r →
  (∀ t' s s', step t' s s' → P s → P s' ∨ Q s') →
  (∀ s s', step t s s' → P s → Q s') →
  (∀ s, P s → enabled t s) →
  P (r n) → ∃ m, n ≤ m ∧ Q (r m).
Proof.
  intros [_ Hr] Hf HP HQ He Hn. destruct (Hf n) as (m & Hle & Hm).
  assert (P (r m) ∨ ∃ k, n ≤ k ∧ Q (r k)) as [Hpm|?]; [|destruct Hm as [Hm|Hm]|done].
  - clear Hm. induction Hle as [|m Hle IH]; [by left|]. destruct IH as [Hpm|?]; [|by right].
    destruct (Hr m) as [->|[t' Ht]]; [by left|]. destruct (HP _ _ _ Ht Hpm) as [?|?]; [by left|].
    right. exists (Datatypes.S m). split; [lia|done].
  - exists (Datatypes.S m). split; [lia|]. by eapply HQ.
  - by destruct Hm; apply He.
Qed.

(** A measure that goes down as long as it is not zero reaches zero. *)
Lemma eventually_zero r (measure : S → nat) n :
  (∀ m, n ≤ m → 0 < measure (r m) → ∃ k, m ≤ k ∧ measure (r k) < measure (r m)) →
  ∃ m, n ≤ m ∧ measure (r m) = 0.
Proof.
  intros Hd. assert (∀ b m, n ≤ m → measure (r m) ≤ b → ∃ k, n ≤ k ∧ measure (r k) = 0) as Hall.
  { intros b. induction b as [|b IH]; intros m Hm Hb; [exists m; split; [done|lia]|].
    destruct (decide (measure (r m) = 0)) as [?|Hnz]; [by exists m|].
    destruct (Hd m Hm) as (k & Hk & Hlt); [lia|]. apply (IH k); lia. }
  by apply (Hall (measure (r n)) n).
Qed.

(** A run that stands still after [n] steps. *)
Lemma finite_run_fair r t n :
  (∀ m, n ≤ m → ¬ enabled t (r m)) → fair t r.
Proof. intros Hn k. exists (k + n). split; [lia|]. right. apply Hn. lia. Qed.
End Runs.

(** ** Runs through a list of states *)
Section Path.
Context {T S : Type} (step : T → S → S → Prop).

Fixpoint path (s : S) (l : list S) : Prop :=
  match l with
  | [] => True
  | s' :: l' => (∃ t, step t s s') ∧ path s' l'
  end.

(** It stays at the last state. *)
Fixpoint through (s : S) (l : list S) (n : nat) : S :=
  match n, l with
  | Datatypes.S n', s' :: l' => through s' l' n'
  | _, _ => s
  end.

Lemma through_run s l : path s l → run step s (through s l).
Proof.
  intros Hp. split; [by destruct l|]. revert s Hp. induction l as [|s' l IH]; intros s Hp n.
  - left. by destruct n.
  - destruct Hp as [Hs Hp]. destruct n as [|n]; [right; by destruct l|]. exact (IH s' Hp n).
Qed.

Lemma through_last s l n : length l ≤ n → through s l n = List.last l s.
Proof.
  revert s n. induction l as [|s' l IH]; intros s n Hn; [by destruct n|].
  destruct n as [|n]; cbn in Hn; [lia|]. cbn [through]. rewrite IH by lia. destruct l; [done|].
  cbn. clear. revert s0. induction l as [|x l IH]; intros s0; [done|]. exact (IH x).
Qed.

Lemma path_reachable s l : path s l → reachable step s (List.last l s).
Proof.
  intros Hp. rewrite <- (through_last s l (length l)) by done. by apply run_reachable with (r := through s l), through_run.
Qed.

Lemma through_fair s l t : ¬ enabled step t (List.last l s) → fair step t (through s l).
Proof. intros Hn. apply (finite_run_fair step _ t (length l)). intros m Hm. by rewrite through_last. Qed.
End Path.
End Runs.
