(* ===== verification/K8s.v ===== *)
(** * The Kubernetes API objects the source reads and writes

    One record per API struct, with the fields the source sets or reads (Go
    field names, behind a short prefix).  A value the source only passes
    through (an affinity, a pod security context, a quota spec) is the JSON
    document the API defines it by.  A nil-able map is a [gomap], a pointer an
    [option], an [int32]/[int64] a [Z], a [[]byte] a [string]. *)

From S2P Require Import Prelude GoStd.

Local Open Scope string_scope.

(** ** JSON documents *)
Inductive json : Set :=
| JNull
| JBool (b : bool)
| JNum (n : Z)
| JStr (s : string)
| JArr (l : list json)
| JObj (fields : list (string * json)).

#[export] Instance json_eq_dec : EqDecision json.
Proof.
  unfold EqDecision, Decision. fix go 1. intros x y.
  destruct x as [|b|n|s|l|l], y as [|c|m|t|k|k]; try (right; discriminate).
  - by left.
  - destruct (decide (b = c)); [left|right]; congruence.
  - destruct (decide (n = m)); [left|right]; congruence.
  - destruct (decide (s = t)); [left|right]; congruence.
  - enough ({l = k} + {l ≠ k}) as [?|?]; [left; congruence|right; congruence|].
    revert k. induction l as [|x l IH]; intros [|y k];
      [by left|by right|by right|].
    destruct (go x y), (IH k); [left|right|right|right]; congruence.
  - enough ({l = k} + {l ≠ k}) as [?|?]; [left; congruence|right; congruence|].
    revert k. induction l as [|[s x] l IH]; intros [|[t y] k];
      [by left|by right|by right|].
    destruct (decide (s = t)), (go x y), (IH k);
      [left|right|right|right|right|right|right|right]; congruence.
Defined.

(** ** Metadata *)
Record NamespacedName : Type := { nn_Namespace : string; nn_Name : string }.
#[export] Instance NamespacedName_eq_dec : EqDecision NamespacedName.
Proof. solve_decision. Defined.
#[export] Instance NamespacedName_countable : Countable NamespacedName.
Proof.
  refine (inj_countable' (λ n, (nn_Namespace n, nn_Name n))
            (λ p, {| nn_Namespace := p.1; nn_Name := p.2 |}) _).
  by intros [].
Defined.

Record OwnerReference : Type := {
  or_APIVersion : string;
  or_Kind : string;
  or_Name : string;
  or_UID : string;
  or_Controller : option bool;
}.
#[export] Instance OwnerReference_eq_dec : EqDecision OwnerReference.
Proof. solve_decision. Defined.

Record ObjectMeta : Type := {
  Name : string;
  Namespace : string;
  Labels : gomap string;
  Annotations : gomap string;
  OwnerReferences : list OwnerReference;
  Finalizers : list string;
  ResourceVersion : string;
  UID : string;
  DeletionTimestamp : option string;
}.
#[export] Instance ObjectMeta_eq_dec : EqDecision ObjectMeta.
Proof. solve_decision. Defined.

(** The [metav1.ObjectMeta{Name: n, Namespace: ns}] literal. *)
Definition meta_of (ns n : string) : ObjectMeta := {|
  Name := n; Namespace := ns; Labels := None; Annotations := None; OwnerReferences := [];
  Finalizers := []; ResourceVersion := ""; UID := ""; DeletionTimestamp := None |}.

Definition set_Labels (l : gomap string) (m : ObjectMeta) : ObjectMeta := {|
  Name := Name m; Namespace := Namespace m; Labels := l; Annotations := Annotations m;
  OwnerReferences := OwnerReferences m; Finalizers := Finalizers m;
  ResourceVersion := ResourceVersion m; UID := UID m;
  DeletionTimestamp := DeletionTimestamp m |}.

Definition set_Annotations (a : gomap string) (m : ObjectMeta) : ObjectMeta := {|
  Name := Name m; Namespace := Namespace m; Labels := Labels m; Annotations := a;
  OwnerReferences := OwnerReferences m; Finalizers := Finalizers m;
  ResourceVersion := ResourceVersion m; UID := UID m;
  DeletionTimestamp := DeletionTimestamp m |}.

Definition set_OwnerReferences (o : list OwnerReference) (m : ObjectMeta) : ObjectMeta := {|
  Name := Name m; Namespace := Namespace m; Labels := Labels m; Annotations := Annotations m;
  OwnerReferences := o; Finalizers := Finalizers m;
  ResourceVersion := ResourceVersion m; UID := UID m;
  DeletionTimestamp := DeletionTimestamp m |}.

Definition set_Finalizers (f : list string) (m : ObjectMeta) : ObjectMeta := {|
  Name := Name m; Namespace := Namespace m; Labels := Labels m; Annotations := Annotations m;
  OwnerReferences := OwnerReferences m; Finalizers := f;
  ResourceVersion := ResourceVersion m; UID := UID m;
  DeletionTimestamp := DeletionTimestamp m |}.

(** [SetResourceVersion("")] and [SetUID("")] *)
Definition clear_identity (m : ObjectMeta) : ObjectMeta := {|
  Name := Name m; Namespace := Namespace m; Labels := Labels m; Annotations := Annotations m;
  OwnerReferences := OwnerReferences m; Finalizers := Finalizers m;
  ResourceVersion := ""; UID := ""; DeletionTimestamp := DeletionTimestamp m |}.

Definition set_NamespacedName (ns n : string) (m : ObjectMeta) : ObjectMeta := {|
  Name := n; Namespace := ns; Labels := Labels m; Annotations := Annotations m;
  OwnerReferences := OwnerReferences m; Finalizers := Finalizers m;
  ResourceVersion := ResourceVersion m; UID := UID m;
  DeletionTimestamp := DeletionTimestamp m |}.

Definition key_of (m : ObjectMeta) : NamespacedName :=
  {| nn_Namespace := Namespace m; nn_Name := Name m |}.

(** [!obj.DeletionTimestamp.IsZero()] *)
Definition is_deleting (m : ObjectMeta) : bool := bool_decide (is_Some (DeletionTimestamp m)).

(** A condition of a status; its transition time is the clock's and is left
    out. *)
Record Condition : Type := {
  cond_Type : string;
  cond_Status : string;
  cond_Reason : string;
  cond_Message : string;
}.
#[export] Instance Condition_eq_dec : EqDecision Condition.
Proof. solve_decision. Defined.

Definition ConditionTrue : string := "True".
Definition ConditionFalse : string := "False".

Record LabelSelectorRequirement : Type := {
  lsr_Key : string;
  lsr_Operator : string;
  lsr_Values : list string;
}.
#[export] Instance LabelSelectorRequirement_eq_dec : EqDecision LabelSelectorRequirement.
Proof. solve_decision. Defined.

Record LabelSelector : Type := {
  ls_MatchLabels : gomap string;
  ls_MatchExpressions : list LabelSelectorRequirement;
}.
#[export] Instance LabelSelector_eq_dec : EqDecision LabelSelector.
Proof. solve_decision. Defined.

(** ** Quantities

    The data of a [resource.Quantity]: an amount in billionths and a format.
    Its methods belong to apimachinery and are the class [QuantityOps] of
    Kube.v. *)
Record Quantity : Type := { q_nano : Z; q_Format : string }.
#[export] Instance Quantity_eq_dec : EqDecision Quantity.
Proof. solve_decision. Defined.

Abbreviation ResourceList := (gomap Quantity).

Record ResourceRequirements : Type := { rr_Limits : ResourceList; rr_Requests : ResourceList }.
#[export] Instance ResourceRequirements_eq_dec : EqDecision ResourceRequirements.
Proof. solve_decision. Defined.

Definition no_resources : ResourceRequirements := {| rr_Limits := None; rr_Requests := None |}.

(** ** Pods *)
Inductive IntOrString : Set :=
| IntVal (n : Z)
| StrVal (s : string).
#[export] Instance IntOrString_eq_dec : EqDecision IntOrString.
Proof. solve_decision. Defined.

Record KeyToPath : Type := { ktp_Key : string; ktp_Path : string }.
#[export] Instance KeyToPath_eq_dec : EqDecision KeyToPath.
Proof. solve_decision. Defined.

Record SecretVolumeSource : Type := {
  svs_SecretName : string;
  svs_Items : list KeyToPath;
  svs_Optional : option bool;
}.
#[export] Instance SecretVolumeSource_eq_dec : EqDecision SecretVolumeSource.
Proof. solve_decision. Defined.

(** What a token is requested with. *)
Record ServiceAccountTokenProjection : Type := {
  satp_Audience : string;
  satp_ExpirationSeconds : option Z;
  satp_Path : string;
}.
#[export] Instance ServiceAccountTokenProjection_eq_dec : EqDecision ServiceAccountTokenProjection.
Proof. solve_decision. Defined.

(** One source of a projected volume: exactly one of its pointers is set. *)
Inductive VolumeProjection : Set :=
| SecretProjection (s : SecretVolumeSource)
| ConfigMapProjection (name : string) (rest : json)
| TokenProjection (t : ServiceAccountTokenProjection)
| OtherProjection (j : json).
#[export] Instance VolumeProjection_eq_dec : EqDecision VolumeProjection.
Proof. solve_decision. Defined.

(** A file of the downward API: the path of a field, if it has one. *)
Record DownwardAPIVolumeFile : Type := {
  daf_Path : string;
  daf_FieldPath : option string;
  daf_rest : json;
}.
#[export] Instance DownwardAPIVolumeFile_eq_dec : EqDecision DownwardAPIVolumeFile.
Proof. solve_decision. Defined.

(** A volume has exactly one source. *)
Inductive VolumeSource : Set :=
| SecretSource (s : SecretVolumeSource)
| EmptyDirSource
| HostPathSource (path : string)
| ProjectedSource (sources : list VolumeProjection)
| ConfigMapSource (name : string) (rest : json)
| ClaimSource (claimName : string) (readOnly : bool)
| DownwardAPISource (items : list DownwardAPIVolumeFile)
| OtherSource (j : json).
#[export] Instance VolumeSource_eq_dec : EqDecision VolumeSource.
Proof. solve_decision. Defined.

Record Volume : Type := { vol_Name : string; vol_Source : VolumeSource }.
#[export] Instance Volume_eq_dec : EqDecision Volume.
Proof. solve_decision. Defined.

(** [vol.EmptyDir != nil] *)
Definition is_EmptyDir (v : Volume) : bool :=
  match vol_Source v with EmptyDirSource => true | _ => false end.

Record VolumeMount : Type := {
  vm_Name : string;
  vm_MountPath : string;
  vm_SubPath : string;
  vm_ReadOnly : bool;
}.
#[export] Instance VolumeMount_eq_dec : EqDecision VolumeMount.
Proof. solve_decision. Defined.

(** The source of a variable: exactly one of its pointers is set. *)
Inductive EnvVarSource : Set :=
| FieldRef (APIVersion FieldPath : string)
| ConfigMapKeyRef (name key : string) (optional : option bool)
| SecretKeyRef (name key : string) (optional : option bool)
| OtherEnvSource (j : json).
#[export] Instance EnvVarSource_eq_dec : EqDecision EnvVarSource.
Proof. solve_decision. Defined.

Record EnvVar : Type := {
  env_Name : string;
  env_Value : string;
  env_ValueFrom : option EnvVarSource;
}.
#[export] Instance EnvVar_eq_dec : EqDecision EnvVar.
Proof. solve_decision. Defined.

(** [ConfigMapRef] and [SecretRef] by the name they point to. *)
Record EnvFromSource : Type := {
  ef_Prefix : string;
  ef_ConfigMapRef : option string;
  ef_SecretRef : option string;
}.
#[export] Instance EnvFromSource_eq_dec : EqDecision EnvFromSource.
Proof. solve_decision. Defined.

Inductive ProbeHandler : Set :=
| TCPSocket (port : IntOrString)
| ExecAction (command : list string)
| HTTPGet (scheme path : string) (port : IntOrString).
#[export] Instance ProbeHandler_eq_dec : EqDecision ProbeHandler.
Proof. solve_decision. Defined.

Record Probe : Type := {
  pr_Handler : ProbeHandler;
  pr_InitialDelaySeconds : Z;
  pr_TimeoutSeconds : Z;
  pr_PeriodSeconds : Z;
  pr_FailureThreshold : Z;
}.
#[export] Instance Probe_eq_dec : EqDecision Probe.
Proof. solve_decision. Defined.

(** [sc_Capabilities] is the pair of the added and of the dropped ones,
    [sc_SeccompProfile] the type of the profile. *)
Record SecurityContext : Type := {
  sc_Privileged : option bool;
  sc_AllowPrivilegeEscalation : option bool;
  sc_Capabilities : option (list string * list string);
  sc_RunAsNonRoot : option bool;
  sc_RunAsUser : option Z;
  sc_RunAsGroup : option Z;
  sc_SeccompProfile : option string;
  sc_rest : json;
}.
#[export] Instance SecurityContext_eq_dec : EqDecision SecurityContext.
Proof. solve_decision. Defined.

Record ContainerPort : Type := {
  cp_Name : string;
  cp_Protocol : string;
  cp_ContainerPort : Z;
}.
#[export] Instance ContainerPort_eq_dec : EqDecision ContainerPort.
Proof. solve_decision. Defined.

Record Container : Type := {
  ct_Name : string;
  ct_Image : string;
  ct_ImagePullPolicy : string;
  ct_Command : list string;
  ct_Args : list string;
  ct_Env : list EnvVar;
  ct_EnvFrom : list EnvFromSource;
  ct_VolumeMounts : list VolumeMount;
  ct_Ports : list ContainerPort;
  ct_ReadinessProbe : option Probe;
  ct_LivenessProbe : option Probe;
  ct_SecurityContext : option SecurityContext;
  ct_Resources : ResourceRequirements;
}.
#[export] Instance Container_eq_dec : EqDecision Container.
Proof. solve_decision. Defined.

Definition set_VolumeMounts (ms : list VolumeMount) (c : Container) : Container := {|
  ct_Name := ct_Name c; ct_Image := ct_Image c; ct_ImagePullPolicy := ct_ImagePullPolicy c;
  ct_Command := ct_Command c; ct_Args := ct_Args c; ct_Env := ct_Env c; ct_EnvFrom := ct_EnvFrom c;
  ct_VolumeMounts := ms; ct_Ports := ct_Ports c; ct_ReadinessProbe := ct_ReadinessProbe c;
  ct_LivenessProbe := ct_LivenessProbe c; ct_SecurityContext := ct_SecurityContext c;
  ct_Resources := ct_Resources c |}.

Record HostAlias : Type := { ha_IP : string; ha_Hostnames : list string }.
#[export] Instance HostAlias_eq_dec : EqDecision HostAlias.
Proof. solve_decision. Defined.

(** The options are pairs of a name and an optional value. *)
Record PodDNSConfig : Type := {
  dns_Nameservers : list string;
  dns_Searches : list string;
  dns_Options : list (string * option string);
}.
#[export] Instance PodDNSConfig_eq_dec : EqDecision PodDNSConfig.
Proof. solve_decision. Defined.

(** The fields of a pod that the controllers never set. *)
Record PodSpecExtra : Type := {
  ps_InitContainers : list Container;
  ps_EphemeralContainers : list Container;
  ps_Hostname : string;
  ps_SchedulerName : string;
  ps_Priority : option Z;
  ps_HostAliases : list HostAlias;
  ps_DNSConfig : option PodDNSConfig;
  ps_Tolerations : list json;
  ps_ActiveDeadlineSeconds : option Z;
  ps_AutomountServiceAccountToken : option bool;
  ps_DeprecatedServiceAccount : string;
}.
#[export] Instance PodSpecExtra_eq_dec : EqDecision PodSpecExtra.
Proof. solve_decision. Defined.

Definition no_extra : PodSpecExtra := {|
  ps_InitContainers := []; ps_EphemeralContainers := []; ps_Hostname := ""; ps_SchedulerName := "";
  ps_Priority := None; ps_HostAliases := []; ps_DNSConfig := None; ps_Tolerations := [];
  ps_ActiveDeadlineSeconds := None; ps_AutomountServiceAccountToken := None;
  ps_DeprecatedServiceAccount := "" |}.

Record PodSpec : Type := {
  ps_Affinity : option json;
  ps_NodeSelector : gomap string;
  ps_PriorityClassName : string;
  ps_HostNetwork : bool;
  ps_DNSPolicy : string;
  ps_ServiceAccountName : string;
  ps_Volumes : list Volume;
  ps_Containers : list Container;
  ps_SecurityContext : option json;
  ps_RuntimeClassName : option string;
  ps_HostUsers : option bool;
  ps_Resources : option ResourceRequirements;
  ps_ImagePullSecrets : list string;
  ps_NodeName : string;
  ps_Extra : PodSpecExtra;
}.
#[export] Instance PodSpec_eq_dec : EqDecision PodSpec.
Proof. solve_decision. Defined.

Definition set_Volumes_Containers (vs : list Volume) (cs : list Container) (p : PodSpec)
  : PodSpec := {|
  ps_Affinity := ps_Affinity p; ps_NodeSelector := ps_NodeSelector p;
  ps_PriorityClassName := ps_PriorityClassName p; ps_HostNetwork := ps_HostNetwork p;
  ps_DNSPolicy := ps_DNSPolicy p; ps_ServiceAccountName := ps_ServiceAccountName p;
  ps_Volumes := vs; ps_Containers := cs; ps_SecurityContext := ps_SecurityContext p;
  ps_RuntimeClassName := ps_RuntimeClassName p; ps_HostUsers := ps_HostUsers p;
  ps_Resources := ps_Resources p; ps_ImagePullSecrets := ps_ImagePullSecrets p;
  ps_NodeName := ps_NodeName p; ps_Extra := ps_Extra p |}.

Record Pod : Type := {
  pod_Meta : ObjectMeta;
  pod_Spec : PodSpec;
  pod_PodIP : string;
  pod_Phase : string;
}.
#[export] Instance Pod_eq_dec : EqDecision Pod.
Proof. solve_decision. Defined.

Record PodTemplateSpec : Type := {
  tpl_Labels : gomap string;
  tpl_Annotations : gomap string;
  tpl_Spec : PodSpec;
}.
#[export] Instance PodTemplateSpec_eq_dec : EqDecision PodTemplateSpec.
Proof. solve_decision. Defined.

Record PersistentVolumeClaimStatus : Type := {
  pvcs_Phase : string;
  pvcs_AccessModes : list string;
}.
#[export] Instance PersistentVolumeClaimStatus_eq_dec : EqDecision PersistentVolumeClaimStatus.
Proof. solve_decision. Defined.

Record PersistentVolumeClaim : Type := {
  pvc_Meta : ObjectMeta;
  pvc_AccessModes : list string;
  pvc_StorageClassName : option string;
  pvc_Requests : ResourceList;
  pvc_VolumeName : string;
  pvc_VolumeMode : option string;
  pvc_Status : PersistentVolumeClaimStatus;
}.
#[export] Instance PersistentVolumeClaim_eq_dec : EqDecision PersistentVolumeClaim.
Proof. solve_decision. Defined.

Definition set_pvc_Status (s : PersistentVolumeClaimStatus) (p : PersistentVolumeClaim)
  : PersistentVolumeClaim := {|
  pvc_Meta := pvc_Meta p; pvc_AccessModes := pvc_AccessModes p;
  pvc_StorageClassName := pvc_StorageClassName p; pvc_Requests := pvc_Requests p;
  pvc_VolumeName := pvc_VolumeName p; pvc_VolumeMode := pvc_VolumeMode p; pvc_Status := s |}.

Record ObjectReference : Type := {
  oref_APIVersion : string;
  oref_Kind : string;
  oref_Namespace : string;
  oref_Name : string;
  oref_UID : string;
  oref_ResourceVersion : string;
}.
#[export] Instance ObjectReference_eq_dec : EqDecision ObjectReference.
Proof. solve_decision. Defined.

(** The source of a volume is a flex volume, given by its driver. *)
Record PersistentVolume : Type := {
  pv_Meta : ObjectMeta;
  pv_FlexDriver : string;
  pv_StorageClassName : string;
  pv_VolumeMode : option string;
  pv_ReclaimPolicy : string;
  pv_AccessModes : list string;
  pv_Capacity : ResourceList;
  pv_ClaimRef : option ObjectReference;
  pv_Phase : string;
}.
#[export] Instance PersistentVolume_eq_dec : EqDecision PersistentVolume.
Proof. solve_decision. Defined.

Definition set_pv_Phase (phase : string) (v : PersistentVolume) : PersistentVolume := {|
  pv_Meta := pv_Meta v; pv_FlexDriver := pv_FlexDriver v; pv_StorageClassName := pv_StorageClassName v;
  pv_VolumeMode := pv_VolumeMode v; pv_ReclaimPolicy := pv_ReclaimPolicy v;
  pv_AccessModes := pv_AccessModes v; pv_Capacity := pv_Capacity v; pv_ClaimRef := pv_ClaimRef v;
  pv_Phase := phase |}.

Record StatefulSet : Type := {
  sts_Meta : ObjectMeta;
  sts_Replicas : option Z;
  sts_ServiceName : string;
  sts_Selector : option LabelSelector;
  sts_PodManagementPolicy : string;
  sts_Template : PodTemplateSpec;
  sts_VolumeClaimTemplates : list PersistentVolumeClaim;
}.
#[export] Instance StatefulSet_eq_dec : EqDecision StatefulSet.
Proof. solve_decision. Defined.

Record Deployment : Type := {
  dep_Meta : ObjectMeta;
  dep_Replicas : option Z;
  dep_Selector : option LabelSelector;
  dep_Template : PodTemplateSpec;
}.
#[export] Instance Deployment_eq_dec : EqDecision Deployment.
Proof. solve_decision. Defined.

Record DaemonSet : Type := {
  ds_Meta : ObjectMeta;
  ds_Selector : option LabelSelector;
  ds_Template : PodTemplateSpec;
}.
#[export] Instance DaemonSet_eq_dec : EqDecision DaemonSet.
Proof. solve_decision. Defined.

(** ** Services, ingresses and endpoints *)
Record ServicePort : Type := {
  sp_Name : string;
  sp_Protocol : string;
  sp_Port : Z;
  sp_TargetPort : IntOrString;
  sp_NodePort : Z;
}.
#[export] Instance ServicePort_eq_dec : EqDecision ServicePort.
Proof. solve_decision. Defined.

Record ServiceSpec : Type := {
  ss_Ports : list ServicePort;
  ss_Selector : gomap string;
  ss_ClusterIP : string;
  ss_Type : string;
  ss_LoadBalancerClass : option string;
  ss_ExternalTrafficPolicy : string;
}.
#[export] Instance ServiceSpec_eq_dec : EqDecision ServiceSpec.
Proof. solve_decision. Defined.

Record LoadBalancerIngress : Type := { lbi_IP : string; lbi_Hostname : string }.
#[export] Instance LoadBalancerIngress_eq_dec : EqDecision LoadBalancerIngress.
Proof. solve_decision. Defined.

Record Service : Type := {
  svc_Meta : ObjectMeta;
  svc_Spec : ServiceSpec;
  svc_Ingress : list LoadBalancerIngress;
}.
#[export] Instance Service_eq_dec : EqDecision Service.
Proof. solve_decision. Defined.

Definition ServiceTypeClusterIP : string := "ClusterIP".
Definition ServiceTypeNodePort : string := "NodePort".
Definition ServiceTypeLoadBalancer : string := "LoadBalancer".
Definition ProtocolTCP : string := "TCP".
Definition ProtocolUDP : string := "UDP".
Definition ClusterIPNone : string := "None".

Record IngressServiceBackend : Type := {
  isb_Name : string;
  isb_PortName : string;
  isb_PortNumber : Z;
}.
#[export] Instance IngressServiceBackend_eq_dec : EqDecision IngressServiceBackend.
Proof. solve_decision. Defined.

Record IngressBackend : Type := {
  ib_Service : option IngressServiceBackend;
  ib_Resource : option json;
}.
#[export] Instance IngressBackend_eq_dec : EqDecision IngressBackend.
Proof. solve_decision. Defined.

Record HTTPIngressPath : Type := {
  hip_Path : string;
  hip_PathType : option string;
  hip_Backend : IngressBackend;
}.
#[export] Instance HTTPIngressPath_eq_dec : EqDecision HTTPIngressPath.
Proof. solve_decision. Defined.

(** [HTTP] is a pointer to the paths. *)
Record IngressRule : Type := { ir_Host : string; ir_HTTP : option (list HTTPIngressPath) }.
#[export] Instance IngressRule_eq_dec : EqDecision IngressRule.
Proof. solve_decision. Defined.

Record IngressTLS : Type := { itls_Hosts : list string; itls_SecretName : string }.
#[export] Instance IngressTLS_eq_dec : EqDecision IngressTLS.
Proof. solve_decision. Defined.

Record IngressSpec : Type := {
  ing_IngressClassName : option string;
  ing_DefaultBackend : option IngressBackend;
  ing_TLS : list IngressTLS;
  ing_Rules : list IngressRule;
}.
#[export] Instance IngressSpec_eq_dec : EqDecision IngressSpec.
Proof. solve_decision. Defined.

(** The load balancer of the status: its entries. *)
Record Ingress : Type := {
  ing_Meta : ObjectMeta;
  ing_Spec : IngressSpec;
  ing_LoadBalancer : list json;
}.
#[export] Instance Ingress_eq_dec : EqDecision Ingress.
Proof. solve_decision. Defined.

Record EndpointPort : Type := { ep_Name : string; ep_Port : Z; ep_Protocol : string }.
#[export] Instance EndpointPort_eq_dec : EqDecision EndpointPort.
Proof. solve_decision. Defined.

Record EndpointSlice : Type := {
  eps_Meta : ObjectMeta;
  eps_AddressType : string;
  eps_Endpoints : list (list string);
  eps_Ports : list EndpointPort;
}.
#[export] Instance EndpointSlice_eq_dec : EqDecision EndpointSlice.
Proof. solve_decision. Defined.

Record EndpointSubset : Type := { sub_Addresses : list string; sub_Ports : list EndpointPort }.
#[export] Instance EndpointSubset_eq_dec : EqDecision EndpointSubset.
Proof. solve_decision. Defined.

Record Endpoints : Type := { epo_Meta : ObjectMeta; epo_Subsets : list EndpointSubset }.
#[export] Instance Endpoints_eq_dec : EqDecision Endpoints.
Proof. solve_decision. Defined.

(** ** Network policies *)
Record IPBlock : Type := { ib_CIDR : string; ib_Except : list string }.
#[export] Instance IPBlock_eq_dec : EqDecision IPBlock.
Proof. solve_decision. Defined.

Record NetworkPolicyPeer : Type := {
  npp_IPBlock : option IPBlock;
  npp_NamespaceSelector : option LabelSelector;
  npp_PodSelector : option LabelSelector;
}.
#[export] Instance NetworkPolicyPeer_eq_dec : EqDecision NetworkPolicyPeer.
Proof. solve_decision. Defined.

Record NetworkPolicySpec : Type := {
  nps_PodSelector : LabelSelector;
  nps_PolicyTypes : list string;
  nps_Ingress : list (list NetworkPolicyPeer);
  nps_Egress : list (list NetworkPolicyPeer);
}.
#[export] Instance NetworkPolicySpec_eq_dec : EqDecision NetworkPolicySpec.
Proof. solve_decision. Defined.

Record NetworkPolicy : Type := { np_Meta : ObjectMeta; np_Spec : NetworkPolicySpec }.
#[export] Instance NetworkPolicy_eq_dec : EqDecision NetworkPolicy.
Proof. solve_decision. Defined.

(** ** The other kinds *)
Record Secret : Type := { sec_Meta : ObjectMeta; sec_Type : string; sec_Data : gomap string }.
#[export] Instance Secret_eq_dec : EqDecision Secret.
Proof. solve_decision. Defined.

Record ConfigMap : Type := {
  cm_Meta : ObjectMeta;
  cm_Data : gomap string;
  cm_BinaryData : gomap string;
}.
#[export] Instance ConfigMap_eq_dec : EqDecision ConfigMap.
Proof. solve_decision. Defined.

Record NamespaceObj : Type := { ns_Meta : ObjectMeta }.
#[export] Instance NamespaceObj_eq_dec : EqDecision NamespaceObj.
Proof. solve_decision. Defined.

Record NodeAddress : Type := { na_Type : string; na_Address : string }.
#[export] Instance NodeAddress_eq_dec : EqDecision NodeAddress.
Proof. solve_decision. Defined.

(** The conditions of a node, the port of its kubelet and its version; the rest
    of its specification and of its status as it is. *)
Record NodeCondition : Type := {
  nc_Type : string; nc_Status : string; nc_LastHeartbeatTime : Z; nc_LastTransitionTime : Z;
  nc_Reason : string; nc_Message : string;
}.
#[export] Instance NodeCondition_eq_dec : EqDecision NodeCondition.
Proof. solve_decision. Defined.

Record NodeExtra : Type := {
  ne_Conditions : list NodeCondition; ne_KubeletPort : Z; ne_KubeletVersion : string; ne_rest : json;
}.
#[export] Instance NodeExtra_eq_dec : EqDecision NodeExtra.
Proof. solve_decision. Defined.

Definition no_node_extra : NodeExtra := {|
  ne_Conditions := []; ne_KubeletPort := 0; ne_KubeletVersion := ""; ne_rest := JNull |}.

Record Node : Type := {
  node_Meta : ObjectMeta;
  node_PodCIDR : string;
  node_PodCIDRs : list string;
  node_Addresses : list NodeAddress;
  node_Capacity : ResourceList;
  node_Allocatable : ResourceList;
  node_Extra : NodeExtra;
}.
#[export] Instance Node_eq_dec : EqDecision Node.
Proof. solve_decision. Defined.

Record ResourceQuota : Type := {
  rq_Meta : ObjectMeta;
  rq_Spec : json;
  rq_Hard : ResourceList;
}.
#[export] Instance ResourceQuota_eq_dec : EqDecision ResourceQuota.
Proof. solve_decision. Defined.

Record LimitRange : Type := { lr_Meta : ObjectMeta; lr_Spec : json }.
#[export] Instance LimitRange_eq_dec : EqDecision LimitRange.
Proof. solve_decision. Defined.

Record Subject : Type := { sub_Kind : string; sub_Name : string; sub_Namespace : string }.
#[export] Instance Subject_eq_dec : EqDecision Subject.
Proof. solve_decision. Defined.

Record ClusterRoleBinding : Type := { crb_Meta : ObjectMeta; crb_Subjects : list Subject }.
#[export] Instance ClusterRoleBinding_eq_dec : EqDecision ClusterRoleBinding.
Proof. solve_decision. Defined.

Record PolicyRule : Type := {
  rule_APIGroups : list string;
  rule_Resources : list string;
  rule_Verbs : list string;
}.
#[export] Instance PolicyRule_eq_dec : EqDecision PolicyRule.
Proof. solve_decision. Defined.

Record Role : Type := { role_Meta : ObjectMeta; role_Rules : list PolicyRule }.
#[export] Instance Role_eq_dec : EqDecision Role.
Proof. solve_decision. Defined.

Record RoleRef : Type := { rref_APIGroup : string; rref_Kind : string; rref_Name : string }.
#[export] Instance RoleRef_eq_dec : EqDecision RoleRef.
Proof. solve_decision. Defined.

Record RoleBinding : Type := {
  rb_Meta : ObjectMeta;
  rb_RoleRef : RoleRef;
  rb_Subjects : list Subject;
}.
#[export] Instance RoleBinding_eq_dec : EqDecision RoleBinding.
Proof. solve_decision. Defined.

Record ServiceAccount : Type := { sa_Meta : ObjectMeta }.
#[export] Instance ServiceAccount_eq_dec : EqDecision ServiceAccount.
Proof. solve_decision. Defined.

Record Lease : Type := { lease_Meta : ObjectMeta }.
#[export] Instance Lease_eq_dec : EqDecision Lease.
Proof. solve_decision. Defined.

Record ServiceCIDRObj : Type := { scidr_Meta : ObjectMeta; scidr_CIDRs : list string }.
#[export] Instance ServiceCIDRObj_eq_dec : EqDecision ServiceCIDRObj.
Proof. solve_decision. Defined.

Record StorageClass : Type := {
  stc_Meta : ObjectMeta;
  stc_Provisioner : string;
  stc_Parameters : gomap string;
  stc_ReclaimPolicy : option string;
  stc_MountOptions : list string;
  stc_AllowVolumeExpansion : option bool;
  stc_VolumeBindingMode : option string;
  stc_AllowedTopologies : json;
}.
#[export] Instance StorageClass_eq_dec : EqDecision StorageClass.
Proof. solve_decision. Defined.

Record PriorityClassObj : Type := {
  pc_Meta : ObjectMeta;
  pc_Value : Z;
  pc_GlobalDefault : bool;
  pc_Description : string;
  pc_PreemptionPolicy : option string;
}.
#[export] Instance PriorityClassObj_eq_dec : EqDecision PriorityClassObj.
Proof. solve_decision. Defined.

(** An event ([corev1.Event]). *)
Record EventObj : Type := {
  ev_Meta : ObjectMeta;
  ev_InvolvedObject : ObjectReference;
  ev_Type : string;
  ev_Reason : string;
  ev_Message : string;
}.
#[export] Instance EventObj_eq_dec : EqDecision EventObj.
Proof. solve_decision. Defined.
