(* ===== verification/Types.v ===== *)
(** * The k3k.io/v1beta1 API (pkg/apis/k3k.io/v1beta1/types.go)

    The custom resources of k3k as records, field by field.  The string-typed
    enumerations ([ClusterMode], [ClusterPhase], ...) stay strings, as in Go:
    the CRD validation, not the type, restricts their values. *)

From S2P Require Import Prelude GoStd K8s.

Local Open Scope string_scope.

(** ** Enumerations *)
Definition ClusterMode : Type := string.
Definition SharedClusterMode : ClusterMode := "shared".
Definition VirtualClusterMode : ClusterMode := "virtual".
Definition HCPClusterMode : ClusterMode := "hcp".

Definition PersistenceMode : Type := string.
Definition EphemeralPersistenceMode : PersistenceMode := "ephemeral".
Definition DynamicPersistenceMode : PersistenceMode := "dynamic".

Definition ClusterPhase : Type := string.
Definition ClusterPending : ClusterPhase := "Pending".
Definition ClusterProvisioning : ClusterPhase := "Provisioning".
Definition ClusterReady : ClusterPhase := "Ready".
Definition ClusterFailed : ClusterPhase := "Failed".
Definition ClusterTerminating : ClusterPhase := "Terminating".
Definition ClusterUnknown : ClusterPhase := "Unknown".

Definition PodSecurityAdmissionLevel : Type := string.
Definition PrivilegedPodSecurityAdmissionLevel : PodSecurityAdmissionLevel := "privileged".
Definition BaselinePodSecurityAdmissionLevel : PodSecurityAdmissionLevel := "baseline".
Definition RestrictedPodSecurityAdmissionLevel : PodSecurityAdmissionLevel := "restricted".

(** [SchemeGroupVersion.String()] *)
Definition SchemeGroupVersion : string := "k3k.io/v1beta1".

(** ** Configuration records *)
Record SecretMount : Type := {
  smt_SecretVolumeSource : SecretVolumeSource;
  smt_Name : string;
  smt_MountPath : string;
  smt_SubPath : string;
  smt_Role : string;
}.
#[export] Instance SecretMount_eq_dec : EqDecision SecretMount.
Proof. solve_decision. Defined.

(** The sync configurations of secrets, services, config maps, volume claims,
    priority classes and storage classes have the same two fields; the one of
    ingresses has a third. *)
Record ResourceSyncConfig : Type := { sync_Enabled : bool; sync_Selector : gomap string }.
#[export] Instance ResourceSyncConfig_eq_dec : EqDecision ResourceSyncConfig.
Proof. solve_decision. Defined.

Record IngressSyncConfig : Type := {
  isync_Enabled : bool;
  isync_Selector : gomap string;
  isync_DisableTLSSecretTranslation : bool;
}.
#[export] Instance IngressSyncConfig_eq_dec : EqDecision IngressSyncConfig.
Proof. solve_decision. Defined.

Record SyncConfig : Type := {
  sync_Services : ResourceSyncConfig;
  sync_ConfigMaps : ResourceSyncConfig;
  sync_Secrets : ResourceSyncConfig;
  sync_Ingresses : IngressSyncConfig;
  sync_PersistentVolumeClaims : ResourceSyncConfig;
  sync_PriorityClasses : ResourceSyncConfig;
  sync_StorageClasses : ResourceSyncConfig;
}.
#[export] Instance SyncConfig_eq_dec : EqDecision SyncConfig.
Proof. solve_decision. Defined.

Record Addon : Type := { addon_SecretNamespace : string; addon_SecretRef : string }.
#[export] Instance Addon_eq_dec : EqDecision Addon.
Proof. solve_decision. Defined.

Record PersistenceConfig : Type := {
  pers_Type : PersistenceMode;
  pers_StorageClassName : option string;
  pers_StorageRequestSize : option Quantity;
}.
#[export] Instance PersistenceConfig_eq_dec : EqDecision PersistenceConfig.
Proof. unfold EqDecision, PersistenceMode. solve_decision. Defined.

Record IngressConfig : Type := {
  ic_Annotations : gomap string;
  ic_IngressClassName : string;
}.
#[export] Instance IngressConfig_eq_dec : EqDecision IngressConfig.
Proof. solve_decision. Defined.

Record LoadBalancerConfig : Type := {
  lb_ServerPort : option Z;
  lb_EtcdPort : option Z;
  lb_LoadBalancerClass : option string;
}.
#[export] Instance LoadBalancerConfig_eq_dec : EqDecision LoadBalancerConfig.
Proof. solve_decision. Defined.

Record NodePortConfig : Type := {
  npc_ServerPort : option Z;
  npc_EtcdPort : option Z;
}.
#[export] Instance NodePortConfig_eq_dec : EqDecision NodePortConfig.
Proof. solve_decision. Defined.

Record ExposeConfig : Type := {
  exp_Ingress : option IngressConfig;
  exp_LoadBalancer : option LoadBalancerConfig;
  exp_NodePort : option NodePortConfig;
  exp_Annotations : gomap string;
}.
#[export] Instance ExposeConfig_eq_dec : EqDecision ExposeConfig.
Proof. solve_decision. Defined.

Record CredentialSource : Type := { cs_SecretName : string }.
#[export] Instance CredentialSource_eq_dec : EqDecision CredentialSource.
Proof. solve_decision. Defined.

Record CredentialSources : Type := {
  ServerCA : CredentialSource;
  ClientCA : CredentialSource;
  RequestHeaderCA : CredentialSource;
  EtcdServerCA : CredentialSource;
  EtcdPeerCA : CredentialSource;
  ServiceAccountToken : CredentialSource;
}.
#[export] Instance CredentialSources_eq_dec : EqDecision CredentialSources.
Proof. solve_decision. Defined.

Record CustomCAs : Type := { ca_Enabled : bool; ca_Sources : CredentialSources }.
#[export] Instance CustomCAs_eq_dec : EqDecision CustomCAs.
Proof. solve_decision. Defined.

(** ** Cluster *)
Record ClusterSpec : Type := {
  Version : string;
  Mode : ClusterMode;
  Servers : option Z;
  Agents : option Z;
  ClusterCIDR : string;
  ServiceCIDR : string;
  ClusterDNS : string;
  Persistence : PersistenceConfig;
  Expose : option ExposeConfig;
  NodeSelector : gomap string;
  PriorityClass : string;
  TokenSecretRef : option NamespacedName;
  TLSSANs : list string;
  ServerArgs : list string;
  AgentArgs : list string;
  ServerEnvs : list EnvVar;
  AgentEnvs : list EnvVar;
  Addons : list Addon;
  ServerLimit : ResourceList;
  WorkerLimit : ResourceList;
  ServerResources : option ResourceRequirements;
  WorkerResources : option ResourceRequirements;
  ServerAffinity : option json;
  AgentAffinity : option json;
  MirrorHostNodes : bool;
  CustomCAs_ : option CustomCAs;
  Sync : option SyncConfig;
  SecretMounts : list SecretMount;
  PodSecurityContext : option json;
  SecurityContext_ : option SecurityContext;
  RuntimeClassName : option string;
  HostUsers : option bool;
  AllowedHostSchedulers : list string;
}.
#[export] Instance ClusterSpec_eq_dec : EqDecision ClusterSpec.
Proof. unfold EqDecision, ClusterMode. solve_decision. Defined.

Record AppliedPolicy : Type := {
  ap_Name : string;
  ap_PriorityClass : option string;
  ap_NodeSelector : gomap string;
  ap_ServerAffinity : option json;
  ap_AgentAffinity : option json;
  ap_Sync : option SyncConfig;
  ap_RuntimeClassName : option string;
  ap_PodSecurityContext : option json;
  ap_SecurityContext : option SecurityContext;
  ap_HostUsers : option bool;
  ap_AllowedHostSchedulers : list string;
}.
#[export] Instance AppliedPolicy_eq_dec : EqDecision AppliedPolicy.
Proof. solve_decision. Defined.

Record ClusterStatus : Type := {
  st_HostVersion : string;
  st_ClusterCIDR : string;
  st_ServiceCIDR : string;
  st_ClusterDNS : string;
  st_TLSSANs : list string;
  st_PolicyName : string;
  st_Policy : option AppliedPolicy;
  st_KubeletPort : Z;
  st_Conditions : list Condition;
  st_Phase : ClusterPhase;
}.
#[export] Instance ClusterStatus_eq_dec : EqDecision ClusterStatus.
Proof. unfold EqDecision, ClusterPhase. solve_decision. Defined.

Record Cluster : Type := {
  cl_Meta : ObjectMeta;
  cl_Spec : ClusterSpec;
  cl_Status : ClusterStatus;
}.
#[export] Instance Cluster_eq_dec : EqDecision Cluster.
Proof. solve_decision. Defined.

(** Field updates of a cluster, as the assignments of the source make them. *)
Definition set_Meta (m : ObjectMeta) (c : Cluster) : Cluster :=
  {| cl_Meta := m; cl_Spec := cl_Spec c; cl_Status := cl_Status c |}.
Definition set_Status (s : ClusterStatus) (c : Cluster) : Cluster :=
  {| cl_Meta := cl_Meta c; cl_Spec := cl_Spec c; cl_Status := s |}.

Definition st_set_HostVersion (v : string) (s : ClusterStatus) : ClusterStatus := {|
  st_HostVersion := v; st_ClusterCIDR := st_ClusterCIDR s; st_ServiceCIDR := st_ServiceCIDR s;
  st_ClusterDNS := st_ClusterDNS s; st_TLSSANs := st_TLSSANs s; st_PolicyName := st_PolicyName s;
  st_Policy := st_Policy s; st_KubeletPort := st_KubeletPort s;
  st_Conditions := st_Conditions s; st_Phase := st_Phase s |}.
Definition st_set_CIDRs (cluster service : string) (s : ClusterStatus) : ClusterStatus := {|
  st_HostVersion := st_HostVersion s; st_ClusterCIDR := cluster; st_ServiceCIDR := service;
  st_ClusterDNS := st_ClusterDNS s; st_TLSSANs := st_TLSSANs s; st_PolicyName := st_PolicyName s;
  st_Policy := st_Policy s; st_KubeletPort := st_KubeletPort s;
  st_Conditions := st_Conditions s; st_Phase := st_Phase s |}.
Definition st_set_TLSSANs (l : list string) (s : ClusterStatus) : ClusterStatus := {|
  st_HostVersion := st_HostVersion s; st_ClusterCIDR := st_ClusterCIDR s;
  st_ServiceCIDR := st_ServiceCIDR s; st_ClusterDNS := st_ClusterDNS s; st_TLSSANs := l;
  st_PolicyName := st_PolicyName s; st_Policy := st_Policy s; st_KubeletPort := st_KubeletPort s;
  st_Conditions := st_Conditions s; st_Phase := st_Phase s |}.
Definition st_set_PolicyName (n : string) (s : ClusterStatus) : ClusterStatus := {|
  st_HostVersion := st_HostVersion s; st_ClusterCIDR := st_ClusterCIDR s;
  st_ServiceCIDR := st_ServiceCIDR s; st_ClusterDNS := st_ClusterDNS s;
  st_TLSSANs := st_TLSSANs s; st_PolicyName := n; st_Policy := st_Policy s;
  st_KubeletPort := st_KubeletPort s;
  st_Conditions := st_Conditions s; st_Phase := st_Phase s |}.
Definition st_set_Policy (p : option AppliedPolicy) (s : ClusterStatus) : ClusterStatus := {|
  st_HostVersion := st_HostVersion s; st_ClusterCIDR := st_ClusterCIDR s;
  st_ServiceCIDR := st_ServiceCIDR s; st_ClusterDNS := st_ClusterDNS s;
  st_TLSSANs := st_TLSSANs s; st_PolicyName := st_PolicyName s; st_Policy := p;
  st_KubeletPort := st_KubeletPort s;
  st_Conditions := st_Conditions s; st_Phase := st_Phase s |}.
Definition st_set_KubeletPort (p : Z) (s : ClusterStatus) : ClusterStatus := {|
  st_HostVersion := st_HostVersion s; st_ClusterCIDR := st_ClusterCIDR s;
  st_ServiceCIDR := st_ServiceCIDR s; st_ClusterDNS := st_ClusterDNS s;
  st_TLSSANs := st_TLSSANs s; st_PolicyName := st_PolicyName s; st_Policy := st_Policy s;
  st_KubeletPort := p; st_Conditions := st_Conditions s; st_Phase := st_Phase s |}.
Definition st_set_Phase (p : ClusterPhase) (cs : list Condition) (s : ClusterStatus)
  : ClusterStatus := {|
  st_HostVersion := st_HostVersion s; st_ClusterCIDR := st_ClusterCIDR s;
  st_ServiceCIDR := st_ServiceCIDR s; st_ClusterDNS := st_ClusterDNS s;
  st_TLSSANs := st_TLSSANs s; st_PolicyName := st_PolicyName s; st_Policy := st_Policy s;
  st_KubeletPort := st_KubeletPort s; st_Conditions := cs; st_Phase := p |}.

(** ** VirtualClusterPolicy *)
Record VirtualClusterPolicySpec : Type := {
  Quota : option json;
  Limit : option json;
  DefaultNodeSelector : gomap string;
  DefaultPriorityClass : string;
  DefaultServerAffinity : option json;
  DefaultAgentAffinity : option json;
  AllowedMode : ClusterMode;
  DisableNetworkPolicy : bool;
  PodSecurityAdmissionLevel_ : option PodSecurityAdmissionLevel;
  vcp_Sync : option SyncConfig;
  vcp_RuntimeClassName : option string;
  vcp_SecurityContext : option SecurityContext;
  vcp_HostUsers : option bool;
  vcp_AllowedHostSchedulers : list string;
}.
#[export] Instance VirtualClusterPolicySpec_eq_dec : EqDecision VirtualClusterPolicySpec.
Proof. unfold EqDecision, ClusterMode, PodSecurityAdmissionLevel. solve_decision. Defined.

Record VirtualClusterPolicyStatus : Type := {
  vps_ObservedGeneration : Z;
  vps_LastUpdate : string;
  vps_Summary : string;
  vps_Conditions : list Condition;
}.
#[export] Instance VirtualClusterPolicyStatus_eq_dec : EqDecision VirtualClusterPolicyStatus.
Proof. solve_decision. Defined.

Record VirtualClusterPolicy : Type := {
  vcp_Meta : ObjectMeta;
  vcp_Spec : VirtualClusterPolicySpec;
  vcp_Status : VirtualClusterPolicyStatus;
}.
#[export] Instance VirtualClusterPolicy_eq_dec : EqDecision VirtualClusterPolicy.
Proof. solve_decision. Defined.

(** ** EtcdSnapshot *)
Record EtcdSnapshotSpec : Type := {
  snap_ClusterRef : string;
  snap_S3ConfigSecretRef : option NamespacedName;
  snap_Compress : bool;
}.
#[export] Instance EtcdSnapshotSpec_eq_dec : EqDecision EtcdSnapshotSpec.
Proof. solve_decision. Defined.

Record EtcdSnapshotStatus : Type := {
  snap_Filename : string;
  snap_Conditions : list Condition;
}.
#[export] Instance EtcdSnapshotStatus_eq_dec : EqDecision EtcdSnapshotStatus.
Proof. solve_decision. Defined.

Record EtcdSnapshot : Type := {
  snap_Meta : ObjectMeta;
  snap_Spec : EtcdSnapshotSpec;
  snap_Status : EtcdSnapshotStatus;
}.
#[export] Instance EtcdSnapshot_eq_dec : EqDecision EtcdSnapshot.
Proof. solve_decision. Defined.

(** ** Zero values ([var cluster v1beta1.Cluster]) *)
Definition zero_ClusterSpec : ClusterSpec := {|
  Version := ""; Mode := ""; Servers := None; Agents := None; ClusterCIDR := "";
  ServiceCIDR := ""; ClusterDNS := "";
  Persistence := {| pers_Type := ""; pers_StorageClassName := None;
                    pers_StorageRequestSize := None |};
  Expose := None; NodeSelector := None; PriorityClass := ""; TokenSecretRef := None;
  TLSSANs := []; ServerArgs := []; AgentArgs := []; ServerEnvs := []; AgentEnvs := [];
  Addons := []; ServerLimit := None; WorkerLimit := None; ServerResources := None;
  WorkerResources := None; ServerAffinity := None; AgentAffinity := None;
  MirrorHostNodes := false; CustomCAs_ := None; Sync := None; SecretMounts := [];
  PodSecurityContext := None; SecurityContext_ := None; RuntimeClassName := None;
  HostUsers := None; AllowedHostSchedulers := [] |}.

Definition zero_ClusterStatus : ClusterStatus := {|
  st_HostVersion := ""; st_ClusterCIDR := ""; st_ServiceCIDR := ""; st_ClusterDNS := "";
  st_TLSSANs := []; st_PolicyName := ""; st_Policy := None; st_KubeletPort := 0%Z;
  st_Conditions := []; st_Phase := "" |}.

Definition zero_Cluster : Cluster :=
  {| cl_Meta := meta_of "" ""; cl_Spec := zero_ClusterSpec; cl_Status := zero_ClusterStatus |}.

(** The zero cluster with the given name, for concrete runs. *)
Definition named_cluster (ns n : string) (spec : ClusterSpec) : Cluster :=
  {| cl_Meta := meta_of ns n; cl_Spec := spec; cl_Status := zero_ClusterStatus |}.

Definition spec_set_Expose (e : option ExposeConfig) (sans : list string) (s : ClusterSpec)
  : ClusterSpec := {|
  Version := Version s; Mode := Mode s; Servers := Servers s; Agents := Agents s;
  ClusterCIDR := ClusterCIDR s; ServiceCIDR := ServiceCIDR s; ClusterDNS := ClusterDNS s;
  Persistence := Persistence s; Expose := e; NodeSelector := NodeSelector s;
  PriorityClass := PriorityClass s; TokenSecretRef := TokenSecretRef s; TLSSANs := sans;
  ServerArgs := ServerArgs s; AgentArgs := AgentArgs s; ServerEnvs := ServerEnvs s;
  AgentEnvs := AgentEnvs s; Addons := Addons s; ServerLimit := ServerLimit s;
  WorkerLimit := WorkerLimit s; ServerResources := ServerResources s;
  WorkerResources := WorkerResources s; ServerAffinity := ServerAffinity s;
  AgentAffinity := AgentAffinity s; MirrorHostNodes := MirrorHostNodes s;
  CustomCAs_ := CustomCAs_ s; Sync := Sync s; SecretMounts := SecretMounts s;
  PodSecurityContext := PodSecurityContext s; SecurityContext_ := SecurityContext_ s;
  RuntimeClassName := RuntimeClassName s; HostUsers := HostUsers s;
  AllowedHostSchedulers := AllowedHostSchedulers s |}.

(** The override that every pod spec makes: the value of the applied policy,
    when the cluster has a policy that sets it, and the one of the spec
    otherwise. *)
Definition policy_or {A} (cluster : Cluster) (of_policy : AppliedPolicy → option A)
    (of_spec : option A) : option A :=
  match st_Policy (cl_Status cluster) with
  | Some p => match of_policy p with Some x => Some x | None => of_spec end
  | None => of_spec
  end.

(** The same for the node selector, where an empty map does not count. *)
Definition policy_selector (cluster : Cluster) : gomap string :=
  match st_Policy (cl_Status cluster) with
  | Some p => if (0 <? map_len (ap_NodeSelector p))%nat then ap_NodeSelector p
              else NodeSelector (cl_Spec cluster)
  | None => NodeSelector (cl_Spec cluster)
  end.

(** What [controllerutil] takes of an owning cluster. *)
Definition cluster_owner (cluster : Cluster) : OwnerReference := {|
  or_APIVersion := SchemeGroupVersion; or_Kind := "Cluster"; or_Name := Name (cl_Meta cluster);
  or_UID := UID (cl_Meta cluster); or_Controller := None |}.
