(* ===== verification/Kube.v ===== *)
(** * The Kubernetes API as the source uses it

    The API server, controller-runtime's client and the helpers of
    apimachinery and controllerutil are third-party code: they are the
    parameters [Client], [QuantityOps] and [KubeUtil] of the model, and their
    documented behaviour is stated by the classes [ClientLaws],
    [QuantityLaws] and [KubeUtilLaws].  [mem_client], [std_quantity] and
    [std_util] are concrete instances: they show that the laws can hold and
    evaluate the witnesses. *)

From S2P Require Import Prelude GoStd K8s Types.

Local Open Scope string_scope.

(** ** Objects of every kind *)
Inductive Obj : Type :=
| OCluster (x : Cluster)
| OVirtualClusterPolicy (x : VirtualClusterPolicy)
| OEtcdSnapshot (x : EtcdSnapshot)
| ONamespace (x : NamespaceObj)
| OSecret (x : Secret)
| OConfigMap (x : ConfigMap)
| OService (x : Service)
| OIngress (x : Ingress)
| OStatefulSet (x : StatefulSet)
| ODeployment (x : Deployment)
| ODaemonSet (x : DaemonSet)
| OPod (x : Pod)
| OPersistentVolumeClaim (x : PersistentVolumeClaim)
| ONode (x : Node)
| ONetworkPolicy (x : NetworkPolicy)
| OResourceQuota (x : ResourceQuota)
| OLimitRange (x : LimitRange)
| OClusterRoleBinding (x : ClusterRoleBinding)
| ORole (x : Role)
| ORoleBinding (x : RoleBinding)
| OServiceAccount (x : ServiceAccount)
| OLease (x : Lease)
| OServiceCIDR (x : ServiceCIDRObj)
| OStorageClass (x : StorageClass)
| OEndpointSlice (x : EndpointSlice)
| OEndpoints (x : Endpoints)
| OPersistentVolume (x : PersistentVolume)
| OPriorityClass (x : PriorityClassObj)
| OEvent (x : EventObj).
#[export] Instance Obj_eq_dec : EqDecision Obj.
Proof. solve_decision. Defined.

Definition obj_kind (o : Obj) : string :=
  match o with
  | OCluster _ => "Cluster"
  | OVirtualClusterPolicy _ => "VirtualClusterPolicy"
  | OEtcdSnapshot _ => "EtcdSnapshot"
  | ONamespace _ => "Namespace"
  | OSecret _ => "Secret"
  | OConfigMap _ => "ConfigMap"
  | OService _ => "Service"
  | OIngress _ => "Ingress"
  | OStatefulSet _ => "StatefulSet"
  | ODeployment _ => "Deployment"
  | ODaemonSet _ => "DaemonSet"
  | OPod _ => "Pod"
  | OPersistentVolumeClaim _ => "PersistentVolumeClaim"
  | ONode _ => "Node"
  | ONetworkPolicy _ => "NetworkPolicy"
  | OResourceQuota _ => "ResourceQuota"
  | OLimitRange _ => "LimitRange"
  | OClusterRoleBinding _ => "ClusterRoleBinding"
  | ORole _ => "Role"
  | ORoleBinding _ => "RoleBinding"
  | OServiceAccount _ => "ServiceAccount"
  | OLease _ => "Lease"
  | OServiceCIDR _ => "ServiceCIDR"
  | OStorageClass _ => "StorageClass"
  | OEndpointSlice _ => "EndpointSlice"
  | OEndpoints _ => "Endpoints"
  | OPersistentVolume _ => "PersistentVolume"
  | OPriorityClass _ => "PriorityClass"
  | OEvent _ => "Event"
  end.

Definition obj_meta (o : Obj) : ObjectMeta :=
  match o with
  | OCluster x => cl_Meta x
  | OVirtualClusterPolicy x => vcp_Meta x
  | OEtcdSnapshot x => snap_Meta x
  | ONamespace x => ns_Meta x
  | OSecret x => sec_Meta x
  | OConfigMap x => cm_Meta x
  | OService x => svc_Meta x
  | OIngress x => ing_Meta x
  | OStatefulSet x => sts_Meta x
  | ODeployment x => dep_Meta x
  | ODaemonSet x => ds_Meta x
  | OPod x => pod_Meta x
  | OPersistentVolumeClaim x => pvc_Meta x
  | ONode x => node_Meta x
  | ONetworkPolicy x => np_Meta x
  | OResourceQuota x => rq_Meta x
  | OLimitRange x => lr_Meta x
  | OClusterRoleBinding x => crb_Meta x
  | ORole x => role_Meta x
  | ORoleBinding x => rb_Meta x
  | OServiceAccount x => sa_Meta x
  | OLease x => lease_Meta x
  | OServiceCIDR x => scidr_Meta x
  | OStorageClass x => stc_Meta x
  | OEndpointSlice x => eps_Meta x
  | OEndpoints x => epo_Meta x
  | OPersistentVolume x => pv_Meta x
  | OPriorityClass x => pc_Meta x
  | OEvent x => ev_Meta x
  end.

Definition ObjKey : Type := string * NamespacedName.
Definition obj_key (o : Obj) : ObjKey := (obj_kind o, key_of (obj_meta o)).

(** The Go types that are API objects. *)
Class Resource (T : Type) := {
  kind : string;
  inj : T → Obj;
  prj : Obj → option T;
  meta : T → ObjectMeta;
  prj_inj x : prj (inj x) = Some x;
  inj_prj o x : prj o = Some x → o = inj x;
  inj_kind x : obj_kind (inj x) = kind;
  inj_meta x : obj_meta (inj x) = meta x;
  prj_kind o : obj_kind o = kind → is_Some (prj o);
}.
#[export] Hint Mode Resource ! : typeclass_instances.
Arguments kind T {_}.

Ltac solve_resource :=
  first [ done
        | (intros [] ?; cbn; intros; by simplify_eq)
        | (intros []; cbn; intros; first [done | by eexists]) ].

#[export] Program Instance Cluster_resource : Resource Cluster := {|
  kind := "Cluster"; inj := OCluster; meta := cl_Meta;
  prj := λ o, match o with OCluster x => Some x | _ => None end |}.
Solve All Obligations with solve_resource.
#[export] Program Instance VirtualClusterPolicy_resource : Resource VirtualClusterPolicy := {|
  kind := "VirtualClusterPolicy"; inj := OVirtualClusterPolicy; meta := vcp_Meta;
  prj := λ o, match o with OVirtualClusterPolicy x => Some x | _ => None end |}.
Solve All Obligations with solve_resource.
#[export] Program Instance EtcdSnapshot_resource : Resource EtcdSnapshot := {|
  kind := "EtcdSnapshot"; inj := OEtcdSnapshot; meta := snap_Meta;
  prj := λ o, match o with OEtcdSnapshot x => Some x | _ => None end |}.
Solve All Obligations with solve_resource.
#[export] Program Instance Namespace_resource : Resource NamespaceObj := {|
  kind := "Namespace"; inj := ONamespace; meta := ns_Meta;
  prj := λ o, match o with ONamespace x => Some x | _ => None end |}.
Solve All Obligations with solve_resource.
#[export] Program Instance Secret_resource : Resource Secret := {|
  kind := "Secret"; inj := OSecret; meta := sec_Meta;
  prj := λ o, match o with OSecret x => Some x | _ => None end |}.
Solve All Obligations with solve_resource.
#[export] Program Instance ConfigMap_resource : Resource ConfigMap := {|
  kind := "ConfigMap"; inj := OConfigMap; meta := cm_Meta;
  prj := λ o, match o with OConfigMap x => Some x | _ => None end |}.
Solve All Obligations with solve_resource.
#[export] Program Instance Service_resource : Resource Service := {|
  kind := "Service"; inj := OService; meta := svc_Meta;
  prj := λ o, match o with OService x => Some x | _ => None end |}.
Solve All Obligations with solve_resource.
#[export] Program Instance Ingress_resource : Resource Ingress := {|
  kind := "Ingress"; inj := OIngress; meta := ing_Meta;
  prj := λ o, match o with OIngress x => Some x | _ => None end |}.
Solve All Obligations with solve_resource.
#[export] Program Instance StatefulSet_resource : Resource StatefulSet := {|
  kind := "StatefulSet"; inj := OStatefulSet; meta := sts_Meta;
  prj := λ o, match o with OStatefulSet x => Some x | _ => None end |}.
Solve All Obligations with solve_resource.
#[export] Program Instance Deployment_resource : Resource Deployment := {|
  kind := "Deployment"; inj := ODeployment; meta := dep_Meta;
  prj := λ o, match o with ODeployment x => Some x | _ => None end |}.
Solve All Obligations with solve_resource.
#[export] Program Instance DaemonSet_resource : Resource DaemonSet := {|
  kind := "DaemonSet"; inj := ODaemonSet; meta := ds_Meta;
  prj := λ o, match o with ODaemonSet x => Some x | _ => None end |}.
Solve All Obligations with solve_resource.
#[export] Program Instance Pod_resource : Resource Pod := {|
  kind := "Pod"; inj := OPod; meta := pod_Meta;
  prj := λ o, match o with OPod x => Some x | _ => None end |}.
Solve All Obligations with solve_resource.
#[export] Program Instance PersistentVolumeClaim_resource : Resource PersistentVolumeClaim := {|
  kind := "PersistentVolumeClaim"; inj := OPersistentVolumeClaim; meta := pvc_Meta;
  prj := λ o, match o with OPersistentVolumeClaim x => Some x | _ => None end |}.
Solve All Obligations with solve_resource.
#[export] Program Instance Node_resource : Resource Node := {|
  kind := "Node"; inj := ONode; meta := node_Meta;
  prj := λ o, match o with ONode x => Some x | _ => None end |}.
Solve All Obligations with solve_resource.
#[export] Program Instance NetworkPolicy_resource : Resource NetworkPolicy := {|
  kind := "NetworkPolicy"; inj := ONetworkPolicy; meta := np_Meta;
  prj := λ o, match o with ONetworkPolicy x => Some x | _ => None end |}.
Solve All Obligations with solve_resource.
#[export] Program Instance ResourceQuota_resource : Resource ResourceQuota := {|
  kind := "ResourceQuota"; inj := OResourceQuota; meta := rq_Meta;
  prj := λ o, match o with OResourceQuota x => Some x | _ => None end |}.
Solve All Obligations with solve_resource.
#[export] Program Instance LimitRange_resource : Resource LimitRange := {|
  kind := "LimitRange"; inj := OLimitRange; meta := lr_Meta;
  prj := λ o, match o with OLimitRange x => Some x | _ => None end |}.
Solve All Obligations with solve_resource.
#[export] Program Instance ClusterRoleBinding_resource : Resource ClusterRoleBinding := {|
  kind := "ClusterRoleBinding"; inj := OClusterRoleBinding; meta := crb_Meta;
  prj := λ o, match o with OClusterRoleBinding x => Some x | _ => None end |}.
Solve All Obligations with solve_resource.
#[export] Program Instance Role_resource : Resource Role := {|
  kind := "Role"; inj := ORole; meta := role_Meta;
  prj := λ o, match o with ORole x => Some x | _ => None end |}.
Solve All Obligations with solve_resource.
#[export] Program Instance RoleBinding_resource : Resource RoleBinding := {|
  kind := "RoleBinding"; inj := ORoleBinding; meta := rb_Meta;
  prj := λ o, match o with ORoleBinding x => Some x | _ => None end |}.
Solve All Obligations with solve_resource.
#[export] Program Instance ServiceAccount_resource : Resource ServiceAccount := {|
  kind := "ServiceAccount"; inj := OServiceAccount; meta := sa_Meta;
  prj := λ o, match o with OServiceAccount x => Some x | _ => None end |}.
Solve All Obligations with solve_resource.
#[export] Program Instance Lease_resource : Resource Lease := {|
  kind := "Lease"; inj := OLease; meta := lease_Meta;
  prj := λ o, match o with OLease x => Some x | _ => None end |}.
Solve All Obligations with solve_resource.
#[export] Program Instance ServiceCIDR_resource : Resource ServiceCIDRObj := {|
  kind := "ServiceCIDR"; inj := OServiceCIDR; meta := scidr_Meta;
  prj := λ o, match o with OServiceCIDR x => Some x | _ => None end |}.
Solve All Obligations with solve_resource.
#[export] Program Instance StorageClass_resource : Resource StorageClass := {|
  kind := "StorageClass"; inj := OStorageClass; meta := stc_Meta;
  prj := λ o, match o with OStorageClass x => Some x | _ => None end |}.
Solve All Obligations with solve_resource.
#[export] Program Instance EndpointSlice_resource : Resource EndpointSlice := {|
  kind := "EndpointSlice"; inj := OEndpointSlice; meta := eps_Meta;
  prj := λ o, match o with OEndpointSlice x => Some x | _ => None end |}.
Solve All Obligations with solve_resource.
#[export] Program Instance Endpoints_resource : Resource Endpoints := {|
  kind := "Endpoints"; inj := OEndpoints; meta := epo_Meta;
  prj := λ o, match o with OEndpoints x => Some x | _ => None end |}.
Solve All Obligations with solve_resource.
#[export] Program Instance PersistentVolume_resource : Resource PersistentVolume := {|
  kind := "PersistentVolume"; inj := OPersistentVolume; meta := pv_Meta;
  prj := λ o, match o with OPersistentVolume x => Some x | _ => None end |}.
Solve All Obligations with solve_resource.
#[export] Program Instance PriorityClass_resource : Resource PriorityClassObj := {|
  kind := "PriorityClass"; inj := OPriorityClass; meta := pc_Meta;
  prj := λ o, match o with OPriorityClass x => Some x | _ => None end |}.
Solve All Obligations with solve_resource.
#[export] Program Instance Event_resource : Resource EventObj := {|
  kind := "Event"; inj := OEvent; meta := ev_Meta;
  prj := λ o, match o with OEvent x => Some x | _ => None end |}.
Solve All Obligations with solve_resource.

(** ** Replacing the metadata of an object *)
Definition obj_set_meta (m : ObjectMeta) (o : Obj) : Obj :=
  match o with
  | OCluster x =>
      OCluster {| cl_Meta := m; cl_Spec := cl_Spec x; cl_Status := cl_Status x |}
  | OVirtualClusterPolicy x =>
      OVirtualClusterPolicy {| vcp_Meta := m; vcp_Spec := vcp_Spec x; vcp_Status := vcp_Status x |}
  | OEtcdSnapshot x =>
      OEtcdSnapshot {| snap_Meta := m; snap_Spec := snap_Spec x; snap_Status := snap_Status x |}
  | ONamespace x =>
      ONamespace {| ns_Meta := m |}
  | OSecret x =>
      OSecret {| sec_Meta := m; sec_Type := sec_Type x; sec_Data := sec_Data x |}
  | OConfigMap x =>
      OConfigMap {| cm_Meta := m; cm_Data := cm_Data x; cm_BinaryData := cm_BinaryData x |}
  | OService x =>
      OService {| svc_Meta := m; svc_Spec := svc_Spec x; svc_Ingress := svc_Ingress x |}
  | OIngress x =>
      OIngress {| ing_Meta := m; ing_Spec := ing_Spec x; ing_LoadBalancer := ing_LoadBalancer x |}
  | OStatefulSet x =>
      OStatefulSet {| sts_Meta := m; sts_Replicas := sts_Replicas x; sts_ServiceName := sts_ServiceName x; sts_Selector := sts_Selector x; sts_PodManagementPolicy := sts_PodManagementPolicy x; sts_Template := sts_Template x; sts_VolumeClaimTemplates := sts_VolumeClaimTemplates x |}
  | ODeployment x =>
      ODeployment {| dep_Meta := m; dep_Replicas := dep_Replicas x; dep_Selector := dep_Selector x; dep_Template := dep_Template x |}
  | ODaemonSet x =>
      ODaemonSet {| ds_Meta := m; ds_Selector := ds_Selector x; ds_Template := ds_Template x |}
  | OPod x =>
      OPod {| pod_Meta := m; pod_Spec := pod_Spec x; pod_PodIP := pod_PodIP x; pod_Phase := pod_Phase x |}
  | OPersistentVolumeClaim x =>
      OPersistentVolumeClaim {| pvc_Meta := m; pvc_AccessModes := pvc_AccessModes x; pvc_StorageClassName := pvc_StorageClassName x; pvc_Requests := pvc_Requests x; pvc_VolumeName := pvc_VolumeName x; pvc_VolumeMode := pvc_VolumeMode x; pvc_Status := pvc_Status x |}
  | ONode x =>
      ONode {| node_Meta := m; node_PodCIDR := node_PodCIDR x; node_PodCIDRs := node_PodCIDRs x; node_Addresses := node_Addresses x; node_Capacity := node_Capacity x; node_Allocatable := node_Allocatable x; node_Extra := node_Extra x |}
  | ONetworkPolicy x =>
      ONetworkPolicy {| np_Meta := m; np_Spec := np_Spec x |}
  | OResourceQuota x =>
      OResourceQuota {| rq_Meta := m; rq_Spec := rq_Spec x; rq_Hard := rq_Hard x |}
  | OLimitRange x =>
      OLimitRange {| lr_Meta := m; lr_Spec := lr_Spec x |}
  | OClusterRoleBinding x =>
      OClusterRoleBinding {| crb_Meta := m; crb_Subjects := crb_Subjects x |}
  | ORole x =>
      ORole {| role_Meta := m; role_Rules := role_Rules x |}
  | ORoleBinding x =>
      ORoleBinding {| rb_Meta := m; rb_RoleRef := rb_RoleRef x; rb_Subjects := rb_Subjects x |}
  | OServiceAccount x =>
      OServiceAccount {| sa_Meta := m |}
  | OLease x =>
      OLease {| lease_Meta := m |}
  | OServiceCIDR x =>
      OServiceCIDR {| scidr_Meta := m; scidr_CIDRs := scidr_CIDRs x |}
  | OStorageClass x =>
      OStorageClass {| stc_Meta := m; stc_Provisioner := stc_Provisioner x; stc_Parameters := stc_Parameters x; stc_ReclaimPolicy := stc_ReclaimPolicy x; stc_MountOptions := stc_MountOptions x; stc_AllowVolumeExpansion := stc_AllowVolumeExpansion x; stc_VolumeBindingMode := stc_VolumeBindingMode x; stc_AllowedTopologies := stc_AllowedTopologies x |}
  | OEndpointSlice x =>
      OEndpointSlice {| eps_Meta := m; eps_AddressType := eps_AddressType x; eps_Endpoints := eps_Endpoints x; eps_Ports := eps_Ports x |}
  | OEndpoints x =>
      OEndpoints {| epo_Meta := m; epo_Subsets := epo_Subsets x |}
  | OPersistentVolume x =>
      OPersistentVolume {| pv_Meta := m; pv_FlexDriver := pv_FlexDriver x; pv_StorageClassName := pv_StorageClassName x; pv_VolumeMode := pv_VolumeMode x; pv_ReclaimPolicy := pv_ReclaimPolicy x; pv_AccessModes := pv_AccessModes x; pv_Capacity := pv_Capacity x; pv_ClaimRef := pv_ClaimRef x; pv_Phase := pv_Phase x |}
  | OPriorityClass x =>
      OPriorityClass {| pc_Meta := m; pc_Value := pc_Value x; pc_GlobalDefault := pc_GlobalDefault x; pc_Description := pc_Description x; pc_PreemptionPolicy := pc_PreemptionPolicy x |}
  | OEvent x =>
      OEvent {| ev_Meta := m; ev_InvolvedObject := ev_InvolvedObject x; ev_Type := ev_Type x; ev_Reason := ev_Reason x; ev_Message := ev_Message x |}
  end.

Lemma obj_set_meta_kind m o : obj_kind (obj_set_meta m o) = obj_kind o.
Proof. by destruct o. Qed.
Lemma obj_set_meta_meta m o : obj_meta (obj_set_meta m o) = m.
Proof. by destruct o. Qed.

(** The same for a Go type. *)
Class SetMeta (T : Type) `{Resource T} := {
  with_meta : ObjectMeta → T → T;
  with_meta_inj m x : inj (with_meta m x) = obj_set_meta m (inj x);
}.

#[export] Instance Secret_set_meta : SetMeta Secret :=
  {| with_meta m x := {| sec_Meta := m; sec_Type := sec_Type x; sec_Data := sec_Data x |}; with_meta_inj _ _ := eq_refl |}.
#[export] Instance ServiceAccount_set_meta : SetMeta ServiceAccount :=
  {| with_meta m x := {| sa_Meta := m |}; with_meta_inj _ _ := eq_refl |}.
#[export] Instance Role_set_meta : SetMeta Role :=
  {| with_meta m x := {| role_Meta := m; role_Rules := role_Rules x |}; with_meta_inj _ _ := eq_refl |}.
#[export] Instance RoleBinding_set_meta : SetMeta RoleBinding :=
  {| with_meta m x := {| rb_Meta := m; rb_RoleRef := rb_RoleRef x; rb_Subjects := rb_Subjects x |};
     with_meta_inj _ _ := eq_refl |}.
#[export] Instance Service_set_meta : SetMeta Service :=
  {| with_meta m x := {| svc_Meta := m; svc_Spec := svc_Spec x; svc_Ingress := svc_Ingress x |};
     with_meta_inj _ _ := eq_refl |}.
#[export] Instance DaemonSet_set_meta : SetMeta DaemonSet :=
  {| with_meta m x := {| ds_Meta := m; ds_Selector := ds_Selector x; ds_Template := ds_Template x |};
     with_meta_inj _ _ := eq_refl |}.
#[export] Instance Deployment_set_meta : SetMeta Deployment :=
  {| with_meta m x := {| dep_Meta := m; dep_Replicas := dep_Replicas x; dep_Selector := dep_Selector x;
                         dep_Template := dep_Template x |}; with_meta_inj _ _ := eq_refl |}.
#[export] Instance StatefulSet_set_meta : SetMeta StatefulSet :=
  {| with_meta m x := {| sts_Meta := m; sts_Replicas := sts_Replicas x;
                         sts_ServiceName := sts_ServiceName x; sts_Selector := sts_Selector x;
                         sts_PodManagementPolicy := sts_PodManagementPolicy x;
                         sts_Template := sts_Template x;
                         sts_VolumeClaimTemplates := sts_VolumeClaimTemplates x |};
     with_meta_inj _ _ := eq_refl |}.
#[export] Instance ConfigMap_set_meta : SetMeta ConfigMap :=
  {| with_meta m x := {| cm_Meta := m; cm_Data := cm_Data x; cm_BinaryData := cm_BinaryData x |}; with_meta_inj _ _ := eq_refl |}.
#[export] Instance Ingress_set_meta : SetMeta Ingress :=
  {| with_meta m x := {| ing_Meta := m; ing_Spec := ing_Spec x; ing_LoadBalancer := ing_LoadBalancer x |}; with_meta_inj _ _ := eq_refl |}.
#[export] Instance PersistentVolumeClaim_set_meta : SetMeta PersistentVolumeClaim :=
  {| with_meta m x := {| pvc_Meta := m; pvc_AccessModes := pvc_AccessModes x; pvc_StorageClassName := pvc_StorageClassName x;
       pvc_Requests := pvc_Requests x; pvc_VolumeName := pvc_VolumeName x; pvc_VolumeMode := pvc_VolumeMode x; pvc_Status := pvc_Status x |}; with_meta_inj _ _ := eq_refl |}.
#[export] Instance PriorityClass_set_meta : SetMeta PriorityClassObj :=
  {| with_meta m x := {| pc_Meta := m; pc_Value := pc_Value x; pc_GlobalDefault := pc_GlobalDefault x;
       pc_Description := pc_Description x; pc_PreemptionPolicy := pc_PreemptionPolicy x |}; with_meta_inj _ _ := eq_refl |}.
#[export] Instance Pod_set_meta : SetMeta Pod :=
  {| with_meta m x := {| pod_Meta := m; pod_Spec := pod_Spec x; pod_PodIP := pod_PodIP x; pod_Phase := pod_Phase x |}; with_meta_inj _ _ := eq_refl |}.

(** The status subresource: the stored object with the status of the new
    one. *)
Definition obj_with_status (stored new : Obj) : Obj :=
  match stored, new with
  | OCluster s, OCluster n => OCluster (set_Status (cl_Status n) s)
  | OVirtualClusterPolicy s, OVirtualClusterPolicy n =>
      OVirtualClusterPolicy
        {| vcp_Meta := vcp_Meta s; vcp_Spec := vcp_Spec s; vcp_Status := vcp_Status n |}
  | OEtcdSnapshot s, OEtcdSnapshot n =>
      OEtcdSnapshot
        {| snap_Meta := snap_Meta s; snap_Spec := snap_Spec s; snap_Status := snap_Status n |}
  | OService s, OService n =>
      OService {| svc_Meta := svc_Meta s; svc_Spec := svc_Spec s; svc_Ingress := svc_Ingress n |}
  | ONode s, ONode n =>
      ONode {| node_Meta := node_Meta s; node_PodCIDR := node_PodCIDR s;
               node_PodCIDRs := node_PodCIDRs s; node_Addresses := node_Addresses n;
               node_Capacity := node_Capacity n; node_Allocatable := node_Allocatable n;
               node_Extra := node_Extra n |}
  | OIngress s, OIngress n =>
      OIngress {| ing_Meta := ing_Meta s; ing_Spec := ing_Spec s; ing_LoadBalancer := ing_LoadBalancer n |}
  | OPersistentVolumeClaim s, OPersistentVolumeClaim n =>
      OPersistentVolumeClaim (set_pvc_Status (pvc_Status n) s)
  | OPersistentVolume s, OPersistentVolume n => OPersistentVolume (set_pv_Phase (pv_Phase n) s)
  | _, _ => stored
  end.

Lemma obj_with_status_key s n : obj_key (obj_with_status s n) = obj_key s.
Proof. by destruct s, n. Qed.

(** ** The client *)

(** The requirements of a label selector the source builds. *)
Inductive requirement : Set :=
| ReqEquals (k v : string)
| ReqNotEquals (k v : string)
| ReqExists (k : string).

Definition req_matches (ls : gomap string) (r : requirement) : bool :=
  match r with
  | ReqEquals k v => bool_decide (map_get ls k = Some v)
  | ReqNotEquals k v => bool_decide (map_get ls k ≠ Some v)
  | ReqExists k => bool_decide (is_Some (map_get ls k))
  end.

(** [client.ListOptions]: a namespace ([""] for all), label requirements and
    field selectors. *)
Record ListOptions : Type := {
  lo_Namespace : string;
  lo_Selector : list requirement;
  lo_Fields : list (string * string);
}.

Definition list_all : ListOptions := {| lo_Namespace := ""; lo_Selector := []; lo_Fields := [] |}.
Definition InNamespace (ns : string) : ListOptions :=
  {| lo_Namespace := ns; lo_Selector := []; lo_Fields := [] |}.
Definition MatchingLabels (l : list (string * string)) : ListOptions :=
  {| lo_Namespace := ""; lo_Selector := map (λ p, ReqEquals p.1 p.2) l; lo_Fields := [] |}.

(** The calls of [client.Client]; a write returns the object as the server
    stored it (the source passes a pointer, which the call overwrites). *)
Record Client (W : Type) : Type := {
  client_Get : string → NamespacedName → M W Obj;
  client_List : string → ListOptions → M W (list Obj);
  client_Create : Obj → M W Obj;
  client_Update : Obj → M W Obj;
  client_StatusUpdate : Obj → M W Obj;
  client_Delete : string → NamespacedName → M W unit;
  client_DeleteAllOf : string → ListOptions → M W unit;
}.
Arguments client_Get {W}.
Arguments client_List {W}.
Arguments client_Create {W}.
Arguments client_Update {W}.
Arguments client_StatusUpdate {W}.
Arguments client_Delete {W}.
Arguments client_DeleteAllOf {W}.

(** The typed calls of the source.  A server that answers a typed request with
    an object of another type is outside the contract of the client. *)
Section Typed.
Context {W : Type} (c : Client W).
Context {T : Type} `{Resource T}.

Definition as_typed (o : Obj) : M W T :=
  match prj o with Some x => mret x | None => panic end.

Definition Get (n : NamespacedName) : M W T := o ← client_Get c (kind T) n; as_typed o.
Definition List_ (opts : ListOptions) : M W (list T) :=
  os ← client_List c (kind T) opts; mret (omap prj os).
Definition Create (x : T) : M W T := o ← client_Create c (inj x); as_typed o.
Definition Update (x : T) : M W T := o ← client_Update c (inj x); as_typed o.
Definition StatusUpdate (x : T) : M W T := o ← client_StatusUpdate c (inj x); as_typed o.
Definition Delete (x : T) : M W unit := client_Delete c (kind T) (key_of (meta x)).
End Typed.
Arguments Get {W} c T {_} n.
Arguments List_ {W} c T {_} opts.

Definition DeleteAllOf {W} (c : Client W) (T : Type) `{Resource T} (opts : ListOptions) : M W unit :=
  client_DeleteAllOf c (kind T) opts.

(** ** controllerutil, apimachinery and resource.Quantity *)
Inductive OperationResult : Set := ResultNone | ResultCreated | ResultUpdated.

Class KubeUtil := {
  (** [controllerutil.CreateOrUpdate(ctx, c, obj, f)]: the result and [obj]
      after the call. *)
  CreateOrUpdate_ : ∀ {W}, Client W → Obj → (Obj → outcome Obj) → M W (OperationResult * Obj);
  (** [controllerutil.SetControllerReference(owner, obj)], the owner given by
      its reference. *)
  SetControllerReference : OwnerReference → ObjectMeta → outcome ObjectMeta;
  (** [controllerutil.SetOwnerReference] *)
  SetOwnerReference : OwnerReference → ObjectMeta → outcome ObjectMeta;
  (** [controllerutil.AddFinalizer] and [RemoveFinalizer]: the new metadata and
      whether it changed. *)
  AddFinalizer : ObjectMeta → string → ObjectMeta * bool;
  RemoveFinalizer : ObjectMeta → string → ObjectMeta * bool;
  (** [meta.SetStatusCondition] and [meta.IsStatusConditionPresentAndEqual] *)
  SetStatusCondition : list Condition → Condition → list Condition;
  IsStatusConditionPresentAndEqual : list Condition → string → string → bool;
  (** [metav1.GetControllerOf] *)
  GetControllerOf : ObjectMeta → option OwnerReference;
  (** [sets.List] of a set of strings built by inserting the elements. *)
  sets_List : list string → list string;
  (** [labels.SelectorFromSet(s).Matches(labels.Set(l))] *)
  selector_matches : gomap string → gomap string → bool;
  (** [equality.Semantic.DeepEqual] *)
  Semantic_DeepEqual {A} `{EqDecision A} : A → A → bool;
}.

Definition CreateOrUpdate {W} `{KubeUtil} {T} `{Resource T} (c : Client W) (x : T)
    (f : T → outcome T) : M W (OperationResult * T) :=
  r ← CreateOrUpdate_ c (inj x) (λ o, match prj o with
                                      | Some y => z ← f y; mret (inj z)
                                      | None => Panic
                                      end);
  x' ← as_typed r.2;
  mret (r.1, x').

Class QuantityOps := {
  Quantity_Value : Quantity → Z;
  Quantity_MilliValue : Quantity → Z;
  Quantity_Cmp : Quantity → Quantity → comparison;
  NewQuantity : Z → string → Quantity;
  NewMilliQuantity : Z → string → Quantity;
}.

(** The zero value of [resource.Quantity]. *)
Definition zero_Quantity : Quantity := {| q_nano := 0; q_Format := "" |}.

(** The rounding contract of quantities: a quantity made from a value (or a
    milli-value) gives it back, and [Cmp] orders by amount. *)
Class QuantityLaws `{QuantityOps} : Prop := {
  Value_New v f : Quantity_Value (NewQuantity v f) = v;
  MilliValue_New v f : Quantity_MilliValue (NewMilliQuantity v f) = v;
  Value_zero : Quantity_Value zero_Quantity = 0%Z;
  MilliValue_zero : Quantity_MilliValue zero_Quantity = 0%Z;
  Cmp_antisym p q : Quantity_Cmp p q = CompOpp (Quantity_Cmp q p);
  Cmp_refl p : Quantity_Cmp p p = Eq;
  Cmp_trans p q r : Quantity_Cmp p q ≠ Gt → Quantity_Cmp q r ≠ Gt → Quantity_Cmp p r ≠ Gt;
}.

(** *** Documented behaviour of the helpers *)

(** The first condition of a type ([meta.FindStatusCondition]). *)
Definition find_condition (cs : list Condition) (t : string) : option Condition :=
  List.find (λ c, bool_decide (cond_Type c = t)) cs.

(** "CreateOrUpdate attempts to fetch the given object from the server; if it
    does not exist it is created, otherwise it is updated if the mutate
    function changed it; the mutate function is called in both cases."  It may
    not change the key of the object. *)
Definition mutate (f : Obj → outcome Obj) (o : Obj) : outcome Obj :=
  o' ← f o;
  if decide (obj_key o' = obj_key o) then Ok o'
  else Err (EText "MutateFn cannot mutate object name and/or object namespace").

Definition create_or_update {W} (c : Client W) (o : Obj) (f : Obj → outcome Obj)
  : M W (OperationResult * Obj) :=
  let '(k, n) := obj_key o in
  r ← attempt (client_Get c k n);
  match r with
  | inr e =>
      if IsNotFound e then
        o' ← lift (mutate f o); o'' ← client_Create c o'; mret (ResultCreated, o'')
      else fail e
  | inl cur =>
      o' ← lift (mutate f cur);
      if decide (o' = cur) then mret (ResultNone, cur)
      else o'' ← client_Update c o'; mret (ResultUpdated, o'')
  end.

Class KubeUtilLaws `{KubeUtil} : Prop := {
  CreateOrUpdate_law {W} (c : Client W) o f w :
    CreateOrUpdate_ c o f w = create_or_update c o f w;
  SetControllerReference_ok r m m' :
    SetControllerReference r m = Ok m' →
    ∃ rs, m' = set_OwnerReferences rs m ∧
          ∃ r', r' ∈ rs ∧ or_UID r' = or_UID r ∧ or_Name r' = or_Name r
                ∧ or_Kind r' = or_Kind r ∧ or_APIVersion r' = or_APIVersion r
                ∧ or_Controller r' = Some true;
  SetControllerReference_free r m :
    Forall (λ r', or_Controller r' ≠ Some true) (OwnerReferences m) →
    ∃ m', SetControllerReference r m = Ok m';
  SetControllerReference_no_panic r m : SetControllerReference r m ≠ Panic;
  SetOwnerReference_ok r m m' :
    SetOwnerReference r m = Ok m' →
    ∃ rs, m' = set_OwnerReferences rs m ∧
          ∃ r', r' ∈ rs ∧ or_UID r' = or_UID r ∧ or_Name r' = or_Name r
                ∧ or_Kind r' = or_Kind r ∧ or_APIVersion r' = or_APIVersion r;
  SetOwnerReference_no_panic r m : SetOwnerReference r m ≠ Panic;
  AddFinalizer_law m f :
    AddFinalizer m f =
      if decide (f ∈ Finalizers m) then (m, false)
      else (set_Finalizers (Finalizers m ++ [f]) m, true);
  RemoveFinalizer_law m f :
    RemoveFinalizer m f =
      if decide (f ∈ Finalizers m)
      then (set_Finalizers (slices_DeleteFunc (Finalizers m) (λ g, bool_decide (g = f))) m, true)
      else (m, false);
  SetStatusCondition_same cs c : find_condition (SetStatusCondition cs c) (cond_Type c) = Some c;
  SetStatusCondition_other cs c t :
    t ≠ cond_Type c → find_condition (SetStatusCondition cs c) t = find_condition cs t;
  IsStatusConditionPresentAndEqual_law cs t s :
    IsStatusConditionPresentAndEqual cs t s = true ↔
    ∃ c, find_condition cs t = Some c ∧ cond_Status c = s;
  GetControllerOf_law m :
    GetControllerOf m = List.find (λ r, bool_decide (or_Controller r = Some true)) (OwnerReferences m);
  sets_List_elem l x : x ∈ sets_List l ↔ x ∈ l;
  sets_List_nodup l : NoDup (sets_List l);
  sets_List_sorted l : Sorted str_le (sets_List l);
  selector_matches_law s l :
    selector_matches s l = true ↔
    ∀ k v, map_get s k = Some v → map_get l k = Some v;
  Semantic_DeepEqual_refl {A} `{EqDecision A} (x : A) : Semantic_DeepEqual x x = true;
}.

(** *** Documented behaviour of the client

    A call that succeeds acts on the stored objects as the API says; a call
    that fails changes nothing.  [up] says that the server answers: then the
    only failures are those the documentation names.  The server may complete
    or normalise what it is given, so a write only promises the key and the
    kind of what it stores. *)
Definition mark_deleted (now : string) (o : Obj) : Obj :=
  obj_set_meta {|
    Name := Name (obj_meta o); Namespace := Namespace (obj_meta o);
    Labels := Labels (obj_meta o); Annotations := Annotations (obj_meta o);
    OwnerReferences := OwnerReferences (obj_meta o); Finalizers := Finalizers (obj_meta o);
    ResourceVersion := ResourceVersion (obj_meta o); UID := UID (obj_meta o);
    DeletionTimestamp := match DeletionTimestamp (obj_meta o) with
                         | Some t => Some t
                         | None => Some now
                         end |} o.

Definition selected (opts : ListOptions) (o : Obj) : bool :=
  (bool_decide (lo_Namespace opts = "") || bool_decide (Namespace (obj_meta o) = lo_Namespace opts))
  && forallb (req_matches (Labels (obj_meta o))) (lo_Selector opts).

(** What is left of a deleted object: nothing, or the object marked for
    deletion when it has finalizers. *)
Definition removed (o : Obj) (v : option Obj) : Prop :=
  if decide (Finalizers (obj_meta o) = []) then v = None
  else ∃ now, v = Some (mark_deleted now o).

Class ClientLaws {W} (c : Client W) := {
  store : W → gmap ObjKey Obj;
  up : W → Prop;
  store_keys w k o : store w !! k = Some o → obj_key o = k;
  get_spec k n w :
    ∃ r w', client_Get c k n w = (r, w') ∧ store w' = store w ∧ (up w ↔ up w') ∧
      match r with
      | Ok o => store w !! (k, n) = Some o
      | Err e => if IsNotFound e then store w !! (k, n) = None else ¬ up w
      | Panic => False
      end;
  list_spec k opts w :
    lo_Fields opts = [] →
    ∃ r w', client_List c k opts w = (r, w') ∧ store w' = store w ∧ (up w ↔ up w') ∧
      match r with
      | Ok os => NoDup (obj_key <$> os) ∧
                 ∀ o, o ∈ os ↔ store w !! obj_key o = Some o ∧ obj_kind o = k
                               ∧ selected opts o = true
      | Err e => ¬ up w
      | Panic => False
      end;
  create_spec o w :
    ∃ r w', client_Create c o w = (r, w') ∧ (up w ↔ up w') ∧
      match r with
      | Ok o' => store w !! obj_key o = None ∧ obj_key o' = obj_key o
                 ∧ store w' = <[obj_key o := o']> (store w)
      | Err e => store w' = store w ∧
                 (if IsAlreadyExists e then is_Some (store w !! obj_key o) else True)
      | Panic => False
      end;
  update_spec o w :
    ∃ r w', client_Update c o w = (r, w') ∧ (up w ↔ up w') ∧
      match r with
      | Ok o' => is_Some (store w !! obj_key o) ∧ obj_key o' = obj_key o
                 ∧ (Finalizers (obj_meta o') = Finalizers (obj_meta o))
                 ∧ (if is_deleting (obj_meta o) && bool_decide (Finalizers (obj_meta o) = [])
                    then store w' = delete (obj_key o) (store w)
                    else store w' = <[obj_key o := o']> (store w))
      | Err e => store w' = store w
      | Panic => False
      end;
  status_update_spec o w :
    ∃ r w', client_StatusUpdate c o w = (r, w') ∧ (up w ↔ up w') ∧
      match r with
      | Ok o' => ∃ old, store w !! obj_key o = Some old ∧ o' = obj_with_status old o
                        ∧ store w' = <[obj_key o := o']> (store w)
      | Err e => store w' = store w
      | Panic => False
      end;
  delete_spec k n w :
    ∃ r w', client_Delete c k n w = (r, w') ∧ (up w ↔ up w') ∧
      match r with
      | Ok _ => ∃ old, store w !! (k, n) = Some old ∧
                  (if decide (Finalizers (obj_meta old) = [])
                   then store w' = delete (k, n) (store w)
                   else ∃ now, store w' = <[(k, n) := mark_deleted now old]> (store w))
      | Err e => store w' = store w
                 ∧ (if IsNotFound e then store w !! (k, n) = None else ¬ up w)
      | Panic => False
      end;
  delete_all_spec k opts w :
    lo_Fields opts = [] →
    ∃ r w', client_DeleteAllOf c k opts w = (r, w') ∧ (up w ↔ up w') ∧ r ≠ Panic ∧
      (∀ i, store w' !! i = store w !! i ∨
            ∃ o, store w !! i = Some o ∧ obj_kind o = k ∧ selected opts o = true
                 ∧ removed o (store w' !! i)) ∧
      (r = Ok tt → ∀ i o, store w !! i = Some o → obj_kind o = k → selected opts o = true →
                          removed o (store w' !! i));
}.

(** ** A concrete API server

    A map of objects behind an availability flag. *)
Record mem : Type := { mem_store : gmap ObjKey Obj; mem_up : bool }.

Definition not_found : error := EStatus ReasonNotFound "not found".
Definition already_exists : error := EStatus ReasonAlreadyExists "already exists".
Definition unavailable : error := EStatus ReasonOther "server unavailable".

Definition mem_guard {A} (m : M mem A) : M mem A := λ w, if mem_up w then m w else (Err unavailable, w).

Definition mem_put (k : ObjKey) (o : Obj) (w : mem) : mem :=
  {| mem_store := <[k := o]> (mem_store w); mem_up := mem_up w |}.
Definition mem_del (k : ObjKey) (w : mem) : mem :=
  {| mem_store := delete k (mem_store w); mem_up := mem_up w |}.

(** An object counts only under its own key; the fake clock is constant. *)
Definition mem_objects (w : mem) : gmap ObjKey Obj :=
  filter (λ p, obj_key p.2 = p.1) (mem_store w).

Definition mem_get (k : string) (n : NamespacedName) : M mem Obj := mem_guard (λ w,
  match mem_objects w !! (k, n) with
  | Some o => (Ok o, w)
  | None => (Err not_found, w)
  end).

Definition mem_list (k : string) (opts : ListOptions) : M mem (list Obj) := mem_guard (λ w,
  (Ok (List.filter (λ o, bool_decide (obj_kind o = k) && selected opts o)
         (map snd (map_to_list (mem_objects w)))), w)).

Definition mem_create (o : Obj) : M mem Obj := mem_guard (λ w,
  match mem_objects w !! obj_key o with
  | Some _ => (Err already_exists, w)
  | None => (Ok o, mem_put (obj_key o) o w)
  end).

Definition mem_update (o : Obj) : M mem Obj := mem_guard (λ w,
  match mem_objects w !! obj_key o with
  | None => (Err not_found, w)
  | Some _ =>
      if is_deleting (obj_meta o) && bool_decide (Finalizers (obj_meta o) = [])
      then (Ok o, mem_del (obj_key o) w)
      else (Ok o, mem_put (obj_key o) o w)
  end).

Definition mem_status_update (o : Obj) : M mem Obj := mem_guard (λ w,
  match mem_objects w !! obj_key o with
  | None => (Err not_found, w)
  | Some old => (Ok (obj_with_status old o), mem_put (obj_key o) (obj_with_status old o) w)
  end).

Definition mem_delete (k : string) (n : NamespacedName) : M mem unit := mem_guard (λ w,
  match mem_objects w !! (k, n) with
  | None => (Err not_found, w)
  | Some old =>
      if decide (Finalizers (obj_meta old) = []) then (Ok tt, mem_del (k, n) w)
      else (Ok tt, mem_put (k, n) (mark_deleted "now" old) w)
  end).

Definition mem_delete_all (k : string) (opts : ListOptions) : M mem unit := λ w,
  match mem_list k opts w with
  | (Ok os, w') => for_each os (λ o, mem_delete k (key_of (obj_meta o))) w'
  | (Err e, w') => (Err e, w')
  | (Panic, w') => (Panic, w')
  end.

Definition mem_client : Client mem := {|
  client_Get := mem_get;
  client_List := mem_list;
  client_Create := mem_create;
  client_Update := mem_update;
  client_StatusUpdate := mem_status_update;
  client_Delete := mem_delete;
  client_DeleteAllOf := mem_delete_all;
|}.

Lemma mem_objects_lookup w k o :
  mem_objects w !! k = Some o ↔ mem_store w !! k = Some o ∧ obj_key o = k.
Proof. unfold mem_objects. by rewrite map_lookup_filter_Some. Qed.

Lemma mem_objects_put k o w :
  obj_key o = k → mem_objects (mem_put k o w) = <[k := o]> (mem_objects w).
Proof. intros <-. unfold mem_objects, mem_put; cbn. by apply map_filter_insert_True. Qed.

Lemma mem_objects_del k w : mem_objects (mem_del k w) = delete k (mem_objects w).
Proof. unfold mem_objects, mem_del; cbn. apply map_filter_delete. Qed.

Lemma mark_deleted_key now o : obj_key (mark_deleted now o) = obj_key o.
Proof. unfold obj_key, mark_deleted. by rewrite obj_set_meta_kind, obj_set_meta_meta. Qed.

Ltac mem_done :=
  eexists _, _; split; [reflexivity|]; cbn -[IsNotFound IsAlreadyExists];
  change (IsNotFound not_found) with true; change (IsNotFound unavailable) with false;
  change (IsAlreadyExists already_exists) with true;
  change (IsAlreadyExists unavailable) with false;
  split_and!; try done; try congruence; try (by eexists); try (split; congruence).

Lemma mem_list_ok k opts w :
  mem_up w = true →
  ∃ os, mem_list k opts w = (Ok os, w) ∧ NoDup (obj_key <$> os) ∧
    ∀ o, o ∈ os ↔ mem_objects w !! obj_key o = Some o ∧ obj_kind o = k ∧ selected opts o = true.
Proof.
  intros E. unfold mem_list, mem_guard. rewrite E. eexists. split; [reflexivity|]. split.
  - assert (Hn : NoDup (obj_key <$> map snd (map_to_list (mem_objects w)))).
    { rewrite <- list_fmap_compose. erewrite list_fmap_ext; [apply NoDup_fst_map_to_list|].
      intros i [k' o'] Hi. apply list_elem_of_lookup_2, elem_of_map_to_list in Hi.
      cbn. by apply mem_objects_lookup in Hi as [_ ?]. }
    revert Hn. generalize (map snd (map_to_list (mem_objects w))). clear.
    intros l. induction l as [|o l IH]; cbn; [intros; constructor|]. intros Hx. apply NoDup_cons in Hx as [Hno Hl].
    destruct (_ && _); [|by apply IH]. cbn. apply NoDup_cons; split; [|by apply IH].
    intros (o' & Ho'k & Ho')%list_elem_of_fmap. apply Hno. rewrite Ho'k.
    apply list_elem_of_fmap. exists o'; split; [done|].
    rewrite list_elem_of_In, List.filter_In, <- list_elem_of_In in Ho'. tauto.
  - intros o. rewrite list_elem_of_In, List.filter_In, andb_true_iff, bool_decide_eq_true.
    rewrite <- list_elem_of_In. split.
    + intros [Hin [??]]. split; [|done]. apply list_elem_of_fmap in Hin as ([k' o'] & -> & Hin).
      apply elem_of_map_to_list in Hin. cbn in *.
      pose proof Hin as [_ Hk]%mem_objects_lookup. by rewrite Hk.
    + intros (Hin & ? & ?). split; [|done]. apply list_elem_of_fmap.
      exists (obj_key o, o). split; [done|]. by apply elem_of_map_to_list.
Qed.

(** Deleting listed objects one by one. *)
Lemma mem_delete_each k os w :
  mem_up w = true → NoDup (obj_key <$> os) →
  (∀ o, o ∈ os → mem_objects w !! obj_key o = Some o ∧ obj_kind o = k) →
  ∃ w', for_each os (λ o, mem_delete k (key_of (obj_meta o))) w = (Ok tt, w') ∧ mem_up w' = true ∧
    (∀ i, i ∉ obj_key <$> os → mem_objects w' !! i = mem_objects w !! i) ∧
    ∀ o, o ∈ os → removed o (mem_objects w' !! obj_key o).
Proof.
  revert w. induction os as [|o os IH]; intros w Hup Hnd Hin.
  { exists w. split_and!; [done..|]. intros o Ho. by apply elem_of_nil in Ho. }
  apply NoDup_cons in Hnd as [Hno Hnd]. destruct (Hin o ltac:(set_solver)) as [Ho Hk].
  assert (∃ v w1, mem_delete k (key_of (obj_meta o)) w = (Ok tt, w1) ∧ mem_up w1 = true ∧ removed o v ∧
            mem_objects w1 = partial_alter (λ _, v) (obj_key o) (mem_objects w)) as
      (v & w1 & E1 & Hup1 & Hv & Hw1).
  { unfold mem_delete, mem_guard. rewrite Hup. unfold obj_key in Ho at 1. rewrite Hk in Ho. cbv beta iota. rewrite (Ho : mem_objects w !! (k, key_of (obj_meta o)) = Some o).
    assert ((k, key_of (obj_meta o)) = obj_key o) as -> by (by unfold obj_key; rewrite Hk).
    unfold removed. case_decide.
    - exists None, (mem_del (obj_key o) w). split_and!; try done. apply mem_objects_del.
    - eexists (Some _), (mem_put (obj_key o) (mark_deleted "now" o) w). split_and!; try done; [by eexists|].
      apply mem_objects_put, mark_deleted_key. }
  destruct (IH w1 Hup1 Hnd) as (w' & E & Hup' & Hout & Hrem).
  { intros o' Ho'. destruct (Hin o' ltac:(set_solver)) as [Ho1 Hk1]. split; [|done]. rewrite Hw1.
    rewrite lookup_partial_alter_ne; [done|]. intros Heq. apply Hno. rewrite Heq.
    apply list_elem_of_fmap. by exists o'. }
  exists w'. cbn [for_each]. unfold mbind, M_bind. rewrite E1. split; [done|]. split; [done|].
  rewrite fmap_cons. split.
  - intros i Hi. rewrite Hout by set_solver. rewrite Hw1, lookup_partial_alter_ne; [done|]. set_solver.
  - intros o' [->|Ho']%elem_of_cons; [|by apply Hrem].
    rewrite Hout by done. by rewrite Hw1, lookup_partial_alter_eq.
Qed.

Lemma mem_delete_all_ok k opts w :
  mem_up w = true →
  ∃ w', mem_delete_all k opts w = (Ok tt, w') ∧ mem_up w' = true ∧
    (∀ i, mem_objects w' !! i = mem_objects w !! i ∨
          ∃ o, mem_objects w !! i = Some o ∧ obj_kind o = k ∧ selected opts o = true
               ∧ removed o (mem_objects w' !! i)) ∧
    ∀ i o, mem_objects w !! i = Some o → obj_kind o = k → selected opts o = true →
           removed o (mem_objects w' !! i).
Proof.
  intros Hup. unfold mem_delete_all. destruct (mem_list_ok k opts w Hup) as (os & -> & Hnd & Hin).
  destruct (mem_delete_each k os w Hup Hnd) as (w' & -> & Hup' & Hout & Hrem).
  { intros o Ho. apply Hin in Ho. tauto. }
  exists w'. split_and!; [done..| |].
  - intros i. destruct (decide (i ∈ obj_key <$> os)) as [(o & -> & Ho)%list_elem_of_fmap|Hi];
      [right|left; by apply Hout].
    exists o. pose proof Ho as (? & ? & ?)%Hin. split_and!; try done. by apply Hrem.
  - intros i o Hi Hk Hs. pose proof Hi as [_ <-]%mem_objects_lookup. by apply Hrem, Hin.
Qed.

#[export] Program Instance mem_laws : ClientLaws mem_client := {|
  store := mem_objects;
  up := λ w, mem_up w = true;
|}.
Next Obligation. by intros w k o [_ ?]%mem_objects_lookup. Qed.
Next Obligation.
  intros k n w. cbn. unfold mem_get, mem_guard. destruct (mem_up w) eqn:E; cbn.
  - destruct (mem_objects w !! (k, n)) eqn:Ho; mem_done.
  - mem_done.
Qed.
Next Obligation.
  intros k opts w _. cbn. destruct (mem_up w) eqn:E.
  - destruct (mem_list_ok k opts w E) as (os & -> & ?). by eexists _, _.
  - unfold mem_list, mem_guard. rewrite E. mem_done.
Qed.
Next Obligation.
  intros o w. cbn. unfold mem_create, mem_guard. destruct (mem_up w) eqn:E; cbn.
  - destruct (mem_objects w !! obj_key o) eqn:Ho; mem_done.
    by apply mem_objects_put.
  - mem_done.
Qed.
Next Obligation.
  intros o w. cbn. unfold mem_update, mem_guard. destruct (mem_up w) eqn:E; cbn.
  - destruct (mem_objects w !! obj_key o) eqn:Ho.
    + destruct (_ && _) eqn:Hd; mem_done.
      * apply mem_objects_del.
      * by apply mem_objects_put.
    + mem_done.
  - mem_done.
Qed.
Next Obligation.
  intros o w. cbn. unfold mem_status_update, mem_guard. destruct (mem_up w) eqn:E; cbn.
  - destruct (mem_objects w !! obj_key o) as [old|] eqn:Ho; mem_done.
    exists old. split_and!; try done. apply mem_objects_put.
    rewrite obj_with_status_key. by apply mem_objects_lookup in Ho as [_ ?].
  - mem_done.
Qed.
Next Obligation.
  intros k n w. cbn. unfold mem_delete, mem_guard. destruct (mem_up w) eqn:E; cbn.
  - destruct (mem_objects w !! (k, n)) as [old|] eqn:Ho.
    + case_decide as Hf; mem_done; exists old;
        rewrite ?decide_True, ?decide_False by done; split; try done.
      * apply mem_objects_del.
      * eexists. apply mem_objects_put. rewrite mark_deleted_key.
        by apply mem_objects_lookup in Ho as [_ ?].
    + mem_done.
  - mem_done.
Qed.

Next Obligation.
  intros k opts w _. cbn. destruct (mem_up w) eqn:E.
  - destruct (mem_delete_all_ok k opts w E) as (w' & -> & Hup' & H1 & H2).
    eexists _, _. split; [reflexivity|]. by split_and!.
  - eexists _, w. unfold mem_delete_all, mem_list, mem_guard. rewrite E. split; [reflexivity|].
    split_and!; try done. by left.
Qed.

(** ** Concrete helpers *)

Definition std_SetControllerReference (r : OwnerReference) (m : ObjectMeta) : outcome ObjectMeta :=
  let mine r' := bool_decide (or_UID r' = or_UID r) in
  if existsb (λ r', bool_decide (or_Controller r' = Some true) && negb (mine r')) (OwnerReferences m)
  then Err (EText "Object is already owned by another controller")
  else Ok (set_OwnerReferences
             (slices_DeleteFunc (OwnerReferences m) mine ++
              [{| or_APIVersion := or_APIVersion r; or_Kind := or_Kind r; or_Name := or_Name r;
                  or_UID := or_UID r; or_Controller := Some true |}]) m).

Definition std_SetOwnerReference (r : OwnerReference) (m : ObjectMeta) : outcome ObjectMeta :=
  Ok (set_OwnerReferences
        (slices_DeleteFunc (OwnerReferences m) (λ r', bool_decide (or_UID r' = or_UID r)) ++ [r]) m).

Fixpoint std_SetStatusCondition (cs : list Condition) (c : Condition) : list Condition :=
  match cs with
  | [] => [c]
  | d :: cs' => if decide (cond_Type d = cond_Type c) then c :: cs'
                else d :: std_SetStatusCondition cs' c
  end.

#[export] Instance std_util : KubeUtil := {|
  CreateOrUpdate_ := @create_or_update;
  SetControllerReference := std_SetControllerReference;
  SetOwnerReference := std_SetOwnerReference;
  AddFinalizer m f :=
    if decide (f ∈ Finalizers m) then (m, false)
    else (set_Finalizers (Finalizers m ++ [f]) m, true);
  RemoveFinalizer m f :=
    if decide (f ∈ Finalizers m)
    then (set_Finalizers (slices_DeleteFunc (Finalizers m) (λ g, bool_decide (g = f))) m, true)
    else (m, false);
  SetStatusCondition := std_SetStatusCondition;
  IsStatusConditionPresentAndEqual cs t s :=
    match find_condition cs t with
    | Some c => bool_decide (cond_Status c = s)
    | None => false
    end;
  GetControllerOf m :=
    List.find (λ r, bool_decide (or_Controller r = Some true)) (OwnerReferences m);
  sets_List l := slices_Sort (remove_dups l);
  selector_matches s l :=
    match s with
    | None => true
    | Some g => forallb (λ p, bool_decide (map_get l p.1 = Some p.2)) (map_to_list g)
    end;
  Semantic_DeepEqual A _ x y := bool_decide (x = y);
|}.

Lemma std_SetStatusCondition_same cs c :
  find_condition (std_SetStatusCondition cs c) (cond_Type c) = Some c.
Proof.
  unfold find_condition. induction cs as [|d cs IH]; cbn; [by rewrite bool_decide_true|].
  case_decide as Hd; cbn; [by rewrite bool_decide_true|]. by rewrite bool_decide_false.
Qed.

Lemma std_SetStatusCondition_other cs c t :
  t ≠ cond_Type c → find_condition (std_SetStatusCondition cs c) t = find_condition cs t.
Proof.
  intros Ht. unfold find_condition. induction cs as [|d cs IH]; cbn.
  - by rewrite bool_decide_false.
  - case_decide as Hd; cbn; [|by rewrite IH]. by rewrite Hd, !bool_decide_false.
Qed.

#[export] Instance std_util_laws : KubeUtilLaws.
Proof.
  split; try done.
  - intros r m m'. cbn. unfold std_SetControllerReference. case_match; [done|].
    intros [= <-]. eexists; split; [done|]. eexists. split; [apply elem_of_app; right; by apply list_elem_of_singleton|]. done.
  - intros r m H. cbn. unfold std_SetControllerReference. case_match eqn:E; [|by eexists].
    apply existsb_true_iff in E as (r' & Hin & Hr).
    rewrite Forall_forall in H. apply andb_true_iff in Hr as [Hr _].
    apply bool_decide_eq_true in Hr. by apply H in Hin.
  - intros r m. cbn. unfold std_SetControllerReference. by case_match.
  - intros r m m' [= <-]. eexists; split; [done|]. exists r. split; [|done].
    apply elem_of_app; right; by apply list_elem_of_singleton.
  - apply std_SetStatusCondition_same.
  - apply std_SetStatusCondition_other.
  - intros cs t s. cbn. destruct (find_condition cs t) as [c|].
    + rewrite bool_decide_eq_true. naive_solver.
    + naive_solver.
  - intros l x. cbn. unfold slices_Sort. by rewrite merge_sort_Permutation, elem_of_remove_dups.
  - intros l. cbn. unfold slices_Sort. rewrite merge_sort_Permutation. apply NoDup_remove_dups.
  - intros l. cbn. apply Sorted_merge_sort, _.
  - intros [g|] l; cbn; [|naive_solver]. rewrite forallb_forall. split.
    + intros H k v Hk. specialize (H (k, v)). cbn in H. rewrite bool_decide_eq_true in H.
      apply H. by apply list_elem_of_In, elem_of_map_to_list.
    + intros H [k v] Hin. cbn. apply bool_decide_eq_true, H.
      by apply elem_of_map_to_list, list_elem_of_In.
  - intros A EA x. cbn. by apply bool_decide_true.
Qed.

(** Quantities with the amount in billionths; [Value] and [MilliValue] round
    up, as apimachinery documents. *)
#[export] Instance std_quantity : QuantityOps := {|
  Quantity_Value q := (- (- q_nano q / 10 ^ 9))%Z;
  Quantity_MilliValue q := (- (- q_nano q / 10 ^ 6))%Z;
  Quantity_Cmp p q := Z.compare (q_nano p) (q_nano q);
  NewQuantity v f := {| q_nano := (v * 10 ^ 9)%Z; q_Format := f |};
  NewMilliQuantity v f := {| q_nano := (v * 10 ^ 6)%Z; q_Format := f |};
|}.

#[export] Instance std_quantity_laws : QuantityLaws.
Proof.
  split; cbn -[Z.pow]; intros.
  - rewrite <- Z.mul_opp_l, Z.div_mul by done. lia.
  - rewrite <- Z.mul_opp_l, Z.div_mul by done. lia.
  - done.
  - done.
  - apply Z.compare_antisym.
  - apply Z.compare_refl.
  - revert H H0. rewrite !Z.compare_gt_iff. lia.
Qed.

(** ** Triples for the typed calls

    For an assertion [I] about the stored objects: a failing call leaves the
    store alone, a successful one does what the API documents. *)
Section Calls.
Context {W : Type} (c : Client W) `{!ClientLaws c} {T : Type} `{Resource T}.
Implicit Types I : gmap ObjKey Obj → Prop.

Lemma hoare_Get I n :
  hoare (λ w, I (store w)) (Get c T n)
    (λ x w, I (store w) ∧ store w !! (kind T, n) = Some (inj x) ∧ key_of (meta x) = n)
    (λ e w, I (store w) ∧ match e with
                          | Some e => IsNotFound e = true → store w !! (kind T, n) = None
                          | None => False
                          end).
Proof.
  intros w HI. unfold Get, mbind, M_bind.
  destruct (get_spec (kind T) n w) as (r & w' & -> & Hs & _ & Hr).
  destruct r as [o|e|]; [|rewrite Hs; split; [done|]; intros E; by rewrite E in Hr|done].
  unfold as_typed. pose proof (store_keys _ _ _ Hr) as Hk. unfold obj_key in Hk.
  destruct (prj_kind (T:=T) o) as [x Hx]; [by simplify_eq|]. rewrite Hx. cbn. rewrite Hs, Hr.
  apply inj_prj in Hx as ->. rewrite inj_meta in Hk. by simplify_eq.
Qed.

Lemma hoare_Create I (x : T) :
  hoare (λ w, I (store w)) (Create c x)
    (λ y w, ∃ st, I st ∧ st !! obj_key (inj x) = None ∧ obj_key (inj y) = obj_key (inj x) ∧
                  store w = <[obj_key (inj x) := inj y]> st ∧
                  ∃ w0, client_Create c (inj x) w0 = (Ok (inj y), w))
    (λ e w, I (store w)).
Proof.
  intros w HI. unfold Create, mbind, M_bind.
  destruct (create_spec (inj x) w) as (r & w' & E & _ & Hr). rewrite E.
  destruct r as [o|e|]; [|by destruct Hr as [-> _]|done].
  destruct Hr as (Hn & Hk & Hs). unfold as_typed.
  destruct (prj_kind (T:=T) o) as [y Hy].
  { unfold obj_key in Hk. rewrite inj_kind in Hk. by simplify_eq. }
  rewrite Hy. cbn. apply inj_prj in Hy as ->. eauto 10.
Qed.

Lemma hoare_Update I (x : T) :
  hoare (λ w, I (store w)) (Update c x)
    (λ y w, ∃ st, I st ∧ is_Some (st !! obj_key (inj x)) ∧ obj_key (inj y) = obj_key (inj x) ∧
                  Finalizers (meta y) = Finalizers (meta x) ∧
                  (if is_deleting (meta x) && bool_decide (Finalizers (meta x) = [])
                   then store w = delete (obj_key (inj x)) st
                   else store w = <[obj_key (inj x) := inj y]> st) ∧
                  ∃ w0, client_Update c (inj x) w0 = (Ok (inj y), w))
    (λ e w, I (store w)).
Proof.
  intros w HI. unfold Update, mbind, M_bind.
  destruct (update_spec (inj x) w) as (r & w' & E & _ & Hr). rewrite E.
  destruct r as [o|e|]; [|by rewrite Hr|done].
  destruct Hr as (Hn & Hk & Hf & Hs). unfold as_typed.
  destruct (prj_kind (T:=T) o) as [y Hy].
  { unfold obj_key in Hk. rewrite inj_kind in Hk. by simplify_eq. }
  rewrite Hy. cbn. apply inj_prj in Hy as ->. rewrite !inj_meta in *. eauto 10.
Qed.

Lemma hoare_StatusUpdate I (x : T) :
  hoare (λ w, I (store w)) (StatusUpdate c x)
    (λ y w, ∃ st old, I st ∧ st !! obj_key (inj x) = Some old ∧
                      inj y = obj_with_status old (inj x) ∧
                      store w = <[obj_key (inj x) := inj y]> st)
    (λ e w, I (store w)).
Proof.
  intros w HI. unfold StatusUpdate, mbind, M_bind.
  destruct (status_update_spec (inj x) w) as (r & w' & E & _ & Hr). rewrite E.
  destruct r as [o|e|]; [|by rewrite Hr|done].
  destruct Hr as (old & Hold & Ho & Hs). unfold as_typed.
  pose proof (store_keys _ _ _ Hold) as Hk.
  destruct (prj_kind (T:=T) o) as [y Hy].
  { assert (obj_key o = obj_key (inj x)) as E' by (by rewrite Ho, obj_with_status_key).
    unfold obj_key in E'. rewrite inj_kind in E'. by simplify_eq. }
  rewrite Hy. cbn. apply inj_prj in Hy as ->. eauto 10.
Qed.

Lemma hoare_Delete I (x : T) :
  hoare (λ w, I (store w)) (Delete c x)
    (λ _ w, ∃ st old, I st ∧ st !! (kind T, key_of (meta x)) = Some old ∧
              (if decide (Finalizers (obj_meta old) = [])
               then store w = delete (kind T, key_of (meta x)) st
               else ∃ now, store w = <[(kind T, key_of (meta x)) := mark_deleted now old]> st))
    (λ e w, I (store w) ∧
            match e with
            | Some e => IsNotFound e = true → store w !! (kind T, key_of (meta x)) = None
            | None => False
            end).
Proof.
  intros w HI. unfold Delete.
  destruct (delete_spec (kind T) (key_of (meta x)) w) as (r & w' & -> & _ & Hr).
  destruct r as [o|e|]; [|destruct Hr as [-> Hr]; split; [done|]; intros E; by rewrite E in Hr|done].
  destruct Hr as (old & Hold & Hs). eauto 10.
Qed.

(** What a run of a typed call tells. *)
Lemma Get_run n w r w' :
  Get c T n w = (r, w') →
  store w' = store w ∧ (up w ↔ up w') ∧
  match r with
  | Ok x => store w !! (kind T, n) = Some (inj x) ∧ key_of (meta x) = n
  | Err e => if IsNotFound e then store w !! (kind T, n) = None else ¬ up w
  | Panic => False
  end.
Proof.
  unfold Get, mbind, M_bind.
  destruct (get_spec (kind T) n w) as (r1 & w1 & -> & Hs & Hu & Hr).
  destruct r1 as [o|e|]; [|by intros [= <- <-]|done].
  unfold as_typed. pose proof (store_keys _ _ _ Hr) as Hk. unfold obj_key in Hk.
  destruct (prj_kind (T:=T) o) as [x Hx]; [by simplify_eq|]. rewrite Hx. intros [= <- <-].
  apply inj_prj in Hx as ->. rewrite inj_meta in Hk. by simplify_eq.
Qed.

Lemma Get_found n w x :
  up w → store w !! (kind T, n) = Some (inj x) →
  ∃ w', Get c T n w = (Ok x, w') ∧ store w' = store w ∧ up w'.
Proof.
  intros Hu Hx. destruct (Get c T n w) as [r w'] eqn:E. apply Get_run in E as (Hs & Hu' & Hr).
  destruct r as [y|e|]; [|case_match; naive_solver congruence|done].
  destruct Hr as [Hr _]. rewrite Hx in Hr. simplify_eq.
  assert (Some x = Some y) as [= ->] by (by rewrite <- !prj_inj; congruence).
  exists w'. naive_solver.
Qed.

Lemma Get_missing n w :
  up w → store w !! (kind T, n) = None →
  ∃ e w', Get c T n w = (Err e, w') ∧ IsNotFound e = true ∧ store w' = store w ∧ up w'.
Proof.
  intros Hu Hx. destruct (Get c T n w) as [r w'] eqn:E. apply Get_run in E as (Hs & Hu' & Hr).
  destruct r as [y|e|]; [naive_solver congruence| |done].
  exists e, w'. destruct (IsNotFound e); naive_solver.
Qed.

Lemma Create_run (x : T) w r w' :
  Create c x w = (r, w') →
  (up w ↔ up w') ∧
  match r with
  | Ok y => store w !! obj_key (inj x) = None ∧ obj_key (inj y) = obj_key (inj x)
            ∧ store w' = <[obj_key (inj x) := inj y]> (store w)
            ∧ client_Create c (inj x) w = (Ok (inj y), w')
  | Err e => store w' = store w
  | Panic => False
  end.
Proof.
  unfold Create, mbind, M_bind.
  destruct (create_spec (inj x) w) as (r1 & w1 & E & Hu & Hr). rewrite E.
  destruct r1 as [o|e|]; [|intros [= <- <-]; by destruct Hr|done].
  destruct Hr as (Hn & Hk & Hs). unfold as_typed.
  destruct (prj_kind (T:=T) o) as [y Hy].
  { unfold obj_key in Hk. rewrite inj_kind in Hk. by simplify_eq. }
  rewrite Hy. intros [= <- <-]. apply inj_prj in Hy as ->. auto.
Qed.

Lemma Update_run (x : T) w r w' :
  Update c x w = (r, w') →
  (up w ↔ up w') ∧
  match r with
  | Ok y => is_Some (store w !! obj_key (inj x)) ∧ obj_key (inj y) = obj_key (inj x)
            ∧ Finalizers (meta y) = Finalizers (meta x)
            ∧ (if is_deleting (meta x) && bool_decide (Finalizers (meta x) = [])
               then store w' = delete (obj_key (inj x)) (store w)
               else store w' = <[obj_key (inj x) := inj y]> (store w))
            ∧ client_Update c (inj x) w = (Ok (inj y), w')
  | Err e => store w' = store w
  | Panic => False
  end.
Proof.
  unfold Update, mbind, M_bind.
  destruct (update_spec (inj x) w) as (r1 & w1 & E & Hu & Hr). rewrite E.
  destruct r1 as [o|e|]; [|by intros [= <- <-]|done].
  destruct Hr as (Hn & Hk & Hf & Hs). unfold as_typed.
  destruct (prj_kind (T:=T) o) as [y Hy].
  { unfold obj_key in Hk. rewrite inj_kind in Hk. by simplify_eq. }
  rewrite Hy. intros [= <- <-]. apply inj_prj in Hy as ->. rewrite !inj_meta in *. auto 10.
Qed.

Lemma StatusUpdate_run (x : T) w r w' :
  StatusUpdate c x w = (r, w') →
  (up w ↔ up w') ∧
  match r with
  | Ok y => ∃ old, store w !! obj_key (inj x) = Some old ∧ inj y = obj_with_status old (inj x)
            ∧ store w' = <[obj_key (inj x) := inj y]> (store w)
  | Err e => store w' = store w
  | Panic => False
  end.
Proof.
  unfold StatusUpdate, mbind, M_bind.
  destruct (status_update_spec (inj x) w) as (r1 & w1 & E & Hu & Hr). rewrite E.
  destruct r1 as [o|e|]; [|by intros [= <- <-]|done].
  destruct Hr as (old & Hold & Ho & Hs). unfold as_typed.
  pose proof (store_keys _ _ _ Hold) as Hk.
  destruct (prj_kind (T:=T) o) as [y Hy].
  { assert (obj_key o = obj_key (inj x)) as E' by (by rewrite Ho, obj_with_status_key).
    unfold obj_key in E'. rewrite inj_kind in E'. by simplify_eq. }
  rewrite Hy. intros [= <- <-]. apply inj_prj in Hy as ->. eauto 10.
Qed.

Lemma List_run opts w r w' :
  lo_Fields opts = [] → List_ c T opts w = (r, w') →
  store w' = store w ∧ (up w ↔ up w') ∧
  match r with
  | Ok xs => NoDup ((λ x, obj_key (inj x)) <$> xs) ∧
             ∀ x, x ∈ xs ↔ store w !! obj_key (inj x) = Some (inj x) ∧ selected opts (inj x) = true
  | Err e => ¬ up w
  | Panic => False
  end.
Proof.
  intros Hf. unfold List_, mbind, M_bind.
  destruct (list_spec (kind T) opts w Hf) as (r1 & w1 & -> & Hs & Hu & Hr).
  destruct r1 as [os|e|]; [|by intros [= <- <-]|done].
  intros [= <- <-]. split; [done|]. split; [done|]. destruct Hr as [Hnd Hin].
  assert (∀ o, o ∈ os → is_Some (prj (T:=T) o)) as Hk.
  { intros o (_ & Hk & _)%Hin. by apply prj_kind. }
  split.
  - clear Hin. induction os as [|o os IH]; cbn; [constructor|].
    apply NoDup_cons in Hnd as [Ho Hnd]. destruct (Hk o) as [x Hx]; [set_solver|]. rewrite Hx. cbn.
    apply inj_prj in Hx as ->. constructor; [|apply IH; [done|set_solver]].
    intros (y & Heq & Hy)%list_elem_of_fmap. apply Ho, list_elem_of_fmap.
    apply list_elem_of_omap in Hy as (o & Hino & Hpo). apply inj_prj in Hpo as ->.
    by exists (inj y).
  - intros x. rewrite list_elem_of_omap. split.
    + intros (o & Ho & Hx). apply inj_prj in Hx as ->. apply Hin in Ho. tauto.
    + intros [Hx Hsel]. exists (inj x). split; [|apply prj_inj]. apply Hin.
      by rewrite inj_kind.
Qed.
End Calls.
