(* ===== verification/Effects.v ===== *)
(** * What the calls of a controller do to the stored objects

    [evolves R m]: whatever its outcome, the computation [m] takes the stored
    objects along the preorder [R].  The lemmas follow the constructs of the
    effect monad; the hint database [evolves] and the tactic [evolve] apply
    them. *)

From S2P Require Import Prelude GoStd GoDate Waiting K8s Types Kube.

Local Open Scope string_scope.

Create HintDb evolves.

Abbreviation Store := (gmap ObjKey Obj).

Section Evolves.
Context {W : Type} (c : Client W) `{!ClientLaws c}.
Implicit Types R : Store → Store → Prop.

Definition evolves {A} R (m : M W A) : Prop :=
  ∀ w r w', m w = (r, w') → R (store w) (store w').

Lemma evolves_weaken {A} R R' (m : M W A) :
  (∀ s s', R s s' → R' s s') → evolves R m → evolves R' m.
Proof. intros HR Hm w r w' E. eapply HR, Hm, E. Qed.

Section Rel.
Context R `{!PreOrder R}.

Lemma evolves_same {A} (m : M W A) :
  (∀ w r w', m w = (r, w') → store w' = store w) → evolves R m.
Proof. intros Hm w r w' E. by rewrite (Hm _ _ _ E). Qed.

Lemma evolves_mret {A} (a : A) : evolves R (mret a).
Proof. apply evolves_same. by intros w r w' [= _ <-]. Qed.
Lemma evolves_fail {A} e : evolves R (fail e : M W A).
Proof. apply evolves_same. by intros w r w' [= _ <-]. Qed.
Lemma evolves_panic {A} : evolves R (panic : M W A).
Proof. apply evolves_same. by intros w r w' [= _ <-]. Qed.
Lemma evolves_lift {A} (o : outcome A) : evolves R (lift o).
Proof. apply evolves_same. by intros w r w' [= _ <-]. Qed.
Lemma evolves_ret_err e : evolves R (ret_err e).
Proof. destruct e; [apply evolves_fail|apply evolves_mret]. Qed.

Lemma evolves_bind {A B} (m : M W A) (f : A → M W B) :
  evolves R m → (∀ a, evolves R (f a)) → evolves R (x ← m; f x).
Proof.
  intros Hm Hf w r w' E. unfold mbind, M_bind in E. destruct (m w) as [[a|e|] w1] eqn:E1.
  - etrans; [exact (Hm _ _ _ E1)|exact (Hf _ _ _ _ E)].
  - injection E as <- <-. exact (Hm _ _ _ E1).
  - injection E as <- <-. exact (Hm _ _ _ E1).
Qed.

(** The continuation may use that the value is one the call has returned. *)
Lemma evolves_bind_run {A B} (m : M W A) (f : A → M W B) :
  evolves R m → (∀ a w w', m w = (Ok a, w') → evolves R (f a)) → evolves R (x ← m; f x).
Proof.
  intros Hm Hf w r w' E. unfold mbind, M_bind in E. destruct (m w) as [[a|e|] w1] eqn:E1.
  - etrans; [exact (Hm _ _ _ E1)|]. exact (Hf _ _ _ E1 _ _ _ E).
  - injection E as <- <-. exact (Hm _ _ _ E1).
  - injection E as <- <-. exact (Hm _ _ _ E1).
Qed.

Lemma evolves_bind_lift {A B} (o : outcome A) (f : A → M W B) :
  (∀ a, o = Ok a → evolves R (f a)) → evolves R (x ← lift o; f x).
Proof.
  intros Hf w r w' E. unfold mbind, M_bind, lift in E. destruct o as [a|e|].
  - exact (Hf a eq_refl _ _ _ E).
  - by injection E as <- <-.
  - by injection E as <- <-.
Qed.

Lemma evolves_attempt {A} (m : M W A) : evolves R m → evolves R (attempt m).
Proof.
  intros Hm w r w' E. unfold attempt in E. destruct (m w) as [[a|e|] w1] eqn:E1;
    injection E as <- <-; exact (Hm _ _ _ E1).
Qed.

Lemma evolves_ignore_not_found (m : M W unit) : evolves R m → evolves R (ignore_not_found m).
Proof.
  intros Hm. apply evolves_bind; [by apply evolves_attempt|].
  intros [[]|e]; [apply evolves_mret|]. destruct (IsNotFound e); [apply evolves_mret|apply evolves_fail].
Qed.

Lemma evolves_for_each {A} (l : list A) (body : A → M W unit) :
  (∀ x, evolves R (body x)) → evolves R (for_each l body).
Proof.
  intros Hb. induction l as [|x l IH]; cbn [for_each]; [apply evolves_mret|].
  apply evolves_bind; [apply Hb|done].
Qed.

Lemma evolves_fold {A S} (f : S → A → M W S) l s :
  (∀ s x, evolves R (f s x)) → evolves R (fold_m f l s).
Proof.
  intros Hf. revert s. induction l as [|x l IH]; intros s; cbn [fold_m]; [apply evolves_mret|].
  apply evolves_bind; [apply Hf|done].
Qed.

Lemma evolves_join_all ms : Forall (evolves R) ms → evolves R (join_all ms).
Proof.
  induction 1 as [|m ms Hm _ IH]; cbn [join_all]; [apply evolves_mret|].
  apply evolves_bind; [by apply evolves_attempt|]. intros r. apply evolves_bind; [done|].
  intros es. apply evolves_mret.
Qed.

(** Polling and retrying, for any number of times. *)
Lemma evolves_poll_loop {S} stop n (condition : Waiting.Condition W S) s :
  (∀ s, evolves R (condition s)) → evolves R (Waiting.poll_loop stop n condition s).
Proof.
  intros Hc. revert s. induction n as [|n IH]; intros s; cbn [Waiting.poll_loop]; [apply evolves_mret|].
  apply evolves_bind; [apply Hc|]. intros [[done [e|]] s']; [apply evolves_mret|].
  destruct done; [apply evolves_mret|apply IH].
Qed.

Lemma evolves_poll_timeout `{Waiting.PollerLaw W} {S} interval timeout immediate (condition : Waiting.Condition W S) s :
  (0 < interval)%Z → (∀ s, evolves R (condition s)) →
  evolves R (Waiting.PollUntilContextTimeout interval timeout immediate condition s).
Proof.
  intros Hi Hc w r w' E.
  destruct (Waiting.poll_timeout_spec interval timeout immediate condition s w Hi) as (n & stop & _ & _ & Hn).
  rewrite Hn in E. by eapply evolves_poll_loop.
Qed.

Lemma evolves_retry `{Waiting.RetrierLaw W} {A} steps retriable (f : M W A) :
  (0 < steps)%nat → evolves R f → evolves R (Waiting.retry_OnError steps retriable f).
Proof.
  intros Hs Hf w r w' E. rewrite Waiting.retry_spec in E by done.
  assert (PreOrder (λ w w', R (store w) (store w'))) as HP
    by (split; [by intros x|intros x y z H1 H2; by etrans]).
  exact (Waiting.retry_loop_keeps (λ w w', R (store w) (store w')) _ _ _ _ _ _ Hf E).
Qed.

Section Typed.
Context {T : Type} `{Resource T}.

Lemma evolves_Get n : evolves R (Get c T n).
Proof. apply evolves_same. intros w r w' E%(Get_run c). by destruct E. Qed.

Lemma evolves_Get_bind {B} n (f : T + error → M W B) :
  (∀ x, key_of (meta x) = n → evolves R (f (inl x))) → (∀ e, evolves R (f (inr e))) →
  evolves R (r ← attempt (Get c T n); f r).
Proof.
  intros H1 H2. apply evolves_bind_run; [apply evolves_attempt, evolves_Get|].
  intros [x|e] w w' E; [|apply H2]. apply attempt_inv, (Get_run c) in E as (_ & _ & _ & Hk). by apply H1.
Qed.

Lemma evolves_List opts : lo_Fields opts = [] → evolves R (List_ c T opts).
Proof. intros Hf. apply evolves_same. intros w r w' E%(List_run c); [|done]. by destruct E. Qed.

Lemma evolves_Create (x : T) :
  (∀ s (y : T), s !! obj_key (inj x) = None → obj_key (inj y) = obj_key (inj x) →
          R s (<[obj_key (inj x) := inj y]> s)) →
  evolves R (Create c x).
Proof.
  intros HR w r w' E%(Create_run c). destruct E as [_ Hr]. destruct r as [y|e|]; [|by rewrite Hr|done].
  destruct Hr as (Hn & Hk & -> & _). by apply HR.
Qed.

Lemma evolves_Update (x : T) :
  (∀ s (y : T), is_Some (s !! obj_key (inj x)) → obj_key (inj y) = obj_key (inj x) →
          R s (<[obj_key (inj x) := inj y]> s)) →
  (∀ s, is_deleting (meta x) = true → Finalizers (meta x) = [] → R s (delete (obj_key (inj x)) s)) →
  evolves R (Update c x).
Proof.
  intros H1 H2 w r w' E%(Update_run c). destruct E as [_ Hr]. destruct r as [y|e|]; [|by rewrite Hr|done].
  destruct Hr as (Hn & Hk & _ & Hs & _). destruct (is_deleting (meta x)) eqn:Hd; cbn in Hs;
    [|rewrite Hs; by apply H1].
  case_bool_decide; rewrite Hs; [by apply H2|by apply H1].
Qed.

Lemma evolves_Delete (x : T) :
  (∀ s o v, s !! (kind T, key_of (meta x)) = Some o → removed o v →
            R s (partial_alter (λ _, v) (kind T, key_of (meta x)) s)) →
  evolves R (Delete c x).
Proof.
  intros HR w r w' E. unfold Delete in E.
  destruct (delete_spec (kind T) (key_of (meta x)) w) as (r1 & w1 & E1 & _ & Hr).
  rewrite E1 in E. injection E as -> ->. destruct r as [u|e|]; [|by destruct Hr as [-> _]|done].
  destruct Hr as (old & Hold & Hs). case_decide.
  - rewrite Hs. apply (HR _ old None Hold). unfold removed. by rewrite decide_True.
  - destruct Hs as [now ->]. apply (HR _ old (Some _) Hold). unfold removed.
    rewrite decide_False by done. by eexists.
Qed.
End Typed.
End Rel.
End Evolves.

(** ** Changes object by object

    A preorder per key, on what the key holds. *)
Section PerKey.
Context (P : ObjKey → option Obj → option Obj → Prop) `{!∀ i, PreOrder (P i)}.

Definition per_key (s s' : Store) : Prop := ∀ i, P i (s !! i) (s' !! i).

#[export] Instance per_key_preorder : PreOrder per_key.
Proof.
  split; [by intros s i|]. intros s1 s2 s3 H1 H2 i. etrans; [apply H1|apply H2].
Qed.

Lemma per_key_alter s i v : P i (s !! i) v → per_key s (partial_alter (λ _, v) i s).
Proof.
  intros Hi j. destruct (decide (i = j)) as [<-|Hj].
  - by rewrite lookup_partial_alter_eq.
  - by rewrite lookup_partial_alter_ne.
Qed.

Lemma per_key_insert s i o : P i (s !! i) (Some o) → per_key s (<[i := o]> s).
Proof. apply (per_key_alter s i (Some o)). Qed.

Lemma per_key_delete s i : P i (s !! i) None → per_key s (delete i s).
Proof. apply (per_key_alter s i None). Qed.

Context {W : Type} (c : Client W) `{!ClientLaws c}.

Lemma per_key_DeleteAllOf T `{Resource T} opts :
  lo_Fields opts = [] →
  (∀ i o v, obj_kind o = kind T → obj_key o = i → selected opts o = true → removed o v →
            P i (Some o) v) →
  evolves c per_key (DeleteAllOf c T opts).
Proof.
  intros Hf HP w r w' E i. unfold DeleteAllOf in E.
  destruct (delete_all_spec (kind T) opts w Hf) as (r1 & w1 & E1 & _ & _ & Hs & _).
  rewrite E1 in E. injection E as -> ->. destruct (Hs i) as [->|(o & Ho & Hk & Hsel & Hrem)]; [done|].
  rewrite Ho. apply (HP i o); try done. exact (store_keys _ _ _ Ho).
Qed.
End PerKey.

(** The changes confined to some keys: what is stored under the others stays. *)
Definition only (K : ObjKey → Prop) (i : ObjKey) (v v' : option Obj) : Prop := K i ∨ v' = v.

#[export] Instance only_preorder K i : PreOrder (only K i).
Proof.
  split; [by right|]. intros v1 v2 v3 [HK|H1] [HK'|H2]; unfold only; [auto..|right; congruence].
Qed.

(** ** Writes that are stored as they are given

    The server stores the part [f] of an object as it receives it (the
    metadata, and what it defaults, are its own). *)
Class Keeps {W} (c : Client W) {T} `{Resource T} {A} (f : T → A) : Prop := {
  create_keeps x w y w' : client_Create c (inj x) w = (Ok (inj y), w') → f y = f x;
  update_keeps x w y w' : client_Update c (inj x) w = (Ok (inj y), w') → f y = f x;
}.

#[export] Instance mem_keeps {T} `{Resource T} {A} (f : T → A) : Keeps mem_client f.
Proof.
  assert (∀ x y : T, inj y = inj x → f y = f x) as Hinj.
  { intros x y E. apply (f_equal (prj (T:=T))) in E. rewrite !prj_inj in E. congruence. }
  split; intros x w y w'; cbn; unfold mem_create, mem_update, mem_guard; destruct (mem_up w); try done;
    repeat case_match; intros [= E _]; by apply Hinj.
Qed.

(** ** Calls that leave the stored objects alone *)
Definition silent {W} (c : Client W) `{!ClientLaws c} {A} (m : M W A) : Prop :=
  ∀ w r w', m w = (r, w') → store w' = store w.

(** A client of another cluster: none of its calls changes what [c] stores. *)
Class Foreign {W} (c : Client W) `{!ClientLaws c} (vc : Client W) : Prop := {
  foreign_Get k n : silent c (client_Get vc k n);
  foreign_List k opts : silent c (client_List vc k opts);
  foreign_Create o : silent c (client_Create vc o);
  foreign_Update o : silent c (client_Update vc o);
  foreign_StatusUpdate o : silent c (client_StatusUpdate vc o);
  foreign_Delete k n : silent c (client_Delete vc k n);
  foreign_DeleteAllOf k opts : silent c (client_DeleteAllOf vc k opts);
}.

Section Confined.
Context {W : Type} (c : Client W) `{!ClientLaws c}.

Lemma silent_evolves R `{!PreOrder R} {A} (m : M W A) : silent c m → evolves c R m.
Proof. intros Hm. apply evolves_same; [exact _|done]. Qed.

Lemma silent_eq {A} (m : M W A) : silent c m ↔ evolves c eq m.
Proof. split; intros Hm w r w' E; [symmetry|]; by rewrite (Hm _ _ _ E). Qed.

Lemma silent_bind {A B} (m : M W A) (f : A → M W B) :
  silent c m → (∀ a, silent c (f a)) → silent c (x ← m; f x).
Proof. rewrite silent_eq. setoid_rewrite silent_eq. apply evolves_bind, _. Qed.

Lemma silent_as_typed {T} `{Resource T} o : silent c (as_typed o : M W T).
Proof. intros w r w'. unfold as_typed. destruct (prj o); by intros [= _ <-]. Qed.

(** [confined K m]: whatever its outcome, [m] changes the objects stored under
    the keys [K] only. *)
Definition confined (K : ObjKey → Prop) {A} (m : M W A) : Prop := evolves c (per_key (only K)) m.

Lemma confined_weaken (K K' : ObjKey → Prop) {A} (m : M W A) :
  (∀ i, K i → K' i) → confined K m → confined K' m.
Proof. intros HK. apply evolves_weaken. intros s s' Hs i. destruct (Hs i); unfold only; auto. Qed.

Lemma confined_frame K {A} (m : M W A) w r w' i :
  confined K m → m w = (r, w') → ¬ K i → store w' !! i = store w !! i.
Proof. intros Hm E Hi. by destruct (Hm _ _ _ E i). Qed.

Context (K : ObjKey → Prop).
Context {T : Type} `{Resource T}.

Lemma confined_Create (x : T) : K (obj_key (inj x)) → confined K (Create c x).
Proof. intros Hx. apply evolves_Create; [exact _|]. intros s y _ _. apply per_key_insert; [exact _|by left]. Qed.

Lemma confined_Update (x : T) : K (obj_key (inj x)) → confined K (Update c x).
Proof.
  intros Hx. apply evolves_Update; [exact _|..]; intros;
    [apply per_key_insert|apply per_key_delete]; (exact _ || by left).
Qed.

Lemma confined_StatusUpdate (x : T) : K (obj_key (inj x)) → confined K (StatusUpdate c x).
Proof.
  intros Hx w r w' E. apply (StatusUpdate_run c) in E as [_ Hr].
  destruct r as [y|e|]; [|by rewrite Hr|done]. destruct Hr as (old & _ & _ & ->).
  apply per_key_insert; [exact _|by left].
Qed.

Lemma confined_client_Delete k n : K (k, n) → confined K (client_Delete c k n).
Proof.
  intros Hx w r w' E. destruct (delete_spec k n w) as (r1 & w1 & E1 & _ & Hr).
  rewrite E1 in E. injection E as <- <-. destruct r1 as [u|e|]; [|by destruct Hr as [-> _]|done].
  destruct Hr as (old & Hold & Hs).
  case_decide; [rewrite Hs; apply per_key_delete|destruct Hs as [now ->]; apply per_key_insert];
    (exact _ || by left).
Qed.

Lemma confined_Delete (x : T) : K (obj_key (inj x)) → confined K (Delete c x).
Proof. intros Hx. apply confined_client_Delete. revert Hx. unfold obj_key. by rewrite inj_kind, inj_meta. Qed.

Lemma confined_CreateOrUpdate `{KubeUtilLaws} (x : T) f :
  K (obj_key (inj x)) → confined K (CreateOrUpdate c x f).
Proof.
  intros Hx. unfold CreateOrUpdate. apply evolves_bind; [exact _| |].
  2:{ intros [r o]. apply evolves_bind; [exact _| |intros; apply evolves_mret; exact _].
      apply silent_evolves; [exact _|apply silent_as_typed]. }
  set (g := λ o : Obj, _). intros w r w' E. rewrite CreateOrUpdate_law in E. revert w r w' E.
  unfold create_or_update. destruct (obj_key (inj x)) as [k n] eqn:Ek.
  assert (∀ o o', mutate g o = Ok o' → obj_key o' = obj_key o) as Hg.
  { intros o o'. unfold mutate. destruct (g o) as [o1|e|]; cbn; [|done..].
    case_decide; [|done]. by intros [= <-]. }
  apply (evolves_bind_run c); [exact _|intros w r w'; unfold attempt;
    destruct (get_spec k n w) as (r1 & w1 & -> & Hs & _); destruct r1; intros [= _ <-]; by rewrite Hs|].
  intros [cur|e] w w1 E.
  - apply attempt_inv in E. destruct (get_spec k n w) as (r2 & w2 & E2 & _ & _ & Hr).
    rewrite E2 in E. injection E as -> ->. apply store_keys in Hr.
    apply evolves_bind_lift; [exact _|]. intros o' Ho'. apply Hg in Ho'.
    case_decide; [apply evolves_mret; exact _|]. apply evolves_bind; [exact _| |intros; apply evolves_mret; exact _].
    intros w3 r3 w4 E3. destruct (update_spec o' w3) as (r5 & w5 & E5 & _ & Hr5).
    rewrite E5 in E3. injection E3 as <- <-. destruct r5 as [o5|e5|]; [|by rewrite Hr5|done].
    destruct Hr5 as (_ & _ & _ & Hs). rewrite Ho', Hr in Hs.
    destruct (_ && _); rewrite Hs; [apply per_key_delete|apply per_key_insert]; (exact _ || by left).
  - case_match; [|apply evolves_fail; exact _]. apply evolves_bind_lift; [exact _|]. intros o' Ho'.
    apply Hg in Ho'. apply evolves_bind; [exact _| |intros; apply evolves_mret; exact _].
    intros w3 r3 w4 E3. destruct (create_spec o' w3) as (r5 & w5 & E5 & _ & Hr5).
    rewrite E5 in E3. injection E3 as <- <-. destruct r5 as [o5|e5|]; [|by destruct Hr5 as [-> _]|done].
    destruct Hr5 as (_ & _ & ->). rewrite Ho', Ek. apply per_key_insert; [exact _|by left].
Qed.
End Confined.

(** What a run of [CreateOrUpdate] does. *)
Section Upsert.
Context {W : Type} (c : Client W) `{!ClientLaws c} `{KubeUtilLaws} {T : Type} `{Resource T}.

Definition upserted (x y : T) (f : T → outcome T) (w w' : W) : Prop :=
  (store w !! obj_key (inj x) = None ∧ ∃ z w1, f x = Ok z ∧ client_Create c (inj z) w1 = (Ok (inj y), w') ∧
     store w' = <[obj_key (inj x) := inj y]> (store w)) ∨
  ∃ cur z : T, store w !! obj_key (inj x) = Some (inj cur) ∧ f cur = Ok z ∧
    ((z = cur ∧ y = cur ∧ store w' = store w) ∨
     ∃ w1, client_Update c (inj z) w1 = (Ok (inj y), w') ∧
       store w' = if is_deleting (meta z) && bool_decide (Finalizers (meta z) = [])
                  then delete (obj_key (inj x)) (store w)
                  else <[obj_key (inj x) := inj y]> (store w)).

Lemma CreateOrUpdate_run (x : T) f w r w' :
  CreateOrUpdate c x f w = (r, w') →
  match r with
  | Ok (_, y) => obj_key (inj y) = obj_key (inj x) ∧ upserted x y f w w'
  | _ => store w' = store w
  end.
Proof.
  unfold CreateOrUpdate. set (g := λ o : Obj, _). unfold mbind at 1, M_bind at 1.
  rewrite CreateOrUpdate_law. unfold create_or_update. destruct (obj_key (inj x)) as [k n] eqn:Ek.
  assert (∀ y : T, kind T = obj_kind (inj y)) as Hkind by (intros; by rewrite inj_kind).
  assert (∀ o, g (inj o) = (z ← f o; mret (inj z))) as Hg by (intros o; unfold g; by rewrite prj_inj).
  assert (∀ (o : T) o', mutate g (inj o) = Ok o' →
            ∃ z, f o = Ok z ∧ o' = inj z ∧ obj_key (inj z) = obj_key (inj o)) as Hmut.
  { intros o o'. unfold mutate. rewrite Hg. destruct (f o) as [z|e|]; cbn; [|done..].
    case_decide as Hk; [|done]. intros [= <-]. by exists z. }
  assert (∀ o, obj_key o = obj_key (inj x) → ∃ y : T, o = inj y) as Htyped.
  { intros o Ho. destruct (prj_kind (T:=T) o) as [y Hy].
    - apply (f_equal fst) in Ho. cbn in Ho. by rewrite Ho, inj_kind.
    - exists y. by apply inj_prj. }
  unfold mbind at 1, M_bind at 1, attempt. destruct (get_spec k n w) as (r1 & w1 & -> & Hs & _ & Hr).
  destruct r1 as [o|e|]; [| |done].
  - pose proof (store_keys _ _ _ Hr) as Ho. destruct (Htyped o) as [cur ->]; [congruence|].
    unfold mbind at 1, M_bind at 1, lift. destruct (mutate g (inj cur)) as [o'|e|] eqn:Em; [|by intros [= <- <-]..].
    apply Hmut in Em as (z & Hz & -> & Hzk). case_decide as Hsame.
    + cbn. unfold mbind, M_bind, as_typed. rewrite prj_inj. cbn. intros [= <- <-]. split; [congruence|].
      right. exists cur, z. rewrite Ek. split_and!; [done..|]. left. split_and!; [|done..].
      apply (f_equal (prj (T:=T))) in Hsame. rewrite !prj_inj in Hsame. congruence.
    + unfold mbind at 1, M_bind at 1. destruct (update_spec (inj z) w1) as (r2 & w2 & E2 & _ & Hr2). rewrite E2.
      destruct r2 as [o2|e|]; [|intros [= <- <-]; by rewrite Hr2|done].
      destruct Hr2 as (_ & Hk2 & _ & Hs2). destruct (Htyped o2) as [y ->]; [congruence|].
      cbn. unfold mbind, M_bind, as_typed. rewrite prj_inj. cbn. intros [= <- <-]. split; [congruence|].
      right. exists cur, z. rewrite Ek. split_and!; [done..|]. right. exists w1. split; [done|].
      rewrite !inj_meta, Hzk, Hs in Hs2. rewrite Ho in Hs2. by destruct (_ && _).
  - destruct (IsNotFound e); [|by intros [= <- <-]].
    unfold mbind at 1, M_bind at 1, lift. destruct (mutate g (inj x)) as [o'|e'|] eqn:Em; [|by intros [= <- <-]..].
    apply Hmut in Em as (z & Hz & -> & Hzk).
    unfold mbind at 1, M_bind at 1. destruct (create_spec (inj z) w1) as (r2 & w2 & E2 & _ & Hr2). rewrite E2.
    destruct r2 as [o2|e2|]; [|intros [= <- <-]; by destruct Hr2 as [-> _]|done].
    destruct Hr2 as (Hn2 & Hk2 & Hs2). destruct (Htyped o2) as [y ->]; [congruence|].
    cbn. unfold mbind, M_bind, as_typed. rewrite prj_inj. cbn. intros [= <- <-]. split; [congruence|].
    left. rewrite Ek. split; [done|]. exists z, w1. split_and!; [done..|]. by rewrite Hs2, Hzk, Ek, Hs.
Qed.
End Upsert.

(** The typed calls on another cluster are silent. *)
Section ForeignTyped.
Context {W : Type} (c : Client W) `{!ClientLaws c} (vc : Client W) `{!Foreign c vc}.
Context {T : Type} `{Resource T}.

Lemma silent_typed (m : M W Obj) : silent c m → silent c (o ← m; as_typed o : M W T).
Proof. intros Hm. apply silent_bind; [done|]. intros o. apply silent_as_typed. Qed.

Lemma silent_Get n : silent c (Get vc T n).
Proof. apply silent_typed, foreign_Get. Qed.
Lemma silent_Create (x : T) : silent c (Create vc x).
Proof. apply silent_typed, foreign_Create. Qed.
Lemma silent_Update (x : T) : silent c (Update vc x).
Proof. apply silent_typed, foreign_Update. Qed.
Lemma silent_StatusUpdate (x : T) : silent c (StatusUpdate vc x).
Proof. apply silent_typed, foreign_StatusUpdate. Qed.
Lemma silent_Delete (x : T) : silent c (Delete vc x).
Proof. apply foreign_Delete. Qed.
End ForeignTyped.

#[export] Hint Resolve evolves_mret evolves_fail evolves_panic evolves_lift evolves_ret_err
  evolves_attempt evolves_ignore_not_found evolves_for_each evolves_fold evolves_Get : evolves.

(** Walk through a computation; the writes are left, unless the database
    knows them. *)
Ltac evolve_step :=
  match goal with
  | |- evolves _ _ (mbind _ (lift _)) =>
      apply evolves_bind_lift; [exact _|]; let H := fresh "Hlift" in intros ? H
  | |- evolves _ _ (mbind _ _) => apply evolves_bind; [exact _| |intros ?]
  | |- evolves _ _ (if ?b then _ else _) => destruct b eqn:?
  | |- evolves _ _ (match ?x with _ => _ end) => destruct x eqn:?
  | |- evolves _ _ (let '(_, _) := ?x in _) => destruct x eqn:?
  | |- evolves _ _ (attempt _) => apply evolves_attempt
  | |- evolves _ _ (ignore_not_found _) => apply evolves_ignore_not_found; [exact _|]
  | |- evolves _ _ (for_each _ _) => apply evolves_for_each; [exact _|intros ?]
  | |- evolves _ _ (fold_m _ _ _) => apply evolves_fold; [exact _|intros ? ?]
  | |- evolves _ _ (List_ _ _ _) => apply evolves_List; [exact _|reflexivity]
  | |- evolves _ _ _ => solve [auto with evolves typeclass_instances]
  end.
Ltac evolve := repeat evolve_step.

(** ** The same for any state: what a run keeps *)
Section Stable.
Context {S : Type} (R : S → S → Prop) `{!PreOrder R}.

Definition stable {A} (m : M S A) : Prop := ∀ s r s', m s = (r, s') → R s s'.

Lemma stable_same {A} (m : M S A) : (∀ s, (m s).2 = s) → stable m.
Proof using PreOrder0. intros Hm s r s' E. specialize (Hm s). rewrite E in Hm. cbn in Hm. by rewrite Hm. Qed.

Lemma stable_mret {A} (a : A) : stable (mret a).
Proof using PreOrder0. by apply stable_same. Qed.
Lemma stable_fail {A} e : stable (fail e : M S A).
Proof using PreOrder0. by apply stable_same. Qed.
Lemma stable_lift {A} (o : outcome A) : stable (lift o).
Proof using PreOrder0. by apply stable_same. Qed.

Lemma stable_bind_run {A B} (m : M S A) (f : A → M S B) :
  stable m → (∀ a s s', m s = (Ok a, s') → stable (f a)) → stable (x ← m; f x).
Proof using PreOrder0.
  intros Hm Hf s r s' E. unfold mbind, M_bind in E. destruct (m s) as [[a|e|] s1] eqn:E1.
  - etrans; [exact (Hm _ _ _ E1)|]. exact (Hf _ _ _ E1 _ _ _ E).
  - injection E as <- <-. exact (Hm _ _ _ E1).
  - injection E as <- <-. exact (Hm _ _ _ E1).
Qed.

Lemma stable_bind {A B} (m : M S A) (f : A → M S B) :
  stable m → (∀ a, stable (f a)) → stable (x ← m; f x).
Proof using PreOrder0. intros Hm Hf. by apply stable_bind_run. Qed.

Lemma stable_bind_lift {A B} (o : outcome A) (f : A → M S B) :
  (∀ a, o = Ok a → stable (f a)) → stable (x ← lift o; f x).
Proof using PreOrder0.
  intros Hf. apply stable_bind_run; [apply stable_lift|]. intros a s s' E. apply Hf. by injection E.
Qed.

Lemma stable_attempt {A} (m : M S A) : stable m → stable (attempt m).
Proof using.
  intros Hm s r s' E. unfold attempt in E.
  destruct (m s) as [[a|e|] s1] eqn:E1; injection E as <- <-; exact (Hm _ _ _ E1).
Qed.

Lemma stable_for_each {A} (l : list A) (body : A → M S unit) :
  (∀ x, x ∈ l → stable (body x)) → stable (for_each l body).
Proof using PreOrder0.
  induction l as [|x l IH]; intros Hb; cbn [for_each]; [apply stable_mret|].
  apply stable_bind; [apply Hb; left|]. intros _. apply IH. intros y Hy. apply Hb. by right.
Qed.
End Stable.

(** Walk through a computation; the steps that are no constructs are left. *)
Ltac stable_step :=
  match goal with
  | |- stable _ (mbind _ _) => apply stable_bind; [exact _| |intros ?]
  | |- stable _ (if ?b then _ else _) => destruct b eqn:?
  | |- stable _ (match ?x with _ => _ end) => destruct x eqn:?
  | |- stable _ (attempt _) => apply stable_attempt
  | |- stable _ (mret _) => apply stable_mret; exact _
  | |- stable _ (fail _) => apply stable_fail; exact _
  | |- stable _ (lift _) => apply stable_lift; exact _
  | |- stable _ (for_each _ _) => apply stable_for_each; [exact _|intros ? ?]
  end.
Ltac walk := repeat stable_step.
