(* ===== verification/Names.v ===== *)
(** * Versions and names (pkg/controller/controller.go)

    The k3s version of a cluster and the length-safe names of its resources,
    with the theorems that the names are valid DNS labels and that two
    different joined names can only meet through the digest. *)

From S2P Require Import Prelude GoStd GoNet Sha256 K8s Types.

Local Open Scope string_scope.
Local Open Scope nat_scope.

Module Names.

Definition namePrefix : string := "k3k".

(** ** Versions *)
Record K3sVersion : Type := { Raw : string }.

Definition ResolveK3sVersion (cluster : Cluster) : K3sVersion :=
  if decide (Version (cl_Spec cluster) ≠ "") then {| Raw := Version (cl_Spec cluster) |}
  else if decide (st_HostVersion (cl_Status cluster) ≠ "")
  then {| Raw := st_HostVersion (cl_Status cluster) +:+ "-k3s1" |}
  else {| Raw := "latest" |}.

Definition ImageTag (v : K3sVersion) : string := Raw v.

Definition ReleaseName (v : K3sVersion) : string := strings_Replace1 (Raw v) "-" "+".

(** [strings.Split(s, sep)[0]]: [Split] never returns an empty slice here. *)
Definition first_field (s sep : string) : string := hd "" (strings_Split s sep).

Definition KubernetesVersion (v : K3sVersion) : string := first_field (first_field (Raw v) "-") "+".

Definition K3SImage (cluster : Cluster) (k3SImage : string) : string :=
  k3SImage +:+ ":" +:+ ImageTag (ResolveK3sVersion cluster).

(** ** Names *)
Definition FilterDNSNames (names : list string) : list string :=
  slices_DeleteFunc names (λ name, bool_decide (is_Some (ParseIP name))).

(** ['a' <= c && c <= 'z' || '0' <= c && c <= '9'] *)
Definition is_alnum (c : ascii) : bool :=
  let n := nat_of_ascii c in
  (bool_decide (97 ≤ n)%nat && bool_decide (n ≤ 122)%nat)
  || (bool_decide (48 ≤ n)%nat && bool_decide (n ≤ 57)%nat).

Definition SafeConcatName (name : list string) : string :=
  let name := slices_DeleteFunc name (λ s, bool_decide (s = "")) in
  let fullPath := strings_Join name "-" in
  if decide (String.length fullPath < 64) then fullPath
  else
    let digest := sha256_Sum256 fullPath in
    match str_at fullPath 56 with
    | Some c =>
        if is_alnum c
        then str_take 57 fullPath +:+ "-" +:+ str_take 5 (hex_encode digest)
        else str_take 56 fullPath +:+ "-" +:+ str_take 6 (hex_encode digest)
    | None => fullPath (* unreachable: the path has at least 64 bytes *)
    end.

Definition SafeConcatNameWithPrefix (name : list string) : string :=
  SafeConcatName (namePrefix :: name).

(** ** Helper lemmas *)
Lemma str_at_Some s i : i < String.length s → is_Some (str_at s i).
Proof.
  revert i. induction s as [|c s IH]; intros [|i]; cbn; intros; [lia|lia|by eexists|].
  apply IH. lia.
Qed.

Lemma join_cons x y l sep :
  strings_Join (x :: y :: l) sep = x +:+ sep +:+ strings_Join (y :: l) sep.
Proof. done. Qed.

(** The full path the name is cut from. *)
Definition full_path (name : list string) : string :=
  strings_Join (slices_DeleteFunc name (λ s, bool_decide (s = ""))) "-".

Lemma SafeConcatName_cases name :
  let p := full_path name in
  (String.length p < 64 ∧ SafeConcatName name = p) ∨
  (64 ≤ String.length p ∧ ∃ n c, str_at p 56 = Some c ∧
     (n = if is_alnum c then 57 else 56) ∧
     SafeConcatName name
     = str_take n p +:+ String "-" (str_take (62 - n) (hex_encode (sha256_Sum256 p)))).
Proof.
  intros p. unfold SafeConcatName. fold (full_path name). fold p.
  destruct (decide (String.length p < 64)) as [H|H]; [by left|]. right. split; [lia|].
  destruct (str_at_Some p 56) as [c E]; [lia|]. rewrite E.
  destruct (is_alnum c) eqn:Hc; eexists _, c; rewrite Hc; done.
Qed.

Lemma digest_hex_length p : String.length (hex_encode (sha256_Sum256 p)) = 64.
Proof. by rewrite hex_encode_length, sha256_Sum256_length. Qed.

(** ** DNS labels (RFC 1123), the syntax of the names of Kubernetes objects *)
Definition label_char (c : ascii) : Prop := is_alnum c = true ∨ c = "-"%char.

Record dns_label_body (s : string) : Prop := {
  label_chars : str_forall label_char s;
  label_first : ∃ c s', s = String c s' ∧ is_alnum c = true;
  label_last : ∃ c, str_last s = Some c ∧ is_alnum c = true;
}.

(** A valid name: a label of at most 63 characters. *)
Definition dns_label (s : string) : Prop := dns_label_body s ∧ String.length s ≤ 63.

Lemma is_hex_alnum c : is_hex c → is_alnum c = true.
Proof.
  unfold is_hex, is_alnum. intros H. apply orb_true_iff.
  rewrite !andb_true_iff, !bool_decide_eq_true. lia.
Qed.

Lemma dns_label_body_app s t :
  dns_label_body s → dns_label_body t → dns_label_body (s +:+ "-" +:+ t).
Proof.
  intros [H1 (c & s' & -> & Hc) _] [H2 (d & t' & -> & Hd) (e & He & Hl)]. split.
  - rewrite !str_forall_app. split_and!; [done| |done]. by constructor; [right|].
  - by eexists _, _.
  - exists e. split; [|done]. rewrite <- str_app_assoc. by rewrite str_last_app.
Qed.

Lemma dns_label_body_join l :
  l ≠ [] → Forall dns_label_body l → dns_label_body (strings_Join l "-").
Proof.
  intros _Hne H. destruct l as [|x l]; [done|]. clear _Hne.
  revert x H. induction l as [|y l IH]; intros x [Hx Hl]%Forall_cons_iff; [done|].
  rewrite join_cons. apply dns_label_body_app; auto.
Qed.

Lemma str_last_forall P s c : str_forall P s → str_last s = Some c → P c.
Proof.
  induction s as [|d s IH]; [done|]. intros [Hd Hs]%str_forall_cons.
  destruct s; [by intros [= <-]|]. rewrite str_last_cons. auto.
Qed.

Lemma str_last_Some s : s ≠ "" → is_Some (str_last s).
Proof.
  induction s as [|c s IH]; [done|]. intros _. destruct s; [by eexists|].
  rewrite str_last_cons. by apply IH.
Qed.

Lemma hex_tail_alnum p k :
  0 < k ≤ 64 →
  str_take k (hex_encode (sha256_Sum256 p)) ≠ "" ∧
  str_forall (λ c, is_alnum c = true) (str_take k (hex_encode (sha256_Sum256 p))).
Proof.
  intros Hk. split.
  - intros E. apply (f_equal String.length) in E.
    rewrite str_take_length, digest_hex_length in E. cbn in E. lia.
  - apply str_forall_take. eapply Forall_impl; [apply hex_encode_chars|]. apply is_hex_alnum.
Qed.

Lemma filter_nonempty_nonnil (l : list string) :
  Forall dns_label_body l → slices_DeleteFunc l (λ s, bool_decide (s = "")) = l.
Proof.
  unfold slices_DeleteFunc. induction l as [|x l IH]; intros H; cbn; [done|].
  apply Forall_cons_iff in H as [[_ (c & s' & -> & _) _] Hl].
  rewrite bool_decide_false by done. cbn. by rewrite IH.
Qed.

Lemma str_take_app_le n s t : n ≤ String.length s → str_take n (s +:+ t) = str_take n s.
Proof.
  revert s. induction n as [|n IH]; intros [|c s]; cbn; intros; auto; [lia|]. by rewrite IH by lia.
Qed.

Lemma str_take_take n m s : str_take n (str_take m s) = str_take (n `min` m) s.
Proof.
  revert m s. induction n as [|n IH]; intros [|m] [|c s]; cbn; auto. by rewrite IH.
Qed.

Lemma str_at_app_lt s t i : i < String.length s → str_at (s +:+ t) i = str_at s i.
Proof.
  revert i. induction s as [|c s IH]; intros [|i]; cbn; intros; auto; [lia|lia|]. apply IH. lia.
Qed.

Lemma str_at_app_eq s c t : str_at (s +:+ String c t) (String.length s) = Some c.
Proof. induction s as [|d s IH]; cbn; auto. Qed.

Lemma str_at_take s n i : i < n → str_at (str_take n s) i = str_at s i.
Proof.
  revert n i. induction s as [|c s IH]; intros [|n] [|i]; cbn; intros; auto; [lia|lia|].
  apply IH. lia.
Qed.

Lemma str_at_take_l s n i t :
  i < n → n ≤ String.length s → str_at (str_take n s +:+ t) i = str_at s i.
Proof.
  intros. rewrite str_at_app_lt by (rewrite str_take_length; lia). by apply str_at_take.
Qed.

Lemma str_at_take_r s n c t :
  n ≤ String.length s → str_at (str_take n s +:+ String c t) n = Some c.
Proof.
  intros Hn. pose proof (str_at_app_eq (str_take n s) c t) as E.
  by rewrite str_take_length, Nat.min_l in E by done.
Qed.

Lemma str_app_inj_length s s' t t' :
  String.length s = String.length s' → s +:+ t = s' +:+ t' → s = s' ∧ t = t'.
Proof.
  revert s'. induction s as [|c s IH]; intros [|d s']; cbn; intros Hl E; try done.
  apply String_eq_inv in E as [-> E]. apply IH in E as [-> ->]; [done|lia].
Qed.

Lemma cut_suffix s s' c t t' :
  String.length s = String.length s' → s +:+ String c t = s' +:+ String c t' → t = t'.
Proof. intros Hl [_ [_ ?]%String_eq_inv]%str_app_inj_length; done. Qed.

(** The first 56 characters are those of the full path. *)
Lemma SafeConcatName_take name :
  str_take 56 (SafeConcatName name) = str_take 56 (full_path name).
Proof.
  destruct (SafeConcatName_cases name) as [[_ ->]|(H & n & c & _ & Hn & ->)]; [done|].
  assert (n = 56 ∨ n = 57) by (destruct (is_alnum c); auto).
  rewrite str_take_app_le by (rewrite str_take_length; lia).
  rewrite str_take_take. f_equal. lia.
Qed.

(** The length and the collisions of the names. *)
Lemma concat_fits name : String.length (SafeConcatName name) ≤ 63.
Proof.
  destruct (SafeConcatName_cases name) as [[H ->]|(H & n & c & _ & Hn & ->)]; [lia|].
  rewrite str_app_length. cbn [String.length].
  rewrite !str_take_length, digest_hex_length. destruct (is_alnum c); lia.
Qed.

Lemma concat_collision a b :
  SafeConcatName a = SafeConcatName b →
  let p := full_path a in let q := full_path b in
  p = q ∨
  (64 ≤ String.length p `max` String.length q ∧
   str_take 56 p = str_take 56 q ∧
   (64 ≤ String.length p `min` String.length q →
    str_take 5 (hex_encode (sha256_Sum256 p)) = str_take 5 (hex_encode (sha256_Sum256 q)))).
Proof.
  intros E p q. destruct (decide (p = q)) as [?|Hne]; [by left|right].
  pose proof (SafeConcatName_take a) as Hp. pose proof (SafeConcatName_take b) as Hq.
  fold p in Hp. fold q in Hq.
  destruct (SafeConcatName_cases a) as [[Ha Ea]|(Ha & n & c & Hc & Hn & Ea)];
    destruct (SafeConcatName_cases b) as [[Hb Eb]|(Hb & m & d & Hd & Hm & Eb)];
    fold p in Ha, Ea; fold q in Hb, Eb.
  - congruence.
  - split_and!; [lia|congruence|lia].
  - split_and!; [lia|congruence|lia].
  - split_and!; [lia|congruence|intros _].
    fold p in Hc. fold q in Hd. rewrite Ea, Eb in E.
    destruct (is_alnum c) eqn:Hac, (is_alnum d) eqn:Had; subst n m.
    + apply cut_suffix in E; [|rewrite !str_take_length; lia]. done.
    + apply (f_equal (λ s, str_at s 56)) in E.
      rewrite (str_at_take_l p 57 56), (str_at_take_r q 56), Hc in E by lia.
      injection E as ->. done.
    + apply (f_equal (λ s, str_at s 56)) in E.
      rewrite (str_at_take_l q 57 56), (str_at_take_r p 56), Hd in E by lia.
      injection E as <-. done.
    + apply cut_suffix in E; [|rewrite !str_take_length; lia].
      apply (f_equal (str_take 5)) in E. by rewrite !str_take_take in E.
Qed.

(** ** Properties *)

(** whatever the components, the name [SafeConcatName] returns has at most
    63 characters (the limit of a label). *)
Theorem SafeConcatName_length name : String.length (SafeConcatName name) ≤ 63.
Proof. apply concat_fits. Qed.

(** C28: joining valid labels gives a valid DNS label, whether or not the name
    had to be shortened. *)
Theorem SafeConcatName_dns_label name :
  name ≠ [] → Forall dns_label_body name → dns_label (SafeConcatName name).
Proof.
  intros Hne Hl. split; [|apply concat_fits].
  assert (Hp : dns_label_body (full_path name)).
  { unfold full_path. rewrite filter_nonempty_nonnil by done. by apply dns_label_body_join. }
  destruct (SafeConcatName_cases name) as [[_ ->]|(H & n & x & _ & Hx & ->)]; [done|].
  assert (Hn : n = 56 ∨ n = 57) by (destruct (is_alnum x); auto).
  destruct (hex_tail_alnum (full_path name) (62 - n)) as [Ht1 Ht2]; [lia|].
  destruct Hp as [Hc (c & s' & E & Ha) _]. split.
  - rewrite str_forall_app, str_forall_cons. split_and!.
    + by apply str_forall_take.
    + by right.
    + eapply Forall_impl; [apply Ht2|]. intros; by left.
  - rewrite E. destruct n as [|n]; [lia|]. cbn. by eexists _, _.
  - rewrite str_last_app by done.
    destruct (str_last_Some _ Ht1) as [d Hd]. exists d.
    split; [|exact (str_last_forall _ _ _ Ht2 Hd)].
    destruct (str_take (62 - n) _); [done|]. by rewrite str_last_cons.
Qed.

Lemma SafeConcatName_dns_label_witness :
  dns_label (SafeConcatName ["k3k"; "mycluster"; "server"]).
Proof.
  apply SafeConcatName_dns_label; [done|].
  repeat constructor; cbn;
    try (unfold label_char; left; vm_compute; reflexivity);
    try (eexists _, _; split; [reflexivity|vm_compute; reflexivity]);
    try (eexists; split; [reflexivity|vm_compute; reflexivity]).
Defined.

(** two lists of components get the same name only if they join to the
    same path, or at least one was shortened and they agree on their first 56
    characters; when both were shortened their SHA-256 digests agree on the
    first 20 bits. *)
Theorem SafeConcatName_collision a b :
  SafeConcatName a = SafeConcatName b →
  let p := full_path a in let q := full_path b in
  p = q ∨
  (64 ≤ String.length p `max` String.length q ∧
   str_take 56 p = str_take 56 q ∧
   (64 ≤ String.length p `min` String.length q →
    str_take 5 (hex_encode (sha256_Sum256 p)) = str_take 5 (hex_encode (sha256_Sum256 q)))).
Proof. apply concat_collision. Qed.

Lemma SafeConcatName_collision_witness :
  SafeConcatName ["a"; "b-c"] = SafeConcatName ["a-b"; "c"] ∧
  (let p := full_path ["a"; "b-c"] in let q := full_path ["a-b"; "c"] in
   p = q ∨
   (64 ≤ String.length p `max` String.length q ∧
    str_take 56 p = str_take 56 q ∧
    (64 ≤ String.length p `min` String.length q →
     str_take 5 (hex_encode (sha256_Sum256 p)) = str_take 5 (hex_encode (sha256_Sum256 q))))).
Proof. split; [vm_compute; reflexivity|]. apply SafeConcatName_collision. vm_compute. reflexivity. Defined.

(** empty components change nothing. *)
Theorem SafeConcatName_ignores_empty a b :
  SafeConcatName (a ++ "" :: b)%list = SafeConcatName (a ++ b)%list.
Proof.
  unfold SafeConcatName, slices_DeleteFunc. by rewrite !List.filter_app.
Qed.

(** the Kubernetes version of a cluster with no explicit version is the
    host's version, when that version has already been stripped of its build
    and pre-release tags (as the reconciler stores it). *)
Theorem KubernetesVersion_host cluster :
  Version (cl_Spec cluster) = "" →
  st_HostVersion (cl_Status cluster) ≠ "" →
  ¬ str_elem "-" (st_HostVersion (cl_Status cluster)) →
  ¬ str_elem "+" (st_HostVersion (cl_Status cluster)) →
  KubernetesVersion (ResolveK3sVersion cluster) = st_HostVersion (cl_Status cluster).
Proof.
  intros Hv Hh Hm Hp. unfold ResolveK3sVersion.
  rewrite decide_False, decide_True by naive_solver.
  unfold KubernetesVersion, first_field. cbn [Raw].
  set (h := st_HostVersion _) in *.
  destruct (split_head (h +:+ "-k3s1") "-") as [l ->].
  unfold strings_Cut. rewrite cut_char_first by done. cbn [fst snd hd].
  destruct (split_head h "+") as [l' ->].
  unfold strings_Cut. apply cut_char_None in Hp. by rewrite Hp.
Qed.

Definition hosted_cluster : Cluster :=
  set_Status (st_set_HostVersion "v1.31.4" zero_ClusterStatus) zero_Cluster.

Lemma KubernetesVersion_host_witness :
  KubernetesVersion (ResolveK3sVersion hosted_cluster) = "v1.31.4".
Proof.
  apply (KubernetesVersion_host hosted_cluster); [reflexivity|discriminate|..];
    unfold str_elem; cbn; set_solver.
Defined.

End Names.
