(* ===== verification/K3s.v ===== *)
(** * The client of the k3s server (pkg/k3s)

    client.go, bootstrap.go, certs.go and snapshot.go: the requests to the
    internal API of a k3s server.  The HTTP transport, the JSON codec, the X.509
    parser and the executor of a command in a pod are parameters ([Transport],
    [Codec], [ExecLib]). *)

From S2P Require Import Prelude GoStd Base64 K8s Types Names.

Local Open Scope string_scope.

Module K3s.

Record ClientConfig : Type := {
  AgentIP : string;
  NodeName : string;
  PodIP : string;
  ServerIP : string;
  Token : string;
}.

Definition server_config (serverIP token : string) : ClientConfig :=
  {| AgentIP := ""; NodeName := ""; PodIP := ""; ServerIP := serverIP; Token := token |}.

Definition ErrServerNotReady : error := ESentinel "ErrServerNotReady" "server not ready".

Definition k3sNodePasswordHeader : string := "k3s-Node-Password".
Definition k3sNodeIPHeader : string := "k3s-Node-IP".
Definition k3sNodeNameHeader : string := "k3s-Node-Name".

(** [http.Header]: the values of each canonical name. *)
Definition Header : Type := gmap string (list string).

Definition upper (c : ascii) : ascii :=
  let n := Ascii.nat_of_ascii c in
  if ((97 <=? n) && (n <=? 122))%nat then Ascii.ascii_of_nat (n - 32) else c.
Definition lower (c : ascii) : ascii :=
  let n := Ascii.nat_of_ascii c in
  if ((65 <=? n) && (n <=? 90))%nat then Ascii.ascii_of_nat (n + 32) else c.

(** [textproto.CanonicalMIMEHeaderKey] of a valid name. *)
Fixpoint canonical (start : bool) (s : string) : string :=
  match s with
  | EmptyString => ""
  | String c r => String (if start then upper c else lower c) (canonical (bool_decide (c = "-"%char)) r)
  end.
Definition CanonicalKey : string → string := canonical true.

Definition Header_Set (k v : string) (h : Header) : Header := <[CanonicalKey k := [v]]> h.
Definition Header_Add (k v : string) (h : Header) : Header :=
  <[CanonicalKey k := (default [] (h !! CanonicalKey k) ++ [v])%list]> h.

Record Client : Type := { config : ClientConfig; staticHeaders : Header }.

Definition New (cfg : ClientConfig) : Client :=
  let headers : Header := ∅ in
  let headers := if decide (Token cfg ≠ "") then Header_Set k3sNodePasswordHeader (Token cfg) headers
                 else headers in
  let headers := if decide (NodeName cfg ≠ "") then Header_Set k3sNodeNameHeader (NodeName cfg) headers
                 else headers in
  let nodeIPs := ((if decide (AgentIP cfg ≠ "") then [AgentIP cfg] else []) ++
                  (if decide (PodIP cfg ≠ "") then [PodIP cfg] else []))%list in
  let headers := if decide (nodeIPs ≠ []) then Header_Set "k3s-Node-IP" (strings_Join nodeIPs ",") headers
                 else headers in
  {| config := cfg; staticHeaders := headers |}.

(** ** The transport *)
Record request : Type := {
  rq_Method : string;
  rq_URL : string;
  rq_User : string;
  rq_Password : string;
  rq_Header : Header;
  rq_Body : option string;
}.

(** The body is what [io.ReadAll] returns. *)
Record response : Type := { StatusCode : Z; Body : outcome string }.

(** The error of a refused connection. *)
Definition ECONNREFUSED : string := "ECONNREFUSED".

Class Transport (W : Type) := {
  (** the error of [http.NewRequest] *)
  NewRequest : string → string → option error;
  (** [Client.Do] of net/http *)
  httpClient_Do : request → M W response;
}.

(** [metav1.Status] *)
Record Status : Type := { Status_Status : string; Status_Reason : reason; Status_Message : string }.
Definition StatusFailure : string := "Failure".

Record cert : Type := { Timestamp : string; Content : string }.
Record BootstrapData : Type := {
  ServerCA : cert;
  ServerCAKey : cert;
  ClientCA : cert;
  ClientCAKey : cert;
  ETCDServerCA : cert;
  ETCDServerCAKey : cert;
}.

Record Config : Type := { ClusterInit : bool }.

Record EtcdS3 : Type := {
  AccessKey : string;
  Bucket : string;
  BucketLookup : string;
  Endpoint : string;
  EndpointCA : string;
  Folder : string;
  Proxy : string;
  Region : string;
  SecretKey : string;
  SessionToken : string;
  Insecure : bool;
  SkipSSLVerify : bool;
  Retention : Z;
  Timeout : Z;
}.

(** A duration is a number of nanoseconds. *)
Definition Second : Z := 10 ^ 9.
Definition Minute : Z := 60 * Second.

Definition DefaultEtcdS3 : EtcdS3 := {|
  AccessKey := ""; Bucket := ""; BucketLookup := ""; Endpoint := "s3.amazonaws.com"; EndpointCA := "";
  Folder := ""; Proxy := ""; Region := "us-east-1"; SecretKey := ""; SessionToken := "";
  Insecure := false; SkipSSLVerify := false; Retention := 5; Timeout := 5 * Minute |}.

Record snapshotRequest : Type := {
  Operation : string;
  snapshotName : list string;
  Compress : option bool;
  S3 : option EtcdS3;
}.

Record SnapshotResponse : Type := { Created : list string; Deleted : list string }.

(** The fields the source reads of a [k3sv1.ETCDSnapshotFile]. *)
Record ETCDSnapshotFile : Type := { SnapshotName : string; Location : string }.

(** [encoding/json] on the types of the requests: a JSON [null] gives a nil
    pointer. *)
Class Codec := {
  Unmarshal_Status : string → outcome Status;
  Unmarshal_Config : string → outcome (option Config);
  Unmarshal_Bootstrap : string → outcome (option BootstrapData);
  Unmarshal_Snapshot : string → outcome (option SnapshotResponse);
  Unmarshal_SnapshotFiles : string → outcome (option (list ETCDSnapshotFile));
  Marshal_Bootstrap : BootstrapData → outcome string;
  Marshal_Snapshot : snapshotRequest → outcome string;
}.

(** A POST on the [exec] subresource of a pod. *)
Record exec_request : Type := {
  ex_Namespace : string;
  ex_Pod : string;
  ex_Command : list string;
  ex_Stdout : bool;
}.

(** What [podExec] calls of client-go: [kubernetes.NewForConfig] on the
    configuration of the controller, [corev1.AddToScheme],
    [remotecommand.NewSPDYExecutor] for a request, and [StreamWithContext] of the
    executor, which gives what the command wrote to its standard output. *)
Class ExecLib (W : Type) := {
  Executor : Type;
  NewForConfig : option error;
  AddToScheme : option error;
  NewSPDYExecutor : exec_request → outcome Executor;
  StreamWithContext : Executor → M W string;
}.

Section Client.
Context {W : Type} `{Transport W} `{Codec} `{ExecLib W}.

(** ** client.go *)

Definition statusError (resp : response) : error :=
  match (body ← Body resp; Unmarshal_Status body) with
  | Err err => EFmt [EText "failed to unmarshal response body for failed request: "; err]
  | Panic => EText ""
  | Ok status =>
      if decide (Status_Status status ≠ StatusFailure) then
        EText ("error status did not match failed request status: " +:+ Status_Status status
               +:+ ": " +:+ Status_Message status)
      else EStatus (Status_Reason status) (Status_Message status)
  end.

Definition add_headers (static : Header) : Header :=
  fold_left (λ h p, fold_left (λ h v, Header_Add p.1 v h) p.2 h) (map_to_list static) ∅.

Definition do_request (c : Client) (endpoint user method : string) (reader : option string)
  : M W string :=
  let url := "https://" +:+ ServerIP (config c) +:+ endpoint in
  match NewRequest method url with
  | Some err => fail err
  | None =>
      let req := {| rq_Method := method; rq_URL := url; rq_User := user;
                    rq_Password := Token (config c); rq_Header := add_headers (staticHeaders c);
                    rq_Body := reader |} in
      r ← attempt (httpClient_Do req);
      match r with
      | inr err => if errors_is ECONNREFUSED err then fail ErrServerNotReady else fail err
      | inl resp =>
          if ((StatusCode resp <? 200) || (299 <? StatusCode resp))%Z then
            fail (EFmt [EText "failed executing '"; EText endpoint;
                        EText "' request to k3s server: "; statusError resp])
          else lift (Body resp)
      end
  end.

(** The generic [do]: the request body, when there is one, is marshalled
    first. *)
Definition do_ {T} (unmarshal : string → outcome T) (c : Client) (endpoint user method : string)
    (body : option (outcome string)) : M W T :=
  reader ← (match body with
            | None => mret None
            | Some o => b ← lift o; mret (Some b)
            end);
  respBody ← do_request c endpoint user method reader;
  lift (unmarshal respBody).

(** ** bootstrap.go *)
Definition TLSDir : string := "/var/lib/rancher/k3s/server/tls/".

Definition MethodGet : string := "GET".
Definition MethodPost : string := "POST".

Definition GetServerConfig (c : Client) : M W (option Config) :=
  do_ Unmarshal_Config c "/v1-k3s/config" "node" MethodGet None.

Definition decode_cert (x : cert) : outcome cert :=
  decoded ← Base64.DecodeString (Content x);
  mret {| Timestamp := Timestamp x; Content := decoded |}.

(** [decode]: the certificates in the order of the source. *)
Definition decode (data : BootstrapData) : outcome BootstrapData :=
  clientCA ← decode_cert (ClientCA data);
  clientCAKey ← decode_cert (ClientCAKey data);
  serverCA ← decode_cert (ServerCA data);
  serverCAKey ← decode_cert (ServerCAKey data);
  etcdCA ← decode_cert (ETCDServerCA data);
  etcdCAKey ← decode_cert (ETCDServerCAKey data);
  mret {| ServerCA := serverCA; ServerCAKey := serverCAKey; ClientCA := clientCA;
          ClientCAKey := clientCAKey; ETCDServerCA := etcdCA; ETCDServerCAKey := etcdCAKey |}.

Definition GetServerBootstrap (c : Client) : M W BootstrapData :=
  bootstrap ← do_ Unmarshal_Bootstrap c "/v1-k3s/server-bootstrap" "server" MethodGet None;
  data ← lift (deref bootstrap);
  lift (match decode data with
        | Err err => Err (EFmt [EText "failed to decode bootstrap secret: "; err])
        | o => o
        end).

(** [fmt.Errorf] with [%v]: the text of the error and no more. *)
Definition described {A} (what : string) (m : M W A) : M W A :=
  r ← attempt m;
  match r with inl a => mret a | inr err => fail (EText (what +:+ error_text err)) end.

Definition podExec (namespace name : string) (command : list string) : M W string :=
  described "error adding to scheme: " (ret_err AddToScheme) ;;
  exec ← described "error while creating Executor: " (lift (NewSPDYExecutor
           {| ex_Namespace := namespace; ex_Pod := name; ex_Command := command; ex_Stdout := true |}));
  described "error in Stream: " (StreamWithContext exec).

Definition content (s : string) : cert := {| Timestamp := ""; Content := s |}.

(** The loop over the four files; the map gives them in an order that does not
    matter, since the first error is returned and each result has its own
    key. *)
Definition ReadBootstrapFromK3sPod (clusterName clusterNamespace : string) : M W BootstrapData :=
  ret_err NewForConfig ;;
  let serverPodName := Names.SafeConcatNameWithPrefix [clusterName; "server-0"] in
  let read certName := podExec clusterNamespace serverPodName
                         ["cat"; filepath_Join [TLSDir; certName]] in
  serverCA ← read "server-ca.crt";
  serverCAKey ← read "server-ca.key";
  clientCA ← read "client-ca.crt";
  clientCAKey ← read "client-ca.key";
  mret {| ServerCA := content serverCA; ServerCAKey := content serverCAKey;
          ClientCA := content clientCA; ClientCAKey := content clientCAKey;
          ETCDServerCA := content ""; ETCDServerCAKey := content "" |}.

(** ** certs.go *)
Definition GetServingKubeletCrt {Cert} (tls_X509KeyPair : string → string → outcome Cert) (c : Client)
  : M W Cert :=
  tlsCrtData ← do_request c "/v1-k3s/serving-kubelet.crt" "node" MethodGet None;
  lift (tls_X509KeyPair tlsCrtData tlsCrtData).

(** ** snapshot.go *)
Definition ErrSaveSnapshot : error :=
  ESentinel "ErrSaveSnapshot" "failed to execute save snapshot request".
Definition ErrListSnapshots : error :=
  ESentinel "ErrListSnapshots" "failed to execute list snapshots request".
Definition ErrDeleteSnapshot : error :=
  ESentinel "ErrDeleteSnapshot" "failed to execute delete snapshot request".
Definition ErrSnapshotNotFound : error := ESentinel "ErrSnapshotNotFound" "snapshot not found".

Definition etcdSnapshotEndpoint : string := "/db/snapshot".

(** [fmt.Errorf("%w: %w", sentinel, err)] *)
Definition wrapped {A} (sentinel : error) (m : M W A) : M W A :=
  r ← attempt m;
  match r with inl a => mret a | inr err => fail (EFmt [sentinel; EText ": "; err]) end.

Definition SaveSnapshot (c : Client) (snapshot : EtcdSnapshot) (s3Config : option EtcdS3)
  : M W (option SnapshotResponse) :=
  let req := {| Operation := "save"; snapshotName := [Name (snap_Meta snapshot)];
                Compress := Some (snap_Compress (snap_Spec snapshot)); S3 := s3Config |} in
  wrapped ErrSaveSnapshot
    (do_ Unmarshal_Snapshot c etcdSnapshotEndpoint "server" MethodPost (Some (Marshal_Snapshot req))).

Definition ListSnapshots (c : Client) (s3Config : option EtcdS3) : M W (option (list ETCDSnapshotFile)) :=
  let req := {| Operation := "list"; snapshotName := []; Compress := None; S3 := s3Config |} in
  wrapped ErrListSnapshots
    (do_ Unmarshal_SnapshotFiles c etcdSnapshotEndpoint "server" MethodPost (Some (Marshal_Snapshot req))).

Definition DeleteSnapshot (c : Client) (snapshot : EtcdSnapshot) (s3Config : option EtcdS3)
  : M W SnapshotResponse :=
  let filename := snap_Filename (snap_Status snapshot) in
  let req := {| Operation := "delete"; snapshotName := [filename]; Compress := None; S3 := s3Config |} in
  snapshotResult ← wrapped ErrDeleteSnapshot
    (do_ Unmarshal_Snapshot c etcdSnapshotEndpoint "server" MethodPost (Some (Marshal_Snapshot req)));
  snapshotResult ← lift (deref snapshotResult);
  if slices_Contains (Deleted snapshotResult) filename then mret snapshotResult
  else fail ErrSnapshotNotFound.
End Client.
End K3s.
