(* ===== verification/Translate.v ===== *)
(** * The name translator (k3k-kubelet/translate/host.go)

    The virtual kubelet moves the objects of a virtual cluster into the host
    namespace of that cluster under a translated name, and back. *)

From S2P Require Import Prelude GoStd Sha256 K8s Types Names.

Local Open Scope string_scope.
Local Open Scope nat_scope.

Module Translate.
Import Names.

Definition MetadataPrefix : string := "k3k.io/".
Definition ClusterNameLabel : string := MetadataPrefix +:+ "clusterName".
Definition AgentNameLabel : string := MetadataPrefix +:+ "agentName".
Definition ResourceNameAnnotation : string := MetadataPrefix +:+ "name".
Definition ResourceNamespaceAnnotation : string := MetadataPrefix +:+ "namespace".
Definition MetadataNameField : string := "metadata.name".
Definition MetadataNamespaceField : string := "metadata.namespace".

Record ToHostTranslator : Type := { ClusterName : string; ClusterNamespace : string }.

Definition NewHostTranslator (cluster : Cluster) : ToHostTranslator :=
  {| ClusterName := Name (cl_Meta cluster); ClusterNamespace := Namespace (cl_Meta cluster) |}.

(** The parts a host name is made of; an object that is not namespaced has no
    namespace part. *)
Definition name_parts (t : ToHostTranslator) (namespace name : string) : list string :=
  if decide (namespace = "") then [name; ClusterName t] else [name; namespace; ClusterName t].

Definition TranslateName (t : ToHostTranslator) (namespace name : string) : string :=
  let names := name_parts t namespace name in
  let namePrefix := strings_Join names "-" in
  let nameKey := strings_Join names "+" in
  let nameSuffix := hex_encode nameKey in
  SafeConcatName [namePrefix; nameSuffix].

(** [TranslateTo] and [TranslateFrom] change only the metadata of the object. *)
Definition TranslateTo (t : ToHostTranslator) (m : ObjectMeta) : ObjectMeta :=
  let annotations := default ∅ (Annotations m) in
  let annotations := <[ResourceNamespaceAnnotation := Namespace m]>
                       (<[ResourceNameAnnotation := Name m]> annotations) in
  let labels := <[ClusterNameLabel := ClusterName t]> (default ∅ (Labels m)) in
  {| Name := TranslateName t (Namespace m) (Name m);
     Namespace := ClusterNamespace t;
     Labels := Some labels;
     Annotations := Some annotations;
     OwnerReferences := [];
     Finalizers := [];
     ResourceVersion := "";
     UID := "";
     DeletionTimestamp := DeletionTimestamp m |}.

Definition TranslateFrom (m : ObjectMeta) : ObjectMeta :=
  let name := map_str (Annotations m) ResourceNameAnnotation in
  let namespace := map_str (Annotations m) ResourceNamespaceAnnotation in
  {| Name := name;
     Namespace := namespace;
     Labels := map_del (Labels m) ClusterNameLabel;
     Annotations := map_del (map_del (Annotations m) ResourceNameAnnotation)
                      ResourceNamespaceAnnotation;
     OwnerReferences := [];
     Finalizers := Finalizers m;
     ResourceVersion := "";
     UID := "";
     DeletionTimestamp := DeletionTimestamp m |}.

Definition NamespacedName_of (t : ToHostTranslator) (m : ObjectMeta) : NamespacedName :=
  {| nn_Namespace := ClusterNamespace t; nn_Name := TranslateName t (Namespace m) (Name m) |}.

(** ** Helper lemmas *)

(** A joined list determines its elements when none contains the separator. *)
Lemma app_sep_inj (c : ascii) s s' t t' :
  ¬ str_elem c s → ¬ str_elem c s' → s +:+ String c t = s' +:+ String c t' → s = s' ∧ t = t'.
Proof.
  unfold str_elem. revert s'. induction s as [|d s IH]; intros [|d' s']; cbn; intros H H' E.
  - by apply String_eq_inv in E as [_ ->].
  - apply String_eq_inv in E as [-> _]. set_solver.
  - apply String_eq_inv in E as [-> _]. set_solver.
  - apply String_eq_inv in E as [-> E]. apply IH in E as [-> ->]; [done|set_solver..].
Qed.

Lemma join_inj (c : ascii) l l' :
  l ≠ [] → l' ≠ [] →
  Forall (λ s, ¬ str_elem c s) l → Forall (λ s, ¬ str_elem c s) l' →
  strings_Join l (String c "") = strings_Join l' (String c "") → l = l'.
Proof.
  intros Hl Hl'. destruct l as [|x l]; [done|]. destruct l' as [|x' l']; [done|]. clear Hl Hl'.
  revert x x' l'. induction l as [|y l IH]; intros x x' [|y' l'] [Hx Hl]%Forall_cons_iff
    [Hx' Hl']%Forall_cons_iff; rewrite ?join_cons; cbn [strings_Join String.concat]; intros E.
  - by subst.
  - exfalso. apply Hx. unfold str_elem.
    rewrite E, list_ascii_app. cbn. set_solver.
  - exfalso. apply Hx'. unfold str_elem. rewrite <- E, list_ascii_app. cbn. set_solver.
  - apply app_sep_inj in E as [-> E]; [|done..]. f_equal. by apply IH.
Qed.

(** The text after the last hyphen: two texts of the form [p-h] with no hyphen
    in [h] agree on [h]. *)
Lemma last_segment_inj p p' h h' :
  ¬ str_elem "-" h → ¬ str_elem "-" h' →
  p +:+ String "-" h = p' +:+ String "-" h' → h = h'.
Proof.
  unfold str_elem. revert p'. induction p as [|c p IH]; intros [|c' p'] H H' E; cbn in E.
  - by apply String_eq_inv in E as [_ ->].
  - apply String_eq_inv in E as [<- E]. exfalso. apply H. rewrite E, list_ascii_app. cbn. set_solver.
  - apply String_eq_inv in E as [-> E]. exfalso. apply H'. rewrite <- E, list_ascii_app. cbn. set_solver.
  - apply String_eq_inv in E as [_ E]. by eapply IH.
Qed.

Lemma hyphen_not_hex : ¬ is_hex "-".
Proof. unfold is_hex. change (nat_of_ascii "-") with 45. lia. Qed.

Lemma hex_no_hyphen s : ¬ str_elem "-" (hex_encode s).
Proof.
  intros H. pose proof (hex_encode_chars s) as Hx. unfold str_forall in Hx.
  rewrite Forall_forall in Hx. by apply Hx, hyphen_not_hex in H.
Qed.

Lemma hex_tail_no_hyphen n s : ¬ str_elem "-" (str_take n (hex_encode s)).
Proof.
  intros H. pose proof (str_forall_take _ n _ (hex_encode_chars s)) as Hx. unfold str_forall in Hx.
  rewrite Forall_forall in Hx. by apply Hx, hyphen_not_hex in H.
Qed.

(** The key of an object: its parts joined with a character no name holds. *)
Definition name_key (t : ToHostTranslator) (namespace name : string) : string :=
  strings_Join (name_parts t namespace name) "+".

(** A name, a namespace or a cluster name: non-empty and without ['+'] (every
    Kubernetes name is). *)
Definition plain (s : string) : Prop := s ≠ "" ∧ ¬ str_elem "+" s.
#[export] Instance plain_dec s : Decision (plain s).
Proof. unfold plain, str_elem. apply _. Defined.

Lemma join_nonempty (x : string) l sep : x ≠ "" → strings_Join (x :: l) sep ≠ "".
Proof. destruct l; [done|]. intros Hx. destruct x; done. Qed.

Lemma full_path_pair p s :
  p ≠ "" → s ≠ "" → full_path [p; s] = p +:+ String "-" s.
Proof.
  intros Hp Hs. unfold full_path, slices_DeleteFunc. cbn.
  rewrite !bool_decide_false by done. done.
Qed.

Lemma name_parts_head t ns n : ∃ l, name_parts t ns n = n :: l.
Proof. unfold name_parts. case_decide; by eexists. Qed.

Lemma hex_nonempty s : s ≠ "" → hex_encode s ≠ "".
Proof. by destruct s. Qed.

Lemma TranslateName_path t ns n :
  n ≠ "" →
  full_path [strings_Join (name_parts t ns n) "-"; hex_encode (name_key t ns n)]
  = strings_Join (name_parts t ns n) "-" +:+ String "-" (hex_encode (name_key t ns n)).
Proof.
  intros Hn. destruct (name_parts_head t ns n) as [l E].
  apply full_path_pair; [|apply hex_nonempty; unfold name_key]; rewrite E; by apply join_nonempty.
Qed.

(** The parts are determined by the key. *)
Lemma name_key_inj t ns n ns' n' :
  plain n → plain n' → plain (ClusterName t) →
  (ns = "" ∨ plain ns) → (ns' = "" ∨ plain ns') →
  name_key t ns n = name_key t ns' n' → ns = ns' ∧ n = n'.
Proof.
  intros [Hn Hn1] [Hn' Hn1'] [Hc Hc1] Hns Hns' E.
  assert (P : ∀ k m, ¬ str_elem "+" k → (m = "" ∨ plain m) →
              Forall (λ s, ¬ str_elem "+" s) (name_parts t m k)).
  { intros k m Hk Hm. unfold name_parts. case_decide; repeat constructor; try done.
    destruct Hm as [?|[??]]; done. }
  apply join_inj in E; [|by unfold name_parts; case_decide..|by apply P|by apply P].
  unfold name_parts in E. repeat case_decide; simplify_eq; done.
Qed.

Lemma join_length (l : list string) (c d : ascii) :
  String.length (strings_Join l (String c "")) = String.length (strings_Join l (String d "")).
Proof.
  induction l as [|x [|y l] IH]; [done..|]. change (String.length (x +:+ String c "" +:+ strings_Join (y :: l) (String c ""))
    = String.length (x +:+ String d "" +:+ strings_Join (y :: l) (String d ""))).
  rewrite !str_app_length. cbn [String.length]. by rewrite IH.
Qed.

(** A name that fits is never the shortened form of another: it is made of a
    prefix, a hyphen and twice as many digits, and a shortened name has 63
    characters. *)
Lemma short_is_not_long t ns n b :
  n ≠ "" → 64 ≤ String.length (full_path b) →
  full_path [strings_Join (name_parts t ns n) "-"; hex_encode (name_key t ns n)] ≠ SafeConcatName b.
Proof.
  intros Hn Hb E. rewrite TranslateName_path in E by done.
  destruct (SafeConcatName_cases b) as [[? _]|(_ & k & c & _ & Hk & Eb)]; [lia|]. rewrite Eb in E.
  apply (f_equal String.length) in E. rewrite !str_app_length in E. cbn [String.length] in E.
  rewrite !str_take_length, digest_hex_length, hex_encode_length in E.
  unfold name_key in E. rewrite (join_length (name_parts t ns n) "+" "-") in E. destruct (is_alnum c); lia.
Qed.

(** What [SafeConcatName] shortens. *)
Definition host_path (t : ToHostTranslator) (ns n : string) : string :=
  full_path [strings_Join (name_parts t ns n) "-"; hex_encode (name_key t ns n)].

(** A host name determines its object, or both names were shortened to the
    same digits. *)
Lemma translate_inj t ns n ns' n' :
  plain n → plain n' → plain (ClusterName t) →
  (ns = "" ∨ plain ns) → (ns' = "" ∨ plain ns') →
  TranslateName t ns n = TranslateName t ns' n' →
  let path := host_path t in
  (ns = ns' ∧ n = n') ∨
  (64 ≤ String.length (path ns n) ∧ 64 ≤ String.length (path ns' n') ∧
   str_take 5 (hex_encode (sha256_Sum256 (path ns n)))
   = str_take 5 (hex_encode (sha256_Sum256 (path ns' n')))).
Proof.
  intros Hn Hn' Hc Hns Hns' E path. unfold path, host_path. clear path.
  set (path ns n := full_path [strings_Join (name_parts t ns n) "-"; hex_encode (name_key t ns n)]).
  unfold TranslateName in E.
  fold (name_key t ns n) in E. fold (name_key t ns' n') in E.
  destruct (concat_collision _ _ E) as [P|(_ & _ & D)].
  { left. rewrite !TranslateName_path in P by (by apply Hn || by apply Hn').
    apply last_segment_inj, hex_encode_inj in P; [|apply hex_no_hyphen..].
    by apply name_key_inj in P. }
  fold (path ns n) (path ns' n') in D.
  destruct (SafeConcatName_cases [strings_Join (name_parts t ns n) "-"; hex_encode (name_key t ns n)])
    as [[L1 E1]|[L1 _]]; fold (path ns n) in L1;
  destruct (SafeConcatName_cases [strings_Join (name_parts t ns' n') "-"; hex_encode (name_key t ns' n')])
    as [[L2 E2]|[L2 _]]; fold (path ns' n') in L2.
  - left. rewrite E1, E2 in E. rewrite !TranslateName_path in E by (by apply Hn || by apply Hn').
    apply last_segment_inj, hex_encode_inj in E; [|apply hex_no_hyphen..].
    by apply name_key_inj in E.
  - rewrite E1 in E. apply short_is_not_long in E; [done|apply Hn|done].
  - rewrite E2 in E. symmetry in E. apply short_is_not_long in E; [done|apply Hn'|done].
  - right. split_and!; [done..|]. apply D. lia.
Qed.

(** ** Properties *)

(** C20: the host name of an object determines the object within its cluster,
    unless both names had to be shortened and the digests of their full paths
    agree on their first 20 bits; for names without the character +, which is
    every name of a Kubernetes object, and an object with or without a
    namespace. *)
Theorem TranslateName_injective t ns n ns' n' :
  plain n → plain n' → plain (ClusterName t) →
  (ns = "" ∨ plain ns) → (ns' = "" ∨ plain ns') →
  TranslateName t ns n = TranslateName t ns' n' →
  let path := host_path t in
  (ns = ns' ∧ n = n') ∨
  (64 ≤ String.length (path ns n) ∧ 64 ≤ String.length (path ns' n') ∧
   str_take 5 (hex_encode (sha256_Sum256 (path ns n)))
   = str_take 5 (hex_encode (sha256_Sum256 (path ns' n')))).
Proof. apply translate_inj. Qed.

Definition demo_translator : ToHostTranslator :=
  {| ClusterName := "mycluster"; ClusterNamespace := "k3k-mycluster" |}.

(** Two names that meet: 20 bits of a digest are few. *)
Definition release (n : string) : string := "a-config-map-with-a-long-name-of-the-application-release-" +:+ n.

Lemma TranslateName_injective_witness :
  TranslateName demo_translator "default" (release "1312") = TranslateName demo_translator "default" (release "2183") ∧
  64 ≤ String.length (host_path demo_translator "default" (release "1312")) ∧
  str_take 5 (hex_encode (sha256_Sum256 (host_path demo_translator "default" (release "1312"))))
  = str_take 5 (hex_encode (sha256_Sum256 (host_path demo_translator "default" (release "2183")))).
Proof.
  assert (TranslateName demo_translator "default" (release "1312")
    = TranslateName demo_translator "default" (release "2183")) as E by (vm_compute; reflexivity).
  split; [exact E|].
  assert (∀ s, bool_decide (plain s) = true → plain s) as Hp by (intros s; apply bool_decide_eq_true_1).
  destruct (TranslateName_injective demo_translator "default" (release "1312") "default" (release "2183"))
    as [[_ H]|(H1 & _ & H2)].
  - apply Hp. vm_compute. reflexivity.
  - apply Hp. vm_compute. reflexivity.
  - apply Hp. vm_compute. reflexivity.
  - right. apply Hp. vm_compute. reflexivity.
  - right. apply Hp. vm_compute. reflexivity.
  - exact E.
  - vm_compute in H. discriminate.
  - split; [exact H1|exact H2].
Defined.

(** C21: moving an object to the host and back restores its name and
    namespace, its labels and its annotations, when it carries none of the
    three tracking keys (its owner references, its finalizers, its resource
    version and its UID are dropped on the way). *)
Theorem TranslateFrom_TranslateTo t m :
  map_get (Labels m) ClusterNameLabel = None →
  map_get (Annotations m) ResourceNameAnnotation = None →
  map_get (Annotations m) ResourceNamespaceAnnotation = None →
  TranslateFrom (TranslateTo t m) =
  {| Name := Name m; Namespace := Namespace m;
     Labels := Some (default ∅ (Labels m));
     Annotations := Some (default ∅ (Annotations m));
     OwnerReferences := []; Finalizers := []; ResourceVersion := ""; UID := "";
     DeletionTimestamp := DeletionTimestamp m |}.
Proof.
  intros Hl Ha Hb.
  assert (Hl' : default ∅ (Labels m) !! ClusterNameLabel = None) by (by destruct (Labels m)).
  assert (Ha' : default ∅ (Annotations m) !! ResourceNameAnnotation = None)
    by (by destruct (Annotations m)).
  assert (Hb' : default ∅ (Annotations m) !! ResourceNamespaceAnnotation = None)
    by (by destruct (Annotations m)).
  unfold TranslateFrom, TranslateTo, map_str, map_get, map_del. cbn [Name Namespace Labels
    Annotations DeletionTimestamp Finalizers].
  assert (Hne : ResourceNamespaceAnnotation ≠ ResourceNameAnnotation) by discriminate.
  f_equal.
  - by rewrite lookup_insert_ne, lookup_insert_eq by done.
  - by rewrite lookup_insert_eq.
  - by rewrite delete_insert_id.
  - f_equal. rewrite delete_insert_ne by done. by rewrite (delete_insert_id _ _ _ Ha'), (delete_insert_id _ _ _ Hb').
Qed.

Lemma TranslateFrom_TranslateTo_witness :
  TranslateFrom (TranslateTo demo_translator (meta_of "default" "web")) =
  {| Name := "web"; Namespace := "default"; Labels := Some ∅; Annotations := Some ∅;
     OwnerReferences := []; Finalizers := []; ResourceVersion := ""; UID := "";
     DeletionTimestamp := None |}.
Proof. apply (TranslateFrom_TranslateTo demo_translator (meta_of "default" "web")); reflexivity. Defined.

(** every translated object lands in the cluster's host namespace, is
    labelled with the cluster, keeps no owner and no finalizer, and is named by
    [NamespacedName]. *)
Theorem TranslateTo_placement t m :
  let h := TranslateTo t m in
  key_of h = NamespacedName_of t m ∧ Namespace h = ClusterNamespace t ∧
  map_get (Labels h) ClusterNameLabel = Some (ClusterName t) ∧
  OwnerReferences h = [] ∧ Finalizers h = [] ∧
  String.length (Name h) ≤ 63.
Proof.
  intros h. split_and!; try done.
  - cbn. apply lookup_insert_eq.
  - apply concat_fits.
Qed.

End Translate.
