(* ===== verification/Ports.v ===== *)
(** * The kubelet port allocator (pkg/controller/cluster/agent/ports.go)

    A ConfigMap shared by the whole installation records which cluster holds
    which port and the snapshot of the range allocator.  The state of the
    allocator is the in-memory ConfigMap ([a.KubeletCM], overwritten by every
    read) next to the world of the API server.  The range allocator of
    Kubernetes and the YAML codec are parameters. *)

From S2P Require Import Prelude GoStd K8s Types Kube.

Local Open Scope string_scope.
Local Open Scope nat_scope.

(** [core.RangeAllocation] *)
Record RangeAllocation : Type := { ra_Range : string; ra_Data : string }.

(** k8s.io/kubernetes/pkg/registry/core/service/portallocator and
    go.yaml.in/yaml. *)
Class PortLib := {
  PA : Type;
  NewFromSnapshot : RangeAllocation → outcome PA;
  AllocateNext : PA → outcome (PA * Z);
  Release : PA → Z → outcome PA;
  PA_Snapshot : PA → RangeAllocation → outcome RangeAllocation;
  yaml_UnmarshalPorts : string → outcome (gmap string Z);
  yaml_MarshalPorts : gmap string Z → outcome string;
  (** The ports an allocator has handed out and those it may hand out. *)
  pa_used : PA → gset Z;
  pa_range : PA → gset Z;
}.

Class PortLibLaws `{PortLib} : Prop := {
  AllocateNext_ok pa pa' p :
    AllocateNext pa = Ok (pa', p) →
    p ∈ pa_range pa ∧ p ∉ pa_used pa ∧ pa_used pa' = {[p]} ∪ pa_used pa ∧
    pa_range pa' = pa_range pa;
  Release_ok pa pa' p :
    Release pa p = Ok pa' → pa_used pa' = pa_used pa ∖ {[p]} ∧ pa_range pa' = pa_range pa;
  PA_Snapshot_ok pa s s' :
    PA_Snapshot pa s = Ok s' →
    ∃ pa', NewFromSnapshot s' = Ok pa' ∧ pa_used pa' = pa_used pa ∧ pa_range pa' = pa_range pa;
  yaml_ports_roundtrip m s : yaml_MarshalPorts m = Ok s → yaml_UnmarshalPorts s = Ok m;
  yaml_ports_empty : yaml_UnmarshalPorts "" = Ok ∅;
}.

(** The server stores the data of a ConfigMap as it receives it. *)
Class KeepsConfigMaps {W} (c : Client W) : Prop := {
  create_config_map cm w o w' :
    client_Create c (OConfigMap cm) w = (Ok o, w') →
    ∃ cm', o = OConfigMap cm' ∧ cm_Data cm' = cm_Data cm ∧ cm_BinaryData cm' = cm_BinaryData cm
           ∧ (is_deleting (cm_Meta cm) = false → is_deleting (cm_Meta cm') = false);
  update_config_map cm w o w' :
    client_Update c (OConfigMap cm) w = (Ok o, w') →
    ∃ cm', o = OConfigMap cm' ∧ cm_Data cm' = cm_Data cm ∧ cm_BinaryData cm' = cm_BinaryData cm;
}.

Module Ports.
Section Ports.
Context {W : Type} (c : Client W) `{PL : PortLib}.

Definition kubeletPortRangeConfigMapName : string := "k3k-kubelet-port-range".
Definition rangeKey : string := "range".
Definition allocatedPortsKey : string := "allocatedPorts".
Definition snapshotDataKey : string := "snapshotData".

Definition set_cm_Data (d b : gomap string) (cm : ConfigMap) : ConfigMap :=
  {| cm_Meta := cm_Meta cm; cm_Data := d; cm_BinaryData := b |}.

(** [NewPortAllocator]: the ConfigMap the allocator starts with, from the value
    of CONTROLLER_NAMESPACE. *)
Definition NewPortAllocator (CONTROLLER_NAMESPACE : string) : outcome ConfigMap :=
  if decide (CONTROLLER_NAMESPACE = "") then Err (EText "failed to find k3k controller namespace")
  else Ok {| cm_Meta := meta_of CONTROLLER_NAMESPACE kubeletPortRangeConfigMapName;
             cm_Data := None; cm_BinaryData := None |}.

(** The state: the in-memory ConfigMap and the world. *)
Definition PM (A : Type) : Type := M (ConfigMap * W) A.

Definition api {A} (m : M W A) : PM A := λ s,
  let '(r, w') := m s.2 in (r, (s.1, w')).
Definition get_cm : PM ConfigMap := λ s, (Ok s.1, s).
Definition put_cm (cm : ConfigMap) : PM unit := λ s, (Ok tt, (cm, s.2)).

Definition getOrCreate (portRange : string) : PM unit :=
  configmap ← get_cm;
  r ← attempt (api (Get c ConfigMap (key_of (cm_Meta configmap))));
  match r with
  | inl cm => put_cm cm
  | inr err =>
      if negb (IsNotFound err) then fail err
      else
        let configmap := set_cm_Data (map_lit [(rangeKey, portRange); (allocatedPortsKey, "")])
                                     (map_lit [(snapshotDataKey, "")]) configmap in
        put_cm configmap ;;
        r ← attempt (api (Create c configmap));
        match r with
        | inl cm => put_cm cm
        | inr err => fail (EFmt [EText "failed to create port range configmap: "; err])
        end
  end.

Definition parsePortMap (portMapData : string) : outcome (gmap string Z) :=
  match yaml_UnmarshalPorts portMapData with
  | Err err => Err (EFmt [EText "failed to parse allocatedPorts: "; err])
  | o => o
  end.

Definition serializePortMap (m : gmap string Z) : outcome string :=
  match yaml_MarshalPorts m with
  | Err err => Err (EFmt [EText "failed to serialize allocatedPorts: "; err])
  | o => o
  end.

(** [saveSnapshot] writes the snapshot and the port map into the in-memory
    ConfigMap, in the order of the source: a failure to serialise comes after
    the snapshot has been written. *)
Definition saveSnapshot (portAllocator : PA) (snapshot : RangeAllocation)
    (portsMap : gmap string Z) : PM unit :=
  snapshot ← lift (PA_Snapshot portAllocator snapshot);
  configMap ← get_cm;
  b ← lift (map_set (cm_BinaryData configMap) snapshotDataKey (ra_Data snapshot));
  put_cm (set_cm_Data (cm_Data configMap) b configMap) ;;
  configMap ← get_cm;
  d ← lift (map_set (cm_Data configMap) rangeKey (ra_Range snapshot));
  put_cm (set_cm_Data d (cm_BinaryData configMap) configMap) ;;
  allocatedPortsData ← lift (serializePortMap portsMap);
  configMap ← get_cm;
  d ← lift (map_set (cm_Data configMap) allocatedPortsKey allocatedPortsData);
  put_cm (set_cm_Data d (cm_BinaryData configMap) configMap).

Definition snapshot_of (configMap : ConfigMap) : RangeAllocation :=
  {| ra_Range := map_str (cm_Data configMap) rangeKey;
     ra_Data := map_str (cm_BinaryData configMap) snapshotDataKey |}.

Definition update_cm : PM unit :=
  configMap ← get_cm;
  cm ← api (Update c configMap);
  put_cm cm.

Definition range_not_initialized : error := EText "port range is not initialized".

Definition allocatePort (clusterName clusterNamespace : string) : PM Z :=
  configMap ← get_cm;
  match map_get (cm_Data configMap) rangeKey with
  | None => fail range_not_initialized
  | Some portRange =>
      getOrCreate portRange ;;
      let clusterNamespaceName := clusterNamespace +:+ "/" +:+ clusterName in
      configMap ← get_cm;
      portsMap ← lift (parsePortMap (map_str (cm_Data configMap) allocatedPortsKey));
      match portsMap !! clusterNamespaceName with
      | Some port => mret port
      | None =>
          let snapshot := snapshot_of configMap in
          pa ← lift (NewFromSnapshot snapshot);
          '(pa, next) ← lift (AllocateNext pa);
          let portsMap := <[clusterNamespaceName := next]> portsMap in
          saveSnapshot pa snapshot portsMap ;;
          update_cm ;;
          mret next
      end
  end.

Definition deallocatePort (clusterName clusterNamespace : string) (port : Z) : PM unit :=
  configMap ← get_cm;
  match map_get (cm_Data configMap) rangeKey with
  | None => fail range_not_initialized
  | Some portRange =>
      getOrCreate portRange ;;
      let clusterNamespaceName := clusterNamespace +:+ "/" +:+ clusterName in
      configMap ← get_cm;
      portsMap ← lift (parsePortMap (map_str (cm_Data configMap) allocatedPortsKey));
      match portsMap !! clusterNamespaceName with
      | Some usedPort =>
          if negb (bool_decide (usedPort = port)) then
            fail (EText ("port " +:+ strconv_Itoa port +:+ " does not match used port "
                         +:+ strconv_Itoa usedPort +:+ " for the cluster"))
          else
            let snapshot := snapshot_of configMap in
            pa ← lift (NewFromSnapshot snapshot);
            pa ← lift (Release pa port);
            let portsMap := delete clusterNamespaceName portsMap in
            saveSnapshot pa snapshot portsMap ;;
            update_cm
      | None => update_cm
      end
  end.

Definition AllocateKubeletPort := allocatePort.
Definition DeallocateKubeletPort := deallocatePort.

(** [InitPortAllocatorConfig]'s runnable. *)
Definition InitPortAllocatorConfig (kubeletPortRange : string) : PM unit :=
  getOrCreate kubeletPortRange.

(** ** The contract

    A ConfigMap is consistent when its port map parses, no two clusters hold
    the same port, and every recorded port is marked used in the allocator its
    snapshot restores. *)
Definition ports_of (cm : ConfigMap) : outcome (gmap string Z) :=
  parsePortMap (map_str (cm_Data cm) allocatedPortsKey).

Definition consistent (cm : ConfigMap) : Prop :=
  ∃ m, ports_of cm = Ok m ∧
    (∀ k k' p, m !! k = Some p → m !! k' = Some p → k = k') ∧
    (∀ pa k p, NewFromSnapshot (snapshot_of cm) = Ok pa → m !! k = Some p → p ∈ pa_used pa).

(** The stored ConfigMap, if any, is consistent. *)
Definition store_consistent `{!ClientLaws c} (k : NamespacedName) (w : W) : Prop :=
  ∀ o, store w !! (kind ConfigMap, k) = Some o → ∃ cm, o = OConfigMap cm ∧ consistent cm.

(** ** Lemmas *)
Lemma api_inv {A} (m : M W A) s r s' :
  api m s = (r, s') → m s.2 = (r, s'.2) ∧ s'.1 = s.1.
Proof. unfold api. destruct (m s.2) as [r' w']. by intros [= <- <-]. Qed.

Lemma lift_inv {V A} (o : outcome A) (s : V) a s' : lift o s = (Ok a, s') → o = Ok a ∧ s' = s.
Proof. unfold lift. by intros [= -> ->]. Qed.

Lemma get_cm_inv s cm s' : get_cm s = (Ok cm, s') → cm = s.1 ∧ s' = s.
Proof. by intros [= <- <-]. Qed.

Lemma put_cm_inv cm s u s' : put_cm cm s = (Ok u, s') → s' = (cm, s.2).
Proof. by intros [= <- <-]. Qed.

Lemma map_set_inv {V} (m : gomap V) k v m' :
  map_set m k v = Ok m' → ∃ g, m = Some g ∧ m' = Some (<[k := v]> g).
Proof. destruct m as [g|]; [|done]. intros [= <-]. eauto. Qed.

Lemma parsePortMap_roundtrip `{!PortLibLaws} m s :
  serializePortMap m = Ok s → parsePortMap s = Ok m.
Proof.
  unfold serializePortMap, parsePortMap. destruct (yaml_MarshalPorts m) eqn:E; [|done..].
  intros [= <-]. by rewrite (yaml_ports_roundtrip _ _ E).
Qed.

Ltac inv_pm :=
  repeat (inv_ok; match goal with
    | H : get_cm _ = (Ok _, _) |- _ => apply get_cm_inv in H as [-> ->]
    | H : put_cm _ _ = (Ok _, _) |- _ => apply put_cm_inv in H as ->
    | H : lift _ _ = (Ok _, _) |- _ => apply lift_inv in H as [H ->]
    end; cbn [fst snd] in * ).

(** What [saveSnapshot] leaves in memory: the new map and the new snapshot. *)
Lemma saveSnapshot_ok `{!PortLibLaws} pa snap m s u s' :
  saveSnapshot pa snap m s = (Ok u, s') →
  s'.2 = s.2 ∧ cm_Meta s'.1 = cm_Meta s.1 ∧
  ports_of s'.1 = Ok m ∧
  ∃ pa', NewFromSnapshot (snapshot_of s'.1) = Ok pa' ∧ pa_used pa' = pa_used pa.
Proof.
  unfold saveSnapshot. intros E. inv_pm.
  repeat match goal with
  | H : map_set _ _ _ = Ok _ |- _ => apply map_set_inv in H as (? & ? & ->)
  end.
  cbn in *. simplify_eq. split; [done|]. split; [done|].
  match goal with
  | H : PA_Snapshot _ _ = Ok _ |- _ =>
      destruct (PA_Snapshot_ok _ _ _ H) as (pa' & Hn & Hu & _)
  end.
  split; [|exists pa'; split; [|done]].
  - unfold ports_of, map_str, map_get. cbn. rewrite lookup_insert_eq. cbn.
    by apply parsePortMap_roundtrip.
  - unfold snapshot_of, map_str, map_get. cbn.
    rewrite lookup_insert_ne, !lookup_insert_eq by done. cbn.
    by destruct x.
Qed.

Lemma hoare_api {A} P (m : M W A) Q E :
  (∀ cm, hoare (λ w, P (cm, w)) m (λ a w, Q a (cm, w)) (λ e w, E e (cm, w))) →
  hoare P (api m) Q E.
Proof.
  intros H [cm w] HP. specialize (H cm w HP). unfold api. cbn.
  by destruct (m w) as [[a|e|] w'].
Qed.

Lemma hoare_get_cm P E : hoare P get_cm (λ cm s, cm = s.1 ∧ P s) E.
Proof. by intros s Hs. Qed.

Lemma hoare_put_cm P cm (Q : unit → ConfigMap * W → Prop) E :
  (∀ cm' w, P (cm', w) → Q tt (cm, w)) → hoare P (put_cm cm) Q E.
Proof. intros H [cm' w] Hs. cbn. eauto. Qed.

(** ** Triples of the operations *)
Section Triples.
Context `{!ClientLaws c} `{!KeepsConfigMaps c} `{!PortLibLaws}.

(** The allocator points at the ConfigMap [K], whose stored value is
    consistent. *)
Definition Inv (K : NamespacedName) (s : ConfigMap * W) : Prop :=
  key_of (cm_Meta s.1) = K ∧ store_consistent K s.2.

(** Besides, the in-memory ConfigMap is the stored one. *)
Definition Fresh (K : NamespacedName) (s : ConfigMap * W) : Prop :=
  Inv K s ∧ store s.2 !! (kind ConfigMap, K) = Some (OConfigMap s.1).

(** Neither the in-memory ConfigMap nor the stored one is being deleted. *)
Definition Live (K : NamespacedName) (s : ConfigMap * W) : Prop :=
  is_deleting (cm_Meta s.1) = false ∧
  ∀ o, store s.2 !! (kind ConfigMap, K) = Some o → is_deleting (obj_meta o) = false.

Lemma consistent_ext cm cm' :
  cm_Data cm' = cm_Data cm → cm_BinaryData cm' = cm_BinaryData cm → consistent cm → consistent cm'.
Proof. unfold consistent, ports_of, snapshot_of. by intros -> ->. Qed.

Lemma consistent_fresh portRange cm :
  consistent (set_cm_Data (map_lit [(rangeKey, portRange); (allocatedPortsKey, "")])
                          (map_lit [(snapshotDataKey, "")]) cm).
Proof.
  exists ∅. split; [|split].
  - unfold ports_of, parsePortMap, map_str. cbn.
    rewrite lookup_insert_ne, lookup_insert_eq by done. cbn. by rewrite yaml_ports_empty.
  - intros k k' p. by rewrite lookup_empty.
  - intros pa k p _. by rewrite lookup_empty.
Qed.

Lemma store_consistent_insert K cm w w' :
  store w' = <[(kind ConfigMap, K) := OConfigMap cm]> (store w) →
  consistent cm → store_consistent K w'.
Proof.
  intros Hs Hc o. rewrite Hs, lookup_insert_eq. intros [= <-]. eauto.
Qed.

Lemma obj_key_cm cm : obj_key (OConfigMap cm) = (kind ConfigMap, key_of (cm_Meta cm)).
Proof. done. Qed.

Lemma getOrCreate_run K portRange s r s' :
  Inv K s → getOrCreate portRange s = (r, s') →
  Inv K s' ∧ match r with
             | Ok _ => Fresh K s' ∧ consistent s'.1 ∧ (Live K s → is_deleting (cm_Meta s'.1) = false)
             | _ => True
             end.
Proof.
  intros [HK Hc] E. destruct s as [cm w]. cbn in HK. subst K.
  unfold getOrCreate, mbind, M_bind, get_cm, put_cm, attempt, api in E. cbn [fst snd] in E.
  destruct (Get c ConfigMap (key_of (cm_Meta cm)) w) as [r1 w1] eqn:EG.
  apply (Get_run c) in EG as (Hs & _ & Hr). cbn [fst snd] in *.
  assert (Hc1 : store_consistent (key_of (cm_Meta cm)) w1).
  { intros o. rewrite Hs. apply Hc. }
  destruct r1 as [cm1|e|]; [|destruct (IsNotFound e) eqn:En|done]; cbn in E.
  - destruct Hr as [Hr Hk]. injection E as <- <-. destruct (Hc _ Hr) as (cm2 & Heq & ?).
    injection Heq as <-. unfold Fresh, Inv. cbn [fst snd]. rewrite Hs.
    change (key_of (cm_Meta cm1) = key_of (cm_Meta cm)) in Hk. rewrite Hk.
    repeat split; try done. intros [_ Hl]. exact (Hl _ Hr).
  - set (cm1 := set_cm_Data _ _ _) in E.
    destruct (Create c cm1 w1) as [r2 w2] eqn:EC. pose proof EC as EC'.
    apply (Create_run c) in EC as (_ & Hr2). cbn [fst snd] in *.
    destruct r2 as [cm2|e'|]; [| |done]; injection E as <- <-.
    + destruct Hr2 as (Hn & Hk & Hs2 & Hcl).
      destruct (create_config_map _ _ _ _ Hcl) as (cm3 & Heq & Hd & Hb & Hdel).
      injection Heq as ->.
      assert (consistent cm3) as Hc3 by (eapply consistent_ext; [..|apply consistent_fresh]; done).
      assert (Inv (key_of (cm_Meta cm)) (cm3, w2)) as HI.
      { split; [unfold obj_key in Hk; cbn in Hk |- *; congruence|].
        eapply store_consistent_insert; [|done]. apply Hs2. }
      repeat split; [apply HI..| |done|intros [Hl _]; by apply Hdel].
      cbn. rewrite Hs2. apply lookup_insert_eq.
    + repeat split. intros o. cbn. rewrite Hr2. apply Hc1.
  - injection E as <- <-. by repeat split.
Qed.

(** Whatever [saveSnapshot] does, it stays in memory and keeps the metadata. *)
Lemma saveSnapshot_frame pa snap m s r s' :
  saveSnapshot pa snap m s = (r, s') → s'.2 = s.2 ∧ cm_Meta s'.1 = cm_Meta s.1.
Proof.
  destruct s as [cm w]. unfold saveSnapshot, mbind, M_bind, lift, get_cm, put_cm. cbn.
  destruct (PA_Snapshot pa snap) as [snap'|e|]; [|by intros [= <- <-]..].
  destruct (map_set _ _ _) as [b|e|]; [|by intros [= <- <-]..]. cbn.
  destruct (map_set (cm_Data cm) _ _) as [d|e|]; [|by intros [= <- <-]..]. cbn.
  destruct (serializePortMap m) as [t|e|]; [|by intros [= <- <-]..].
  destruct (map_set d _ _) as [d'|e|]; by intros [= <- <-].
Qed.

Lemma Inv_frame K s s' : s'.2 = s.2 → cm_Meta s'.1 = cm_Meta s.1 → Inv K s → Inv K s'.
Proof. unfold Inv. by intros -> ->. Qed.

Lemma update_cm_run K s r s' :
  Inv K s → consistent s.1 → update_cm s = (r, s') →
  Inv K s' ∧
  match r with
  | Ok _ => cm_Data s'.1 = cm_Data s.1 ∧
            (is_deleting (cm_Meta s.1) = false →
             store s'.2 !! (kind ConfigMap, K) = Some (OConfigMap s'.1))
  | Err _ => store s'.2 = store s.2
  | Panic => False
  end.
Proof.
  destruct s as [cm w]. intros [HK Hc] Hcm E. cbn in *. subst K.
  unfold update_cm, mbind, M_bind, get_cm, put_cm, api in E. cbn [fst snd] in E.
  destruct (Update c cm w) as [r1 w1] eqn:EU. apply (Update_run c) in EU as (_ & Hr).
  cbn [fst snd] in *.
  destruct r1 as [cm1|e|]; [| |done]; injection E as <- <-.
  - destruct Hr as (Hex & Hk & Hf & Hs & Hcl).
    destruct (update_config_map _ _ _ _ Hcl) as (cm2 & Heq & Hd & Hb). injection Heq as ->.
    split.
    + split; [unfold obj_key in Hk; cbn in Hk |- *; congruence|]. cbn [fst snd] in *.
      destruct (_ && _).
      * intros o. rewrite Hs. unfold obj_key. cbn. by rewrite lookup_delete_eq.
      * eapply store_consistent_insert; [apply Hs|]. by eapply consistent_ext.
    + split; [done|]. intros Hdel. cbn in Hdel, Hs |- *. rewrite Hdel in Hs. cbn in Hs.
      rewrite Hs. apply lookup_insert_eq.
  - split; [split; [done|]|done]. intros o. cbn. rewrite Hr. apply Hc.
Qed.

Lemma hoare_getOrCreate K (L : Prop) portRange :
  hoare (λ s, Inv K s ∧ (L → Live K s)) (getOrCreate portRange)
    (λ _ s, Fresh K s ∧ consistent s.1 ∧ (L → is_deleting (cm_Meta s.1) = false)) (λ _, Inv K).
Proof.
  apply hoare_of_run. intros s r s' [HI HL] E. apply (getOrCreate_run K) in E as [? Hr]; [|done].
  split; [done|]. destruct r; naive_solver.
Qed.

Lemma hoare_saveSnapshot K cm0 pa snap m :
  hoare (λ s, Inv K s ∧ s.1 = cm0) (saveSnapshot pa snap m)
    (λ _ s, Inv K s ∧ ports_of s.1 = Ok m ∧ cm_Meta s.1 = cm_Meta cm0 ∧
            ∃ pa', NewFromSnapshot (snapshot_of s.1) = Ok pa' ∧ pa_used pa' = pa_used pa)
    (λ _, Inv K).
Proof.
  apply hoare_of_run. intros s r s' [HI <-] E. pose proof (saveSnapshot_frame _ _ _ _ _ _ E) as [H1 H2].
  split; [by eapply Inv_frame|]. destruct r; [|done..].
  apply saveSnapshot_ok in E as (_ & _ & ? & ?). split; [by eapply Inv_frame|]. auto.
Qed.

Lemma hoare_update_cm K cm0 :
  consistent cm0 →
  hoare (λ s, Inv K s ∧ s.1 = cm0) update_cm
    (λ _ s, Inv K s ∧ cm_Data s.1 = cm_Data cm0 ∧
            (is_deleting (cm_Meta cm0) = false →
             store s.2 !! (kind ConfigMap, K) = Some (OConfigMap s.1)))
    (λ _, Inv K).
Proof.
  intros Hc. apply hoare_of_run. intros s r s' [HI <-] E.
  apply (update_cm_run K) in E as [? Hr]; [|done..]. split; [done|].
  destruct r; [|done..]. tauto.
Qed.

(** Handing out a port the allocator has not used keeps the map consistent,
    and so does giving one back. *)
Lemma consistent_allocate cm cm' m k p pa pa1 pa2 :
  consistent cm → ports_of cm = Ok m → m !! k = None →
  NewFromSnapshot (snapshot_of cm) = Ok pa → AllocateNext pa = Ok (pa1, p) →
  ports_of cm' = Ok (<[k := p]> m) →
  NewFromSnapshot (snapshot_of cm') = Ok pa2 → pa_used pa2 = pa_used pa1 →
  consistent cm'.
Proof.
  intros (m0 & Hm0 & Hinj & Hused) Hm Hk Hpa Hnext Hm' Hpa2 Hu.
  assert (m0 = m) as -> by congruence.
  apply AllocateNext_ok in Hnext as (_ & Hfresh & Hu1 & _).
  exists (<[k:=p]> m). split; [done|]. split.
  - intros k1 k2 q. rewrite !lookup_insert_Some. intros [[<- <-]|[? H1]] [[<- ?]|[? H2]]; try done.
    + destruct Hfresh; eapply Hused; eassumption.
    + simplify_eq. destruct Hfresh; eapply Hused; eassumption.
    + eapply Hinj; eassumption.
  - intros pa3 k1 q Hpa3. assert (pa3 = pa2) as -> by congruence. rewrite Hu, Hu1, lookup_insert_Some.
    intros [[_ <-]|[_ H1]]; [set_solver|]. apply elem_of_union. right. eapply Hused; eassumption.
Qed.

Lemma consistent_release cm cm' m k p pa pa1 pa2 :
  consistent cm → ports_of cm = Ok m → m !! k = Some p →
  NewFromSnapshot (snapshot_of cm) = Ok pa → Release pa p = Ok pa1 →
  ports_of cm' = Ok (delete k m) →
  NewFromSnapshot (snapshot_of cm') = Ok pa2 → pa_used pa2 = pa_used pa1 →
  consistent cm'.
Proof.
  intros (m0 & Hm0 & Hinj & Hused) Hm Hk Hpa Hnext Hm' Hpa2 Hu.
  assert (m0 = m) as -> by congruence.
  apply Release_ok in Hnext as (Hu1 & _).
  exists (delete k m). split; [done|]. split.
  - intros k1 k2 q [_ H1]%lookup_delete_Some [_ H2]%lookup_delete_Some. eapply Hinj; eassumption.
  - intros pa3 k1 q Hpa3 [Hne H1]%lookup_delete_Some. assert (pa3 = pa2) as -> by congruence.
    rewrite Hu, Hu1.
    apply elem_of_difference. split; [by eapply Hused|]. rewrite elem_of_singleton.
    intros ->. by apply Hne, (Hinj _ _ p).
Qed.

Definition cluster_key (clusterName clusterNamespace : string) : string :=
  clusterNamespace +:+ "/" +:+ clusterName.

(** [cm] records the port [p] for the cluster [k], and for no other one. *)
Definition holds (cm : ConfigMap) (k : string) (p : Z) : Prop :=
  ∃ m, ports_of cm = Ok m ∧ m !! k = Some p ∧ ∀ k', m !! k' = Some p → k' = k.

Definition unrecorded (cm : ConfigMap) (k : string) : Prop :=
  ∃ m, ports_of cm = Ok m ∧ m !! k = None.

Definition stored (K : NamespacedName) (s : ConfigMap * W) : Prop :=
  store s.2 !! (kind ConfigMap, K) = Some (OConfigMap s.1).

Lemma consistent_holds cm m k p :
  consistent cm → ports_of cm = Ok m → m !! k = Some p → holds cm k p.
Proof.
  intros (m0 & H0 & Hinj & _) Hm Hk. exists m. split_and!; [done..|].
  assert (m0 = m) as -> by congruence. intros k' Hk'. eapply Hinj; eassumption.
Qed.

Lemma holds_ext cm cm' k p : cm_Data cm' = cm_Data cm → holds cm k p → holds cm' k p.
Proof. unfold holds, ports_of. by intros ->. Qed.

(** The last steps of both operations: [saveSnapshot], then [Update]. *)
Lemma hoare_save_update K cm0 pa snap m (R : ConfigMap → Prop) :
  (∀ cm pa', cm_Meta cm = cm_Meta cm0 → ports_of cm = Ok m →
             NewFromSnapshot (snapshot_of cm) = Ok pa' → pa_used pa' = pa_used pa →
             consistent cm ∧ R cm) →
  (∀ cm cm', cm_Data cm' = cm_Data cm → R cm → R cm') →
  hoare (λ s, Inv K s ∧ s.1 = cm0) (saveSnapshot pa snap m ;; update_cm)
    (λ _ s, Inv K s ∧ R s.1 ∧ (is_deleting (cm_Meta cm0) = false → stored K s)) (λ _, Inv K).
Proof.
  intros Hc HR. eapply hoare_bind; [apply hoare_saveSnapshot|]. intros _ s (HI & Hm & Hmeta & pa' & H1 & H2).
  destruct (Hc _ _ Hmeta Hm H1 H2) as [Hcons HRs].
  pose proof (hoare_update_cm K s.1 Hcons s (conj HI eq_refl)) as Hu.
  destruct (update_cm s) as [[[]|e|] s2]; [|done..]. rewrite Hmeta in Hu. unfold stored. naive_solver.
Qed.

Lemma hoare_allocate K (L : Prop) n ns :
  hoare (λ s, Inv K s ∧ (L → Live K s)) (allocatePort n ns)
    (λ p s, Inv K s ∧ holds s.1 (cluster_key n ns) p ∧ (L → stored K s)) (λ _, Inv K).
Proof.
  unfold allocatePort. eapply hoare_bind; [apply hoare_get_cm|]. intros cm0; cbn beta.
  destruct (map_get (cm_Data cm0) rangeKey) as [portRange|]; [|apply hoare_fail; naive_solver].
  eapply hoare_bind.
  { eapply hoare_weaken; [apply (hoare_getOrCreate K L)|naive_solver]. }
  intros []; cbn beta. eapply hoare_bind; [apply hoare_get_cm|]. intros cm; cbn beta.
  apply hoare_lift_bind; [unfold Fresh; naive_solver|]. intros m Hm.
  change (ns +:+ "/" +:+ n) with (cluster_key n ns).
  destruct (m !! cluster_key n ns) as [port|] eqn:Hk.
  - apply hoare_ret. intros s (-> & [HI Hst] & Hc & _). split; [done|].
    split; [by eapply consistent_holds|]. by intros _.
  - apply hoare_lift_bind; [unfold Fresh; naive_solver|]. intros pa Hpa.
    apply hoare_lift_bind; [unfold Fresh; naive_solver|]. intros [pa1 p] Hnext.
    apply (hoare_pre _ (consistent cm)); [by intros s (-> & _ & ? & _)|]. intros Hc.
    apply (hoare_pre _ (L → is_deleting (cm_Meta cm) = false)); [by intros s (-> & _ & _ & ?)|].
    intros HL. apply hoare_assoc. eapply hoare_bind.
    + apply (hoare_weaken _ (λ s, Inv K s ∧ s.1 = cm)); [|by intros s (-> & [HI _] & _)].
      apply (hoare_save_update K cm pa1 _ _ (λ cm, holds cm (cluster_key n ns) p)); [|intros ? ?; apply holds_ext].
      intros cm' pa' _ H1 H2 H3.
      assert (consistent cm') by (eapply consistent_allocate; eassumption).
      split; [done|]. eapply consistent_holds; [done..|]. apply lookup_insert_eq.
    + intros []; cbn beta. apply hoare_ret. naive_solver.
Qed.

Lemma hoare_deallocate K (L : Prop) n ns port :
  hoare (λ s, Inv K s ∧ (L → Live K s)) (deallocatePort n ns port)
    (λ _ s, Inv K s ∧ unrecorded s.1 (cluster_key n ns) ∧ (L → stored K s)) (λ _, Inv K).
Proof.
  unfold deallocatePort. eapply hoare_bind; [apply hoare_get_cm|]. intros cm0; cbn beta.
  destruct (map_get (cm_Data cm0) rangeKey) as [portRange|]; [|apply hoare_fail; naive_solver].
  eapply hoare_bind.
  { eapply hoare_weaken; [apply (hoare_getOrCreate K L)|naive_solver]. }
  intros []; cbn beta. eapply hoare_bind; [apply hoare_get_cm|]. intros cm; cbn beta.
  apply hoare_lift_bind; [unfold Fresh; naive_solver|]. intros m Hm.
  change (ns +:+ "/" +:+ n) with (cluster_key n ns).
  apply (hoare_pre _ (consistent cm)); [by intros s (-> & _ & ? & _)|]. intros Hc.
  apply (hoare_pre _ (L → is_deleting (cm_Meta cm) = false)); [by intros s (-> & _ & _ & ?)|].
  intros HL. destruct (m !! cluster_key n ns) as [used|] eqn:Hk.
  - destruct (bool_decide_reflect (used = port)) as [->|Hne]; cbn [negb];
      [|apply hoare_fail; unfold Fresh; naive_solver].
    apply hoare_lift_bind; [unfold Fresh; naive_solver|]. intros pa Hpa.
    apply hoare_lift_bind; [unfold Fresh; naive_solver|]. intros pa1 Hrel.
    eapply hoare_conseq.
    + apply (hoare_save_update K cm pa1 _ _ (λ cm, unrecorded cm (cluster_key n ns))).
      * intros cm' pa' _ H1 H2 H3. split; [eapply consistent_release; eassumption|].
        exists (delete (cluster_key n ns) m). split; [done|]. apply lookup_delete_eq.
      * unfold unrecorded, ports_of. by intros cm1 cm2 ->.
    + by intros s (-> & [HI _] & _).
    + naive_solver.
    + done.
  - eapply hoare_conseq; [apply (hoare_update_cm K cm Hc)|by intros s (-> & [HI _] & _)| |done].
    intros [] s (HI & Hd & Hst); cbn beta. split; [done|].
    split; [|intros ?; by apply Hst, HL]. exists m. split; [|done]. unfold ports_of. by rewrite Hd.
Qed.

(** ** The properties *)

(** One call on an allocator that points at [K], ending in any way. *)
Inductive step : ConfigMap * W → ConfigMap * W → Prop :=
| step_init r s o s' : InitPortAllocatorConfig r s = (o, s') → step s s'
| step_allocate n ns s o s' : AllocateKubeletPort n ns s = (o, s') → step s s'
| step_deallocate n ns p s o s' : DeallocateKubeletPort n ns p s = (o, s') → step s s'.

Lemma step_Inv K s s' : step s s' → Inv K s → Inv K s'.
Proof.
  intros [r s1 o s2 E|n ns s1 o s2 E|n ns p s1 o s2 E] HI.
  - by eapply getOrCreate_run.
  - pose proof (hoare_allocate K False n ns s1 (conj HI (False_ind _))) as Ht.
    unfold AllocateKubeletPort in E. rewrite E in Ht. destruct o; [by destruct Ht|done..].
  - pose proof (hoare_deallocate K False n ns p s1 (conj HI (False_ind _))) as Ht.
    unfold DeallocateKubeletPort in E. rewrite E in Ht. destruct o; [by destruct Ht|done..].
Qed.

(** C1: The ConfigMap is never left in an inconsistent state: starting from a
    cluster without it, after any sequence of initialisations, allocations and
    deallocations, whatever each of them ended with (success, API error,
    exhausted range, panic), the stored port map parses, gives no port to two
    clusters, and every recorded port is marked used in the allocator snapshot
    stored next to it. *)
Theorem port_map_consistent K s s' :
  key_of (cm_Meta s.1) = K → store s.2 !! (kind ConfigMap, K) = None →
  rtc step s s' → store_consistent K s'.2.
Proof.
  intros HK Hn Hr. assert (Inv K s) as HI by (split; [done|]; intros o; by rewrite Hn).
  enough (Inv K s') as [_ ?] by done. clear HK Hn.
  induction Hr as [s|s1 s2 s3 Hs _ IH]; [done|]. apply IH. eapply step_Inv; eassumption.
Qed.

(** An allocation that succeeds returns a port that the stored ConfigMap
    records for the cluster, and for no other cluster. *)
Theorem AllocateKubeletPort_records K n ns s p s' :
  Inv K s → Live K s → AllocateKubeletPort n ns s = (Ok p, s') →
  stored K s' ∧ holds s'.1 (cluster_key n ns) p.
Proof.
  intros HI HL E. pose proof (hoare_allocate K True n ns s) as Ht. cbn beta in Ht.
  unfold AllocateKubeletPort in E. rewrite E in Ht.
  destruct Ht as (_ & ? & Hs); [done|]. split; [by apply Hs|done].
Qed.

(** A deallocation that succeeds leaves no port recorded for the cluster. *)
Theorem DeallocateKubeletPort_forgets K n ns p s s' :
  Inv K s → Live K s → DeallocateKubeletPort n ns p s = (Ok tt, s') →
  stored K s' ∧ unrecorded s'.1 (cluster_key n ns).
Proof.
  intros HI HL E. pose proof (hoare_deallocate K True n ns p s) as Ht. cbn beta in Ht.
  unfold DeallocateKubeletPort in E. rewrite E in Ht.
  destruct Ht as (_ & ? & Hs); [done|]. split; [by apply Hs|done].
Qed.

(** While the server answers, a cluster that holds a port is given the same
    port again without any write, and giving back another port is refused
    without any write. *)
Theorem allocated_port_stable K n ns cm s p portRange :
  up s.2 → key_of (cm_Meta s.1) = K → map_get (cm_Data s.1) rangeKey = Some portRange →
  store s.2 !! (kind ConfigMap, K) = Some (OConfigMap cm) →
  holds cm (cluster_key n ns) p →
  (∃ s', AllocateKubeletPort n ns s = (Ok p, s') ∧ store s'.2 = store s.2) ∧
  (∀ q, q ≠ p → ∃ e s', DeallocateKubeletPort n ns q s = (Err e, s') ∧ store s'.2 = store s.2).
Proof.
  destruct s as [cm0 w]. cbn [fst snd]. intros Hup HK Hr Hst (m & Hm & Hk & _).
  assert (∃ w', getOrCreate portRange (cm0, w) = (Ok tt, (cm, w')) ∧ store w' = store w)
    as (w' & E & Hs).
  { destruct (Get_found c (T:=ConfigMap) K w cm Hup Hst) as (w' & E & Hs & _). exists w'.
    split; [|done]. unfold getOrCreate, mbind, M_bind, get_cm, put_cm, attempt, api.
    cbn [fst snd]. by rewrite HK, E. }
  unfold AllocateKubeletPort, allocatePort, DeallocateKubeletPort, deallocatePort.
  change (ns +:+ "/" +:+ n) with (cluster_key n ns).
  split; [|intros q Hq]; unfold mbind, M_bind; cbn [get_cm fst snd]; rewrite Hr, E;
    cbn [get_cm fst snd]; unfold lift; change (parsePortMap _) with (ports_of cm);
    rewrite Hm, Hk; [by eexists|].
  rewrite bool_decide_false by done. by do 2 eexists.
Qed.
End Triples.
End Ports.

(** ** A concrete allocator and codec

    The snapshot is a string with one character per used port (its offset from
    50000), the range has eight ports; the map is written in the binary digits
    of stdpp's encoding. *)
Fixpoint bits (p : positive) : string :=
  match p with
  | xH => "1"
  | xO q => String "0" (bits q)
  | xI q => String "1" (bits q)
  end.

Fixpoint unbits (s : string) : positive :=
  match s with
  | "" => xH
  | String _ "" => xH
  | String a s' => if Ascii.eqb a "0" then xO (unbits s') else xI (unbits s')
  end.

Lemma bits_nonempty p : bits p ≠ "".
Proof. by destruct p. Qed.

Lemma unbits_bits p : unbits (bits p) = p.
Proof.
  induction p as [p IH|p IH|]; [| |done];
    cbn; rewrite IH; destruct (bits p) eqn:E; try done; by destruct (bits_nonempty p).
Qed.

Definition offset_port (a : Ascii.ascii) : Z := (50000 + Z.of_nat (Ascii.nat_of_ascii a))%Z.
Definition offsets : list Ascii.ascii := Ascii.ascii_of_nat <$> seq 0 8.
Definition used_ports (l : list Ascii.ascii) : gset Z := list_to_set (offset_port <$> l).

#[export] Instance toy_ports : PortLib := {|
  PA := string * list Ascii.ascii;
  NewFromSnapshot s := Ok (ra_Range s, String.list_ascii_of_string (ra_Data s));
  AllocateNext pa :=
    match List.find (λ a, bool_decide (offset_port a ∉ used_ports pa.2)) offsets with
    | Some a => Ok ((pa.1, a :: pa.2), offset_port a)
    | None => Err (EText "range is full")
    end;
  Release pa p := Ok (pa.1, List.filter (λ a, negb (bool_decide (offset_port a = p))) pa.2);
  PA_Snapshot pa s := Ok {| ra_Range := pa.1; ra_Data := String.string_of_list_ascii pa.2 |};
  yaml_UnmarshalPorts s :=
    match s with
    | "" => Ok ∅
    | _ => match decode (unbits s) with Some m => Ok m | None => Err (EText "bad yaml") end
    end;
  yaml_MarshalPorts m := Ok (bits (encode m));
  pa_used pa := used_ports pa.2;
  pa_range _ := used_ports offsets;
|}.

#[export] Instance toy_ports_laws : PortLibLaws.
Proof.
  split.
  - intros pa pa' p. cbn -[offsets]. destruct (List.find _ _) as [a|] eqn:E; [|done].
    intros [= <- <-]. apply List.find_some in E as [Hin Hf]. apply bool_decide_eq_true in Hf.
    split_and!; [|done..]. apply elem_of_list_to_set, list_elem_of_fmap. exists a.
    split; [done|]. by apply list_elem_of_In.
  - intros pa pa' p. cbn. intros [= <-]. split; [|done]. cbn. apply set_eq. intros q.
    unfold used_ports. rewrite elem_of_difference, !elem_of_list_to_set, !list_elem_of_fmap, elem_of_singleton.
    split.
    + intros (a & -> & Ha). apply list_elem_of_In, List.filter_In in Ha as [Ha Hp].
      apply negb_true_iff, bool_decide_eq_false in Hp. split; [|done]. exists a.
      split; [done|]. by apply list_elem_of_In.
    + intros [(a & -> & Ha) Hp]. exists a. split; [done|]. apply list_elem_of_In, List.filter_In.
      split; [by apply list_elem_of_In|]. by apply negb_true_iff, bool_decide_eq_false.
  - intros pa s s'. cbn. intros [= <-]. cbn. rewrite String.list_ascii_of_string_of_list_ascii.
    eexists; split; [done|]. by destruct pa.
  - intros m s. cbn. intros [= <-]. destruct (bits (encode m)) eqn:E; [by destruct (bits_nonempty (encode m))|].
    by rewrite <- E, unbits_bits, decode_encode.
  - done.
Qed.

#[export] Instance mem_keeps_config_maps : KeepsConfigMaps mem_client.
Proof.
  split; intros cm w o w'; cbn; unfold mem_create, mem_update, mem_guard;
    destruct (mem_up w); try done;
    repeat case_match; intros [= <- <-]; eexists; (split; [done|]); auto.
Qed.

Definition ex_cm : ConfigMap := set_cm_Data (map_lit [(rangeKey, "50000-50007")]) None
  {| cm_Meta := meta_of "k3k-system" kubeletPortRangeConfigMapName; cm_Data := None; cm_BinaryData := None |}.
Definition ex_K : NamespacedName := key_of (cm_Meta ex_cm).
Definition ex_s0 : ConfigMap * mem := (ex_cm, {| mem_store := ∅; mem_up := true |}).

(** Two clusters get two ports, the second keeps its own when the first gives
    its port back, and a third cluster is then given the port that is free. *)
Definition ex_run : PM (W:=mem) (list Z) :=
  InitPortAllocatorConfig mem_client "50000-50007" ;;
  p1 ← AllocateKubeletPort mem_client "a" "ns";
  p2 ← AllocateKubeletPort mem_client "b" "ns";
  DeallocateKubeletPort mem_client "a" "ns" p1 ;;
  p2' ← AllocateKubeletPort mem_client "b" "ns";
  p3 ← AllocateKubeletPort mem_client "c" "ns";
  mret [p1; p2; p2'; p3].

Example ex_run_ports : (ex_run ex_s0).1 = Ok [50000; 50001; 50001; 50000]%Z.
Proof. vm_compute. reflexivity. Qed.

Definition ex_s1 : ConfigMap * mem := (AllocateKubeletPort mem_client "a" "ns" ex_s0).2.

Lemma ex_s0_Inv : Inv mem_client ex_K ex_s0 ∧ Live mem_client ex_K ex_s0.
Proof. split; split; [done|intros o Ho; vm_compute in Ho; done..|done|intros o Ho; vm_compute in Ho; done]. Qed.

Lemma ex_s1_step : step mem_client ex_s0 ex_s1.
Proof. eapply (step_allocate _ "a" "ns"), surjective_pairing. Qed.

Lemma ex_s1_Inv : Inv mem_client ex_K ex_s1 ∧ Live mem_client ex_K ex_s1.
Proof.
  split; [exact (step_Inv _ _ _ _ ex_s1_step (proj1 ex_s0_Inv))|].
  split; [by vm_compute|]. intros o Ho. vm_compute in Ho. by injection Ho as <-.
Qed.

Lemma ex_s1_holds : stored mem_client ex_K ex_s1 ∧ holds ex_s1.1 "ns/a" 50000.
Proof.
  pose proof (hoare_allocate mem_client ex_K True "a" "ns" ex_s0
                (conj (proj1 ex_s0_Inv) (λ _, proj2 ex_s0_Inv))) as H.
  assert (allocatePort mem_client "a" "ns" ex_s0 = (Ok 50000%Z, ex_s1)) as E
    by (vm_compute; reflexivity).
  rewrite E in H. destruct H as (_ & ? & H). split; [by apply H|done].
Qed.

Lemma port_map_consistent_witness :
  rtc (step mem_client) ex_s0 ex_s1 ∧ store_consistent mem_client ex_K ex_s1.2.
Proof.
  assert (rtc (step mem_client) ex_s0 ex_s1) as H by (apply rtc_once, ex_s1_step).
  split; [exact H|]. apply (port_map_consistent mem_client ex_K ex_s0 ex_s1); [reflexivity| |exact H].
  vm_compute. reflexivity.
Defined.

Lemma AllocateKubeletPort_records_witness :
  AllocateKubeletPort mem_client "a" "ns" ex_s0 = (Ok 50000%Z, ex_s1) ∧
  stored mem_client ex_K ex_s1 ∧ holds ex_s1.1 "ns/a" 50000.
Proof.
  assert (AllocateKubeletPort mem_client "a" "ns" ex_s0 = (Ok 50000%Z, ex_s1)) as H
    by (vm_compute; reflexivity).
  split; [exact H|].
  exact (AllocateKubeletPort_records mem_client ex_K "a" "ns" _ _ _
           (proj1 ex_s0_Inv) (proj2 ex_s0_Inv) H).
Defined.

Lemma DeallocateKubeletPort_forgets_witness :
  ∃ s', DeallocateKubeletPort mem_client "a" "ns" 50000 ex_s1 = (Ok tt, s') ∧
        stored mem_client ex_K s' ∧ unrecorded s'.1 "ns/a".
Proof.
  eexists (DeallocateKubeletPort mem_client "a" "ns" 50000 ex_s1).2.
  assert (DeallocateKubeletPort mem_client "a" "ns" 50000 ex_s1 =
          (Ok tt, (DeallocateKubeletPort mem_client "a" "ns" 50000 ex_s1).2)) as H
    by (vm_compute; reflexivity).
  split; [exact H|].
  exact (DeallocateKubeletPort_forgets mem_client ex_K "a" "ns" 50000 _ _
           (proj1 ex_s1_Inv) (proj2 ex_s1_Inv) H).
Defined.

Lemma allocated_port_stable_witness :
  (∃ s', AllocateKubeletPort mem_client "a" "ns" ex_s1 = (Ok 50000%Z, s') ∧
         mem_objects s'.2 = mem_objects ex_s1.2) ∧
  (∃ e s', DeallocateKubeletPort mem_client "a" "ns" 50001 ex_s1 = (Err e, s') ∧
           mem_objects s'.2 = mem_objects ex_s1.2).
Proof.
  destruct ex_s1_holds as (Hst & Hh).
  destruct (allocated_port_stable mem_client ex_K "a" "ns" ex_s1.1 ex_s1 50000 "50000-50007")
    as [H1 H2]; [vm_compute; reflexivity..|exact Hst|exact Hh|].
  split; [exact H1|]. apply (H2 50001%Z). lia.
Defined.
End Ports.
