(* ===== verification/Capacity.v ===== *)
(** * The capacity of the virtual nodes (k3k-kubelet/provider/configure_capacity.go)

    The quotas of the host namespace are merged (the most restrictive value
    wins), filtered, and divided among the virtual nodes, each capped by what
    its host node can give.  Amounts are [int64] values; the arithmetic wraps
    as Go's does.  A [range] over a Go map visits it in an order the runtime
    chooses: where the code does so, the definition takes the visiting order
    as a list. *)

From S2P Require Import Prelude GoStd K8s Types Kube.

Local Open Scope string_scope.
Local Open Scope nat_scope.

(** The value of an [int64] expression. *)
Definition wrap64 (z : Z) : Z := ((z + 2 ^ 63) mod 2 ^ 64 - 2 ^ 63)%Z.
Definition in64 (z : Z) : Prop := (int64_min ≤ z ≤ int64_max)%Z.

Lemma wrap64_id z : in64 z → wrap64 z = z.
Proof. unfold in64, int64_min, int64_max, wrap64. intros. rewrite Z.mod_small; lia. Qed.

Lemma wrap64_range z : in64 (wrap64 z).
Proof.
  unfold in64, int64_min, int64_max, wrap64.
  pose proof (Z.mod_pos_bound (z + 2 ^ 63) (2 ^ 64)). lia.
Qed.

Module Capacity.

(** [milliScaleResources] and [coreResources]: the [corev1] resource names. *)
Definition milliScaleResources : list string :=
  ["cpu"; "memory"; "storage"; "ephemeral-storage"; "requests.cpu"; "requests.memory";
   "requests.storage"; "requests.ephemeral-storage"; "limits.cpu"; "limits.memory";
   "limits.ephemeral-storage"].

Definition coreResources : list string :=
  ["cpu"; "memory"; "storage"; "ephemeral-storage"; "requests.cpu"; "requests.memory";
   "requests.storage"; "requests.ephemeral-storage"].

Section Capacity.
Context `{QuantityOps}.

Abbreviation Resources := (gmap string Quantity).

(** ** mergeQuotas *)
Definition least (existing qty : Quantity) : Quantity :=
  match Quantity_Cmp qty existing with Lt => qty | _ => existing end.

Definition mergeQuotas (resourceLists : list Resources) : Resources :=
  fold_left (union_with (λ existing qty, Some (least existing qty))) resourceLists ∅.

(** ** filterQuotas *)
Definition filteredResourceName (resourceName : string) : string :=
  strings_TrimPrefix (strings_TrimPrefix resourceName "requests.") "limits.".

(** The quotas in the order of the [range]. *)
Definition filterQuotas (resources : list (string * Quantity)) : Resources :=
  fold_left (λ filtered '(resourceName, resourceValue),
    if slices_Contains coreResources resourceName then filtered
    else <[filteredResourceName resourceName := resourceValue]> filtered) resources ∅.

(** ** distributeQuotas: one resource *)
Definition useMilli (resourceName : string) : bool :=
  slices_Contains milliScaleResources resourceName.

Definition amount (resourceName : string) (q : Quantity) : Z :=
  if useMilli resourceName then Quantity_MilliValue q else Quantity_Value q.

Definition new_quantity (resourceName : string) (z : Z) (f : string) : Quantity :=
  if useMilli resourceName then NewMilliQuantity z f else NewQuantity z f.

(** [resourceMap[v][r]] *)
Definition at_ (resourceMap : gmap string Resources) (v r : string) : Quantity :=
  default zero_Quantity (resourceMap !! v ≫= (.!! r)).

(** [resourceMap[v][r] = q]; the inner maps are the ones the caller makes. *)
Definition set_at (resourceMap : gmap string Resources) (v r : string) (q : Quantity)
  : gmap string Resources := alter <[r := q]> v resourceMap.

Definition cap_of (hostCap : gmap string Z) (v : string) : Z := default 0%Z (hostCap !! v).

Record cycle : Type := {
  totalValue : Z;
  remainder : Z;
  hostCap : gmap string Z;
  resourceMap : gmap string Resources;
  remainingNodes : list string;
}.

(** The body of the loop over the eligible nodes. *)
Definition node_step (resourceName format : string) (quantityPerNode : Z) (s : cycle)
    (virtualNodeName : string) : cycle :=
  let more := (0 <? remainder s)%Z in
  let nodeQuantity := if more then wrap64 (quantityPerNode + 1) else quantityPerNode in
  let remainder' := if more then wrap64 (remainder s - 1) else remainder s in
  let nodeQuantity := Z.min nodeQuantity (cap_of (hostCap s) virtualNodeName) in
  let existing := at_ (resourceMap s) virtualNodeName resourceName in
  let cap' := wrap64 (cap_of (hostCap s) virtualNodeName - nodeQuantity) in
  {| totalValue := wrap64 (totalValue s - nodeQuantity);
     remainder := remainder';
     hostCap := <[virtualNodeName := cap']> (hostCap s);
     resourceMap :=
       if (0 <? nodeQuantity)%Z
       then set_at (resourceMap s) virtualNodeName resourceName
              (new_quantity resourceName
                 (wrap64 (amount resourceName existing + nodeQuantity)) format)
       else resourceMap s;
     remainingNodes :=
       if (0 <? cap')%Z then (remainingNodes s ++ [virtualNodeName])%list else remainingNodes s |}.

Definition start_pass (eligibleNodes : list string) (s : cycle) : cycle :=
  {| totalValue := totalValue s;
     remainder := Z.rem (totalValue s) (Z.of_nat (length eligibleNodes));
     hostCap := hostCap s; resourceMap := resourceMap s; remainingNodes := [] |}.

Definition pass (resourceName format : string) (eligibleNodes : list string) (s : cycle) : cycle :=
  fold_left (node_step resourceName format
               (Z.quot (totalValue s) (Z.of_nat (length eligibleNodes))))
    eligibleNodes (start_pass eligibleNodes s).

(** The redistribution loop: [remainingNodes s] are the eligible nodes; [None]
    when the fuel is out. *)
Fixpoint redistribute (fuel : nat) (resourceName format : string) (s : cycle) : option cycle :=
  if (0 <? totalValue s)%Z && negb (bool_decide (remainingNodes s = []))
  then match fuel with
       | O => None
       | S n => redistribute n resourceName format (pass resourceName format (remainingNodes s) s)
       end
  else Some s.

(** The nodes that take part, and the capacity of each. *)
Definition host_capacity (hostResourceMap : gmap string ResourceList) (resourceName : string)
    (vn : string) : option Z :=
  hostNodeResources ← hostResourceMap !! vn;
  resourceQuantity ← map_get hostNodeResources resourceName;
  Some (amount resourceName resourceQuantity).

Definition eligible (hostResourceMap : gmap string ResourceList) (resourceName : string)
    (nodes : list string) : list string :=
  slices_Sort (List.filter
    (λ vn, bool_decide (is_Some (host_capacity hostResourceMap resourceName vn))) nodes).

Definition distribute_one (hostResourceMap : gmap string ResourceList) (nodes : list string)
    (rm : gmap string Resources) (resourceName : string) (totalQuantity : Quantity)
  : option (gmap string Resources) :=
  let eligibleNodes := eligible hostResourceMap resourceName nodes in
  let hostCap :=
    list_to_map (omap (λ vn, pair vn <$> host_capacity hostResourceMap resourceName vn) nodes) in
  resourceMap <$>
    redistribute (S (length eligibleNodes)) resourceName (q_Format totalQuantity)
      {| totalValue := amount resourceName totalQuantity; remainder := 0%Z; hostCap := hostCap;
         resourceMap := rm; remainingNodes := eligibleNodes |}.

(** ** distributeQuotas *)

(** "fill out any allocatable resource that does not exist in quota" *)
Definition fill_out (hostResourceMap : gmap string ResourceList) (quotas : Resources)
    (virtResourceMap : gmap string Resources) : gmap string Resources :=
  map_imap (λ vn m,
    match hostResourceMap !! vn with
    | Some (Some hostResources) =>
        Some (filter (λ p, quotas !! p.1 = None) hostResources ∪ m)
    | _ => Some m
    end) virtResourceMap.

(** [order] is the order in which the loop visits [quotas]; the nodes are
    visited in map order and then sorted. *)
Definition distributeQuotas (hostResourceMap : gmap string ResourceList)
    (virtResourceMap : gmap string Resources) (quotas : Resources) (order : list (string * Quantity))
  : option (gmap string Resources) :=
  let nodes := (map_to_list virtResourceMap).*1 in
  fold_left (λ acc '(resourceName, totalQuantity),
    resourceMap ← acc;
    distribute_one hostResourceMap nodes resourceMap resourceName totalQuantity)
    order (Some (fill_out hostResourceMap quotas virtResourceMap)).

(** ** updateNodeCapacity

    The host and the virtual cluster are two API servers. *)
Section Update.
Context {Wh Wv : Type} (hostClient : Client Wh) (virtualClient : Client Wv).
Context (visit : Resources → list (string * Quantity)).

Definition host {A} (m : M Wh A) : M (Wh * Wv) A := λ w, let '(r, h) := m w.1 in (r, (h, w.2)).
Definition virtual {A} (m : M Wv A) : M (Wh * Wv) A := λ w, let '(r, v) := m w.2 in (r, (w.1, v)).

Definition set_Resources (a : ResourceList) (n : Node) : Node := {|
  node_Meta := node_Meta n; node_PodCIDR := node_PodCIDR n; node_PodCIDRs := node_PodCIDRs n;
  node_Addresses := node_Addresses n; node_Capacity := a; node_Allocatable := a;
  node_Extra := node_Extra n |}.

(** The [else] branch of an error check that logs and returns. *)
Definition or_return {A} (m : M (Wh * Wv) A) (f : A → M (Wh * Wv) unit) : M (Wh * Wv) unit :=
  r ← attempt m;
  match r with inl a => f a | inr _ => mret tt end.

(** The last part: the virtual node gets the computed resources. *)
Definition write_capacity (virtualNodeName : string) (allocatable : ResourceList)
  : M (Wh * Wv) unit :=
  or_return (virtual (Get virtualClient Node {| nn_Namespace := ""; nn_Name := virtualNodeName |}))
    (λ virtualNode,
       or_return (virtual (StatusUpdate virtualClient (set_Resources allocatable virtualNode)))
         (λ _, mret tt)).

(** [for name, value := range m { allocatable[name] = value }] *)
Definition merge_into (m : Resources) (allocatable : ResourceList) : outcome ResourceList :=
  fold_left (λ acc '(name, value), a ← acc; map_set a name value) (visit m) (Ok allocatable).

Definition updateNodeCapacity (clusterNamespace virtualNodeName : string) : M (Wh * Wv) unit :=
  or_return (host (Get hostClient Node {| nn_Namespace := ""; nn_Name := virtualNodeName |})) (λ node,
  let allocatable := node_Allocatable node in
  or_return (host (List_ hostClient ResourceQuota (InNamespace clusterNamespace))) (λ quotas,
  if (0 <? length quotas)%nat then
    or_return (virtual (List_ virtualClient Node list_all)) (λ virtualNodeList,
    let virtResourceMap : gmap string Resources :=
      list_to_map (map (λ vNode, (Name (node_Meta vNode), ∅)) virtualNodeList) in
    or_return (host (List_ hostClient Node list_all)) (λ hostNodeList,
    let hostResourceMap : gmap string ResourceList :=
      list_to_map (map (λ hNode, (Name (node_Meta hNode), node_Allocatable hNode))
        (List.filter (λ hNode, bool_decide (is_Some (virtResourceMap !! Name (node_Meta hNode))))
           hostNodeList)) in
    let resourceLists := map (λ q, default ∅ (rq_Hard q)) quotas in
    let mergedQuota := filterQuotas (visit (mergeQuotas resourceLists)) in
    match distributeQuotas hostResourceMap virtResourceMap mergedQuota (visit mergedQuota) with
    | None => panic (* not reached: [distributeQuotas_spec] *)
    | Some m =>
        allocatable ← lift (merge_into (default ∅ (m !! virtualNodeName)) allocatable);
        write_capacity virtualNodeName allocatable
    end))
  else write_capacity virtualNodeName allocatable)).

(** The loop of the goroutine, until its context is done: one update at each
    tick of 10 seconds. *)
Definition UpdateNodeCapacityInterval : Z := 10 * 10 ^ 9.

Fixpoint startNodeCapacityUpdater (clusterNamespace virtualNodeName : string) (ticks : nat) : M (Wh * Wv) unit :=
  match ticks with
  | O => mret tt
  | S ticks =>
      updateNodeCapacity clusterNamespace virtualNodeName ;;
      startNodeCapacityUpdater clusterNamespace virtualNodeName ticks
  end.
End Update.

(** ** The redistribution loop *)
Context `{!QuantityLaws}.

Fixpoint zsum (f : string → Z) (l : list string) : Z :=
  match l with
  | [] => 0%Z
  | v :: l' => (f v + zsum f l')%Z
  end.

Lemma zsum_ext f g l : (∀ v, v ∈ l → f v = g v) → zsum f l = zsum g l.
Proof.
  induction l as [|v l IH]; cbn; intros Hfg; [done|].
  rewrite Hfg, IH; [done|set_solver..].
Qed.

Lemma zsum_update f g v d l :
  NoDup l → v ∈ l → (∀ w, w ≠ v → g w = f w) → g v = (f v + d)%Z → zsum g l = (zsum f l + d)%Z.
Proof.
  intros Hnd Hv Hne Heq. induction Hnd as [|w l Hw Hnd IH]; [set_solver|]. cbn.
  destruct (decide (w = v)) as [->|Hwv].
  - rewrite (zsum_ext g f l); [lia|]. intros w Hwl. apply Hne. set_solver.
  - rewrite Hne, IH by set_solver. lia.
Qed.

Lemma zsum_nonneg f l : (∀ v, v ∈ l → 0 ≤ f v)%Z → (0 ≤ zsum f l)%Z.
Proof.
  induction l as [|v l IH]; cbn; intros Hf; [done|].
  pose proof (Hf v ltac:(set_solver)). specialize (IH ltac:(set_solver)). lia.
Qed.

Lemma zsum_zero f l : (∀ v, v ∈ l → f v = 0%Z) → zsum f l = 0%Z.
Proof.
  induction l as [|v l IH]; cbn; intros Hf; [done|]. rewrite (Hf v), IH by set_solver. lia.
Qed.

Lemma zsum_add f g l : zsum (λ v, f v + g v)%Z l = (zsum f l + zsum g l)%Z.
Proof. induction l as [|v l IH]; cbn; [done|]. lia. Qed.

Lemma amount_new r z f : amount r (new_quantity r z f) = z.
Proof. unfold amount, new_quantity. destruct (useMilli r); [apply MilliValue_New|apply Value_New]. Qed.

Lemma amount_zero r : amount r zero_Quantity = 0%Z.
Proof. unfold amount. destruct (useMilli r); [apply MilliValue_zero|apply Value_zero]. Qed.

Lemma at_set_at rm v r q : is_Some (rm !! v) → at_ (set_at rm v r q) v r = q.
Proof.
  intros [m Hm]. unfold at_, set_at. by rewrite lookup_alter_eq, Hm; cbn; rewrite lookup_insert_eq.
Qed.

Lemma at_set_at_ne rm v r q w r' : w ≠ v ∨ r' ≠ r → at_ (set_at rm v r q) w r' = at_ rm w r'.
Proof.
  intros Hne. unfold at_, set_at. destruct (decide (w = v)) as [->|].
  - rewrite lookup_alter_eq. destruct (rm !! v); cbn; [|done].
    rewrite lookup_insert_ne; [done|]. naive_solver.
  - by rewrite lookup_alter_ne.
Qed.

Lemma set_at_dom rm v r q w : is_Some (set_at rm v r q !! w) ↔ is_Some (rm !! w).
Proof. apply lookup_alter_is_Some. Qed.

Lemma cap_of_insert c v z w : cap_of (<[v := z]> c) w = if decide (v = w) then z else cap_of c w.
Proof. unfold cap_of. rewrite lookup_insert. by case_decide. Qed.

Section Loop.
Context (r format : string) (N : list string) (N_nodup : NoDup N) (cap0 : string → Z) (T0 : Z).

Definition got (s : cycle) (v : string) : Z := amount r (at_ (resourceMap s) v r).
Definition cap (s : cycle) (v : string) : Z := cap_of (hostCap s) v.

(** What every iteration preserves: a node has got what its capacity lost, and
    the quota left has shrunk by as much. *)
Record Inv (s : cycle) : Prop := {
  inv_node v : v ∈ N → is_Some (resourceMap s !! v) ∧ (0 ≤ cap s v)%Z ∧ (0 ≤ got s v)%Z ∧
                       (got s v + cap s v = cap0 v)%Z ∧ in64 (cap0 v);
  inv_total : (0 ≤ totalValue s)%Z ∧ in64 (totalValue s);
  inv_sum : (totalValue s - zsum (cap s) N = T0 - zsum cap0 N)%Z;
}.

(** Nothing but the entries of [r] on the nodes of [N] changes. *)
Definition frame (s s' : cycle) : Prop :=
  (∀ w r', w ∉ N ∨ r' ≠ r → at_ (resourceMap s') w r' = at_ (resourceMap s) w r') ∧
  (∀ w, is_Some (resourceMap s' !! w) ↔ is_Some (resourceMap s !! w)).

Lemma frame_refl s : frame s s.
Proof. done. Qed.

Lemma frame_trans s1 s2 s3 : frame s1 s2 → frame s2 s3 → frame s1 s3.
Proof.
  intros [H1 H2] [H3 H4]. split; [intros; by rewrite H3, H1|intros; by rewrite H4, H2].
Qed.

Definition share (q : Z) (s : cycle) : Z := (if 0 <? remainder s then q + 1 else q)%Z.

(** One node gets the smaller of its share and what it has left; nothing
    wraps. *)
Lemma node_step_eq q s v (todo : nat) :
  Inv s → v ∈ N → (0 ≤ q)%Z → (0 ≤ remainder s ≤ 1 + Z.of_nat todo)%Z →
  (q * (1 + Z.of_nat todo) + remainder s ≤ totalValue s)%Z →
  let d := Z.min (share q s) (cap s v) in
  (0 ≤ d ≤ cap s v)%Z ∧ (d ≤ totalValue s)%Z ∧
  node_step r format q s v =
  {| totalValue := totalValue s - d;
     remainder := Z.max 0 (remainder s - 1);
     hostCap := <[v := (cap s v - d)%Z]> (hostCap s);
     resourceMap := if (0 <? d)%Z
                    then set_at (resourceMap s) v r (new_quantity r (got s v + d) format)
                    else resourceMap s;
     remainingNodes :=
       if (0 <? cap s v - d)%Z then remainingNodes s ++ [v] else remainingNodes s |}%Z%list.
Proof.
  intros [Hnode Htot Hsum] Hv Hq Hrem Hle d. destruct (Hnode v Hv) as (Hex & Hc & Hg & Heq & H64).
  assert (0 ≤ d ≤ cap s v)%Z as Hd by (unfold d, share; case_match; lia).
  assert (d ≤ totalValue s)%Z as Hdt.
  { unfold d, share. destruct (Z.ltb_spec 0 (remainder s)); nia. }
  split; [done|]. split; [done|]. unfold in64, int64_min, int64_max in *.
  assert ((if 0 <? remainder s then wrap64 (q + 1) else q)%Z `min` cap s v = d)%Z as Hnq.
  { unfold d, share. destruct (Z.ltb_spec 0 (remainder s)); [|done].
    rewrite wrap64_id; [done|]. unfold in64, int64_min, int64_max. nia. }
  unfold node_step. fold (cap s v). fold (got s v). rewrite Hnq.
  rewrite !(wrap64_id (_ - d)), (wrap64_id (got s v + d)) by
    (unfold in64, int64_min, int64_max; lia).
  f_equal. destruct (Z.ltb_spec 0 (remainder s)); [|lia].
  rewrite wrap64_id; [lia|]. unfold in64, int64_min, int64_max. nia.
Qed.

Lemma node_step_spec q s v (todo : nat) :
  Inv s → v ∈ N → (0 ≤ q)%Z → (0 ≤ remainder s ≤ 1 + Z.of_nat todo)%Z →
  (q * (1 + Z.of_nat todo) + remainder s ≤ totalValue s)%Z →
  let s' := node_step r format q s v in
  let d := Z.min (share q s) (cap s v) in
  (0 ≤ d)%Z ∧ Inv s' ∧ frame s s' ∧
  totalValue s' = (totalValue s - d)%Z ∧
  remainder s' = Z.max 0 (remainder s - 1) ∧
  (∀ w, w ≠ v → got s' w = got s w ∧ cap s' w = cap s w) ∧
  got s' v = (got s v + d)%Z ∧ cap s' v = (cap s v - d)%Z ∧
  remainingNodes s' = (if (0 <? cap s' v)%Z then remainingNodes s ++ [v] else remainingNodes s)%list.
Proof.
  intros HI Hv Hq Hrem Hle s' d. pose proof HI as [Hnode Htot Hsum].
  destruct (Hnode v Hv) as (Hex & Hc & Hg & Heq & H64).
  destruct (node_step_eq q s v todo HI Hv Hq Hrem Hle) as (Hd & Hdt & Hs').
  fold s' in Hs'. fold d in Hd, Hdt, Hs'.
  assert (∀ w, cap s' w = if decide (v = w) then cap s v - d else cap s w)%Z as Hcap.
  { intros w. rewrite Hs'. apply cap_of_insert. }
  assert (∀ w r', w ≠ v ∨ r' ≠ r → at_ (resourceMap s') w r' = at_ (resourceMap s) w r') as Hat.
  { intros w r' Hne. rewrite Hs'. cbn [resourceMap]. case_match; [by apply at_set_at_ne|done]. }
  assert (got s' v = got s v + d)%Z as Hgot.
  { unfold got at 1. rewrite Hs'. cbn [resourceMap]. destruct (Z.ltb_spec 0 d).
    - by rewrite at_set_at, amount_new.
    - fold (got s v). lia. }
  assert (∀ w, w ≠ v → got s' w = got s w ∧ cap s' w = cap s w) as Hne.
  { intros w Hw. unfold got. rewrite Hat, Hcap by auto. by rewrite decide_False. }
  assert (cap s' v = cap s v - d)%Z as Hcapv by (by rewrite Hcap, decide_True).
  assert (∀ w, is_Some (resourceMap s' !! w) ↔ is_Some (resourceMap s !! w)) as Hdom.
  { intros w. rewrite Hs'. cbn [resourceMap]. case_match; [apply set_at_dom|done]. }
  assert (totalValue s' = totalValue s - d)%Z as Ht by (by rewrite Hs').
  split_and!; try done; try (by rewrite Hs'); try lia.
  - split.
    + intros w Hw. rewrite Hdom. destruct (decide (w = v)) as [->|Hwv].
      * rewrite Hgot, Hcapv. split_and!; [done|lia..|done].
      * destruct (Hne w Hwv) as [-> ->]. by apply Hnode.
    + rewrite Ht. unfold in64, int64_min, int64_max in *. lia.
    + rewrite Ht, (zsum_update (cap s) (cap s') v (- d)); [lia|done..| |lia].
      intros w Hw. by apply Hne.
  - split; [|done]. intros w r' [Hw|Hr]; apply Hat; [left; congruence|by right].
  - rewrite Hcapv, Hs'. done.
Qed.

Definition left_over (s : cycle) (l : list string) : list string :=
  List.filter (λ v, 0 <? cap s v)%Z l.

(** A pass over the nodes [l]: each gets [q] or [q + 1], or all it has left;
    the nodes that have something left go on; if all do, the whole amount has
    been handed out. *)
Lemma pass_fold q l : ∀ s,
  Inv s → NoDup l → l ⊆ N → (0 ≤ q)%Z → (0 ≤ remainder s ≤ Z.of_nat (length l))%Z →
  (q * Z.of_nat (length l) + remainder s ≤ totalValue s)%Z →
  let s' := fold_left (node_step r format q) l s in
  Inv s' ∧ frame s s' ∧
  (∀ v, v ∉ l → got s' v = got s v ∧ cap s' v = cap s v) ∧
  (∀ v, v ∈ l → got s v ≤ got s' v ≤ got s v + q + 1 ∧ (0 < cap s' v → got s v + q ≤ got s' v))%Z ∧
  remainingNodes s' = (remainingNodes s ++ left_over s' l)%list ∧
  (length (left_over s' l) = length l →
   totalValue s' = totalValue s - (q * Z.of_nat (length l) + remainder s))%Z.
Proof.
  induction l as [|v l IH]; intros s HI Hnd Hsub Hq Hrem Hle; cbn [fold_left].
  { split_and!; [done..| |by rewrite app_nil_r|intros _; cbn [length] in *; lia].
    intros v Hv. set_solver. }
  apply NoDup_cons in Hnd as [Hvl Hnd]. cbn [length] in Hrem, Hle.
  destruct (node_step_spec q s v (length l)) as
    (Hd0 & HI1 & Hf1 & Ht1 & Hr1 & Hne1 & Hg1 & Hc1 & Hl1); [done|set_solver|lia..|].
  set (s1 := node_step r format q s v) in *. set (d := (share q s `min` cap s v)%Z) in *.
  assert (q ≤ share q s ≤ q + 1)%Z as Hsh by (unfold share; destruct (0 <? remainder s)%Z; lia).
  assert (remainder s = remainder s1 + (share q s - q))%Z as Hrs.
  { unfold share. destruct (Z.ltb_spec 0 (remainder s)); lia. }
  destruct (IH s1) as (HI' & Hf' & Hne' & Hin' & Hl' & Hall');
    [done|done|set_solver|done|lia|rewrite Ht1; lia|].
  clear IH. set (s' := fold_left _ l s1) in *.
  destruct (Hne' v Hvl) as [Hgv Hcv].
  assert (left_over s' (v :: l) = if (0 <? cap s1 v)%Z then v :: left_over s' l else left_over s' l)
    as Hlo by (cbn; by rewrite Hcv).
  split_and!; [done|by eapply frame_trans|..].
  - intros w Hw. destruct (Hne' w) as [-> ->]; [set_solver|]. apply Hne1. set_solver.
  - intros w Hw. destruct (decide (w = v)) as [->|Hwv].
    + rewrite Hgv, Hcv, Hg1, Hc1. lia.
    + destruct (Hne1 w Hwv) as [<- _]. apply Hin'. set_solver.
  - rewrite Hl', Hl1, Hlo. destruct (0 <? cap s1 v)%Z; [by rewrite <- app_assoc|done].
  - rewrite Hlo. pose proof (List.filter_length_le (λ v, 0 <? cap s' v)%Z l) as Hlen.
    fold (left_over s' l) in Hlen. destruct (Z.ltb_spec 0 (cap s1 v)) as [Hpos|]; cbn [length];
      intros Hall; [|lia].
    rewrite Hall' by lia. rewrite Ht1, Hrs. lia.
Qed.

Lemma left_over_spec s l v : v ∈ left_over s l ↔ v ∈ l ∧ (0 < cap s v)%Z.
Proof. unfold left_over. rewrite !list_elem_of_In, List.filter_In, Z.ltb_lt. done. Qed.

(** The eligible nodes are the ones with something left; after [k] passes no
    node is more than [k] ahead of one of them. *)
Record Loop (k : Z) (s : cycle) : Prop := {
  loop_inv : Inv s;
  loop_nodup : NoDup (remainingNodes s);
  loop_sub v : v ∈ remainingNodes s → v ∈ N;
  loop_done v : v ∈ N → v ∉ remainingNodes s → cap s v = 0%Z;
  loop_fair v w : v ∈ remainingNodes s → w ∈ N → (got s w ≤ got s v + k)%Z;
}.

Lemma pass_spec k s :
  Loop k s → (0 < totalValue s)%Z → remainingNodes s ≠ [] →
  let s' := pass r format (remainingNodes s) s in
  Loop (k + 1) s' ∧ frame s s' ∧
  (length (remainingNodes s') < length (remainingNodes s) ∨ totalValue s' = 0%Z).
Proof.
  intros [HI Hnd Hsub Hdone Hfair] Ht Hne s'. set (l := remainingNodes s) in *.
  assert (0 < Z.of_nat (length l))%Z as Hlen by (destruct l; [done|cbn; lia]).
  set (n := Z.of_nat (length l)) in *. set (q := Z.quot (totalValue s) n).
  assert (totalValue s = n * q + Z.rem (totalValue s) n)%Z as Hqr by apply Z.quot_rem'.
  pose proof (Z.rem_bound_pos (totalValue s) n ltac:(lia) Hlen) as Hrem.
  assert (0 ≤ q)%Z as Hq by (apply Z.quot_pos; lia).
  destruct (pass_fold q l (start_pass l s)) as (HI' & Hf & Hout & Hin & Hl & Hall);
    [by destruct HI|done|done|done|cbn; fold n; lia|cbn; fold n; lia|].
  change (fold_left _ l _) with s' in *. cbn [remainingNodes start_pass app] in Hl.
  split; [|split].
  - split; [done|..].
    + rewrite Hl. by apply NoDup_ListNoDup, List.NoDup_filter, NoDup_ListNoDup.
    + intros v. rewrite Hl, left_over_spec. intros [? _]. by apply Hsub.
    + intros v Hv. rewrite Hl, left_over_spec. intros Hnot.
      destruct (decide (v ∈ l)) as [Hvl|Hvl].
      * destruct (inv_node _ HI' v Hv) as (_ & ? & _). assert (¬ 0 < cap s' v)%Z by tauto. lia.
      * destruct (Hout v Hvl) as [_ ->]. by apply Hdone.
    + intros v w. rewrite Hl, left_over_spec. intros [Hv Hc] Hw.
      destruct (Hin v Hv) as [_ Hv']. specialize (Hv' Hc).
      pose proof (Hfair v w Hv Hw) as Hvw.
      change (got (start_pass l s)) with (got s) in *.
      destruct (decide (w ∈ l)) as [Hwl|Hwl].
      * destruct (Hin w Hwl) as [? _]. lia.
      * destruct (Hout w Hwl) as [-> _]. change (got (start_pass l s)) with (got s). lia.
  - done.
  - rewrite Hl. pose proof (List.filter_length_le (λ v, 0 <? cap s' v)%Z l) as Hle.
    fold (left_over s' l) in Hle. destruct (decide (length (left_over s' l) = length l)) as [He|];
      [right|left; lia].
    rewrite (Hall He). cbn [totalValue remainder start_pass]. fold n. lia.
Qed.

(** The loop ends: a pass that removes no node hands out all there is. *)
Lemma redistribute_spec fuel : ∀ k s,
  Loop k s → length (remainingNodes s) < fuel →
  ∃ s' k', redistribute fuel r format s = Some s' ∧ Loop k' s' ∧ frame s s' ∧
           (k' ≤ k + Z.of_nat (length (remainingNodes s)))%Z ∧
           (totalValue s' = 0%Z ∨ remainingNodes s' = []).
Proof.
  induction fuel as [|fuel IH]; intros k s HL Hlen; [lia|]. cbn [redistribute].
  destruct (Z.ltb_spec 0 (totalValue s)) as [Ht|Ht]; cbn [andb].
  2: { exists s, k. pose proof (inv_total _ (loop_inv _ _ HL)). split_and!; [done..|lia|left; lia]. }
  destruct (bool_decide_reflect (remainingNodes s = [])) as [He|He]; cbn [negb].
  { exists s, k. split_and!; [done..|lia|by right]. }
  destruct (pass_spec k s HL Ht He) as (HL' & Hf & Hor).
  set (s1 := pass _ _ _ _) in *.
  assert (0 < length (remainingNodes s)) by (destruct (remainingNodes s); [done|cbn; lia]).
  destruct Hor as [Hlt|Hz].
  - destruct (IH (k + 1)%Z s1 HL') as (s' & k' & E & HL2 & Hf2 & Hk & Hend); [lia|].
    exists s', k'. split_and!; [done..|by eapply frame_trans|lia|done].
  - exists s1, (k + 1)%Z. split_and!; [|done..|lia|by left].
    destruct fuel; cbn; by rewrite Hz.
Qed.

Lemma loop_outcome k s :
  Loop k s → totalValue s = 0%Z ∨ remainingNodes s = [] →
  zsum (got s) N = Z.min T0 (zsum cap0 N) ∧
  (∀ v, v ∈ N → 0 ≤ got s v ≤ cap0 v)%Z ∧
  (∀ v w, v ∈ N → w ∈ N → got s v < cap0 v → got s w ≤ got s v + k)%Z.
Proof.
  intros [[Hnode Htot Hsum] _ _ Hdone Hfair] Hend.
  assert (zsum (got s) N + zsum (cap s) N = zsum cap0 N)%Z as Hgc.
  { rewrite <- zsum_add. apply zsum_ext. intros v Hv. by apply Hnode. }
  assert (0 ≤ zsum (cap s) N)%Z as Hpos by (apply zsum_nonneg; intros v Hv; by apply Hnode).
  split_and!.
  - destruct Hend as [Hz|He]; [lia|].
    rewrite (zsum_zero (cap s)) in * by (intros v Hv; apply Hdone; [done|]; rewrite He; set_solver).
    lia.
  - intros v Hv. destruct (Hnode v Hv). lia.
  - intros v w Hv Hw Hlt. apply Hfair; [|done]. destruct (decide (v ∈ remainingNodes s)) as [|Hn]; [done|].
    specialize (Hdone v Hv Hn). destruct (Hnode v Hv). lia.
Qed.
End Loop.

(** ** distribute_one and distributeQuotas *)
Definition capacity (host : gmap string ResourceList) (r v : string) : Z :=
  default 0%Z (host_capacity host r v).

(** What a node is given of a resource in the resulting map. *)
Definition given (rm : gmap string Resources) (r v : string) : Z := amount r (at_ rm v r).

(** Host capacities are amounts that fit an [int64], and not negative. *)
Definition sane (host : gmap string ResourceList) : Prop :=
  ∀ r v c, host_capacity host r v = Some c → (0 ≤ c ≤ int64_max)%Z.

Lemma eligible_spec host r nodes v :
  v ∈ eligible host r nodes ↔ v ∈ nodes ∧ is_Some (host_capacity host r v).
Proof.
  unfold eligible, slices_Sort. rewrite merge_sort_Permutation, !list_elem_of_In, List.filter_In.
  by rewrite bool_decide_eq_true.
Qed.

Lemma eligible_nodup host r nodes : NoDup nodes → NoDup (eligible host r nodes).
Proof.
  intros Hnd. unfold eligible, slices_Sort. rewrite merge_sort_Permutation.
  by apply NoDup_ListNoDup, List.NoDup_filter, NoDup_ListNoDup.
Qed.

Lemma host_cap_lookup host r nodes v :
  NoDup nodes → v ∈ nodes →
  cap_of (list_to_map (omap (λ vn, pair vn <$> host_capacity host r vn) nodes)) v = capacity host r v.
Proof.
  intros Hnd Hv. unfold cap_of, capacity. f_equal. induction Hnd as [|w l Hw Hnd IH]; [set_solver|].
  cbn. destruct (decide (w = v)) as [->|Hne].
  - destruct (host_capacity host r v) as [c|] eqn:E; cbn; [by rewrite lookup_insert_eq|].
    apply not_elem_of_list_to_map_1. intros (p & -> & Hp)%list_elem_of_fmap.
    apply list_elem_of_omap in Hp as (x & Hx & Hp).
    destruct (host_capacity host r x); [|done]. cbn in Hp. simplify_eq. done.
  - destruct (host_capacity host r w); cbn; [rewrite lookup_insert_ne by done|]; apply IH; set_solver.
Qed.

(** What the division of one resource among the nodes [N] promises. *)
Record fair_division (host : gmap string ResourceList) (N : list string) (total : Z)
    (A : string → Z) (r : string) : Prop := {
  fd_bounds v : v ∈ N → (0 ≤ A v ≤ capacity host r v)%Z;
  fd_sum : zsum A N = Z.min (Z.max 0 total) (zsum (capacity host r) N);
  fd_fair v w : v ∈ N → w ∈ N → (A v < capacity host r v)%Z →
                (A w ≤ A v + Z.of_nat (length N))%Z;
}.

Lemma distribute_one_spec host nodes rm r Q :
  sane host → NoDup nodes → (∀ v, v ∈ nodes → is_Some (rm !! v)) →
  (∀ v, v ∈ nodes → at_ rm v r = zero_Quantity) → (amount r Q ≤ int64_max)%Z →
  ∃ rm', distribute_one host nodes rm r Q = Some rm' ∧
    (∀ w r', r' ≠ r → at_ rm' w r' = at_ rm w r') ∧
    (∀ w, is_Some (rm' !! w) ↔ is_Some (rm !! w)) ∧
    fair_division host (eligible host r nodes) (amount r Q) (given rm' r) r.
Proof.
  intros Hsane Hnd Hdom Hzero HT. unfold distribute_one. set (N := eligible host r nodes).
  set (s0 := {| totalValue := _; remainder := _ |}).
  assert (∀ v, v ∈ N → v ∈ nodes ∧ (0 ≤ capacity host r v ≤ int64_max)%Z) as HN.
  { intros v [Hv [c Hc]]%eligible_spec. split; [done|]. unfold capacity. rewrite Hc. by eapply Hsane. }
  assert (∀ v, v ∈ N → given rm r v = 0%Z) as Hg0.
  { intros v Hv. unfold given. rewrite Hzero by (by apply HN). apply amount_zero. }
  assert (∀ v, v ∈ N → cap_of (hostCap s0) v = capacity host r v) as Hcap.
  { intros v Hv. by apply host_cap_lookup, HN. }
  destruct (Z.ltb_spec 0 (amount r Q)) as [Hpos|Hneg].
  - assert (Loop r N (capacity host r) (amount r Q) 0 s0) as HL.
    { split; [split|..]; cbn [remainingNodes totalValue s0].
      - intros v Hv. unfold got, cap. rewrite Hcap by done. fold (given rm r v).
        change (amount r (at_ (resourceMap s0) v r)) with (given rm r v).
        rewrite Hg0 by done. destruct (HN v Hv) as [Hvn ?].
        split_and!; [by apply Hdom|lia..|]. unfold in64, int64_min. lia.
      - unfold in64, int64_min. lia.
      - f_equal. apply zsum_ext. intros v Hv. unfold cap. by apply Hcap.
      - by apply eligible_nodup.
      - done.
      - done.
      - intros v w Hv Hw. change (got r s0) with (given rm r). rewrite !Hg0 by done. lia. }
    destruct (redistribute_spec r (q_Format Q) N (eligible_nodup host r nodes Hnd) _ _
                (S (length N)) 0%Z s0 HL) as (s' & k & E & HL' & [Hf1 Hf2] & Hk & Hend); [cbn; lia|].
    rewrite E. exists (resourceMap s'). split; [done|]. split; [intros; by apply Hf1; right|].
    split; [apply Hf2|]. destruct (loop_outcome _ _ (eligible_nodup host r nodes Hnd) _ _ _ _ HL' Hend) as (Hs & Hb & Hfair).
    split; [done| |].
    + rewrite Z.max_r by lia. exact Hs.
    + intros v w Hv Hw Hlt. specialize (Hfair v w Hv Hw Hlt). unfold given, got in *.
      cbn [remainingNodes s0] in Hk. lia.
  - assert (redistribute (S (length N)) r (q_Format Q) s0 = Some s0) as ->.
    { cbn [redistribute totalValue s0]. by rewrite (proj2 (Z.ltb_ge _ _) Hneg). }
    exists rm. split; [done|]. split; [done|]. split; [done|]. split.
    + intros v Hv. rewrite Hg0 by done. split; [lia|]. by apply HN.
    + rewrite Z.max_l, (zsum_zero (given rm r)) by done.
      assert (0 ≤ zsum (capacity host r) N)%Z by (apply zsum_nonneg; intros; by apply HN). lia.
    + intros v w Hv Hw. rewrite !Hg0 by done. lia.
Qed.

Lemma fair_division_ext host N T A B r :
  (∀ v, A v = B v) → fair_division host N T A r → fair_division host N T B r.
Proof.
  intros HAB [H1 H2 H3]. split.
  - intros v. rewrite <- HAB. apply H1.
  - rewrite <- H2. by apply zsum_ext.
  - intros v w. rewrite <- !HAB. apply H3.
Qed.

Lemma distribute_all host nodes order : ∀ rm,
  sane host → NoDup nodes → (∀ v, v ∈ nodes → is_Some (rm !! v)) → NoDup order.*1 →
  (∀ r Q, (r, Q) ∈ order → (amount r Q ≤ int64_max)%Z ∧
                           ∀ v, v ∈ nodes → at_ rm v r = zero_Quantity) →
  ∃ rm', fold_left (λ acc '(r, Q), m ← acc; distribute_one host nodes m r Q) order (Some rm)
         = Some rm' ∧
    (∀ w r, r ∉ order.*1 → at_ rm' w r = at_ rm w r) ∧
    (∀ w, is_Some (rm' !! w) ↔ is_Some (rm !! w)) ∧
    ∀ r Q, (r, Q) ∈ order →
      fair_division host (eligible host r nodes) (amount r Q) (given rm' r) r.
Proof.
  induction order as [|[r Q] order IH]; intros rm Hsane Hnd Hdom Hno Hok.
  { exists rm. split_and!; [done..|]. intros r Q. set_solver. }
  apply NoDup_cons in Hno as [Hr Hno]. cbn [fold_left mbind option_bind].
  destruct (Hok r Q) as [HT Hz]; [set_solver|].
  destruct (distribute_one_spec host nodes rm r Q Hsane Hnd Hdom Hz HT) as (rm1 & -> & Hf1 & Hd1 & Hfd).
  destruct (IH rm1) as (rm' & -> & Hf' & Hd' & Hall); [done|done| |done| |].
  - intros v Hv. by apply Hd1, Hdom.
  - intros r' Q' Hin. destruct (Hok r' Q') as [? Hz']; [set_solver|]. split; [done|].
    intros v Hv. rewrite Hf1; [by apply Hz'|]. intros ->. apply Hr, list_elem_of_fmap.
    by exists (r, Q').
  - exists rm'. split; [done|]. split; [|split].
    + intros w r' Hr'. cbn in Hr'. rewrite Hf' by set_solver. apply Hf1. set_solver.
    + intros w. by rewrite Hd', Hd1.
    + intros r' Q' [Heq|Hin]%elem_of_cons; [|by apply Hall]. simplify_eq.
      eapply fair_division_ext; [|exact Hfd]. intros v. unfold given. by rewrite Hf'.
Qed.

Lemma at_fill_out host quotas virt v r :
  virt !! v = Some ∅ →
  at_ (fill_out host quotas virt) v r =
    match quotas !! r, host !! v with
    | None, Some h => default zero_Quantity (map_get h r)
    | _, _ => zero_Quantity
    end.
Proof.
  intros Hv. unfold at_, fill_out. rewrite map_lookup_imap, Hv. cbn.
  destruct (host !! v) as [[h|]|]; cbn; [|by rewrite lookup_empty; case_match..].
  rewrite (right_id ∅ (∪)). destruct (quotas !! r) as [q|] eqn:Hq.
  - rewrite map_lookup_filter_None_2; [done|]. right. intros q' _. cbn. by rewrite Hq.
  - destruct (h !! r) as [x|] eqn:Hx.
    + by rewrite (map_lookup_filter_Some_2 _ _ _ x).
    + rewrite map_lookup_filter_None_2; [done|]. by left.
Qed.

(** C2: The quotas are divided among the virtual nodes: the loops end; a resource
    under quota is shared out completely or up to what the hosts have (the sum
    of the shares is the smaller of the quota and the hosts' total), no node
    is given more than its host has, and a node that could take more is within
    one unit per node of every other node; a resource without quota is
    reported as the host has it.  The order in which the quotas are visited
    does not matter for any of this. *)
Theorem distributeQuotas_spec host virt quotas order :
  sane host → (∀ v m, virt !! v = Some m → m = ∅) → order ≡ₚ map_to_list quotas →
  (∀ r Q, quotas !! r = Some Q → (amount r Q ≤ int64_max)%Z) →
  ∃ rm, distributeQuotas host virt quotas order = Some rm ∧
    (∀ v, is_Some (rm !! v) ↔ is_Some (virt !! v)) ∧
    (∀ r Q, quotas !! r = Some Q →
       fair_division host (eligible host r (map_to_list virt).*1) (amount r Q) (given rm r) r) ∧
    (∀ r v h q, quotas !! r = None → is_Some (virt !! v) → host !! v = Some h →
       map_get h r = Some q → at_ rm v r = q).
Proof.
  intros Hsane Hempty Hperm HT. unfold distributeQuotas.
  set (nodes := (map_to_list virt).*1).
  assert (∀ v, v ∈ nodes → virt !! v = Some ∅) as Hnodes.
  { intros v ([w m] & -> & Hm%elem_of_map_to_list)%list_elem_of_fmap. cbn.
    by rewrite Hm, (Hempty _ _ Hm). }
  assert (∀ v, is_Some (fill_out host quotas virt !! v) ↔ is_Some (virt !! v)) as Hdom.
  { intros v. unfold fill_out. rewrite map_lookup_imap. destruct (virt !! v) as [m|]; cbn; [|done].
    split; [by eexists|]. intros _. repeat case_match; by eexists. }
  assert (∀ r Q, (r, Q) ∈ order ↔ quotas !! r = Some Q) as Hord.
  { intros r Q. by rewrite Hperm, elem_of_map_to_list. }
  destruct (distribute_all host nodes order (fill_out host quotas virt)) as (rm & -> & Hf & Hd & Hall).
  - done.
  - apply NoDup_fst_map_to_list.
  - intros v Hv. apply Hdom. rewrite (Hnodes v Hv). by eexists.
  - rewrite Hperm. apply NoDup_fst_map_to_list.
  - intros r Q HQ%Hord. split; [by eapply HT|]. intros v Hv%Hnodes.
    rewrite at_fill_out by done. by rewrite HQ.
  - exists rm. split; [done|]. split; [|split].
    + intros v. by rewrite Hd, Hdom.
    + intros r Q HQ. by apply Hall, Hord.
    + intros r v h q Hr [m Hv] Hh Hq. rewrite Hf.
      * rewrite at_fill_out by (by rewrite Hv, (Hempty _ _ Hv)). by rewrite Hr, Hh, Hq.
      * intros ([r' Q] & -> & HQ%Hord)%list_elem_of_fmap. cbn in Hr. congruence.
Qed.

(** The merge keeps, for every resource of some quota, the smallest amount any
    quota allows, and no other resource. *)
Theorem mergeQuotas_spec ls r :
  match mergeQuotas ls !! r with
  | None => ∀ l, l ∈ ls → l !! r = None
  | Some q => (∃ l, l ∈ ls ∧ l !! r = Some q) ∧
              ∀ l q', l ∈ ls → l !! r = Some q' → Quantity_Cmp q q' ≠ Gt
  end.
Proof.
  unfold mergeQuotas. induction ls as [|l ls IH] using rev_ind; cbn.
  { rewrite lookup_empty. intros l. set_solver. }
  rewrite fold_left_app. cbn. rewrite lookup_union_with. set (m := fold_left _ ls ∅) in *.
  destruct (m !! r) as [e|], (l !! r) as [q|] eqn:Hl; cbn.
  - destruct IH as [(l0 & Hin & Hl0) Hmin].
    assert (Quantity_Cmp (least e q) e ≠ Gt ∧ Quantity_Cmp (least e q) q ≠ Gt) as [He Hq].
    { unfold least. destruct (Quantity_Cmp q e) eqn:Hc; rewrite ?Cmp_refl, ?Hc; split; try done;
        rewrite (Cmp_antisym e q), Hc; done. }
    split.
    + unfold least. destruct (Quantity_Cmp q e); [exists l0|exists l|exists l0]; set_solver.
    + intros l' q' [Hin'| ->%list_elem_of_singleton]%elem_of_app Hq'; [|by simplify_eq].
      eapply Cmp_trans; [exact He|]. by eapply Hmin.
  - destruct IH as [(l0 & Hin & Hl0) Hmin]. split; [exists l0; set_solver|].
    intros l' q' [Hin'| ->%list_elem_of_singleton]%elem_of_app Hq'; [by eapply Hmin|congruence].
  - split; [exists l; set_solver|].
    intros l' q' [Hin'| ->%list_elem_of_singleton]%elem_of_app Hq'.
    + rewrite (IH l' Hin') in Hq'. done.
    + simplify_eq. by rewrite Cmp_refl.
  - intros l' [Hin'| ->%list_elem_of_singleton]%elem_of_app; [by apply IH|done].
Qed.

(** No two quota names outside the core ones filter to the same name. *)
Definition no_collision (order : list (string * Quantity)) : Prop :=
  ∀ r1 q1 r2 q2, (r1, q1) ∈ order → (r2, q2) ∈ order → r1 ∉ coreResources → r2 ∉ coreResources →
    filteredResourceName r1 = filteredResourceName r2 → q1 = q2.

Lemma filterQuotas_last order x q :
  filterQuotas order !! x = Some q →
  ∃ r, (r, q) ∈ order ∧ r ∉ coreResources ∧ filteredResourceName r = x.
Proof.
  unfold filterQuotas, slices_Contains. induction order as [|[r v] order IH] using rev_ind; cbn; [done|].
  rewrite fold_left_app. cbn. destruct (bool_decide_reflect (r ∈ coreResources)) as [Hc|Hc].
  - intros (r' & ? & ? & ?)%IH. exists r'. set_solver.
  - rewrite lookup_insert_Some. intros [[<- <-]|[_ (r' & ? & ? & ?)%IH]];
      [exists r|exists r']; set_solver.
Qed.

Lemma filterQuotas_defined order r q :
  (r, q) ∈ order → r ∉ coreResources → is_Some (filterQuotas order !! filteredResourceName r).
Proof.
  unfold filterQuotas, slices_Contains. induction order as [|[r' v] order IH] using rev_ind; cbn; [set_solver|].
  rewrite fold_left_app. cbn. intros Hin Hr.
  destruct (bool_decide_reflect (r' ∈ coreResources)) as [Hc|Hc].
  - apply IH; [|done]. apply elem_of_app in Hin as [?|Hin]; [done|].
    apply list_elem_of_singleton in Hin. by simplify_eq.
  - rewrite lookup_insert. case_decide; [by eexists|]. apply IH; [|done].
    apply elem_of_app in Hin as [?|Hin]; [done|].
    apply list_elem_of_singleton in Hin. by simplify_eq.
Qed.

(** The filter drops the core requests and strips the prefixes of the other
    names: without a collision between two names it keeps exactly their
    amounts, in whatever order the map is visited. *)
Theorem filterQuotas_spec order x q :
  no_collision order →
  filterQuotas order !! x = Some q ↔
  ∃ r, (r, q) ∈ order ∧ r ∉ coreResources ∧ filteredResourceName r = x.
Proof.
  intros Hno. split; [apply filterQuotas_last|]. intros (r & Hin & Hr & <-).
  destruct (filterQuotas_defined order r q Hin Hr) as [q' Hq']. rewrite Hq'. f_equal.
  apply filterQuotas_last in Hq' as (r' & Hin' & Hr' & He).
  by apply (Hno r' q' r q).
Qed.

(** *** What an update touches *)
Section UpdateSpec.
Context {Wh Wv : Type} (hostClient : Client Wh) (virtualClient : Client Wv).
Context `{!ClientLaws hostClient} `{!ClientLaws virtualClient}.
Context (visit : Resources → list (string * Quantity)).

(** The world [w] may differ from [w0] in the resources of one virtual node,
    whose capacity is then its allocatable. *)
Definition only_resources (name : string) (w0 w : Wh * Wv) : Prop :=
  store w.1 = store w0.1 ∧
  (store w.2 = store w0.2 ∨
   ∃ old n k, k = (kind Node, {| nn_Namespace := ""; nn_Name := name |}) ∧
     store w0.2 !! k = Some (ONode old) ∧ node_Meta n = node_Meta old ∧
     node_PodCIDR n = node_PodCIDR old ∧ node_PodCIDRs n = node_PodCIDRs old ∧
     node_Capacity n = node_Allocatable n ∧ store w.2 = <[k := ONode n]> (store w0.2)).

Definition unchanged (w0 w : Wh * Wv) : Prop :=
  store w.1 = store w0.1 ∧ store w.2 = store w0.2.

Definition ends (Q : Wh * Wv → Prop) {A} (m : M (Wh * Wv) A) (P : Wh * Wv → Prop) : Prop :=
  hoare P m (λ _, Q) (λ _, Q).

Lemma ends_or_return {A} P R Q (m : M (Wh * Wv) A) f :
  ends R m P → (∀ w, R w → Q w) → (∀ a, ends Q (f a) R) → ends Q (or_return m f) P.
Proof.
  intros Hm HRQ Hf w Hw. unfold or_return, mbind, M_bind, attempt. specialize (Hm w Hw).
  destruct (m w) as [[a|e|] w']; [by apply Hf|by apply HRQ..].
Qed.

Lemma ends_host w0 {A} (m : M Wh A) :
  (∀ h r h', m h = (r, h') → store h' = store h) →
  ends (unchanged w0) (host m) (unchanged w0).
Proof.
  intros Hm [h v] [H1 H2]. unfold host. cbn in *. destruct (m h) as [r h'] eqn:E.
  apply Hm in E. destruct r; split; cbn; congruence.
Qed.

Lemma ends_virtual w0 {A} (m : M Wv A) :
  (∀ v r v', m v = (r, v') → store v' = store v) →
  ends (unchanged w0) (virtual m) (unchanged w0).
Proof.
  intros Hm [h v] [H1 H2]. unfold virtual. cbn in *. destruct (m v) as [r v'] eqn:E.
  apply Hm in E. destruct r; split; cbn; congruence.
Qed.

Lemma unchanged_only name w0 w : unchanged w0 w → only_resources name w0 w.
Proof. intros [? ?]. split; [done|by left]. Qed.

Lemma write_capacity_spec w0 name a :
  ends (only_resources name w0) (write_capacity virtualClient name a) (unchanged w0).
Proof.
  unfold write_capacity. set (k := {| nn_Namespace := ""; nn_Name := name |}).
  intros [h v] [H1 H2]. unfold or_return, virtual, mbind, M_bind, attempt. cbn [fst snd] in *.
  destruct (Get virtualClient Node k v) as [r v1] eqn:E.
  apply (Get_run virtualClient) in E as (Hs & _ & Hr).
  destruct r as [n|e|]; [|apply unchanged_only; split; cbn; congruence|done].
  destruct Hr as [Hn Hk]. cbn [fst snd].
  destruct (StatusUpdate virtualClient (set_Resources a n) v1) as [r v2] eqn:E.
  apply (StatusUpdate_run virtualClient) in E as (_ & Hr).
  destruct r as [y|e|]; [|apply unchanged_only; split; cbn; congruence|done].
  destruct Hr as (old & Hold & Hy & Hs2). split; [done|]. right. cbn [fst snd] in *.
  assert (obj_key (inj (set_Resources a n)) = (kind Node, k)) as Hkey by (unfold obj_key; cbn; by rewrite <- Hk).
  rewrite Hkey in Hold, Hs2. rewrite Hs in Hold. pose proof (eq_trans (eq_sym Hold) Hn) as [= ->]. cbn in Hy.
  injection Hy as ->. exists n, (set_Resources a n), (kind Node, k). rewrite <- H2.
  split_and!; [done|exact Hn|done..|]. rewrite Hs2, Hs. done.
Qed.

(** An update of the capacity of a virtual node, whatever calls fail on the
    way, changes nothing in the host cluster, and in the virtual cluster
    nothing but the resources of that node; its capacity and its allocatable
    resources stay equal. *)
Theorem updateNodeCapacity_effect ns name w :
  only_resources name w (updateNodeCapacity hostClient virtualClient visit ns name w).2.
Proof.
  assert (ends (only_resources name w) (updateNodeCapacity hostClient virtualClient visit ns name)
            (unchanged w)) as Hends.
  { pose proof (unchanged_only name w) as Huo. unfold updateNodeCapacity.
    eapply ends_or_return; [apply ends_host; by intros ? ? ? [? _]%(Get_run hostClient)|exact Huo|intros node].
    eapply ends_or_return; [apply ends_host; by intros ? ? ? [? _]%(List_run hostClient)|exact Huo|intros quotas].
    destruct (0 <? length quotas); [|apply write_capacity_spec].
    eapply ends_or_return; [apply ends_virtual; by intros ? ? ? [? _]%(List_run virtualClient)|exact Huo|intros vl].
    eapply ends_or_return; [apply ends_host; by intros ? ? ? [? _]%(List_run hostClient)|exact Huo|intros hl].
    cbv zeta. case_match; [|by intros w1 Hw1; apply Huo].
    eapply hoare_bind; [apply hoare_lift with (Q := λ _, unchanged w); auto|].
    intros a. apply write_capacity_spec. }
  specialize (Hends w (conj eq_refl eq_refl)).
  by destruct (updateNodeCapacity _ _ _ _ _ w) as [[] w'].
Qed.

Lemma only_resources_trans name w0 w1 w2 :
  only_resources name w0 w1 → only_resources name w1 w2 → only_resources name w0 w2.
Proof using.
  intros [H1 V1] [H2 V2]. split; [congruence|].
  destruct V2 as [->|(old & n & k & -> & Hold & Hm & Hc & Hcs & Ha & ->)]; [done|].
  destruct V1 as [V1|(old1 & n1 & k1 & -> & Hold1 & Hm1 & Hc1 & Hcs1 & Ha1 & E1)].
  - rewrite V1 in *. right. by exists old, n, (kind Node, {| nn_Namespace := ""; nn_Name := name |}).
  - right. rewrite E1, lookup_insert_eq in Hold. injection Hold as <-.
    exists old1, n, (kind Node, {| nn_Namespace := ""; nn_Name := name |}).
    rewrite E1, insert_insert_eq. split_and!; congruence || done.
Qed.

(** The updater, for any number of its ticks. *)
Lemma startNodeCapacityUpdater_effect ns name ticks w :
  only_resources name w (startNodeCapacityUpdater hostClient virtualClient visit ns name ticks w).2.
Proof.
  revert w. induction ticks as [|ticks IH]; intros w; cbn; [split; [done|by left]|].
  unfold mbind, M_bind. pose proof (updateNodeCapacity_effect ns name w) as Hu.
  destruct (updateNodeCapacity _ _ _ _ _ w) as [[[]|e|] w1]; cbn in *; [|done..].
  eapply only_resources_trans; [exact Hu|apply IH].
Qed.
End UpdateSpec.


(** Two quota names that filter to the same name collide: the amount that
    stays depends on the order in which the map is visited. *)
Theorem filterQuotas_order_matters q1 q2 :
  let quota := [("requests.example.com/gpu", q1); ("limits.example.com/gpu", q2)] in
  filterQuotas quota !! "example.com/gpu" = Some q2 ∧
  filterQuotas (rev quota) !! "example.com/gpu" = Some q1.
Proof. split; reflexivity. Qed.
End Capacity.

(** ** Concrete runs *)
Definition q_of (n : Z) : Quantity := {| q_nano := (n * 10 ^ 9)%Z; q_Format := "DecimalSI" |}.

(** Three nodes; the second can take 2 units only and the fourth does not have
    the resource. *)
Definition ex_host : gmap string ResourceList :=
  {[ "a" := map_lit [("gpu", q_of 8); ("pods", q_of 110)];
     "b" := map_lit [("gpu", q_of 2)];
     "c" := map_lit [("gpu", q_of 8)];
     "d" := map_lit [("pods", q_of 10)] ]}.
Definition ex_virt : gmap string (gmap string Quantity) :=
  {[ "a" := ∅; "b" := ∅; "c" := ∅; "d" := ∅ ]}.
Definition ex_quota : gmap string Quantity := {[ "gpu" := q_of 11 ]}.

Example ex_distribution :
  (λ m, (λ v, Quantity_Value (at_ m v "gpu")) <$> ["a"; "b"; "c"; "d"]) <$>
    distributeQuotas ex_host ex_virt ex_quota (map_to_list ex_quota) = Some [5; 2; 4; 0]%Z.
Proof. vm_compute. reflexivity. Qed.

Definition sane_map (host : gmap string ResourceList) : Prop :=
  map_Forall (λ _ h, map_Forall (λ _ q,
    0 ≤ Quantity_Value q ≤ int64_max ∧ 0 ≤ Quantity_MilliValue q ≤ int64_max)%Z (default ∅ h)) host.

Lemma ex_host_sane : sane ex_host.
Proof.
  assert (sane_map ex_host) as Hs by (apply (bool_decide_unpack _); vm_compute; exact I).
  intros r v c. unfold host_capacity. destruct (ex_host !! v) as [[h|]|] eqn:Hh; [|done..]. cbn.
  destruct (h !! r) as [q|] eqn:Hq; [|done]. intros [= <-].
  specialize (Hs v _ Hh r q Hq). unfold amount. destruct (useMilli r); apply Hs.
Qed.

Lemma distributeQuotas_spec_witness :
  ∃ rm, distributeQuotas ex_host ex_virt ex_quota (map_to_list ex_quota) = Some rm ∧
    (∀ r Q, ex_quota !! r = Some Q →
       fair_division ex_host (eligible ex_host r (map_to_list ex_virt).*1) (amount r Q) (given rm r) r) ∧
    at_ rm "d" "pods" = q_of 10.
Proof.
  destruct (distributeQuotas_spec ex_host ex_virt ex_quota (map_to_list ex_quota))
    as (rm & E & _ & Hq & Hother).
  - exact ex_host_sane.
  - intros v m. unfold ex_virt. intros Hm.
    repeat (rewrite lookup_insert_Some in Hm || rewrite lookup_singleton_Some in Hm). naive_solver.
  - reflexivity.
  - intros r Q. unfold ex_quota. rewrite lookup_singleton_Some. intros [<- <-]. vm_compute. discriminate.
  - exists rm. split; [exact E|]. split; [exact Hq|].
    apply (Hother "pods" "d" (map_lit [("pods", q_of 10)]) (q_of 10)); try reflexivity. by eexists.
Defined.

Lemma mergeQuotas_spec_witness :
  mergeQuotas [ex_quota; {[ "gpu" := q_of 3 ]}; {[ "pods" := q_of 9 ]}] !! "gpu" = Some (q_of 3) ∧
  Quantity_Cmp (q_of 3) (q_of 11) ≠ Gt.
Proof.
  pose proof (mergeQuotas_spec [ex_quota; {[ "gpu" := q_of 3 ]}; {[ "pods" := q_of 9 ]}] "gpu") as H.
  split; [reflexivity|]. apply (proj2 H ex_quota); [left|reflexivity].
Defined.

Lemma filterQuotas_spec_witness :
  filterQuotas [("requests.example.com/gpu", q_of 4); ("requests.cpu", q_of 2)] !! "example.com/gpu"
  = Some (q_of 4).
Proof.
  apply filterQuotas_spec.
  - intros r1 q1 r2 q2 H1 H2 Hc1 Hc2.
    repeat (apply elem_of_cons in H1 as [[= -> ->]|H1]); repeat (apply elem_of_cons in H2 as [[= -> ->]|H2]);
      try (by apply not_elem_of_nil in H1); try (by apply not_elem_of_nil in H2); try done;
      exfalso; first [apply Hc1; vm_compute; set_solver|apply Hc2; vm_compute; set_solver].
  - exists "requests.example.com/gpu". split; [left|]. split; [|reflexivity].
    vm_compute. set_solver.
Defined.

Definition ex_node : Node := {|
  node_Meta := meta_of "" "a"; node_PodCIDR := ""; node_PodCIDRs := []; node_Addresses := [];
  node_Capacity := None; node_Allocatable := map_lit [("gpu", q_of 8)]; node_Extra := no_node_extra |}.
Definition ex_worlds : mem * mem :=
  (mem_put (obj_key (ONode ex_node)) (ONode ex_node)
     (mem_put (kind ResourceQuota, {| nn_Namespace := "ns"; nn_Name := "q" |})
        (OResourceQuota {| rq_Meta := meta_of "ns" "q"; rq_Spec := JNull;
                           rq_Hard := map_lit [("gpu", q_of 3)] |})
        {| mem_store := ∅; mem_up := true |}),
   mem_put (obj_key (ONode ex_node)) (ONode (set_Resources None ex_node))
     {| mem_store := ∅; mem_up := true |}).

(** The virtual node is given the three units of the quota, not the eight of
    the host node. *)
Example ex_update :
  let w := (updateNodeCapacity mem_client mem_client map_to_list "ns" "a" ex_worlds).2 in
  (match mem_store w.2 !! obj_key (ONode ex_node) with
   | Some (ONode n) => Quantity_Value <$> map_get (node_Capacity n) "gpu"
   | _ => None
   end) = Some 3%Z.
Proof. vm_compute. reflexivity. Qed.
End Capacity.
