(* ===== verification/Mounts.v ===== *)
(** * Volumes and mounts of the pods k3k creates (pkg/controller/cluster/mounts)

    What matters of a pod spec here is that every mount of a container is
    backed by a volume of the pod; [backed] says so and the operations are
    shown to keep it. *)

From S2P Require Import Prelude GoStd K8s Types.

Local Open Scope string_scope.
Local Open Scope nat_scope.

Module Mounts.

(** The [Secret] and [Projected] sources of a mounted secret. *)
Definition buildSecretMountVolume (secretMount : SecretMount) : Volume * VolumeMount :=
  let source := smt_SecretVolumeSource secretMount in
  let volName := if decide (smt_Name secretMount = "") then svs_SecretName source
                 else smt_Name secretMount in
  ({| vol_Name := volName;
      vol_Source := ProjectedSource
        [SecretProjection {| svs_SecretName := svs_SecretName source; svs_Items := svs_Items source;
                             svs_Optional := svs_Optional source |}] |},
   {| vm_Name := volName; vm_MountPath := smt_MountPath secretMount;
      vm_SubPath := smt_SubPath secretMount; vm_ReadOnly := false |}).

(** The guards of the loop: the mount is complete and its role matches. *)
Definition applies (secretMount : SecretMount) (role : string) : bool :=
  negb (bool_decide (svs_SecretName (smt_SecretVolumeSource secretMount) = "") ||
        bool_decide (smt_MountPath secretMount = "")) &&
  (bool_decide (smt_Role secretMount = role) || bool_decide (smt_Role secretMount = "") ||
   bool_decide (smt_Role secretMount = "all")).

Fixpoint BuildSecretsMountsVolumes (secretMounts : list SecretMount) (role : string)
  : list Volume * list VolumeMount :=
  match secretMounts with
  | [] => ([], [])
  | secretMount :: rest =>
      let '(vols, volMounts) := BuildSecretsMountsVolumes rest role in
      if applies secretMount role then
        let '(vol, volMount) := buildSecretMountVolume secretMount in
        (vol :: vols, volMount :: volMounts)
      else (vols, volMounts)
  end.

Definition FilterEmptyDirVolumes (podSpec : PodSpec) : PodSpec :=
  let emptyDirNames := map vol_Name (List.filter is_EmptyDir (ps_Volumes podSpec)) in
  set_Volumes_Containers
    (List.filter (λ vol, negb (is_EmptyDir vol)) (ps_Volumes podSpec))
    (map (λ c, set_VolumeMounts
                 (List.filter (λ mount, negb (slices_Contains emptyDirNames (vm_Name mount)))
                    (ct_VolumeMounts c)) c)
       (ps_Containers podSpec))
    podSpec.

Definition kmsg_volume : Volume := {| vol_Name := "dev-kmsg"; vol_Source := HostPathSource "/dev/kmsg" |}.
Definition kmsg_mount : VolumeMount :=
  {| vm_Name := "dev-kmsg"; vm_MountPath := "/dev/kmsg"; vm_SubPath := ""; vm_ReadOnly := false |}.

(** [AddKmsgMount]; a pod without containers panics. *)
Definition AddKmsgMount (podSpec : PodSpec) : outcome PodSpec :=
  match ps_Containers podSpec with
  | [] => Panic
  | c :: cs =>
      Ok (set_Volumes_Containers (ps_Volumes podSpec ++ [kmsg_volume])%list
            (set_VolumeMounts (ct_VolumeMounts c ++ [kmsg_mount])%list c :: cs) podSpec)
  end.

(** ** Backed mounts *)

(** Every mount names a volume of the pod or one of the extra [claims] (the
    claim templates of a stateful set). *)
Definition backed (claims : list string) (vols : list Volume) (ms : list VolumeMount) : Prop :=
  ∀ m, m ∈ ms → vm_Name m ∈ map vol_Name vols ∨ vm_Name m ∈ claims.

Definition backed_pod (claims : list string) (p : PodSpec) : Prop :=
  ∀ c, c ∈ ps_Containers p → backed claims (ps_Volumes p) (ct_VolumeMounts c).

Lemma backed_mono claims vols vols' ms :
  (∀ v, v ∈ vols → v ∈ vols') → backed claims vols ms → backed claims vols' ms.
Proof.
  intros Hsub Hb m Hm. destruct (Hb m Hm) as [Hv|]; [left|by right].
  apply list_elem_of_fmap in Hv as (v & -> & Hv). apply list_elem_of_fmap. eauto.
Qed.

Lemma backed_app claims vols ms vols' ms' :
  backed claims vols ms → backed claims vols' ms' → backed claims (vols ++ vols') (ms ++ ms').
Proof.
  intros H1 H2 m [Hm|Hm]%elem_of_app.
  - eapply backed_mono; [|exact H1|exact Hm]. set_solver.
  - eapply backed_mono; [|exact H2|exact Hm]. set_solver.
Qed.

Lemma backed_claims claims claims' vols ms :
  claims ⊆ claims' → backed claims vols ms → backed claims' vols ms.
Proof. intros Hsub Hb m Hm. destruct (Hb m Hm); [by left|right; set_solver]. Qed.

(** The mounts of a volume under its own name. *)
Lemma backed_own claims v ms : (∀ m, m ∈ ms → vm_Name m = vol_Name v) → backed claims [v] ms.
Proof. intros H m Hm. left. rewrite (H m Hm). cbn. set_solver. Qed.

Lemma backed_nil claims vols : backed claims vols [].
Proof. intros m. set_solver. Qed.

Lemma secret_mounts_names secretMounts role :
  map vol_Name (BuildSecretsMountsVolumes secretMounts role).1 =
  map vm_Name (BuildSecretsMountsVolumes secretMounts role).2.
Proof.
  induction secretMounts as [|s rest IH]; cbn [BuildSecretsMountsVolumes]; [done|].
  destruct (BuildSecretsMountsVolumes rest role) as [vols ms]. destruct (applies s role); [|done].
  destruct (buildSecretMountVolume s) as [v m] eqn:Hs. cbn in *. rewrite IH. f_equal.
  by injection Hs as <- <-.
Qed.

(** Every secret mount that applies to a role gives a volume and a mount with
    the same name, projecting the secret; an incomplete entry or one of
    another role gives none. *)
Theorem BuildSecretsMountsVolumes_spec secretMounts role :
  let '(vols, ms) := BuildSecretsMountsVolumes secretMounts role in
  map vol_Name vols = map vm_Name ms ∧
  ∀ v m, (v, m) ∈ zip vols ms ↔
         ∃ s, s ∈ secretMounts ∧ applies s role = true ∧ buildSecretMountVolume s = (v, m).
Proof.
  pose proof (secret_mounts_names secretMounts role) as Hn.
  destruct (BuildSecretsMountsVolumes secretMounts role) as [vols ms] eqn:E. split; [done|]. clear Hn.
  revert vols ms E. induction secretMounts as [|s rest IH]; cbn [BuildSecretsMountsVolumes].
  { intros vols ms [= <- <-] v m. set_solver. }
  destruct (BuildSecretsMountsVolumes rest role) as [vols' ms']. specialize (IH _ _ eq_refl).
  intros vols ms. destruct (applies s role) eqn:Ha.
  - destruct (buildSecretMountVolume s) as [v m] eqn:Hs. intros [= <- <-] v' m'.
    cbn [zip zip_with]. rewrite elem_of_cons, IH. split.
    + intros [[= -> ->]|(s' & ? & ? & ?)]; [exists s|exists s']; set_solver.
    + intros (s' & [->|]%elem_of_cons & ? & ?); [left; congruence|right; eauto].
  - intros [= <- <-] v' m'. rewrite IH. split.
    + intros (s' & ? & ? & ?). exists s'. set_solver.
    + intros (s' & [->|]%elem_of_cons & ? & ?); [congruence|eauto].
Qed.

Lemma secret_mounts_backed secretMounts role :
  backed [] (BuildSecretsMountsVolumes secretMounts role).1 (BuildSecretsMountsVolumes secretMounts role).2.
Proof. intros m Hm. left. rewrite secret_mounts_names. apply list_elem_of_fmap. eauto. Qed.

(** The remaining mounts stay backed. *)
Lemma FilterEmptyDirVolumes_backed claims p :
  backed_pod claims p → backed_pod claims (FilterEmptyDirVolumes p).
Proof.
  intros Hb c' Hc'. unfold FilterEmptyDirVolumes in *. cbn in *.
  apply list_elem_of_fmap in Hc' as (c & -> & Hc). intros m Hm. cbn in Hm.
  apply list_elem_of_In, List.filter_In in Hm as [Hm%list_elem_of_In Hne].
  destruct (Hb c Hc m Hm) as [Hv|]; [left|by right].
  apply list_elem_of_fmap in Hv as (v & Hv & Hin). rewrite Hv. apply list_elem_of_fmap.
  exists v. split; [done|]. apply list_elem_of_In, List.filter_In. split; [by apply list_elem_of_In|].
  destruct (is_EmptyDir v) eqn:He; [|done]. exfalso.
  apply negb_true_iff, bool_decide_eq_false in Hne. apply Hne.
  rewrite Hv. apply list_elem_of_fmap. exists v. split; [done|].
  apply list_elem_of_In, List.filter_In. split; [by apply list_elem_of_In|done].
Qed.

(** Stripping the EmptyDir volumes leaves none and keeps every other volume;
    a mount of a container stays exactly when no stripped volume has its
    name. *)
Theorem FilterEmptyDirVolumes_spec p :
  (∀ v, v ∈ ps_Volumes (FilterEmptyDirVolumes p) ↔ v ∈ ps_Volumes p ∧ is_EmptyDir v = false) ∧
  ∀ i c, ps_Containers p !! i = Some c →
    ∃ c', ps_Containers (FilterEmptyDirVolumes p) !! i = Some c' ∧
      ∀ m, m ∈ ct_VolumeMounts c' ↔
           m ∈ ct_VolumeMounts c ∧
           ∀ v, v ∈ ps_Volumes p → is_EmptyDir v = true → vol_Name v ≠ vm_Name m.
Proof.
  split.
  - intros v. cbn. rewrite !list_elem_of_In, List.filter_In, negb_true_iff. done.
  - intros i c Hc. cbn. rewrite list_lookup_fmap, Hc. eexists. split; [reflexivity|].
    intros m. cbn. rewrite !list_elem_of_In, List.filter_In, negb_true_iff.
    unfold slices_Contains. rewrite bool_decide_eq_false, list_elem_of_fmap. split.
    + intros [Hm Hn]. split; [done|]. intros v Hv He Hname. apply Hn. exists v. split; [done|].
      apply list_elem_of_In, List.filter_In. by rewrite <- list_elem_of_In.
    + intros [Hm Hn]. split; [done|]. intros (v & Hname & Hv).
      apply list_elem_of_In, List.filter_In in Hv as [Hv He].
      apply (Hn v); [by apply list_elem_of_In|done..].
Qed.

Lemma AddKmsgMount_backed claims p p' :
  backed_pod claims p → AddKmsgMount p = Ok p' → backed_pod claims p'.
Proof.
  unfold AddKmsgMount. destruct (ps_Containers p) as [|c cs] eqn:E; [done|]. intros Hb [= <-].
  unfold backed_pod in Hb. rewrite E in Hb. intros c' [->|Hc]%elem_of_cons; cbn.
  - apply backed_app; [apply Hb; set_solver|]. intros m ->%list_elem_of_singleton. left. cbn. set_solver.
  - eapply backed_mono; [|apply Hb; set_solver]. set_solver.
Qed.
End Mounts.
