(* ===== verification/Expose.v ===== *)
(** * How a virtual cluster is exposed (pkg/controller/cluster/server)

    The Service, headless Service and Ingress of a cluster (service.go,
    ingress.go), the k3s server configuration with its TLS SANs (config.go) and
    the URL the clients connect to (endpoint.go).  [yaml.Marshal] is a
    parameter. *)

From S2P Require Import Prelude GoStd GoNet K8s Types Kube Names.

Local Open Scope string_scope.
Local Open Scope nat_scope.

Module Expose.

(** ** service.go *)
Definition httpsPort : Z := 443.
Definition k3sServerPort : Z := 6443.
Definition etcdPort : Z := 2379.
Definition lbServerPortName : string := "k3s-server-lb-port".

Definition ServiceName (clusterName : string) : string :=
  Names.SafeConcatNameWithPrefix [clusterName; "service"].
Definition HeadlessServiceName (clusterName : string) : string :=
  Names.SafeConcatNameWithPrefix [clusterName; "service"; "headless"].
Definition IngressName (clusterName : string) : string :=
  Names.SafeConcatNameWithPrefix [clusterName; "ingress"].

Definition server_labels (clusterName : string) : gomap string :=
  map_lit [("cluster", clusterName); ("role", "server")].

(** The two port literals of [Service] and [StatefulServerService]. *)
Definition server_port : ServicePort := {|
  sp_Name := "k3s-server-port"; sp_Protocol := ProtocolTCP; sp_Port := httpsPort;
  sp_TargetPort := IntVal k3sServerPort; sp_NodePort := 0 |}.
Definition etcd_port : ServicePort := {|
  sp_Name := "k3s-etcd-port"; sp_Protocol := ProtocolTCP; sp_Port := etcdPort;
  sp_TargetPort := IntVal 0; sp_NodePort := 0 |}.

Definition set_Port (n : string) (p : Z) (sp : ServicePort) : ServicePort := {|
  sp_Name := n; sp_Protocol := sp_Protocol sp; sp_Port := p;
  sp_TargetPort := sp_TargetPort sp; sp_NodePort := sp_NodePort sp |}.
Definition set_NodePort (p : Z) (sp : ServicePort) : ServicePort := {|
  sp_Name := sp_Name sp; sp_Protocol := sp_Protocol sp; sp_Port := sp_Port sp;
  sp_TargetPort := sp_TargetPort sp; sp_NodePort := p |}.

(** The ports the two functions append to the Service. *)
Definition addLoadBalancerPorts (lb : LoadBalancerConfig) (k3sServerPort etcdPort : ServicePort)
  : list ServicePort :=
  let serverPort := default (sp_Port k3sServerPort) (lb_ServerPort lb) in
  ([k3sServerPort] ++
   (if (0 <? serverPort)%Z && negb (serverPort =? sp_Port k3sServerPort)%Z
    then [set_Port lbServerPortName serverPort k3sServerPort] else []) ++
   match lb_EtcdPort lb with
   | None => [etcdPort]
   | Some p => if (0 <? p)%Z then [set_Port (sp_Name etcdPort) p etcdPort] else []
   end)%list.

Definition in_node_range (p : Z) : bool := (30000 <=? p)%Z && (p <=? 32767)%Z.

Definition node_port (configured : option Z) (port : ServicePort) : list ServicePort :=
  match configured with
  | None => [port]
  | Some p => if in_node_range p then [set_NodePort p port] else []
  end.

Definition addNodePortPorts (np : NodePortConfig) (k3sServerPort etcdPort : ServicePort)
  : list ServicePort :=
  (node_port (npc_ServerPort np) k3sServerPort ++ node_port (npc_EtcdPort np) etcdPort)%list.

(** [maps.Copy(map[string]string{}, m)] for a map that is not nil. *)
Definition copied (m : gomap string) : gomap string :=
  match m with None => None | Some g => Some (g ∪ ∅) end.

(** [Service(cluster)] *)
Definition Service_ (cluster : Cluster) : Service :=
  let isHCPMode := bool_decide (Mode (cl_Spec cluster) = HCPClusterMode) in
  let mk (annotations : gomap string) (ty policy : string) (class : option string)
         (ports : list ServicePort) : Service := {|
    svc_Meta := set_Annotations annotations
                  (meta_of (Namespace (cl_Meta cluster)) (ServiceName (Name (cl_Meta cluster))));
    svc_Spec := {|
      ss_Ports := ports; ss_Selector := server_labels (Name (cl_Meta cluster));
      ss_ClusterIP := ""; ss_Type := ty; ss_LoadBalancerClass := class;
      ss_ExternalTrafficPolicy := policy |};
    svc_Ingress := [] |} in
  let policy := if isHCPMode then "Local" else "" in
  match Expose (cl_Spec cluster) with
  | None => mk None ServiceTypeClusterIP "" None [server_port; etcd_port]
  | Some expose =>
      let annotations := copied (exp_Annotations expose) in
      match exp_LoadBalancer expose, exp_NodePort expose with
      | Some lb, _ =>
          mk annotations ServiceTypeLoadBalancer policy (lb_LoadBalancerClass lb)
             (addLoadBalancerPorts lb server_port etcd_port)
      | None, Some np =>
          mk annotations ServiceTypeNodePort policy None
             (addNodePortPorts np server_port etcd_port)
      | None, None => mk annotations ServiceTypeClusterIP "" None [server_port; etcd_port]
      end
  end.

(** [LoadBalancerSANs(service)], [None] for a nil service. *)
Definition LoadBalancerSANs (service : option Service) : list string :=
  match service with
  | None => []
  | Some s =>
      if bool_decide (ss_Type (svc_Spec s) = ServiceTypeLoadBalancer) then
        concat (map (λ i, (if decide (lbi_IP i = "") then [] else [lbi_IP i]) ++
                          (if decide (lbi_Hostname i = "") then [] else [lbi_Hostname i]))%list
                  (svc_Ingress s))
      else []
  end.

(** [(s *Server) StatefulServerService()] *)
Definition StatefulServerService (cluster : Cluster) : Service := {|
  svc_Meta := meta_of (Namespace (cl_Meta cluster)) (HeadlessServiceName (Name (cl_Meta cluster)));
  svc_Spec := {|
    ss_Ports := [server_port; etcd_port]; ss_Selector := server_labels (Name (cl_Meta cluster));
    ss_ClusterIP := ClusterIPNone; ss_Type := ServiceTypeClusterIP; ss_LoadBalancerClass := None;
    ss_ExternalTrafficPolicy := "" |};
  svc_Ingress := [] |}.

(** ** ingress.go *)
Definition ingressRules (cluster : Cluster) : list IngressRule :=
  match Expose (cl_Spec cluster) with
  | Some {| exp_Ingress := Some _ |} =>
      let path := {| hip_Path := "/"; hip_PathType := Some "Prefix";
                     hip_Backend := {|
                       ib_Service := Some {| isb_Name := ServiceName (Name (cl_Meta cluster));
                                             isb_PortName := ""; isb_PortNumber := httpsPort |};
                       ib_Resource := None |} |} in
      map (λ host, {| ir_Host := host; ir_HTTP := Some [path] |})
        (Names.FilterDNSNames (TLSSANs (cl_Spec cluster)))
  | _ => []
  end.

Definition Ingress_ (cluster : Cluster) : Ingress :=
  let m := meta_of (Namespace (cl_Meta cluster)) (IngressName (Name (cl_Meta cluster))) in
  match Expose (cl_Spec cluster) with
  | Some {| exp_Ingress := Some ic |} =>
      {| ing_Meta := set_Annotations (ic_Annotations ic) m;
         ing_Spec := {|
           ing_IngressClassName := if decide (ic_IngressClassName ic = "") then None
                                   else Some (ic_IngressClassName ic);
           ing_DefaultBackend := None; ing_TLS := []; ing_Rules := ingressRules cluster |};
         ing_LoadBalancer := [] |}
  | _ =>
      {| ing_Meta := m;
         ing_Spec := {| ing_IngressClassName := None; ing_DefaultBackend := None; ing_TLS := [];
                        ing_Rules := ingressRules cluster |};
         ing_LoadBalancer := [] |}
  end.

(** ** config.go *)
Record serverConfig : Type := {
  sc_ClusterCIDR : string;
  sc_ClusterDNS : string;
  sc_ClusterInit : bool;
  sc_DisableAgent : bool;
  sc_Disable : list string;
  sc_EgressSelectorMode : string;
  sc_KubeAPIServerArg : list string;
  sc_Server : string;
  sc_ServiceCIDR : string;
  sc_TLSSAN : list string;
  sc_Token : string;
}.

Definition initConfigName : string := "init-server-config".
Definition configName : string := "server-config".

Definition configSecretName (clusterName : string) (init : bool) : string :=
  if negb init then Names.SafeConcatNameWithPrefix [clusterName; configName]
  else Names.SafeConcatNameWithPrefix [clusterName; initConfigName].

Section Config.
Context `{KubeUtil}.

(** The configuration, and the cluster with its TLS SANs recorded in the
    status. *)
Definition buildServerConfig (cluster : Cluster) (initServer : bool) (service : Service)
    (token : string) (extraSANs : list string) : serverConfig * Cluster :=
  let serviceIP := ss_ClusterIP (svc_Spec service) in
  let name := ServiceName (Name (cl_Meta cluster)) in
  let sans := sets_List
    (TLSSANs (cl_Spec cluster) ++ extraSANs ++
     [serviceIP; name; name +:+ "." +:+ Namespace (cl_Meta cluster)] ++
     LoadBalancerSANs (Some service))%list in
  let cluster := set_Status (st_set_TLSSANs sans (cl_Status cluster)) cluster in
  let mode := Mode (cl_Spec cluster) in
  let shared := bool_decide (mode = "" ∨ mode = SharedClusterMode) in
  let hcp := negb shared && bool_decide (mode = HCPClusterMode) in
  ({| sc_ClusterCIDR := st_ClusterCIDR (cl_Status cluster);
      sc_ClusterDNS := ClusterDNS (cl_Spec cluster);
      sc_ClusterInit := true;
      sc_DisableAgent := shared || hcp;
      sc_Disable := if shared then ["servicelb"; "traefik"; "metrics-server"; "local-storage"] else [];
      sc_EgressSelectorMode := if shared then "disabled" else if hcp then "cluster" else "";
      sc_KubeAPIServerArg := if hcp then ["endpoint-reconciler-type=none"] else [];
      sc_Server := if initServer then "" else "https://" +:+ serviceIP;
      sc_ServiceCIDR := st_ServiceCIDR (cl_Status cluster);
      sc_TLSSAN := st_TLSSANs (cl_Status cluster);
      sc_Token := token |}, cluster).

(** [yaml.Marshal] of a [serverConfig]. *)
Context (yaml_Marshal : serverConfig → outcome string).

(** [(s *Server) Config]: the Secret, and the cluster the server points to. *)
Definition Config (cluster : Cluster) (token : string) (init : bool) (service : Service)
    (extraSANs : list string) : outcome Secret * Cluster :=
  let '(config, cluster') := buildServerConfig cluster init service token extraSANs in
  (text ← yaml_Marshal config;
   mret {| sec_Meta := meta_of (Namespace (cl_Meta cluster))
                         (configSecretName (Name (cl_Meta cluster)) init); sec_Type := "";
           sec_Data := map_lit [("config.yaml", text)] |}, cluster').
End Config.

(** ** endpoint.go *)
Definition ErrLoadBalancerNotReady : error :=
  ESentinel "ErrLoadBalancerNotReady"
    "the LoadBalancer address of the cluster service has not been assigned yet".

Record url : Type := { Scheme : string; Host : string }.

Definition buildURL (host : string) (port : Z) : url :=
  {| Scheme := "https";
     Host := if (port =? 443)%Z then host else JoinHostPort host (strconv_Itoa port) |}.

(** The host of the last part of [URL]: a name the certificate covers, when
    the cluster has one. *)
Definition san_host (cluster : Cluster) (host : string) : string :=
  if slices_Contains (st_TLSSANs (cl_Status cluster)) host then host
  else match TLSSANs (cl_Spec cluster), st_TLSSANs (cl_Status cluster) with
       | s :: _, _ => s
       | [], s :: _ => s
       | [], [] => host
       end.

(** The URL a Service gives. *)
Definition service_url (cluster : Cluster) (k3kService : Service) (hostServerIP : string)
  : outcome url :=
  let spec := svc_Spec k3kService in
  let port := match ss_Ports spec with p :: _ => sp_Port p | [] => 443%Z end in
  if bool_decide (ss_Type spec = ServiceTypeClusterIP) then
    Ok (buildURL (san_host cluster (ss_ClusterIP spec)) port)
  else if bool_decide (ss_Type spec = ServiceTypeNodePort) then
    if negb (bool_decide (hostServerIP = ss_ClusterIP spec)) then
      Ok (buildURL (san_host cluster hostServerIP)
            (match ss_Ports spec with p :: _ => sp_NodePort p | [] => port end))
    else Ok (buildURL (san_host cluster (ss_ClusterIP spec)) port)
  else if bool_decide (ss_Type spec = ServiceTypeLoadBalancer) then
    if bool_decide (hostServerIP = ss_ClusterIP spec) then Ok (buildURL (ss_ClusterIP spec) port)
    else match LoadBalancerSANs (Some k3kService) with
         | [] => Err ErrLoadBalancerNotReady
         | san :: _ =>
             let port := fold_left (λ port sp,
               if decide (sp_Name sp = lbServerPortName) then sp_Port sp else port)
               (ss_Ports spec) port in
             Ok (buildURL san port)
         end
  else Ok (buildURL (san_host cluster hostServerIP) port).

Section URL.
Context {W : Type} (c : Client W).

Definition URL (cluster : Cluster) (hostServerIP : string) : M W url :=
  let ns := Namespace (cl_Meta cluster) in
  let name := Name (cl_Meta cluster) in
  let from_service : M W url :=
    k3kService ← Get c Service {| nn_Namespace := ns; nn_Name := ServiceName name |};
    lift (service_url cluster k3kService hostServerIP) in
  match Expose (cl_Spec cluster) with
  | Some {| exp_Ingress := Some _ |} =>
      k3kIngress ← Get c Ingress {| nn_Namespace := ns; nn_Name := IngressName name |};
      match ing_Rules (ing_Spec k3kIngress) with
      | r :: _ => if negb (bool_decide (ir_Host r = ""))
                  then mret {| Scheme := "https"; Host := ir_Host r |}
                  else from_service
      | [] => from_service
      end
  | _ => from_service
  end.
End URL.

(** ** Properties *)
#[local] Arguments LoadBalancerSANs : simpl never.

Section Properties.
Context `{KubeUtilLaws}.

Lemma config_sans_elem cluster init service token extra x :
  x ∈ sc_TLSSAN (buildServerConfig cluster init service token extra).1 ↔
  x ∈ TLSSANs (cl_Spec cluster) ∨ x ∈ extra ∨ x = ss_ClusterIP (svc_Spec service) ∨
  x = ServiceName (Name (cl_Meta cluster)) ∨
  x = ServiceName (Name (cl_Meta cluster)) +:+ "." +:+ Namespace (cl_Meta cluster) ∨
  x ∈ LoadBalancerSANs (Some service).
Proof.
  unfold buildServerConfig. cbn [fst sc_TLSSAN cl_Status set_Status st_set_TLSSANs st_TLSSANs].
  rewrite sets_List_elem, !elem_of_app. set_solver.
Qed.

(** The certificate of a server covers exactly the SANs of the spec, the extra
    ones of the expose configuration, the cluster IP, the two DNS names of the
    service and the addresses its load balancer was assigned; the list is
    sorted, has no duplicate, and is the one recorded in the cluster's
    status. *)
Theorem buildServerConfig_sans cluster init service token extra :
  let '(config, cluster') := buildServerConfig cluster init service token extra in
  st_TLSSANs (cl_Status cluster') = sc_TLSSAN config ∧
  NoDup (sc_TLSSAN config) ∧ Sorted str_le (sc_TLSSAN config) ∧
  ∀ x, x ∈ sc_TLSSAN config ↔
    x ∈ TLSSANs (cl_Spec cluster) ∨ x ∈ extra ∨ x = ss_ClusterIP (svc_Spec service) ∨
    x = ServiceName (Name (cl_Meta cluster)) ∨
    x = ServiceName (Name (cl_Meta cluster)) +:+ "." +:+ Namespace (cl_Meta cluster) ∨
    x ∈ LoadBalancerSANs (Some service).
Proof.
  pose proof (config_sans_elem cluster init service token extra) as He.
  unfold buildServerConfig in *. cbn [fst sc_TLSSAN cl_Status set_Status st_set_TLSSANs st_TLSSANs] in *.
  split; [done|]. split; [apply sets_List_nodup|]. split; [apply sets_List_sorted|exact He].
Qed.

Lemma san_host_covered cluster host :
  (∀ s, s ∈ TLSSANs (cl_Spec cluster) → s ∈ st_TLSSANs (cl_Status cluster)) →
  st_TLSSANs (cl_Status cluster) ≠ [] →
  san_host cluster host ∈ st_TLSSANs (cl_Status cluster).
Proof.
  intros Hspec Hne. unfold san_host, slices_Contains.
  destruct (bool_decide_reflect (host ∈ st_TLSSANs (cl_Status cluster))) as [|_]; [done|].
  destruct (TLSSANs (cl_Spec cluster)) as [|s l] eqn:E; [|apply Hspec; left].
  destruct (st_TLSSANs (cl_Status cluster)) as [|s l]; [done|]. left.
Qed.

(** The host of every URL built from a service is covered by the certificate
    the configuration of that service asks for; a client inside the host
    cluster (one that passes the cluster IP) is sent to the cluster IP. *)
Theorem URL_host_covered cluster init service token extra hostServerIP u :
  let cluster' := (buildServerConfig cluster init service token extra).2 in
  service_url cluster' service hostServerIP = Ok u →
  (∃ h p, u = buildURL h p ∧ h ∈ st_TLSSANs (cl_Status cluster')) ∧
  (hostServerIP = ss_ClusterIP (svc_Spec service) →
   ∃ p, u = buildURL (ss_ClusterIP (svc_Spec service)) p).
Proof.
  intros cluster'.
  assert (∀ x, x ∈ st_TLSSANs (cl_Status cluster') ↔ x ∈ sc_TLSSAN (buildServerConfig cluster init service token extra).1) as Hst by done.
  pose proof (config_sans_elem cluster init service token extra) as He.
  assert (ss_ClusterIP (svc_Spec service) ∈ st_TLSSANs (cl_Status cluster')) as Hip
    by (rewrite Hst, He; auto).
  assert (∀ h, san_host cluster' h ∈ st_TLSSANs (cl_Status cluster')) as Hsan.
  { intros h. apply san_host_covered; [|by intros E; rewrite E in Hip; apply not_elem_of_nil in Hip].
    intros s Hs. rewrite Hst, He. auto. }
  assert (san_host cluster' (ss_ClusterIP (svc_Spec service)) = ss_ClusterIP (svc_Spec service)) as Hself.
  { unfold san_host, slices_Contains. by rewrite bool_decide_true. }
  unfold service_url.
  destruct (bool_decide_reflect (ss_Type (svc_Spec service) = ServiceTypeClusterIP)).
  { intros [= <-]. rewrite Hself. eauto 10. }
  destruct (bool_decide_reflect (ss_Type (svc_Spec service) = ServiceTypeNodePort)).
  { destruct (bool_decide_reflect (hostServerIP = ss_ClusterIP (svc_Spec service))) as [->|Hne];
      cbn [negb]; intros [= <-]; rewrite ?Hself; split; eauto; done. }
  destruct (bool_decide_reflect (ss_Type (svc_Spec service) = ServiceTypeLoadBalancer)).
  - destruct (bool_decide_reflect (hostServerIP = ss_ClusterIP (svc_Spec service))) as [->|Hne].
    + intros [= <-]. eauto 10.
    + destruct (LoadBalancerSANs (Some service)) as [|san l] eqn:E; [done|].
      intros [= <-]. split; [|done]. do 2 eexists. split; [done|]. rewrite Hst, He. set_solver.
  - intros [= <-]. split; [eauto|]. intros ->. rewrite Hself. eauto.
Qed.

(** The service of a cluster exposed through a load balancer, once the server
    has stored it and assigned addresses: the URL of an external client has
    the configured port, or 443 when the port is not configured or disabled. *)
Theorem URL_loadbalancer_port cluster expose lb service hostServerIP u :
  Expose (cl_Spec cluster) = Some expose → exp_LoadBalancer expose = Some lb →
  ss_Ports (svc_Spec service) = ss_Ports (svc_Spec (Service_ cluster)) →
  ss_Type (svc_Spec service) = ss_Type (svc_Spec (Service_ cluster)) →
  hostServerIP ≠ ss_ClusterIP (svc_Spec service) →
  service_url cluster service hostServerIP = Ok u →
  ∃ san rest, LoadBalancerSANs (Some service) = san :: rest ∧
    u = buildURL san (match lb_ServerPort lb with
                      | Some p => if (0 <? p)%Z then p else httpsPort
                      | None => httpsPort
                      end).
Proof.
  intros HE HL. unfold Service_. rewrite HE, HL. cbn. intros Hp Ht Hne. unfold service_url.
  rewrite Hp, Ht. cbn. rewrite (bool_decide_false (hostServerIP = _)) by done.
  destruct (LoadBalancerSANs (Some service)) as [|san rest]; [done|]. intros [= <-].
  exists san, rest. split; [done|]. f_equal. clear. unfold addLoadBalancerPorts. cbn.
  assert (∀ acc, fold_left (λ port sp, if decide (sp_Name sp = lbServerPortName) then sp_Port sp else port)
            (match lb_EtcdPort lb with
             | None => [etcd_port]
             | Some p => if (0 <? p)%Z then [set_Port (sp_Name etcd_port) p etcd_port] else []
             end) acc = acc) as Hetcd.
  { intros acc. destruct (lb_EtcdPort lb) as [p|]; [destruct (0 <? p)%Z|]; done. }
  destruct (lb_ServerPort lb) as [p|]; cbn; [|apply Hetcd].
  destruct (0 <? p)%Z; cbn; [|apply Hetcd].
  destruct (Z.eqb_spec p httpsPort) as [->|]; cbn; apply Hetcd.
Qed.
End Properties.

Lemma Service_https cluster :
  ss_Type (svc_Spec (Service_ cluster)) ≠ ServiceTypeNodePort →
  server_port ∈ ss_Ports (svc_Spec (Service_ cluster)).
Proof.
  unfold Service_. destruct (Expose (cl_Spec cluster)) as [[i [lb|] [np|] a]|]; cbn; try done;
    intros _; left.
Qed.

Ltac solve_nodup :=
  cbn; first [apply NoDup_nil_2 | apply NoDup_singleton
             | apply (bool_decide_unpack _); vm_compute; exact I].

(** What the Service exposes: the default https port of the API server is
    there, except when a node port out of the node port range disables it;
    every node port it asks for is in that range; no port is published with a
    number that is not positive; and the ports have distinct names, as the API
    requires. *)
Theorem Service_ports cluster :
  let ports := ss_Ports (svc_Spec (Service_ cluster)) in
  (ss_Type (svc_Spec (Service_ cluster)) ≠ ServiceTypeNodePort → server_port ∈ ports) ∧
  (∀ p, p ∈ ports → (0 < sp_Port p)%Z ∧ (sp_NodePort p = 0 ∨ 30000 ≤ sp_NodePort p ≤ 32767)%Z) ∧
  NoDup (sp_Name <$> ports).
Proof.
  unfold Service_.
  assert (∀ o p, (0 < sp_Port p)%Z → sp_NodePort p = 0%Z →
            (∀ q, q ∈ node_port o p → sp_Name q = sp_Name p ∧ (0 < sp_Port q)%Z ∧
               (sp_NodePort q = 0 ∨ 30000 ≤ sp_NodePort q ≤ 32767)%Z) ∧
            NoDup (sp_Name <$> node_port o p)) as Hnode.
  { intros o p Hp H0. unfold node_port, in_node_range. destruct o as [n|].
    - destruct (Z.leb_spec 30000 n), (Z.leb_spec n 32767); cbn; (split; [|solve_nodup]);
        intros q Hq; try (by apply not_elem_of_nil in Hq); apply list_elem_of_singleton in Hq as ->;
        cbn; (split; [done|lia]).
    - split; [|solve_nodup]. intros q ->%list_elem_of_singleton. auto. }
  destruct (Expose (cl_Spec cluster)) as [expose|]; cbn.
  2: { split; [set_solver|]. split; [|solve_nodup].
       intros p Hp. repeat (apply elem_of_cons in Hp as [->|Hp]; [cbn; unfold httpsPort, etcdPort; lia|]). set_solver. }
  destruct (exp_LoadBalancer expose) as [lb|]; [|destruct (exp_NodePort expose) as [np|]]; cbn.
  - unfold addLoadBalancerPorts. cbn. split; [set_solver|].
    set (s := default httpsPort (lb_ServerPort lb)).
    destruct (Z.ltb_spec 0 s), (Z.eqb_spec s httpsPort); cbn;
      (destruct (lb_EtcdPort lb) as [ep|]; [destruct (Z.ltb_spec 0 ep)|]); cbn;
      (split; [|solve_nodup]);
      intros p Hp; repeat (apply elem_of_cons in Hp as [->|Hp]; [cbn; unfold httpsPort, etcdPort in *; lia|]);
      set_solver.
  - split; [done|]. unfold addNodePortPorts.
    destruct (Hnode (npc_ServerPort np) server_port) as [Hs1 Hs2]; [done..|].
    destruct (Hnode (npc_EtcdPort np) etcd_port) as [He1 He2]; [done..|]. split.
    + intros p [Hp|Hp]%elem_of_app; [by apply Hs1|by apply He1].
    + rewrite fmap_app. apply NoDup_app. split; [done|]. split; [|done].
      intros n (p & -> & Hp)%list_elem_of_fmap (q & Hn & Hq)%list_elem_of_fmap.
      apply Hs1 in Hp as [Hp _]. apply He1 in Hq as [Hq _]. rewrite Hp, Hq in Hn. done.
  - split; [set_solver|]. split; [|solve_nodup].
    intros p Hp. repeat (apply elem_of_cons in Hp as [->|Hp]; [cbn; unfold httpsPort, etcdPort; lia|]). set_solver.
Qed.

(** An exposed cluster gets one rule per SAN that is a DNS name, none for an
    IP address, and every rule leads to a port its Service publishes. *)
Theorem ingressRules_spec cluster expose ic :
  Expose (cl_Spec cluster) = Some expose → exp_Ingress expose = Some ic →
  map ir_Host (ingressRules cluster) =
    List.filter (λ h, bool_decide (ParseIP h = None)) (TLSSANs (cl_Spec cluster)) ∧
  ∀ r p, r ∈ ingressRules cluster → p ∈ default [] (ir_HTTP r) →
    ∃ b, ib_Service (hip_Backend p) = Some b ∧ isb_Name b = Name (svc_Meta (Service_ cluster)) ∧
    (ss_Type (svc_Spec (Service_ cluster)) ≠ ServiceTypeNodePort →
     isb_PortNumber b ∈ sp_Port <$> ss_Ports (svc_Spec (Service_ cluster))).
Proof.
  intros HE HI. split.
  - unfold ingressRules. rewrite HE. destruct expose; cbn in HI; subst.
    rewrite map_map. cbn. rewrite map_id. unfold Names.FilterDNSNames, slices_DeleteFunc.
    apply List.filter_ext. intros h. destruct (ParseIP h); reflexivity.
  - intros r p Hr Hp. unfold ingressRules in Hr. rewrite HE in Hr.
    destruct expose as [i lb np a]; cbn in HI; subst i. apply list_elem_of_fmap in Hr as (h & -> & _).
    cbn in Hp. apply list_elem_of_singleton in Hp as ->.
    eexists. split; [done|]. split; [|intros Ht; apply list_elem_of_fmap; exists server_port; split; [done|by apply Service_https]].
    unfold Service_. cbn. rewrite HE. by destruct lb, np.
Qed.

(** ** Concrete runs *)
Definition ex_lb : LoadBalancerConfig :=
  {| lb_ServerPort := Some 8443%Z; lb_EtcdPort := None; lb_LoadBalancerClass := None |}.
Definition ex_ic : IngressConfig := {| ic_Annotations := None; ic_IngressClassName := "nginx" |}.
Definition ex_expose : ExposeConfig := {|
  exp_Ingress := Some ex_ic; exp_LoadBalancer := Some ex_lb; exp_NodePort := None;
  exp_Annotations := None |}.
Definition ex_cluster : Cluster :=
  named_cluster "ns" "c" (spec_set_Expose (Some ex_expose) ["k3k.example.com"; "10.0.0.1"] zero_ClusterSpec).
Definition ex_service : Service :=
  let s := Service_ ex_cluster in
  {| svc_Meta := svc_Meta s;
     svc_Spec := {| ss_Ports := ss_Ports (svc_Spec s); ss_Selector := ss_Selector (svc_Spec s);
                    ss_ClusterIP := "10.43.0.7"; ss_Type := ss_Type (svc_Spec s);
                    ss_LoadBalancerClass := None; ss_ExternalTrafficPolicy := "" |};
     svc_Ingress := [{| lbi_IP := "192.0.2.1"; lbi_Hostname := "" |}] |}.

Example ex_url_external :
  service_url ex_cluster ex_service "203.0.113.9" =
  Ok {| Scheme := "https"; Host := "192.0.2.1:8443" |}.
Proof. vm_compute. reflexivity. Qed.

Example ex_url_internal :
  service_url ex_cluster ex_service "10.43.0.7" = Ok {| Scheme := "https"; Host := "10.43.0.7" |}.
Proof. vm_compute. reflexivity. Qed.

Lemma buildServerConfig_sans_witness :
  "192.0.2.1" ∈ sc_TLSSAN (buildServerConfig ex_cluster true ex_service "token" []).1.
Proof.
  pose proof (buildServerConfig_sans ex_cluster true ex_service "token" []) as H.
  destruct (buildServerConfig ex_cluster true ex_service "token" []) as [config cluster'].
  destruct H as (_ & _ & _ & H). apply H. do 5 right. left.
Defined.

Lemma URL_host_covered_witness :
  ∃ h p, buildURL "192.0.2.1" 8443 = buildURL h p ∧
    h ∈ st_TLSSANs (cl_Status (buildServerConfig ex_cluster true ex_service "token" []).2).
Proof.
  apply (URL_host_covered ex_cluster true ex_service "token" [] "203.0.113.9").
  vm_compute. reflexivity.
Defined.

Lemma URL_loadbalancer_port_witness :
  ∃ san rest, LoadBalancerSANs (Some ex_service) = san :: rest ∧
    {| Scheme := "https"; Host := "192.0.2.1:8443" |} = buildURL san 8443.
Proof.
  apply (URL_loadbalancer_port ex_cluster ex_expose ex_lb ex_service "203.0.113.9");
    first [discriminate | vm_compute; reflexivity].
Defined.

Lemma ingressRules_spec_witness :
  map ir_Host (ingressRules ex_cluster) = ["k3k.example.com"].
Proof.
  rewrite (proj1 (ingressRules_spec ex_cluster ex_expose ex_ic eq_refl eq_refl)).
  vm_compute. reflexivity.
Defined.
End Expose.
