(* ===== verification/Startup.v ===== *)
(** * The startup script of the servers (pkg/controller/cluster/server/template.go)

    The script is a [text/template]: text with [{{.KEY}}] actions, looked up in
    a map with the option [missingkey=error].  In the literal below a tilde
    stands for a double quote (the script has no tilde). *)

From S2P Require Import Prelude GoStd K8s Types.

Local Open Scope string_scope.
Local Open Scope nat_scope.

Module Startup.

(** ** text/template, restricted to [{{.KEY}}] actions *)
Inductive piece : Set :=
| Text (s : string)
| Action (key : string).
#[export] Instance piece_eq_dec : EqDecision piece.
Proof. solve_decision. Defined.

(** [template.Parse]: every action removes at least its delimiters, so the
    length of the text is enough fuel. *)
Fixpoint parse_fuel (fuel : nat) (s : string) : outcome (list piece) :=
  match fuel with
  | O => Ok [Text s]
  | S n =>
      match cut s "{{." with
      | None => Ok [Text s]
      | Some (before, rest) =>
          match cut rest "}}" with
          | None => Err (EText "unclosed action")
          | Some (key, after) =>
              ps ← parse_fuel n after;
              mret (Text before :: Action key :: ps)
          end
      end
  end.

Definition Parse (s : string) : outcome (list piece) := parse_fuel (S (String.length s)) s.

(** [Execute] with [missingkey=error] *)
Fixpoint Execute (ps : list piece) (data : gmap string string) : outcome string :=
  match ps with
  | [] => Ok ""
  | Text s :: ps' => t ← Execute ps' data; mret (s +:+ t)
  | Action k :: ps' =>
      match data !! k with
      | None => Err (EText ("map has no entry for key " +:+ k))
      | Some v => t ← Execute ps' data; mret (v +:+ t)
      end
  end.

Fixpoint quoted (s : string) : string :=
  match s with
  | "" => ""
  | String c s' => String (if Ascii.eqb c "~" then dquote else c) (quoted s')
  end.

Definition StartupCommand : string := quoted "
info()
{
    echo ~[INFO] [$(date +~%c~)]~ ~$@~
}

fatal()
{
    echo ~[FATAL] [$(date +~%c~)] ~ ~$@~ >&2
    exit 1
}

# safe mode function to reset node IP after pod restarts
safe_mode() {
	CURRENT_IP=~~
    if [ -f /var/lib/rancher/k3s/k3k-node-ip ]; then
        CURRENT_IP=$(cat /var/lib/rancher/k3s/k3k-node-ip)
    fi

    if [ -z ~$CURRENT_IP~ ] || [ ~$CURRENT_IP~ = ~$POD_IP~ ] || [ ~{{.K3K_MODE}}~ != ~virtual~ ]; then
        return
    fi

	# skipping if the node is starting for the first time
	if [ -d ~{{.ETCD_DIR}}~ ]; then

		info ~Starting K3s in Safe Mode (Network Policy Disabled) to patch Node IP from ${CURRENT_IP} to ${POD_IP}~
		/bin/k3s server --disable-network-policy --config $1 $EXTRA_ARGS > /dev/null 2>&1 &
		PID=$!

		# Start the loop to wait for the nodeIP to change
		info ~Waiting for Node IP to update to ${POD_IP}.~
		count=0
		until kubectl get nodes -o wide 2>/dev/null | grep -q ~${POD_IP}~; do
			if ! kill -0 $PID 2>/dev/null; then
				fatal ~safe Mode K3s process died unexpectedly!~
			fi
			sleep 2
			count=$((count+1))

			if [ $count -gt 60 ]; then
				fatal ~timed out waiting for node to change IP from $CURRENT_IP to $POD_IP~
			fi
		done

		info ~Node IP is set to ${POD_IP} successfully. Stopping Safe Mode process...~
		kill $PID
		wait $PID 2>/dev/null || true
	fi
}

start_single_node() {
	info ~Starting single node setup...~

	# checking for existing data in single server if found we must perform reset
	if [ -d ~{{.ETCD_DIR}}~ ]; then
		info ~Existing data found in single node setup. Performing cluster-reset to ensure quorum...~

		# clear any reset flags left behind by interrupted or failed reset
		# prevents crashloop on failed/interrupted cluster reset
		rm -f /var/lib/rancher/k3s/server/db/reset-flag

		# The reset output is left visible in the container logs so failures are diagnosable.
		if ! /bin/k3s server --cluster-reset --config {{.INIT_CONFIG}} $EXTRA_ARGS; then
			fatal ~cluster reset failed!~
		fi
		info ~Cluster reset complete. Removing Reset flag file.~
		rm -f /var/lib/rancher/k3s/server/db/reset-flag
	fi

	# entering safe mode to ensure correct NodeIP
	safe_mode {{.INIT_CONFIG}}

	info ~Adding pod IP file.~
	echo $POD_IP > /var/lib/rancher/k3s/k3k-node-ip

	/bin/k3s server --config {{.INIT_CONFIG}} $EXTRA_ARGS 2>&1 | tee /var/log/k3s.log
}

start_ha_node() {
	info ~Starting pod $POD_NAME in HA node setup~

	if [ ${POD_NAME: -1} == 0 ] && [ ! -d ~{{.ETCD_DIR}}~ ]; then
		info ~Adding pod IP file.~
		echo $POD_IP > /var/lib/rancher/k3s/k3k-node-ip

		/bin/k3s server --config {{.INIT_CONFIG}} $EXTRA_ARGS 2>&1 | tee /var/log/k3s.log
	else
		safe_mode {{.SERVER_CONFIG}}

		info ~Adding pod IP file.~
		echo $POD_IP > /var/lib/rancher/k3s/k3k-node-ip

		/bin/k3s server --config {{.SERVER_CONFIG}} $EXTRA_ARGS 2>&1 | tee /var/log/k3s.info
	fi
}

# Configuring cgroups for k3s process in virtual mode
configure_cgroups() {
	runtime_class=~{{.RUNTIME_CLASS}}~
	if [ ~${runtime_class#kata}~ != ~$runtime_class~ ]; then

		CGROUP_PATH=$(cat /proc/self/cgroup | cut -d: -f3)
		CGROUP_DIR=~/sys/fs/cgroup${CGROUP_PATH}~

		# Move shell to init subcgroup to keep main cgroup clean for k3s children
		INIT_DIR=~${CGROUP_DIR}init~
		mkdir -p ~$INIT_DIR~ 2>/dev/null

		PID=$(cut -d' ' -f4 /proc/self/stat)

		echo ~$PID~ > ~$INIT_DIR/cgroup.procs~

		for controller in $(cat ~$CGROUP_DIR/cgroup.controllers~); do
			echo ~+$controller~ > ~$CGROUP_DIR/cgroup.subtree_control~ 2>/dev/null || true
		done

		return
	fi

	# only configure the cgroups if the runtime used is the default and the mode is virtual
	# shared and hcp run agentless (no kubelet) and don't need cgroup overrides.
	if [ -n ~$runtime_class~ ] || [ ~{{.K3K_MODE}}~ != ~virtual~ ]; then
		return
	fi

	root_cgroup_raw=$(cat /proc/self/cgroup)
	root_cgroup_stripped=~${root_cgroup_raw#0::}~
	root_cgroup_parent=$(dirname ~$root_cgroup_stripped~)

	info ~Current CGROUPS for $POD_NAME: ${root_cgroup_raw}~

	# overriding kubelet cgroup and the cgroup root for pods, this will prevent k3s
	# automatic placement see: https://github.com/k3s-io/k3s/blob/main/pkg/cgroups/cgroups_linux.go#L114-L127
	EXTRA_ARGS=~$EXTRA_ARGS --kubelet-arg=kubelet-cgroups=$root_cgroup_parent/k3s --kubelet-arg=cgroup-root=$root_cgroup_parent~
}

configure_mount_propagation() {
	if [ ~{{.K3K_MODE}}~ != ~virtual~ ]; then
		return
	fi

	info ~Setting root mount propagation to rshared~
	if ! mount --make-rshared /; then
		info ~Failed to set root mount propagation to rshared, workloads using mountPropagation may fail to start~
	fi
}

EXTRA_ARGS=~{{.EXTRA_ARGS}}~
configure_cgroups
configure_mount_propagation

if [ ! -f /etc/machine-id ]; then
	MACHINE_ID=$(printf '%s' ~$POD_NAME~ | md5sum | cut -d' ' -f1)
	printf '%s' ~$MACHINE_ID~ > /etc/machine-id
fi

case ~{{.CLUSTER_MODE}}~ in
    ~ha~)
        start_ha_node
        ;;
    ~single~|*)
        start_single_node
        ;;
esac".

(** The pieces of the script, computed once. *)
Definition pieces : list piece :=
  Eval vm_compute in match Parse StartupCommand with Ok ps => ps | _ => [] end.

Lemma StartupCommand_parses : Parse StartupCommand = Ok pieces.
Proof. vm_compute. reflexivity. Qed.

(** ** What an execution contains *)
Definition contains (sub s : string) : Prop := ∃ a b, s = a +:+ sub +:+ b.

Definition ends_with (s x : string) : bool :=
  String.eqb (str_drop (String.length s - String.length x) s) x.

Lemma ends_with_spec s x : ends_with s x = true → ∃ a, s = a +:+ x.
Proof.
  unfold ends_with. intros H%String.eqb_eq.
  exists (str_take (String.length s - String.length x) s). 
  by rewrite <- (str_take_drop (String.length s - String.length x) s) at 1; rewrite H.
Qed.

Lemma Execute_app ps qs data :
  Execute (ps ++ qs) data = (s ← Execute ps data; t ← Execute qs data; Ok (s +:+ t)).
Proof.
  induction ps as [|[s|k] ps IH]; cbn.
  - by destruct (Execute qs data).
  - rewrite IH. destruct (Execute ps data); cbn; [|done..].
    destruct (Execute qs data); cbn; [|done..]. by rewrite str_app_assoc.
  - destruct (data !! k) as [v|]; [|done]. rewrite IH.
    destruct (Execute ps data); cbn; [|done..].
    destruct (Execute qs data); cbn; [|done..]. by rewrite str_app_assoc.
Qed.

(** An execution succeeds when every key is in the map. *)
Lemma Execute_total ps data :
  (∀ k, Action k ∈ ps → is_Some (data !! k)) → ∃ s, Execute ps data = Ok s.
Proof.
  induction ps as [|[s|k] ps IH]; cbn; intros Hk; [by eexists|..].
  - destruct IH as [t ->]; [set_solver|]. by eexists.
  - destruct (Hk k) as [v ->]; [set_solver|]. destruct IH as [t ->]; [set_solver|]. by eexists.
Qed.

(** The text around an action, with the value of the action. *)
Lemma Execute_contains ps data text i s k t v x y :
  Execute ps data = Ok text →
  ps !! i = Some (Text s) → ps !! (S i) = Some (Action k) → ps !! (S (S i)) = Some (Text t) →
  data !! k = Some v → ends_with s x = true → String.prefix y t = true →
  contains (x +:+ v +:+ y) text.
Proof.
  intros E H1 H2 H3 Hv [a ->]%ends_with_spec [b ->]%str_prefix_spec.
  apply take_drop_middle in H1. rewrite <- H1 in E. clear H1.
  assert (drop (S i) ps = Action k :: Text (y +:+ b) :: drop (S (S (S i))) ps) as Hd.
  { by rewrite (drop_S _ _ _ H2), (drop_S _ _ _ H3). }
  rewrite Hd, Execute_app in E. cbn in E. rewrite Hv in E.
  destruct (Execute (take i ps) data) as [p| |]; cbn in E; [|done..].
  destruct (Execute (drop (S (S (S i))) ps) data) as [q| |]; cbn in E; [|done..].
  injection E as <-. exists (p +:+ a), (b +:+ q). by rewrite !str_app_assoc.
Qed.

End Startup.
