(* ===== verification/Server.v ===== *)
(** * The servers of a virtual cluster (pkg/controller/cluster/server/server.go)

    The pod spec and the StatefulSet of the k3s servers, with the volumes of
    the addons, the custom CAs and the secret mounts.  The builder reads the
    secrets it mounts and copies the addon secrets of other namespaces, so it
    runs in the effect monad of a client. *)

From S2P Require Import Prelude GoStd Sha256 K8s Types Kube Names Mounts Startup Expose.

Local Open Scope string_scope.
Local Open Scope nat_scope.

Module Server.

Definition serverName : string := "server".
Definition k3sInitConfigDir : string := "/opt/rancher/k3s/init".
Definition k3sConfigDir : string := "/opt/rancher/k3s/server".
Definition k3sRunDir : string := "/run".
Definition k3sCNIDir : string := "/var/lib/cni".
Definition k3sKubeletDir : string := "/var/lib/kubelet".
Definition k3sDataDir : string := "/var/lib/rancher/k3s".
Definition k3sEtcdDataDir : string := "/var/lib/rancher/k3s/server/db/etcd".
Definition k3sManifestDir : string := "/var/lib/rancher/k3s/server/manifests".
Definition k3sTLSDir : string := "/var/lib/rancher/k3s/server/tls".
Definition k3sLogDir : string := "/var/log".
Definition k3sVarRunDir : string := "/var/run".
Definition exposeSANsHashAnnotation : string := "k3k.io/expose-sans-hash".

Record Server : Type := {
  srv_cluster : Cluster;
  srv_mode : string;
  srv_token : string;
  srv_image : string;
  srv_imagePullPolicy : string;
  srv_imagePullSecrets : list string;
}.

Definition New (cluster : Cluster) (token image imagePullPolicy : string)
    (imagePullSecrets : list string) : Server := {|
  srv_cluster := cluster; srv_mode := Mode (cl_Spec cluster); srv_token := token;
  srv_image := image; srv_imagePullPolicy := imagePullPolicy;
  srv_imagePullSecrets := imagePullSecrets |}.

(** [NodeSelector(cluster)] *)
Definition NodeSelector_ (cluster : Cluster) : gomap string := policy_selector cluster.

Definition defaultServerAffinity (cluster : Cluster) : option json :=
  if negb (bool_decide (Mode (cl_Spec cluster) = HCPClusterMode)) then None
  else match Servers (cl_Spec cluster) with
       | None => None
       | Some n =>
           if (n <=? 1)%Z then None
           else Some (JObj [("podAntiAffinity", JObj
             [("preferredDuringSchedulingIgnoredDuringExecution", JArr [JObj
               [("weight", JNum 100);
                ("podAffinityTerm", JObj
                  [("labelSelector", JObj
                     [("matchLabels", JObj [("cluster", JStr (Name (cl_Meta cluster)));
                                            ("role", JStr "server")])]);
                   ("topologyKey", JStr "kubernetes.io/hostname")])]])])])
       end.

(** ** podSpec *)
Definition config_items : list KeyToPath := [{| ktp_Key := "config.yaml"; ktp_Path := "config.yaml" |}].

Definition secret_volume (n secretName : string) (items : list KeyToPath) : Volume :=
  {| vol_Name := n;
     vol_Source := SecretSource {| svs_SecretName := secretName; svs_Items := items;
                                   svs_Optional := None |} |}.
Definition empty_dir (n : string) : Volume := {| vol_Name := n; vol_Source := EmptyDirSource |}.
Definition mount_at (n path : string) : VolumeMount :=
  {| vm_Name := n; vm_MountPath := path; vm_SubPath := ""; vm_ReadOnly := false |}.
Definition field_env (n path : string) : EnvVar :=
  {| env_Name := n; env_Value := ""; env_ValueFrom := Some (FieldRef "" path) |}.

Definition dq : string := String dquote "".

Definition readinessProbe : Probe := {|
  pr_Handler := TCPSocket (IntVal 6443); pr_InitialDelaySeconds := 60; pr_TimeoutSeconds := 10;
  pr_PeriodSeconds := 0; pr_FailureThreshold := 5 |}.
Definition livenessProbe : Probe := {|
  pr_Handler := ExecAction ["sh"; "-c";
    "grep -q " +:+ dq +:+ "rejoin the cluster" +:+ dq +:+ " /var/log/k3s.log && exit 1 || exit 0"];
  pr_InitialDelaySeconds := 10; pr_TimeoutSeconds := 0; pr_PeriodSeconds := 3;
  pr_FailureThreshold := 3 |}.

(** The volumes of the literal, and the data directory of a server without
    persistence. *)
Definition pod_volumes (cluster : Cluster) (persistent : bool) : list Volume :=
  ([secret_volume "init-config" (Expose.configSecretName (Name (cl_Meta cluster)) true) config_items;
    secret_volume "config" (Expose.configSecretName (Name (cl_Meta cluster)) false) config_items;
    empty_dir "run"; empty_dir "var-run"; empty_dir "var-lib-cni"; empty_dir "var-log";
    empty_dir "var-lib-kubelet"] ++
   (if persistent then [] else [empty_dir "varlibrancherk3s"]))%list.

Definition pod_mounts : list VolumeMount :=
  [mount_at "config" k3sConfigDir; mount_at "init-config" k3sInitConfigDir;
   mount_at "run" k3sRunDir; mount_at "var-run" k3sVarRunDir; mount_at "var-lib-cni" k3sCNIDir;
   mount_at "var-lib-kubelet" k3sKubeletDir; mount_at "varlibrancherk3s" k3sDataDir;
   mount_at "var-log" k3sLogDir].

(** [&v1.SecurityContext{Privileged: new(true)}] *)
Definition privileged : SecurityContext := {|
  sc_Privileged := Some true; sc_AllowPrivilegeEscalation := None; sc_Capabilities := None;
  sc_RunAsNonRoot := None; sc_RunAsUser := None; sc_RunAsGroup := None; sc_SeccompProfile := None;
  sc_rest := JObj [] |}.

(** Virtual mode needs a privileged container; a security context of the
    policy or of the spec replaces it. *)
Definition container_security (cluster : Cluster) (mode : string) : option SecurityContext :=
  match policy_or cluster ap_SecurityContext (SecurityContext_ (cl_Spec cluster)) with
  | Some sc => Some sc
  | None => if bool_decide (mode = VirtualClusterMode)
            then Some privileged else None
  end.

(** The limits of the container; [ServerResources] takes precedence. *)
Definition container_resources (resources : option ResourceRequirements) (limit : ResourceList)
  : ResourceRequirements :=
  match resources with
  | Some _ => no_resources
  | None => match limit with
            | Some _ => {| rr_Limits := limit; rr_Requests := None |}
            | None => no_resources
            end
  end.

(** Kata pods get /dev/kmsg and lose their EmptyDir volumes. *)
Definition kata_volumes (p : PodSpec) : outcome PodSpec :=
  match ps_RuntimeClassName p with
  | Some r => if strings_HasPrefix r "kata" then
                p' ← Mounts.AddKmsgMount p; mret (Mounts.FilterEmptyDirVolumes p')
              else mret p
  | None => mret p
  end.

Definition podSpec (s : Server) (image name : string) (persistent : bool) (startupCmd : string)
  : outcome PodSpec :=
  let cluster := srv_cluster s in
  let spec := cl_Spec cluster in
  let serverAffinity :=
    match policy_or cluster ap_ServerAffinity (ServerAffinity spec) with
    | Some a => Some a
    | None => defaultServerAffinity cluster
    end in
  kata_volumes {|
    ps_Affinity := serverAffinity;
    ps_NodeSelector := NodeSelector_ cluster;
    ps_PriorityClassName := PriorityClass spec;
    ps_HostNetwork := false; ps_DNSPolicy := ""; ps_ServiceAccountName := "";
    ps_Volumes := pod_volumes cluster persistent;
    ps_Containers := [{|
      ct_Name := name; ct_Image := image; ct_ImagePullPolicy := srv_imagePullPolicy s;
      ct_Command := ["/bin/sh"; "-c"; startupCmd]; ct_Args := [];
      ct_Env := ([field_env "POD_NAME" "metadata.name"; field_env "POD_IP" "status.podIP"]
                 ++ ServerEnvs spec)%list; ct_EnvFrom := [];
      ct_VolumeMounts := pod_mounts; ct_Ports := [];
      ct_ReadinessProbe := Some readinessProbe; ct_LivenessProbe := Some livenessProbe;
      ct_SecurityContext := container_security cluster (srv_mode s);
      ct_Resources := container_resources (ServerResources spec) (ServerLimit spec) |}];
    ps_SecurityContext := policy_or cluster ap_PodSecurityContext (PodSecurityContext spec);
    ps_RuntimeClassName := policy_or cluster ap_RuntimeClassName (RuntimeClassName spec);
    ps_HostUsers := policy_or cluster ap_HostUsers (HostUsers spec);
    ps_Resources := ServerResources spec;
    ps_ImagePullSecrets := srv_imagePullSecrets s;
    ps_NodeName := ""; ps_Extra := no_extra |}.

(** ** The other parts of the StatefulSet *)
Definition exposeSANsAnnotations (exposeSANs : list string) : gomap string :=
  match exposeSANs with
  | [] => None
  | _ => map_lit [(exposeSANsHashAnnotation,
                   hex_encode (sha256_Sum256 (strings_Join (slices_Sort exposeSANs) ",")))]
  end.

Definition setupDynamicPersistence (cluster : Cluster) : outcome PersistentVolumeClaim :=
  let p := Persistence (cl_Spec cluster) in
  size ← deref (pers_StorageRequestSize p);
  mret {| pvc_Meta := meta_of (Namespace (cl_Meta cluster)) "varlibrancherk3s";
          pvc_AccessModes := ["ReadWriteOnce"];
          pvc_StorageClassName := pers_StorageClassName p;
          pvc_Requests := map_lit [("storage", size)]; pvc_VolumeName := ""; pvc_VolumeMode := None;
          pvc_Status := {| pvcs_Phase := ""; pvcs_AccessModes := [] |} |}.

Definition start_data (cluster : Cluster) (servers : Z) : gmap string string :=
  list_to_map [
    ("ETCD_DIR", k3sEtcdDataDir);
    ("INIT_CONFIG", filepath_Join [k3sInitConfigDir; "config.yaml"]);
    ("SERVER_CONFIG", filepath_Join [k3sConfigDir; "config.yaml"]);
    ("CLUSTER_MODE", if (1 <? servers)%Z then "ha" else "single");
    ("K3K_MODE", Mode (cl_Spec cluster));
    ("EXTRA_ARGS", strings_Join (ServerArgs (cl_Spec cluster)) " ");
    ("RUNTIME_CLASS", default "" (RuntimeClassName (cl_Spec cluster)))].

Definition setupStartCommand (cluster : Cluster) : outcome string :=
  servers ← deref (Servers (cl_Spec cluster));
  tmplCmd ← Startup.Parse Startup.StartupCommand;
  Startup.Execute tmplCmd (start_data cluster servers).

Definition mountCACert (volumeName certName secretName subPathMount : string)
  : Volume * list VolumeMount :=
  let etcd := strings_HasPrefix certName "etcd-" in
  let etcdPrefix := if etcd then "/etcd" else "" in
  let mountFile := if etcd then strings_TrimPrefix certName "etcd-" else certName in
  (secret_volume volumeName secretName [],
   concat (map (λ crtOrKey,
     if bool_decide (certName = "service") && bool_decide (crtOrKey = "crt") then []
     else [{| vm_Name := volumeName;
              vm_MountPath := filepath_Join [k3sTLSDir; etcdPrefix; mountFile] +:+ "." +:+ crtOrKey;
              vm_SubPath := subPathMount +:+ "." +:+ crtOrKey; vm_ReadOnly := false |}])
     ["crt"; "key"])).

Definition caCertMap (customCerts : CredentialSources) : gmap string string :=
  list_to_map [
    ("server-ca", cs_SecretName (ServerCA customCerts));
    ("client-ca", cs_SecretName (ClientCA customCerts));
    ("request-header-ca", cs_SecretName (RequestHeaderCA customCerts));
    ("etcd-peer-ca", cs_SecretName (EtcdPeerCA customCerts));
    ("etcd-server-ca", cs_SecretName (EtcdServerCA customCerts));
    ("service", cs_SecretName (ServiceAccountToken customCerts))].

Definition sortedKeys (keyMap : gmap string string) : list string :=
  slices_Sort (map_to_list keyMap).*1.

Section Build.
Context {W : Type} (c : Client W) `{KubeUtil}.

Definition VolMounts : Type := list Volume * list VolumeMount.

Definition ca_step (cluster : Cluster) (certs : gmap string string) (acc : VolMounts)
    (certName : string) : M W VolMounts :=
  let secretName := default "" (certs !! certName) in
  certSecret ← Get c Secret {| nn_Namespace := Namespace (cl_Meta cluster); nn_Name := secretName |};
  let cert := map_str (sec_Data certSecret) "tls.crt" in
  let keyData := map_str (sec_Data certSecret) "tls.key" in
  if negb (bool_decide (certName = "service")) &&
     (bool_decide (String.length cert = 0) || bool_decide (String.length keyData = 0))
  then fail (EText ("cert or key is not found in secret " +:+ certName))
  else
    let '(vol, certMounts) := mountCACert (certName +:+ "-vol") certName secretName "tls" in
    mret (acc.1 ++ [vol], acc.2 ++ certMounts)%list.

Definition buildCABundleVolumes (cluster : Cluster) : M W VolMounts :=
  match CustomCAs_ (cl_Spec cluster) with
  | None => fail (EText "customCAs not found")
  | Some cas =>
      let certs := caCertMap (ca_Sources cas) in
      fold_m (ca_step cluster certs) (sortedKeys certs) ([], [])
  end.

Definition set_sec_Meta (m : ObjectMeta) (s : Secret) : Secret :=
  {| sec_Meta := m; sec_Type := sec_Type s; sec_Data := sec_Data s |}.

Definition addon_step (cluster : Cluster) (acc : VolMounts) (addon : Addon) : M W VolMounts :=
  let ns := Namespace (cl_Meta cluster) in
  let namespace := if decide (addon_SecretNamespace addon = "") then ns
                   else addon_SecretNamespace addon in
  addons ← Get c Secret {| nn_Namespace := namespace; nn_Name := addon_SecretRef addon |};
  (if decide (namespace = ns) then mret tt
   else
     let clusterAddons := {| sec_Meta := meta_of ns (Name (sec_Meta addons)); sec_Type := "";
                             sec_Data := sec_Data addons |} in
     CreateOrUpdate c clusterAddons (λ s,
       m ← SetOwnerReference (cluster_owner cluster) (sec_Meta s); mret (set_sec_Meta m s)) ;;
     mret tt) ;;
  let name := "addon-" +:+ addon_SecretRef addon in
  mret (acc.1 ++ [secret_volume name (addon_SecretRef addon) []],
        acc.2 ++ [{| vm_Name := name;
                     vm_MountPath := filepath_Join [k3sManifestDir; addon_SecretRef addon];
                     vm_SubPath := ""; vm_ReadOnly := true |}])%list.

Definition buildAddonsVolumes (cluster : Cluster) : M W VolMounts :=
  fold_m (addon_step cluster) (Addons (cl_Spec cluster)) ([], []).

(** The volumes of the three optional parts, in the order of the source. *)
Definition extra_volumes (cluster : Cluster) : M W VolMounts :=
  let spec := cl_Spec cluster in
  a ← (match Addons spec with [] => mret ([], []) | _ => buildAddonsVolumes cluster end);
  b ← (match CustomCAs_ spec with
       | Some cas => if ca_Enabled cas then buildCABundleVolumes cluster else mret ([], [])
       | None => mret ([], [])
       end);
  let d := Mounts.BuildSecretsMountsVolumes (SecretMounts spec) "server" in
  mret (a.1 ++ b.1 ++ d.1, a.2 ++ b.2 ++ d.2)%list.

(** The mounts are added to the first container. *)
Definition add_volumes (extra : VolMounts) (p : PodSpec) : outcome PodSpec :=
  match ps_Containers p with
  | [] => Panic
  | ct :: cts =>
      Ok (set_Volumes_Containers (ps_Volumes p ++ extra.1)%list
            (set_VolumeMounts (ct_VolumeMounts ct ++ extra.2)%list ct :: cts) p)
  end.

Definition is_persistent (cluster : Cluster) : bool :=
  bool_decide (pers_Type (Persistence (cl_Spec cluster)) = DynamicPersistenceMode).

(** The claim template of a persistent server, owned by the cluster. *)
Definition volume_claims (cluster : Cluster) : outcome (list PersistentVolumeClaim) :=
  if is_persistent cluster then
    pvClaim ← setupDynamicPersistence cluster;
    m ← SetControllerReference (cluster_owner cluster) (pvc_Meta pvClaim);
    mret [with_meta m pvClaim]
  else mret [].

Definition StatefulServer (s : Server) (exposeSANs : list string) : M W StatefulSet :=
  let cluster := srv_cluster s in
  let spec := cl_Spec cluster in
  let image := Names.K3SImage cluster (srv_image s) in
  let name := Names.SafeConcatNameWithPrefix [Name (cl_Meta cluster); serverName] in
  replicas ← lift (deref (Servers spec));
  let persistent := is_persistent cluster in
  claims ← lift (volume_claims cluster);
  extra ← extra_volumes cluster;
  let selector := Expose.server_labels (Name (cl_Meta cluster)) in
  startupCommand ← lift (setupStartCommand cluster);
  podSpec ← lift (podSpec s image name persistent startupCommand);
  podSpec ← lift (add_volumes extra podSpec);
  mret {|
    sts_Meta := set_Labels selector (meta_of (Namespace (cl_Meta cluster)) name);
    sts_Replicas := Some replicas;
    sts_ServiceName := Expose.HeadlessServiceName (Name (cl_Meta cluster));
    sts_Selector := Some {| ls_MatchLabels := selector; ls_MatchExpressions := [] |};
    sts_PodManagementPolicy := "";
    sts_Template := {| tpl_Labels := selector; tpl_Annotations := exposeSANsAnnotations exposeSANs;
                       tpl_Spec := podSpec |};
    sts_VolumeClaimTemplates := claims |}.

(** ** Every mount has a volume *)
Lemma kata_backed claims p p' :
  Mounts.backed_pod claims p → kata_volumes p = Ok p' → Mounts.backed_pod claims p'.
Proof.
  unfold kata_volumes. intros Hb. destruct (ps_RuntimeClassName p) as [r|]; [|by intros [= <-]].
  destruct (strings_HasPrefix r "kata"); [|by intros [= <-]].
  cbn. destruct (Mounts.AddKmsgMount p) as [p1|e|] eqn:E; [|done..]. intros [= <-].
  apply Mounts.FilterEmptyDirVolumes_backed. by eapply Mounts.AddKmsgMount_backed.
Qed.

Lemma podSpec_backed s image name persistent cmd p :
  podSpec s image name persistent cmd = Ok p →
  Mounts.backed_pod (if persistent then ["varlibrancherk3s"] else []) p.
Proof.
  unfold podSpec. apply kata_backed. intros ct ->%list_elem_of_singleton m Hm.
  cbn [ct_VolumeMounts ps_Volumes] in *.
  assert (Forall (λ m, vm_Name m ∈ (["init-config"; "config"; "run"; "var-run"; "var-lib-cni"; "var-log";
                                     "var-lib-kubelet"; "varlibrancherk3s"])) pod_mounts) as Hall
    by (apply (bool_decide_unpack _); vm_compute; exact I).
  rewrite Forall_forall in Hall. specialize (Hall m Hm).
  destruct persistent; [|left; exact Hall].
  apply (elem_of_app ["init-config"; "config"; "run"; "var-run"; "var-lib-cni"; "var-log";
                      "var-lib-kubelet"]) in Hall as [Hall|Hall]; [left; exact Hall|by right].
Qed.

Lemma mountCACert_own v n s p m : m ∈ (mountCACert v n s p).2 → vm_Name m = v.
Proof.
  unfold mountCACert. cbn [snd map concat]. generalize (filepath_Join) as join. intros join.
  rewrite !elem_of_app. repeat case_match;
    rewrite ?list_elem_of_singleton; intros Hm; destruct_or?; subst; try done;
    by apply not_elem_of_nil in Hm.
Qed.

Lemma fold_m_inv {A S} (I : S → Prop) (f : S → A → M W S) l :
  (∀ a x w b w', I a → f a x w = (Ok b, w') → I b) →
  ∀ a w b w', I a → fold_m f l a w = (Ok b, w') → I b.
Proof.
  intros Hf. induction l as [|x l IH]; intros a w b w' Ha; cbn [fold_m].
  - by intros [= <- <-].
  - intros E. inv_ok. eapply IH; [|eassumption]. eapply Hf; eassumption.
Qed.

Definition vm_backed (x : VolMounts) : Prop := Mounts.backed [] x.1 x.2.

Lemma ca_backed cluster w x w' :
  buildCABundleVolumes cluster w = (Ok x, w') → vm_backed x.
Proof.
  unfold buildCABundleVolumes. destruct (CustomCAs_ (cl_Spec cluster)) as [cas|]; [|done].
  apply fold_m_inv; [|by apply Mounts.backed_nil].
  intros a n w1 b w2 Ha E. unfold ca_step in E. inv_ok. destruct (_ && _); [done|].
  destruct (mountCACert _ _ _ _) as [vol ms] eqn:Em. inv_ok.
  apply Mounts.backed_app; [done|]. apply Mounts.backed_own. intros m Hm.
  pose proof (mountCACert_own (n +:+ "-vol") n (default "" (caCertMap (ca_Sources cas) !! n)) "tls" m) as Ho.
  rewrite Em in Ho. rewrite (Ho Hm). by injection Em as <- _.
Qed.

Lemma addons_backed cluster w x w' :
  buildAddonsVolumes cluster w = (Ok x, w') → vm_backed x.
Proof.
  apply fold_m_inv; [|by apply Mounts.backed_nil].
  intros a addon w1 b w2 Ha E. unfold addon_step in E. inv_ok.
  apply Mounts.backed_app; [done|]. apply Mounts.backed_own. by intros m ->%list_elem_of_singleton.
Qed.

Lemma extra_backed cluster w x w' : extra_volumes cluster w = (Ok x, w') → vm_backed x.
Proof.
  unfold extra_volumes. intros E. inv_ok.
  apply Mounts.backed_app; [|apply Mounts.backed_app; [|apply Mounts.secret_mounts_backed]].
  - destruct (Addons (cl_Spec cluster)); [inv_ok; by apply Mounts.backed_nil|].
    by eapply addons_backed.
  - destruct (CustomCAs_ (cl_Spec cluster)) as [cas|]; [destruct (ca_Enabled cas)|];
      [by eapply ca_backed|inv_ok; by apply Mounts.backed_nil..].
Qed.

Lemma add_volumes_backed claims extra p p' :
  vm_backed extra → Mounts.backed_pod claims p → add_volumes extra p = Ok p' →
  Mounts.backed_pod claims p'.
Proof.
  unfold add_volumes. intros He Hb. destruct (ps_Containers p) as [|ct cts] eqn:Ec; [done|].
  intros [= <-]. unfold Mounts.backed_pod in Hb. rewrite Ec in Hb.
  intros ct' [->|Hct]%elem_of_cons; cbn.
  - apply Mounts.backed_app; [apply Hb; set_solver|]. eapply Mounts.backed_claims; [|exact He]. set_solver.
  - eapply Mounts.backed_mono; [|apply Hb; set_solver]. set_solver.
Qed.

Lemma volume_claims_names `{!KubeUtilLaws} cluster cs :
  volume_claims cluster = Ok cs →
  Name ∘ pvc_Meta <$> cs = if is_persistent cluster then ["varlibrancherk3s"] else [].
Proof.
  unfold volume_claims. destruct (is_persistent cluster); [|by intros [= <-]].
  unfold setupDynamicPersistence. destruct (deref _) as [q|e|]; [|done..].
  cbn [mbind outcome_bind mret outcome_ret].
  destruct (SetControllerReference (cluster_owner cluster) _) as [m|e|] eqn:Em; [|done..].
  apply SetControllerReference_ok in Em as (rs & -> & _). by intros [= <-].
Qed.

(** C14: Whatever the cluster asks for (persistence, addons, custom CAs, secret
    mounts, a kata runtime), every mount of every container of the server
    StatefulSet names a volume of its pods or one of its volume claims. *)
Theorem StatefulServer_mounts_backed `{!KubeUtilLaws} s exposeSANs w ss w' :
  StatefulServer s exposeSANs w = (Ok ss, w') →
  Mounts.backed_pod ((Name ∘ pvc_Meta) <$> sts_VolumeClaimTemplates ss) (tpl_Spec (sts_Template ss)).
Proof.
  unfold StatefulServer, lift. intros E. inv_ok. cbn in *.
  repeat match goal with H : (_, _) = (Ok _, _) |- _ => injection H as H ?; subst end.
  eapply add_volumes_backed; [eapply extra_backed; eassumption| |eassumption].
  erewrite volume_claims_names by eassumption. eapply podSpec_backed; eassumption.
Qed.

(** ** The files of the custom CAs *)
Definition ca_files (certName : string) : list string :=
  vm_MountPath <$> (mountCACert "" certName "" "tls").2.

Lemma mountCACert_files v n s : vm_MountPath <$> (mountCACert v n s "tls").2 = ca_files n.
Proof.
  unfold ca_files, mountCACert. cbn [snd map concat]. generalize (filepath_Join) as join. intros join.
  by repeat case_match.
Qed.

Lemma ca_fold_files cluster certs l : ∀ acc w x w',
  fold_m (ca_step cluster certs) l acc w = (Ok x, w') →
  vm_MountPath <$> x.2 = ((vm_MountPath <$> acc.2) ++ concat (map ca_files l))%list.
Proof.
  induction l as [|n l IH]; intros acc w x w'; cbn [fold_m map concat].
  - intros [= <- <-]. by rewrite app_nil_r.
  - intros E. inv_ok. rewrite (IH _ _ _ _ E). unfold ca_step in H0. inv_ok.
    destruct (_ && _); [done|].
    pose proof (mountCACert_files (n +:+ "-vol") n (default "" (certs !! n))) as Hf.
    destruct (mountCACert _ _ _ _) as [vol ms]. inv_ok. cbn [snd] in *.
    by rewrite fmap_app, Hf, app_assoc.
Qed.

(** A CA bundle that is built mounts exactly the eleven files k3s reads its
    CAs from, each once: a certificate and a key for five CAs, and the key of
    the service accounts. *)
Theorem buildCABundleVolumes_files cluster w x w' :
  buildCABundleVolumes cluster w = (Ok x, w') →
  vm_MountPath <$> x.2 =
    map (λ f, "/var/lib/rancher/k3s/server/tls/" +:+ f)
      ["client-ca.crt"; "client-ca.key"; "etcd/peer-ca.crt"; "etcd/peer-ca.key";
       "etcd/server-ca.crt"; "etcd/server-ca.key"; "request-header-ca.crt";
       "request-header-ca.key"; "server-ca.crt"; "server-ca.key"; "service.key"].
Proof.
  unfold buildCABundleVolumes. destruct (CustomCAs_ (cl_Spec cluster)) as [cas|]; [|done].
  intros E%ca_fold_files. rewrite E. vm_compute. reflexivity.
Qed.
End Build.

(** ** The startup script *)

Lemma setupStartCommand_text cluster n :
  Servers (cl_Spec cluster) = Some n →
  ∃ text, setupStartCommand cluster = Ok text ∧
          Startup.Execute Startup.pieces (start_data cluster n) = Ok text.
Proof.
  intros Hn. unfold setupStartCommand. rewrite Hn, Startup.StartupCommand_parses.
  cbn [deref mbind outcome_bind].
  destruct (Startup.Execute_total Startup.pieces (start_data cluster n)) as [text E].
  { intros k Hk.
    assert (Forall (λ p, match p with
              | Startup.Text _ => True
              | Startup.Action k => k ∈ ["ETCD_DIR"; "INIT_CONFIG"; "SERVER_CONFIG"; "CLUSTER_MODE";
                                         "K3K_MODE"; "EXTRA_ARGS"; "RUNTIME_CLASS"]
              end) Startup.pieces) as Hall.
    { repeat constructor; apply (bool_decide_unpack _); vm_compute; exact I. }
    rewrite Forall_forall in Hall. specialize (Hall _ Hk). cbn in Hall.
    repeat (apply elem_of_cons in Hall as [->|Hall]; [eexists; vm_compute; reflexivity|]).
    by apply not_elem_of_nil in Hall. }
  by exists text.
Qed.

(** Once the number of servers is set, the script is rendered (its template
    parses and uses no unknown key): it runs the mode that the number of
    servers and the mode of the cluster call for, with the arguments of the
    spec. *)
Theorem setupStartCommand_renders cluster n :
  Servers (cl_Spec cluster) = Some n →
  ∃ text, setupStartCommand cluster = Ok text ∧
    Startup.contains ("case " +:+ dq +:+ (if (1 <? n)%Z then "ha" else "single") +:+ dq +:+ " in") text ∧
    Startup.contains ("EXTRA_ARGS=" +:+ dq +:+ strings_Join (ServerArgs (cl_Spec cluster)) " " +:+ dq) text ∧
    Startup.contains ("[ " +:+ dq +:+ Mode (cl_Spec cluster) +:+ dq +:+ " != " +:+ dq +:+ "virtual" +:+ dq +:+ " ]") text.
Proof.
  intros Hn. destruct (setupStartCommand_text cluster n Hn) as (text & Ht & E).
  exists text. split; [exact Ht|]. split_and!.
  - eapply (Startup.Execute_contains _ _ _ 28 _ _ _ _ ("case " +:+ dq) (dq +:+ " in"));
      [exact E|vm_compute; reflexivity..].
  - eapply (Startup.Execute_contains _ _ _ 26 _ _ _ _ ("EXTRA_ARGS=" +:+ dq) dq);
      [exact E|vm_compute; reflexivity..].
  - eapply (Startup.Execute_contains _ _ _ 24 _ _ _ _ ("[ " +:+ dq) (dq +:+ " != " +:+ dq +:+ "virtual" +:+ dq +:+ " ]"));
      [exact E|vm_compute; reflexivity..].
Qed.

(** The script is rendered from the spec alone: the runtime class that a policy
    imposes on the pod is not the one the script configures its cgroups
    for. *)
Theorem startup_ignores_policy_runtime s image name persistent cmd p policy r n :
  let cluster := srv_cluster s in
  st_Policy (cl_Status cluster) = Some policy → ap_RuntimeClassName policy = Some r →
  RuntimeClassName (cl_Spec cluster) = None → Servers (cl_Spec cluster) = Some n →
  podSpec s image name persistent cmd = Ok p →
  ps_RuntimeClassName p = Some r ∧
  ∃ text, setupStartCommand cluster = Ok text ∧
          Startup.contains ("runtime_class=" +:+ dq +:+ dq) text.
Proof.
  intros cluster Hp Hr Hs Hn E. split.
  - unfold podSpec, kata_volumes in E. cbn [ps_RuntimeClassName] in E. unfold policy_or in E.
    fold cluster in E. rewrite Hp, Hr in E.
    destruct (strings_HasPrefix r "kata"); [|by injection E as <-].
    cbn in E. by injection E as <-.
  - destruct (setupStartCommand_text cluster n Hn) as (text & Ht & Ex). exists text.
    split; [exact Ht|].
    eapply (Startup.Execute_contains _ _ _ 20 _ _ _ "" ("runtime_class=" +:+ dq) dq);
      [exact Ex|vm_compute; reflexivity|vm_compute; reflexivity|vm_compute; reflexivity| |
       vm_compute; reflexivity|vm_compute; reflexivity].
    unfold start_data. rewrite Hs. vm_compute. reflexivity.
Qed.

(** A change in the order of the addresses does not restart the servers; an
    address that appears, disappears or changes does, unless SHA-256
    collides. *)
Theorem exposeSANsAnnotations_stable l l' :
  l ≡ₚ l' → exposeSANsAnnotations l = exposeSANsAnnotations l'.
Proof.
  intros Hp. destruct l as [|x l], l' as [|y l'].
  - done.
  - by apply Permutation_nil_cons in Hp.
  - by apply symmetry, Permutation_nil_cons in Hp.
  - unfold exposeSANsAnnotations. by rewrite (slices_Sort_perm _ _ Hp).
Qed.

(** ** A concrete server

    Persistent, kata, with an addon of another namespace, custom CAs and a
    secret mount. *)
Definition ex_source : CredentialSource := {| cs_SecretName := "ca" |}.
Definition ex_spec : ClusterSpec := {|
  Version := "v1.33.1-k3s1"; Mode := VirtualClusterMode; Servers := Some 3%Z; Agents := Some 0%Z;
  ClusterCIDR := ""; ServiceCIDR := ""; ClusterDNS := "";
  Persistence := {| pers_Type := DynamicPersistenceMode; pers_StorageClassName := None;
                    pers_StorageRequestSize := Some {| q_nano := 2 * 10 ^ 18; q_Format := "BinarySI" |} |};
  Expose := None; NodeSelector := None; PriorityClass := ""; TokenSecretRef := None; TLSSANs := [];
  ServerArgs := ["--debug"; "--disable=coredns"]; AgentArgs := []; ServerEnvs := []; AgentEnvs := [];
  Addons := [{| addon_SecretNamespace := "other"; addon_SecretRef := "charts" |}];
  ServerLimit := None; WorkerLimit := None; ServerResources := None; WorkerResources := None;
  ServerAffinity := None; AgentAffinity := None; MirrorHostNodes := false;
  CustomCAs_ := Some {| ca_Enabled := true;
    ca_Sources := {| ServerCA := ex_source; ClientCA := ex_source; RequestHeaderCA := ex_source;
                     EtcdServerCA := ex_source; EtcdPeerCA := ex_source;
                     ServiceAccountToken := ex_source |} |};
  Sync := None;
  SecretMounts := [{| smt_SecretVolumeSource := {| svs_SecretName := "db"; svs_Items := []; svs_Optional := None |};
                      smt_Name := ""; smt_MountPath := "/db"; smt_SubPath := ""; smt_Role := "all" |}];
  PodSecurityContext := None; SecurityContext_ := None; RuntimeClassName := Some "kata-qemu";
  HostUsers := None; AllowedHostSchedulers := [] |}.
Definition ex_cluster : Cluster := named_cluster "ns" "c" ex_spec.
Definition ex_server : Server := New ex_cluster "token" "rancher/k3s" "" [].
Definition ex_secret (ns n : string) : Obj :=
  OSecret {| sec_Meta := meta_of ns n; sec_Type := "Opaque"; sec_Data := map_lit [("tls.crt", "crt"); ("tls.key", "key")] |}.
Definition ex_world : mem :=
  {| mem_store := {[ obj_key (ex_secret "ns" "ca") := ex_secret "ns" "ca";
                     obj_key (ex_secret "other" "charts") := ex_secret "other" "charts" ]};
     mem_up := true |}.
Definition ex_run : outcome StatefulSet * mem := StatefulServer mem_client ex_server [] ex_world.

Example ex_run_ok :
  match ex_run with
  | (Ok ss, w) =>
      length (ps_Volumes (tpl_Spec (sts_Template ss))) = 11 ∧
      is_Some (mem_objects w !! obj_key (ex_secret "ns" "charts"))
  | _ => False
  end.
Proof. vm_compute. split; [reflexivity|by eexists]. Qed.

Lemma StatefulServer_mounts_backed_witness :
  ∃ ss w', StatefulServer mem_client ex_server [] ex_world = (Ok ss, w') ∧
    Mounts.backed_pod ((Name ∘ pvc_Meta) <$> sts_VolumeClaimTemplates ss) (tpl_Spec (sts_Template ss)).
Proof.
  destruct ex_run as [r w'] eqn:E. pose proof ex_run_ok as H. rewrite E in H.
  destruct r as [ss|e|]; [|destruct H|destruct H]. exists ss, w'. split; [exact E|].
  exact (StatefulServer_mounts_backed mem_client ex_server [] ex_world ss w' E).
Defined.

Lemma buildCABundleVolumes_files_witness :
  ∃ x w', buildCABundleVolumes mem_client ex_cluster ex_world = (Ok x, w') ∧ length x.2 = 11.
Proof.
  destruct (buildCABundleVolumes mem_client ex_cluster ex_world) as [[x|e|] w'] eqn:E;
    [|vm_compute in E; discriminate..].
  exists x, w'. split; [reflexivity|].
  pose proof (buildCABundleVolumes_files mem_client ex_cluster ex_world x w' E) as H.
  by rewrite <- (length_fmap vm_MountPath), H.
Defined.

Lemma setupStartCommand_renders_witness :
  ∃ text, setupStartCommand ex_cluster = Ok text ∧
    Startup.contains ("EXTRA_ARGS=" +:+ dq +:+ "--debug --disable=coredns" +:+ dq) text.
Proof.
  destruct (setupStartCommand_renders ex_cluster 3 eq_refl) as (text & E & _ & H & _).
  exists text. split; [exact E|exact H].
Defined.

Lemma exposeSANsAnnotations_stable_witness :
  exposeSANsAnnotations ["a"; "b"] = exposeSANsAnnotations ["b"; "a"].
Proof. apply exposeSANsAnnotations_stable. constructor. Defined.
End Server.
