(* ===== verification/Access.v ===== *)
(** * Tokens, bootstrap data, kubeconfigs and the client of a virtual cluster

    pkg/controller/cluster/token.go, server/bootstrap/bootstrap.go,
    pkg/controller/certs, pkg/controller/kubeconfig, and client.go, filter.go,
    pod.go, service.go of pkg/controller/cluster.  The X.509 library, the
    serialisation of a kubeconfig, the random source and the construction of a
    client from a kubeconfig are parameters. *)

From S2P Require Import Prelude GoStd GoNet K8s Types Kube Effects Names Translate K3s Expose.

Local Open Scope string_scope.

(** ** token.go *)
Module Token.

Definition TokenSecretName (clusterName : string) : string :=
  Names.SafeConcatNameWithPrefix [clusterName; "token"].

Definition TokenSecretObj (token name namespace : string) : Secret := {|
  sec_Meta := meta_of namespace (TokenSecretName name); sec_Type := "";
  sec_Data := map_lit [("token", token)] |}.

Definition token_key (cluster : Cluster) : NamespacedName :=
  {| nn_Namespace := Namespace (cl_Meta cluster); nn_Name := TokenSecretName (Name (cl_Meta cluster)) |}.

Section Token.
Context {W : Type} (c : Client W) `{KubeUtil}.

(** [crypto/rand.Read] of a slice of the given size. *)
Context (rand_Read : nat → M W string).

Definition random (size : nat) : M W string :=
  token ← rand_Read size;
  mret (hex_encode token).

Definition set_sec_Meta (m : ObjectMeta) (s : Secret) : Secret :=
  {| sec_Meta := m; sec_Type := sec_Type s; sec_Data := sec_Data s |}.

Definition ensureTokenSecret (cluster : Cluster) : M W string :=
  r ← attempt (Get c Secret (token_key cluster));
  tokenSecret ← (match r with
                 | inl s => mret s
                 | inr err => if negb (IsNotFound err) then fail err
                              else mret {| sec_Meta := meta_of "" ""; sec_Type := ""; sec_Data := None |}
                 end);
  if decide (sec_Data tokenSecret ≠ None) then mret (map_str (sec_Data tokenSecret) "token")
  else
    token ← random 16;
    let tokenSecret := TokenSecretObj token (Name (cl_Meta cluster)) (Namespace (cl_Meta cluster)) in
    CreateOrUpdate c tokenSecret (λ s,
      m ← SetControllerReference (cluster_owner cluster) (sec_Meta s);
      mret (set_sec_Meta m s)) ;;
    mret token.

Definition token (cluster : Cluster) : M W string :=
  match TokenSecretRef (cl_Spec cluster) with
  | None => ensureTokenSecret cluster
  | Some nn =>
      tokenSecret ← Get c Secret nn;
      match map_get (sec_Data tokenSecret) "token" with
      | None => fail (EText ("no token field in secret " +:+ nn_Namespace nn +:+ "/" +:+ nn_Name nn))
      | Some t => mret t
      end
  end.

Definition GetClusterToken (cluster : Cluster) : M W string :=
  let tokenSecretName :=
    match TokenSecretRef (cl_Spec cluster) with
    | Some nn => if decide (nn_Name nn ≠ "") then nn_Name nn
                 else TokenSecretName (Name (cl_Meta cluster))
    | None => TokenSecretName (Name (cl_Meta cluster))
    end in
  tokenSecret ← Get c Secret {| nn_Namespace := Namespace (cl_Meta cluster); nn_Name := tokenSecretName |};
  if decide (sec_Data tokenSecret ≠ None) then mret (map_str (sec_Data tokenSecret) "token")
  else fail (EText "token secret is empty").
End Token.
End Token.

(** ** bootstrap.go *)
Module Bootstrap.

Definition bootstrap_key (cluster : Cluster) : NamespacedName :=
  {| nn_Namespace := Namespace (cl_Meta cluster);
     nn_Name := Names.SafeConcatNameWithPrefix [Name (cl_Meta cluster); "bootstrap"] |}.

Section Bootstrap.
Context {W : Type} (c : Client W) `{KubeUtil} `{K3s.Transport W} `{K3s.Codec} `{K3s.ExecLib W}.

Definition Fetch (k3sClient : K3s.Client) (cluster : Cluster) : M W K3s.BootstrapData :=
  config ← K3s.GetServerConfig k3sClient;
  config ← lift (deref config);
  if K3s.ClusterInit config then K3s.GetServerBootstrap k3sClient
  else K3s.ReadBootstrapFromK3sPod (Name (cl_Meta cluster)) (Namespace (cl_Meta cluster)).

Definition SaveToSecret (cluster : Cluster) (data : K3s.BootstrapData) : M W unit :=
  bootstrapData ← lift (K3s.Marshal_Bootstrap data);
  let secret := {| sec_Meta := meta_of (nn_Namespace (bootstrap_key cluster))
                                       (nn_Name (bootstrap_key cluster)); sec_Type := "";
                   sec_Data := None |} in
  CreateOrUpdate c secret (λ s,
    m ← SetControllerReference (cluster_owner cluster) (sec_Meta s);
    mret {| sec_Meta := m; sec_Type := sec_Type s; sec_Data := map_lit [("bootstrap", bootstrapData)] |}) ;;
  mret tt.

Definition LoadFromSecret (cluster : Cluster) : M W K3s.BootstrapData :=
  bootstrapSecret ← Get c Secret (bootstrap_key cluster);
  match map_get (sec_Data bootstrapSecret) "bootstrap" with
  | None => fail (EText "empty bootstrap")
  | Some bootstrapData =>
      bootstrap ← lift (K3s.Unmarshal_Bootstrap bootstrapData);
      mret (default {| K3s.ServerCA := K3s.content ""; K3s.ServerCAKey := K3s.content "";
                       K3s.ClientCA := K3s.content ""; K3s.ClientCAKey := K3s.content "";
                       K3s.ETCDServerCA := K3s.content ""; K3s.ETCDServerCAKey := K3s.content "" |}
              bootstrap)
  end.
End Bootstrap.
End Bootstrap.

(** ** certs.go and kubeconfig.go *)
Module Kubeconfig.

(** [dynamiclistener/cert] and [crypto/x509]. *)
Class CertUtil (W Cert Key : Type) := {
  ParsePrivateKeyPEM : string → outcome Key;
  ParseCertsPEM : string → outcome (list Cert);
  MakeEllipticPrivateKeyPEM : M W string;
  NewSignedCert : string → list string → list string → list string → list IP → Z → Key → Cert → Key →
                  M W Cert;
  EncodeCertPEM : Cert → string;
}.

Record AltNames : Type := { DNSNames : list string; IPs : list IP }.

Definition AddSANs (sans : list string) : AltNames :=
  fold_left (λ altNames san,
    match ParseIP san with
    | None => {| DNSNames := DNSNames altNames ++ [san]; IPs := IPs altNames |}
    | Some ip => {| DNSNames := DNSNames altNames; IPs := IPs altNames ++ [ip] |}
    end) sans {| DNSNames := []; IPs := [] |}.

Definition DefaultName : string := "default".
Definition AdminCommonName : string := "system:admin".
Definition SystemPrivilegedGroup : string := "system:masters".
Definition ExtKeyUsageClientAuth : string := "ClientAuth".

Record KubeConfig : Type := {
  kc_AltNames : AltNames;
  kc_CN : string;
  kc_ORG : list string;
  kc_ExpiryDate : Z;
}.

Definition New : KubeConfig := {|
  kc_AltNames := {| DNSNames := []; IPs := [] |}; kc_CN := AdminCommonName;
  kc_ORG := [SystemPrivilegedGroup]; kc_ExpiryDate := 0 |}.

(** [clientcmdapi.Config]: the entries, each with the fields that are set or read
    here and the JSON document of the others ([JNull] when they are not set). *)
Record ApiCluster : Type := { CertificateAuthorityData : string; Server_ : string; ac_rest : json }.
Record ApiAuthInfo : Type := { ClientCertificateData : string; ClientKeyData : string; aa_rest : json }.
Record ApiContext : Type := { ctx_AuthInfo : string; ctx_Cluster : string; ctx_rest : json }.
Record ApiConfig : Type := {
  Clusters : gmap string ApiCluster;
  AuthInfos : gmap string ApiAuthInfo;
  Contexts : gmap string ApiContext;
  CurrentContext : string;
  cfg_rest : json;
}.

Definition NewConfig (url serverCA clientCert clientKey : string) : ApiConfig := {|
  Clusters := <[DefaultName := {| CertificateAuthorityData := serverCA; Server_ := url; ac_rest := JNull |}]> ∅;
  AuthInfos := <[DefaultName := {| ClientCertificateData := clientCert; ClientKeyData := clientKey;
                                   aa_rest := JNull |}]> ∅;
  Contexts := <[DefaultName := {| ctx_AuthInfo := DefaultName; ctx_Cluster := DefaultName;
                                  ctx_rest := JNull |}]> ∅;
  CurrentContext := DefaultName; cfg_rest := JNull |}.

(** [URL.String] of net/url of a URL made of a scheme and a host. *)
Definition url_String (u : Expose.url) : string := Expose.Scheme u +:+ "://" +:+ Expose.Host u.

Section Kubeconfig.
Context {W : Type} (c : Client W) `{KubeUtil} `{K3s.Codec}.
Context {Cert Key : Type} `{CertUtil W Cert Key}.

Definition generateKey : M W string :=
  r ← attempt MakeEllipticPrivateKeyPEM;
  match r with
  | inl d => mret d
  | inr err => fail (EText ("error generating key: " +:+ error_text err))
  end.

(** [caCertPEM[0]]: an empty list of certificates panics. *)
Definition CreateClientCertKey (commonName : string) (organization : list string)
    (altNames : option AltNames) (extKeyUsage : list string) (expiresAt : Z) (caCert caKey : string)
  : M W (string * string) :=
  caKeyPEM ← lift (ParsePrivateKeyPEM caKey);
  caCertPEM ← lift (ParseCertsPEM caCert);
  b ← generateKey;
  key ← lift (ParsePrivateKeyPEM b);
  let names := default {| DNSNames := []; IPs := [] |} altNames in
  ca ← lift (deref (head caCertPEM));
  cert ← NewSignedCert commonName organization extKeyUsage (DNSNames names) (IPs names) expiresAt
           key ca caKeyPEM;
  mret (EncodeCertPEM cert +:+ EncodeCertPEM ca, b).

Definition Generate (k : KubeConfig) (cluster : Cluster) (hostServerIP : string) : M W ApiConfig :=
  bootstrapData ← Bootstrap.LoadFromSecret c cluster;
  let serverCACert := K3s.Content (K3s.ServerCA bootstrapData) in
  '(adminCert, adminKey) ← CreateClientCertKey (kc_CN k) (kc_ORG k) (Some (kc_AltNames k))
     [ExtKeyUsageClientAuth] (kc_ExpiryDate k) (K3s.Content (K3s.ClientCA bootstrapData))
     (K3s.Content (K3s.ClientCAKey bootstrapData));
  serverURL ← Expose.URL c cluster hostServerIP;
  mret (NewConfig (url_String serverURL) serverCACert adminCert adminKey).
End Kubeconfig.
End Kubeconfig.

(** ** client.go, filter.go, pod.go and service.go *)
Module Virtual.

Definition kubeconfig_key (clusterName clusterNamespace : string) : NamespacedName :=
  {| nn_Namespace := clusterNamespace;
     nn_Name := Names.SafeConcatNameWithPrefix [clusterName; "kubeconfig"] |}.

Section Virtual.
Context {W : Type} (c : Client W) `{KubeUtil}.

(** [clientcmd.RESTConfigFromKubeConfig] and [client.New]: the errors of the
    first are wrapped. *)
Context {RestConfig : Type} (RESTConfigFromKubeConfig : string → outcome RestConfig).
Context (ctrlruntimeclient_New : RestConfig → outcome (Client W)).

Definition newVirtualClient (clusterName clusterNamespace : string) : M W (Client W) :=
  clusterKubeConfig ← Get c Secret (kubeconfig_key clusterName clusterNamespace);
  restConfig ← lift (match RESTConfigFromKubeConfig (map_str (sec_Data clusterKubeConfig) "kubeconfig.yaml") with
                     | Err err => Err (EFmt [EText "failed to create config from kubeconfig file: "; err])
                     | o => o
                     end);
  lift (ctrlruntimeclient_New restConfig).

(** The filters of the events. *)
Definition is_cluster_owner (owner : OwnerReference) : bool :=
  bool_decide (or_Kind owner = "Cluster") && bool_decide (or_APIVersion owner = SchemeGroupVersion).

Definition newClusterPredicate (object : ObjectMeta) : bool :=
  match GetControllerOf object with
  | Some owner => is_cluster_owner owner
  | None => false
  end.

Definition newServerPredicate (object : ObjectMeta) : bool :=
  bool_decide (map_str (Labels object) "role" = "server").

Definition clusterNamespacedName (object : ObjectMeta) : NamespacedName :=
  let by_label := map_str (Labels object) Translate.ClusterNameLabel in
  let clusterName := match GetControllerOf object with
                     | Some owner => if is_cluster_owner owner then or_Name owner else by_label
                     | None => by_label
                     end in
  {| nn_Namespace := Namespace object; nn_Name := clusterName |}.

(** [PodReconciler.Reconcile] *)
Definition Pod_Reconcile (req : NamespacedName) : M W unit :=
  r ← attempt (Get c Pod req);
  match r with
  | inr err => if IsNotFound err then mret tt else fail err
  | inl pod =>
      let cluster := clusterNamespacedName (pod_Meta pod) in
      virtualClient ← newVirtualClient (nn_Name cluster) (nn_Namespace cluster);
      if is_deleting (pod_Meta pod) then
        let virtName := map_str (Annotations (pod_Meta pod)) Translate.ResourceNameAnnotation in
        let virtNamespace := map_str (Annotations (pod_Meta pod)) Translate.ResourceNamespaceAnnotation in
        ignore_not_found (client_Delete virtualClient "Pod"
          {| nn_Namespace := virtNamespace; nn_Name := virtName |})
      else mret tt
  end.

Definition with_ingress (i : list LoadBalancerIngress) (s : Service) : Service :=
  {| svc_Meta := svc_Meta s; svc_Spec := svc_Spec s; svc_Ingress := i |}.

(** [fmt.Errorf("...: %v", err)]: the text only, the error is not wrapped. *)
Definition flat {A} (prefix : string) (m : M W A) : M W A :=
  r ← attempt m;
  match r with inl a => mret a | inr err => fail (EText (prefix +:+ error_text err)) end.

(** [ServiceReconciler.Reconcile] *)
Definition Service_Reconcile (req : NamespacedName) : M W unit :=
  r ← attempt (Get c Service req);
  match r with
  | inr err => if IsNotFound err then mret tt else fail err
  | inl hostService =>
      match map_get (Annotations (svc_Meta hostService)) Translate.ResourceNameAnnotation,
            map_get (Annotations (svc_Meta hostService)) Translate.ResourceNamespaceAnnotation with
      | Some virtualServiceName, Some virtualServiceNamespace =>
          let cluster := clusterNamespacedName (svc_Meta hostService) in
          virtualClient ← flat "failed to get cluster info: "
            (newVirtualClient (nn_Name cluster) (nn_Namespace cluster));
          if is_deleting (svc_Meta hostService) then mret tt
          else
            virtualService ← flat "failed to get virtual service: "
              (Get virtualClient Service
                 {| nn_Namespace := virtualServiceNamespace; nn_Name := virtualServiceName |});
            if negb (Semantic_DeepEqual (svc_Ingress virtualService) (svc_Ingress hostService)) then
              StatusUpdate virtualClient (with_ingress (svc_Ingress hostService) virtualService) ;;
              mret tt
            else mret tt
      | _, _ => mret tt
      end
  end.
End Virtual.
End Virtual.
