(* ===== verification/UserConfig.v ===== *)
(** * The kubeconfig of the user (cli/kubeconfig)

    k3kcli keeps the virtual clusters as contexts of the kubeconfig of the user,
    a file with the credentials of every other cluster they talk to: the
    operations of this package may touch the entries they are asked about and
    nothing else.  The reading and the writing of a file (clientcmd) are
    parameters. *)

From S2P Require Import Prelude GoStd K8s Access.

Local Open Scope string_scope.

Module UserConfig.
Import Kubeconfig.

(** [clientcmd.LoadFromFile] and [WriteToFile], [filepath.Abs], [os.IsNotExist]
    and [PathOptions.GetDefaultFilename] for an explicit path. *)
Class ConfigFiles (W : Type) := {
  LoadFromFile : string → M W ApiConfig;
  WriteToFile : ApiConfig → string → M W unit;
  filepath_Abs : string → M W string;
  os_IsNotExist : error → bool;
  GetDefaultFilename : string → string;
}.

Record File : Type := { path : string }.

(** [clientcmdapi.NewConfig()] *)
Definition empty_config : ApiConfig := {|
  Clusters := ∅; AuthInfos := ∅; Contexts := ∅; CurrentContext := ""; cfg_rest := JNull |}.

Definition ContextName (namespace name : string) : string := namespace +:+ "/" +:+ name.

(** ** kubeconfig.go *)
Definition no_entry (name kind : string) : error :=
  EText ("the kubeconfig has no '" +:+ name +:+ "' " +:+ kind).

Definition currentEntries (config : ApiConfig) : outcome (ApiCluster * ApiAuthInfo) :=
  match Contexts config !! CurrentContext config with
  | None => Err (no_entry (CurrentContext config) "context")
  | Some context =>
      match Clusters config !! ctx_Cluster context with
      | None => Err (no_entry (ctx_Cluster context) "cluster")
      | Some cluster =>
          match AuthInfos config !! ctx_AuthInfo context with
          | None => Err (no_entry (ctx_AuthInfo context) "user")
          | Some authInfo => Ok (cluster, authInfo)
          end
      end
  end.

Definition ServerURL (config : ApiConfig) : string :=
  match currentEntries config with Ok (cluster, _) => Server_ cluster | _ => "" end.

(** ** file.go *)

(** The assignments of [Add] to the configuration it has loaded. *)
Definition with_entries (name : string) (cluster : ApiCluster) (authInfo : ApiAuthInfo) (config : ApiConfig)
  : ApiConfig := {|
  Clusters := <[name := cluster]> (Clusters config);
  AuthInfos := <[name := authInfo]> (AuthInfos config);
  Contexts := <[name := {| ctx_AuthInfo := name; ctx_Cluster := name; ctx_rest := JNull |}]> (Contexts config);
  CurrentContext := CurrentContext config; cfg_rest := cfg_rest config |}.

Definition has_entry (config : ApiConfig) (name : string) : bool :=
  bool_decide (is_Some (Clusters config !! name)) || bool_decide (is_Some (AuthInfos config !! name))
  || bool_decide (is_Some (Contexts config !! name)).

Definition without_entries (name : string) (config : ApiConfig) : ApiConfig := {|
  Clusters := delete name (Clusters config);
  AuthInfos := delete name (AuthInfos config);
  Contexts := delete name (Contexts config);
  CurrentContext := if decide (CurrentContext config = name) then "" else CurrentContext config;
  cfg_rest := cfg_rest config |}.

(** The loop of [Remove] over the names. *)
Fixpoint remove_names (names : list string) (config : ApiConfig) : list string * ApiConfig :=
  match names with
  | [] => ([], config)
  | name :: names =>
      if has_entry config name then
        let '(removed, config) := remove_names names (without_entries name config) in
        (name :: removed, config)
      else remove_names names config
  end.

Section Files.
Context {W : Type} `{CF : ConfigFiles W}.

Definition New (path : string) : File := {| path := GetDefaultFilename path |}.

Definition Write (config : ApiConfig) (path : string) : M W string :=
  WriteToFile config path ;;
  filepath_Abs path.

Definition load (path : string) : M W ApiConfig :=
  r ← attempt (LoadFromFile path);
  match r with
  | inr err => if os_IsNotExist err then mret empty_config
               else fail (EFmt [EText ("failed to load the kubeconfig '" +:+ path +:+ "': "); err])
  | inl config => mret config
  end.

Definition Add (f : File) (name : string) (src : ApiConfig) : M W unit :=
  '(srcCluster, srcAuthInfo) ← lift (currentEntries src);
  config ← load (path f);
  WriteToFile (with_entries name srcCluster srcAuthInfo config) (path f).

(** The empty list stands for the nil slice. *)
Definition Remove (f : File) (names : list string) : M W (list string) :=
  config ← load (path f);
  let '(removed, config) := remove_names names config in
  match removed with
  | [] => mret []
  | _ => WriteToFile config (path f) ;; mret removed
  end.
End Files.

(** ** The files

    What a file holds: nothing when it does not exist, a configuration, or
    something that cannot be read as one.  Nothing is said of what a write that
    fails leaves, nor of other paths, which may lead to the same file. *)
Class ConfigFilesLaws (W : Type) `{ConfigFiles W} := {
  content : W → string → option (ApiConfig + error);
  load_spec p w :
    ∃ r w', LoadFromFile p w = (r, w') ∧ content w' = content w ∧
      match r with
      | Ok config => content w p = Some (inl config)
      | Err e => if os_IsNotExist e then content w p = None else content w p = Some (inr e)
      | Panic => False
      end;
  write_spec config p w :
    ∃ r w', WriteToFile config p w = (r, w') ∧
      match r with
      | Ok _ => content w' p = Some (inl config)
      | Err _ => True
      | Panic => False
      end;
}.

Section Laws.
Context {W : Type} `{CL : ConfigFilesLaws W}.

(** The configuration that [load] finds at a path. *)
Definition found (w : W) (p : string) : option ApiConfig :=
  match content w p with
  | None => Some empty_config
  | Some (inl config) => Some config
  | Some (inr _) => None
  end.

Lemma load_run p w r w' :
  load p w = (r, w') →
  content w' = content w ∧
  match r with
  | Ok config => found w p = Some config
  | Err e => ∃ err, content w p = Some (inr err) ∧
               e = EFmt [EText ("failed to load the kubeconfig '" +:+ p +:+ "': "); err]
  | Panic => False
  end.
Proof.
  unfold load, mbind, M_bind, attempt, found. destruct (load_spec p w) as (r0 & w0 & -> & Hc & Hr).
  destruct r0 as [config|e|]; [| |done].
  - intros [= <- <-]. by rewrite Hr.
  - destruct (os_IsNotExist e); intros [= <- <-]; rewrite Hr; split; try done. by exists e.
Qed.

Lemma write_run config p w x w' :
  WriteToFile config p w = (Ok x, w') → content w' p = Some (inl config).
Proof. intros E. destruct (write_spec config p w) as (r & w0 & E1 & Hr). rewrite E in E1. by simplify_eq. Qed.

Lemma Add_run f name src w w' :
  Add f name src w = (Ok tt, w') →
  ∃ cluster user config, currentEntries src = Ok (cluster, user) ∧ found w (path f) = Some config ∧
    content w' (path f) = Some (inl (with_entries name cluster user config)).
Proof.
  unfold Add. intros ([cluster user] & w1 & E1 & E)%bind_inv_ok. apply bind_inv_ok in E as (config & w2 & E2 & E).
  unfold lift in E1. injection E1 as E1 <-. apply load_run in E2 as [_ Hf].
  exists cluster, user, config. split; [done|]. split; [done|]. by eapply write_run.
Qed.

Lemma Remove_run f names w removed w' :
  Remove f names w = (Ok removed, w') →
  ∃ config config', found w (path f) = Some config ∧ remove_names names config = (removed, config') ∧
    content w' (path f) = if decide (removed = []) then content w (path f) else Some (inl config').
Proof.
  unfold Remove. intros (config & w1 & E1 & E)%bind_inv_ok. apply load_run in E1 as [Hc Hf].
  destruct (remove_names names config) as [[|n l] config'] eqn:Hr.
  - injection E as <- <-. exists config, config'. split; [done|]. split; [done|].
    rewrite decide_True by done. by rewrite Hc.
  - apply bind_inv_ok in E as ([] & w2 & E2 & E). injection E as <- <-.
    exists config, config'. split; [done|]. split; [done|]. rewrite decide_False by done. by eapply write_run.
Qed.
End Laws.

(** ** Removing entries *)

(** [without names config] restricted: an entry survives when its name is not
    among the names. *)
Definition kept {V} (names : list string) (m : gmap string V) : gmap string V :=
  filter (λ kv, kv.1 ∉ names) m.

Lemma kept_lookup {V} names (m : gmap string V) k :
  kept names m !! k = if decide (k ∈ names) then None else m !! k.
Proof.
  unfold kept. destruct (m !! k) as [v|] eqn:E; destruct (decide (k ∈ names)).
  - apply map_lookup_filter_None. right. cbn. naive_solver.
  - by apply map_lookup_filter_Some.
  - by apply map_lookup_filter_None; left.
  - by apply map_lookup_filter_None; left.
Qed.

Lemma kept_cons {V} n names (m : gmap string V) : kept (n :: names) m = kept names (delete n m).
Proof.
  apply map_eq. intros k. rewrite !kept_lookup. destruct (decide (k = n)) as [->|Hk].
  - rewrite decide_True by set_solver. rewrite lookup_delete_eq. by destruct (decide _).
  - rewrite lookup_delete_ne by done. apply decide_ext. set_solver.
Qed.

Lemma has_entry_false config n :
  has_entry config n = false ↔
  Clusters config !! n = None ∧ AuthInfos config !! n = None ∧ Contexts config !! n = None.
Proof.
  unfold has_entry. rewrite !orb_false_iff, !bool_decide_eq_false, <- !eq_None_not_Some. tauto.
Qed.

Lemma remove_names_spec names config removed config' :
  remove_names names config = (removed, config') →
  Clusters config' = kept names (Clusters config) ∧
  AuthInfos config' = kept names (AuthInfos config) ∧
  Contexts config' = kept names (Contexts config) ∧
  CurrentContext config' = (if decide (CurrentContext config ∈ removed) then "" else CurrentContext config) ∧
  cfg_rest config' = cfg_rest config ∧
  (∀ n, n ∈ removed ↔ n ∈ names ∧ has_entry config n = true) ∧ NoDup removed.
Proof.
  revert config removed config'. induction names as [|n names IH]; intros config removed config'; cbn.
  { intros [= <- <-]. assert (∀ V (m : gmap string V), kept [] m = m) as Hk.
    { intros V m. apply map_eq. intros k. rewrite kept_lookup. by rewrite decide_False by set_solver. }
    rewrite !Hk. rewrite decide_False by set_solver. split_and!; try done; [set_solver|constructor]. }
  destruct (has_entry config n) eqn:Hn.
  - destruct (remove_names names (without_entries n config)) as [r0 c0] eqn:E. intros [= <- <-].
    apply IH in E as (H1 & H2 & H3 & H4 & H5 & H6 & H7). rewrite !kept_cons.
    assert (∀ k, k ∈ r0 ↔ k ∈ names ∧ k ≠ n ∧ has_entry config k = true) as Hin.
    { intros k. rewrite H6. unfold has_entry, without_entries; cbn.
      destruct (decide (k = n)) as [->|Hk]; [rewrite !lookup_delete_eq|rewrite !lookup_delete_ne by done].
      - rewrite !bool_decide_eq_false_2 by apply is_Some_None. cbn. naive_solver.
      - naive_solver. }
    split_and!; try done.
    + rewrite H4. cbn. destruct (decide (CurrentContext config = n)) as [->|Hc].
      * destruct (decide (n ∈ n :: r0)) as [_|[]]; [|apply list_elem_of_here].
        destruct (decide ("" ∈ r0)); reflexivity.
      * apply decide_ext. set_solver.
    + intros k. rewrite elem_of_cons, Hin. rewrite elem_of_cons.
      destruct (decide (k = n)) as [->|]; naive_solver.
    + constructor; [|done]. rewrite Hin. naive_solver.
  - intros E. apply IH in E as (H1 & H2 & H3 & H4 & H5 & H6 & H7).
    apply has_entry_false in Hn as Hnone. destruct Hnone as (N1 & N2 & N3).
    rewrite !kept_cons, !delete_id by done. split_and!; try done.
    intros k. rewrite H6, elem_of_cons. destruct (decide (k = n)) as [->|]; [rewrite Hn|]; naive_solver.
Qed.

(** ** A file system in memory *)
Abbreviation disk := (gmap string (ApiConfig + error)).
Definition no_such_file : error := ESentinel "fs.ErrNotExist" "file does not exist".

Definition read_disk (p : string) (w : disk) : option (ApiConfig + error) :=
  match w !! p with
  | Some (inr e) => Some (inr (EFmt [EText "yaml: "; EText (error_text e)]))
  | x => x
  end.

#[export] Instance disk_files : ConfigFiles disk := {
  LoadFromFile p w := (match read_disk p w with
                       | None => Err no_such_file
                       | Some (inl config) => Ok config
                       | Some (inr e) => Err e
                       end, w);
  WriteToFile config p w := (Ok tt, <[p := inl config]> w);
  filepath_Abs p := mret p;
  os_IsNotExist := errors_is "fs.ErrNotExist";
  GetDefaultFilename p := if decide (p = "") then "/home/user/.kube/config" else p;
}.

#[export] Program Instance disk_laws : ConfigFilesLaws disk := { content w p := read_disk p w }.
Next Obligation.
  intros p w. cbn. eexists _, _. split; [reflexivity|]. split; [done|]. unfold read_disk.
  destruct (lookup p _) as [[config|e]|]; done.
Qed.
Next Obligation.
  intros config p w. cbn. eexists _, _. split; [reflexivity|]. cbn. unfold read_disk. by rewrite lookup_insert_eq.
Qed.

(** ** Properties *)
Section Properties.
Context {W : Type} `{CL : ConfigFilesLaws W}.

(** C36: adding a virtual cluster to the kubeconfig of the user only adds: with the
    new entries the context of the cluster reaches the server of the source with
    its credentials, and every other entry, the current context and the rest of
    the file are what they were; without a current context in the source nothing
    is read or written, and a file that cannot be read is left as it is. *)
Theorem Add_additive f name src w r w' :
  Add f name src w = (r, w') →
  match r with
  | Ok _ =>
      ∃ before after cluster user,
        found w (path f) = Some before ∧ content w' (path f) = Some (inl after) ∧
        currentEntries src = Ok (cluster, user) ∧
        (∀ rest, currentEntries {| Clusters := Clusters after; AuthInfos := AuthInfos after;
                                   Contexts := Contexts after; CurrentContext := name; cfg_rest := rest |}
                 = Ok (cluster, user)) ∧
        (∀ k, k ≠ name → Clusters after !! k = Clusters before !! k ∧
                         AuthInfos after !! k = AuthInfos before !! k ∧
                         Contexts after !! k = Contexts before !! k) ∧
        CurrentContext after = CurrentContext before ∧ cfg_rest after = cfg_rest before
  | Err e =>
      (currentEntries src = Err e ∧ w' = w) ∨
      ((∃ entries, currentEntries src = Ok entries) ∧
       (found w (path f) = None → content w' = content w))
  | Panic => False
  end.
Proof.
  intros E. destruct r as [[]|e|].
  - apply Add_run in E as (cluster & user & config & Hc & Hf & Hw).
    exists config, (with_entries name cluster user config), cluster, user. split_and!; try done.
    + intros rest. unfold currentEntries; cbn. rewrite lookup_insert_eq. cbn. by rewrite !lookup_insert_eq.
    + intros k Hk. cbn. by rewrite !lookup_insert_ne by done.
  - unfold Add in E. destruct (currentEntries src) as [[cluster user]|e'|] eqn:Hc.
    + right. split; [by eexists|]. intros Hf.
      unfold mbind at 1, M_bind at 1, lift in E. cbn in E. unfold mbind, M_bind in E.
      destruct (load (path f) w) as [[config|e1|] w1] eqn:E1; apply load_run in E1 as [H1 H2]; [|by injection E as _ <-|done].
      by rewrite Hf in H2.
    + left. unfold mbind, M_bind, lift in E. by injection E as -> ->.
    + unfold currentEntries in Hc. repeat case_match; done.
  - unfold Add in E. destruct (currentEntries src) as [[cluster user]|e'|] eqn:Hc.
    + unfold mbind at 1, M_bind at 1, lift in E. cbn in E. unfold mbind, M_bind in E.
      destruct (load (path f) w) as [[config|e1|] w1] eqn:E1; apply load_run in E1 as [H1 H2]; [|done|done].
      destruct (write_spec (with_entries name cluster user config) (path f) w1) as (r & w2 & E2 & Hr).
      rewrite E2 in E. injection E as -> ->. done.
    + done.
    + unfold currentEntries in Hc. repeat case_match; done.
Qed.

(** removing clusters from the kubeconfig of the user takes off the entries of
    the names it is given and no other; it reports exactly those that had an
    entry, each once, clears the current context if it was one of them, and does
    not write the file when there were none. *)
Theorem Remove_spec f names w removed w' :
  Remove f names w = (Ok removed, w') →
  ∃ before, found w (path f) = Some before ∧ NoDup removed ∧
    (∀ n, n ∈ removed ↔ n ∈ names ∧ has_entry before n = true) ∧
    (if decide (removed = []) then content w' (path f) = content w (path f)
     else ∃ after, content w' (path f) = Some (inl after) ∧
       (∀ n, n ∈ names → has_entry after n = false) ∧
       (∀ k, k ∉ names → Clusters after !! k = Clusters before !! k ∧
                         AuthInfos after !! k = AuthInfos before !! k ∧
                         Contexts after !! k = Contexts before !! k) ∧
       CurrentContext after = (if decide (CurrentContext before ∈ removed) then "" else CurrentContext before) ∧
       cfg_rest after = cfg_rest before).
Proof.
  intros (config & config' & Hf & Hr & Hc)%Remove_run.
  apply remove_names_spec in Hr as (H1 & H2 & H3 & H4 & H5 & H6 & H7).
  exists config. split; [done|]. split; [done|]. split; [done|].
  destruct (decide (removed = [])); [done|]. exists config'. split; [done|]. rewrite H1, H2, H3.
  split; [|split; [|by split]].
  - intros n' Hn. apply has_entry_false. rewrite H1, H2, H3, !kept_lookup. by rewrite !decide_True by done.
  - intros k Hk. rewrite !kept_lookup. by rewrite !decide_False by done.
Qed.

(** C37: a virtual cluster that is created and deleted leaves the kubeconfig of the
    user as it found it: when [Add] and then [Remove] of the same name succeed, the
    name is reported as removed; a file that was there has its content again, but
    that entries of that name which it already had are gone and that a current
    context of that name is cleared; a file that did not exist is left empty. *)
Theorem Add_Remove f name src w w1 removed w2 :
  Add f name src w = (Ok tt, w1) → Remove f [name] w1 = (Ok removed, w2) →
  removed = [name] ∧
  match content w (path f) with
  | None => content w2 (path f) = Some (inl empty_config)
  | Some (inl before) =>
      (has_entry before name = false → CurrentContext before ≠ name → content w2 (path f) = content w (path f)) ∧
      ∃ after, content w2 (path f) = Some (inl after) ∧ has_entry after name = false ∧
        (∀ k, k ≠ name → Clusters after !! k = Clusters before !! k ∧
                         AuthInfos after !! k = AuthInfos before !! k ∧
                         Contexts after !! k = Contexts before !! k) ∧
        CurrentContext after = (if decide (CurrentContext before = name) then "" else CurrentContext before) ∧
        cfg_rest after = cfg_rest before
  | Some (inr _) => False
  end.
Proof.
  intros (cluster & user & before & _ & Hf & Hw)%Add_run (config2 & config' & Hf2 & Hr & Hw2)%Remove_run.
  unfold found in Hf2. rewrite Hw in Hf2. injection Hf2 as <-.
  assert (has_entry (with_entries name cluster user before) name = true) as He.
  { unfold has_entry; cbn. rewrite lookup_insert_eq. by rewrite bool_decide_eq_true_2 by done. }
  cbn [remove_names] in Hr. rewrite He in Hr. injection Hr as <- <-. split; [done|].
  rewrite decide_False in Hw2 by done. unfold without_entries, with_entries in Hw2; cbn in Hw2.
  rewrite !delete_insert_eq in Hw2. unfold found in Hf. destruct (content w (path f)) as [[before'|?]|]; [|done|].
  - injection Hf as ->. rewrite Hw2. split.
    + intros (N1 & N2 & N3)%has_entry_false Hcur. rewrite !delete_id by done. rewrite decide_False by done.
      by destruct before.
    + eexists. split; [reflexivity|]. split; [by apply has_entry_false; cbn; rewrite !lookup_delete_eq|].
      split_and!; try done. intros k Hk. cbn. by rewrite !lookup_delete_ne by done.
  - injection Hf as <-. rewrite Hw2. cbn. rewrite !delete_empty. by destruct (decide ("" = name)).
Qed.
End Properties.

(** ** Witnesses *)
Definition prod_config : ApiConfig := NewConfig "https://prod:6443" "ca" "cert" "key".
Definition dev_config : ApiConfig := NewConfig "https://10.0.0.1:30443" "dev-ca" "dev-cert" "dev-key".
Definition user_file : File := New "".
Definition user_disk : disk := {[ "/home/user/.kube/config" := inl prod_config ]}.

Lemma Add_additive_witness :
  ∃ before after cluster user w',
    found user_disk (path user_file) = Some before ∧ content w' (path user_file) = Some (inl after) ∧
    currentEntries dev_config = Ok (cluster, user) ∧
    CurrentContext after = CurrentContext before.
Proof.
  destruct (Add user_file "k3k-dev/dev" dev_config user_disk) as [r w'] eqn:E.
  assert (r = Ok tt) as ->. { change r with (r, w').1. rewrite <- E. by vm_compute. }
  pose proof (Add_additive user_file "k3k-dev/dev" dev_config user_disk (Ok tt) w' E) as H. cbn beta iota in H.
  destruct H as (before & after & cluster & user & H1 & H2 & H3 & _ & _ & H4 & _).
  exists before, after, cluster, user, w'. split; [exact H1|]. split; [exact H2|]. split; [exact H3|exact H4].
Defined.

Lemma Remove_spec_witness :
  ∃ before, found user_disk (path user_file) = Some before ∧ NoDup ["default"].
Proof.
  destruct (Remove user_file ["k3k-dev/dev"; "default"; "default"] user_disk) as [r w'] eqn:E.
  assert (r = Ok ["default"]) as ->. { change r with (r, w').1. rewrite <- E. by vm_compute. }
  destruct (Remove_spec user_file ["k3k-dev/dev"; "default"; "default"] user_disk ["default"] w' E)
    as (before & H1 & H2 & _).
  exists before. split; [exact H1|exact H2].
Defined.

Lemma Add_Remove_witness :
  ∃ w2 : disk, ["k3k-dev/dev"] = ["k3k-dev/dev"] ∧
    content w2 (path user_file) = content user_disk (path user_file).
Proof.
  destruct (Add user_file "k3k-dev/dev" dev_config user_disk) as [r w1] eqn:E.
  assert (r = Ok tt) as ->. { change r with (r, w1).1. rewrite <- E. by vm_compute. }
  destruct (Remove user_file ["k3k-dev/dev"] w1) as [r w2] eqn:E2.
  assert (r = Ok ["k3k-dev/dev"]) as ->.
  { change r with (r, w2).1. rewrite <- E2. change w1 with (Ok tt : outcome unit, w1).2. rewrite <- E. by vm_compute. }
  exists w2. destruct (Add_Remove user_file "k3k-dev/dev" dev_config user_disk w1 ["k3k-dev/dev"] w2 E E2) as [H H2].
  split; [exact H|]. apply (proj1 H2); by vm_compute.
Defined.
End UserConfig.
