(* ===== verification/Agent.v ===== *)
(** * The agents of a virtual cluster (pkg/controller/cluster/agent)

    agent.go, shared.go and virtual.go: the objects of the two agent modes and
    the calls that create or update them.  [yaml.Marshal] and the random source
    are parameters; events and logs are not modelled. *)

From S2P Require Import Prelude GoStd GoDate K8s Types Kube Names Translate Mounts Expose Server.

Local Open Scope string_scope.
Local Open Scope nat_scope.

Module Agent.

(** ** agent.go *)
Definition configName : string := "agent-config".
Definition configSecretName (clusterName : string) : string :=
  Names.SafeConcatNameWithPrefix [clusterName; configName].

Section Agent.
Context {W : Type} (c : Client W) `{KubeUtil}.

Definition ensureObject {T} `{SetMeta T} (cluster : Cluster) (obj : T) : M W unit :=
  m ← lift (SetControllerReference (cluster_owner cluster) (meta obj));
  let obj := with_meta m obj in
  r ← attempt (Create c obj);
  match r with
  | inl _ => mret tt
  | inr err => if IsAlreadyExists err then Update c obj ;; mret tt else fail err
  end.

(** The wrapped join of the errors of [EnsureResources]. *)
Definition ensure_all (ms : list (M W unit)) : M W unit :=
  errs ← join_all ms;
  match errors_join errs with
  | Some err => fail (EFmt [EText "failed to ensure some resources: "; err])
  | None => mret tt
  end.

(** ** shared.go *)
Record SharedAgent : Type := {
  sa_cluster : Cluster;
  sa_serviceIP : string;
  sa_image : string;
  sa_imagePullPolicy : string;
  sa_imageRegistry : string;
  sa_token : string;
  sa_kubeletPort : Z;
  sa_imagePullSecrets : list string;
}.

Record sharedAgentConfig : Type := {
  sac_ClusterName : string;
  sac_ClusterNamespace : string;
  sac_KubeletPort : Z;
  sac_MirrorHostNodes : bool;
  sac_ServerIP : string;
  sac_ServiceName : string;
  sac_Token : string;
  sac_Version : string;
}.

Context (yaml_MarshalShared : sharedAgentConfig → outcome string).

Definition SharedName (s : SharedAgent) : string :=
  Names.SafeConcatNameWithPrefix [Name (cl_Meta (sa_cluster s)); "kubelet"].

Definition sharedAgentData (cluster : Cluster) (serviceName token ip : string) (kubeletPort : Z)
  : outcome string :=
  yaml_MarshalShared {|
    sac_ClusterName := Name (cl_Meta cluster); sac_ClusterNamespace := Namespace (cl_Meta cluster);
    sac_KubeletPort := kubeletPort; sac_MirrorHostNodes := MirrorHostNodes (cl_Spec cluster);
    sac_ServerIP := ip; sac_ServiceName := serviceName; sac_Token := token;
    sac_Version := if decide (Version (cl_Spec cluster) = "")
                   then st_HostVersion (cl_Status cluster) else Version (cl_Spec cluster) |}.

Definition config_secret (cluster : Cluster) (config : string) : Secret := {|
  sec_Meta := meta_of (Namespace (cl_Meta cluster)) (configSecretName (Name (cl_Meta cluster))); sec_Type := "";
  sec_Data := map_lit [("config.yaml", config)] |}.

Definition shared_config (s : SharedAgent) : M W unit :=
  config ← lift (sharedAgentData (sa_cluster s) (SharedName s) (sa_token s) (sa_serviceIP s)
                   (sa_kubeletPort s));
  ensureObject (sa_cluster s) (config_secret (sa_cluster s) config).

Definition agent_labels (cluster : Cluster) (mode : string) : gomap string :=
  map_lit [("cluster", Name (cl_Meta cluster)); ("type", "agent"); ("mode", mode)].

Definition v1_field_env (n path : string) : EnvVar :=
  {| env_Name := n; env_Value := ""; env_ValueFrom := Some (FieldRef "v1" path) |}.

Definition shared_podSpec (s : SharedAgent) : PodSpec :=
  let cluster := sa_cluster s in
  let spec := cl_Spec cluster in
  let image := if decide (sa_imageRegistry s = "") then sa_image s
               else sa_imageRegistry s +:+ "/" +:+ sa_image s in
  {| ps_Affinity := policy_or cluster ap_AgentAffinity (AgentAffinity spec);
     ps_NodeSelector := policy_selector cluster;
     ps_PriorityClassName := "";
     ps_HostNetwork := MirrorHostNodes spec;
     ps_DNSPolicy := if MirrorHostNodes spec then "ClusterFirstWithHostNet" else "ClusterFirst";
     ps_ServiceAccountName := SharedName s;
     ps_Volumes := [Server.secret_volume "config" (configSecretName (Name (cl_Meta cluster)))
                      Server.config_items];
     ps_Containers := [{|
       ct_Name := SharedName s; ct_Image := image; ct_ImagePullPolicy := sa_imagePullPolicy s;
       ct_Command := []; ct_Args := [];
       ct_Env := ([v1_field_env "AGENT_HOSTNAME" "spec.nodeName"; v1_field_env "POD_IP" "status.podIP"]
                  ++ AgentEnvs spec)%list; ct_EnvFrom := [];
       ct_VolumeMounts := [Server.mount_at "config" "/opt/rancher/k3k/"];
       ct_Ports := [{| cp_Name := "kubelet-port"; cp_Protocol := ProtocolTCP;
                       cp_ContainerPort := GoDate.int32 (sa_kubeletPort s) |}];
       ct_ReadinessProbe := Some {|
         pr_Handler := HTTPGet "HTTPS" "/readyz" (IntVal (GoDate.int32 (sa_kubeletPort s)));
         pr_InitialDelaySeconds := 60; pr_TimeoutSeconds := 10; pr_PeriodSeconds := 0;
         pr_FailureThreshold := 5 |};
       ct_LivenessProbe := None;
       ct_SecurityContext := policy_or cluster ap_SecurityContext (SecurityContext_ spec);
       ct_Resources := Server.container_resources (WorkerResources spec) (WorkerLimit spec) |}];
     ps_SecurityContext := policy_or cluster ap_PodSecurityContext (PodSecurityContext spec);
     ps_RuntimeClassName := policy_or cluster ap_RuntimeClassName (RuntimeClassName spec);
     ps_HostUsers := policy_or cluster ap_HostUsers (HostUsers spec);
     ps_Resources := WorkerResources spec;
     ps_ImagePullSecrets := sa_imagePullSecrets s;
     ps_NodeName := ""; ps_Extra := no_extra |}.

Definition shared_meta (s : SharedAgent) : ObjectMeta :=
  meta_of (Namespace (cl_Meta (sa_cluster s))) (SharedName s).

Definition shared_daemonset (s : SharedAgent) : DaemonSet :=
  let labels := agent_labels (sa_cluster s) "shared" in
  {| ds_Meta := set_Labels labels (shared_meta s);
     ds_Selector := Some {| ls_MatchLabels := labels; ls_MatchExpressions := [] |};
     ds_Template := {| tpl_Labels := labels; tpl_Annotations := None; tpl_Spec := shared_podSpec s |} |}.

Definition svc_port (n proto : string) (p target : Z) : ServicePort :=
  {| sp_Name := n; sp_Protocol := proto; sp_Port := p; sp_TargetPort := IntVal target;
     sp_NodePort := 0 |}.

Definition cluster_service (m : ObjectMeta) (clusterIP : string) (selector : gomap string)
    (ports : list ServicePort) : Service := {|
  svc_Meta := m;
  svc_Spec := {| ss_Ports := ports; ss_Selector := selector; ss_ClusterIP := clusterIP;
                 ss_Type := ServiceTypeClusterIP; ss_LoadBalancerClass := None;
                 ss_ExternalTrafficPolicy := "" |};
  svc_Ingress := [] |}.

Definition shared_service (s : SharedAgent) : Service :=
  cluster_service (shared_meta s) "" (agent_labels (sa_cluster s) "shared")
    [svc_port "k3s-kubelet-port" ProtocolTCP (GoDate.int32 (sa_kubeletPort s)) 0].

Definition dns_service (s : SharedAgent) : Service :=
  cluster_service
    (meta_of (Namespace (cl_Meta (sa_cluster s)))
       (Names.SafeConcatNameWithPrefix [Name (cl_Meta (sa_cluster s)); "kube-dns"])) ""
    (map_lit [(Translate.ClusterNameLabel, Name (cl_Meta (sa_cluster s))); ("k8s-app", "kube-dns")])
    [svc_port "dns" ProtocolUDP 53 53; svc_port "dns-tcp" ProtocolTCP 53 53;
     svc_port "metrics" ProtocolTCP 9153 9153].

Definition rule (g : string) (r v : list string) : PolicyRule :=
  {| rule_APIGroups := [g]; rule_Resources := r; rule_Verbs := v |}.

Definition shared_role (s : SharedAgent) : Role := {|
  role_Meta := shared_meta s;
  role_Rules := [
    rule "" ["persistentvolumeclaims"; "secrets"; "configmaps"; "services"; "pods"; "pods/log";
             "pods/attach"; "pods/exec"; "pods/ephemeralcontainers"; "pods/portforward"] ["*"];
    rule "" ["events"] ["create"; "get"; "list"; "watch"];
    rule "" ["resourcequotas"] ["get"; "watch"; "list"];
    rule "networking.k8s.io" ["ingresses"] ["*"];
    rule "k3k.io" ["clusters"] ["get"; "watch"; "list"];
    rule "coordination.k8s.io" ["leases"] ["*"]] |}.

Definition shared_roleBinding (s : SharedAgent) : RoleBinding := {|
  rb_Meta := shared_meta s;
  rb_RoleRef := {| rref_APIGroup := "rbac.authorization.k8s.io"; rref_Kind := "Role";
                   rref_Name := SharedName s |};
  rb_Subjects := [{| sub_Kind := "ServiceAccount"; sub_Name := SharedName s;
                     sub_Namespace := Namespace (cl_Meta (sa_cluster s)) |}] |}.

Definition shared_EnsureResources (s : SharedAgent) : M W unit :=
  let ensure {T} `{SetMeta T} (x : T) := ensureObject (sa_cluster s) x in
  ensure_all [
    shared_config s;
    ensure {| sa_Meta := shared_meta s |};
    ensure (shared_role s);
    ensure (shared_roleBinding s);
    ensure (shared_service s);
    ensure (shared_daemonset s);
    ensure (dns_service s)].

(** ** virtual.go *)
Record VirtualAgent : Type := {
  va_cluster : Cluster;
  va_serviceIP : string;
  va_token : string;
  va_Image : string;
  va_ImagePullPolicy : string;
  va_ImageRegistry : string;
  va_imagePullSecrets : list string;
}.

Definition NewSharedAgent (cluster : Cluster) (serviceIP image imagePullPolicy token : string)
    (kubeletPort : Z) (imagePullSecrets : list string) : SharedAgent := {|
  sa_cluster := cluster; sa_serviceIP := serviceIP; sa_image := image;
  sa_imagePullPolicy := imagePullPolicy; sa_imageRegistry := ""; sa_token := token;
  sa_kubeletPort := kubeletPort; sa_imagePullSecrets := imagePullSecrets |}.

Definition NewVirtualAgent (cluster : Cluster) (serviceIP token image imagePullPolicy : string)
    (imagePullSecrets : list string) : VirtualAgent := {|
  va_cluster := cluster; va_serviceIP := serviceIP; va_token := token; va_Image := image;
  va_ImagePullPolicy := imagePullPolicy; va_ImageRegistry := "";
  va_imagePullSecrets := imagePullSecrets |}.

Record virtualAgentConfig : Type := {
  vac_Server : string;
  vac_Token : string;
  vac_WithNodeID : bool;
}.

Context (yaml_MarshalVirtual : virtualAgentConfig → outcome string).

(** [cryptorand.Read(make([]byte, 16))] *)
Context (cryptorand_Read : M W string).

Definition virtualNodeAgentName : string := "agent".

Definition VirtualName (v : VirtualAgent) : string :=
  Names.SafeConcatNameWithPrefix [Name (cl_Meta (va_cluster v)); virtualNodeAgentName].

Definition nodePasswordName (clusterName : string) : string :=
  Names.SafeConcatNameWithPrefix [clusterName; virtualNodeAgentName; "node"; "password"].

(** The Deployment of the older releases, if there is one. *)
Definition deprecatedDeployment (v : VirtualAgent) : M W (option Deployment) :=
  r ← attempt (Get c Deployment {| nn_Namespace := Namespace (cl_Meta (va_cluster v));
                                   nn_Name := VirtualName v |});
  match r with
  | inl dep => mret (Some dep)
  | inr err => if IsNotFound err then mret None else fail err
  end.

Definition virtualAgentData (serviceIP token : string) (withNodeID : bool) : outcome string :=
  yaml_MarshalVirtual {| vac_Server := "https://" +:+ serviceIP; vac_Token := token;
                         vac_WithNodeID := withNodeID |}.

Definition virtual_config (v : VirtualAgent) (withNodeID : bool) : M W unit :=
  config ← lift (virtualAgentData (va_serviceIP v) (va_token v) withNodeID);
  ensureObject (va_cluster v) (config_secret (va_cluster v) config).

Definition virtual_volumes (cluster : Cluster) : list Volume :=
  [Server.secret_volume "config" (configSecretName (Name (cl_Meta cluster))) Server.config_items;
   Server.empty_dir "run"; Server.empty_dir "varrun"; Server.empty_dir "varlibcni";
   Server.empty_dir "varlog"; Server.empty_dir "varlibkubelet"; Server.empty_dir "varlibrancherk3s"].

Definition virtual_mounts : list VolumeMount :=
  [Server.mount_at "config" "/opt/rancher/k3s/"; Server.mount_at "run" "/run";
   Server.mount_at "varrun" "/var/run"; Server.mount_at "varlibcni" "/var/lib/cni";
   Server.mount_at "varlibkubelet" "/var/lib/kubelet";
   Server.mount_at "varlibrancherk3s" "/var/lib/rancher/k3s"; Server.mount_at "varlog" "/var/log"].

Definition virtual_podSpec (v : VirtualAgent) (image name : string) : outcome PodSpec :=
  let cluster := va_cluster v in
  let spec := cl_Spec cluster in
  let image := if decide (va_ImageRegistry v = "") then image
               else va_ImageRegistry v +:+ "/" +:+ image in
  Server.kata_volumes {|
    ps_Affinity := policy_or cluster ap_AgentAffinity (AgentAffinity spec);
    ps_NodeSelector := policy_selector cluster;
    ps_PriorityClassName := ""; ps_HostNetwork := false; ps_DNSPolicy := "";
    ps_ServiceAccountName := "";
    ps_Volumes := virtual_volumes cluster;
    ps_Containers := [{|
      ct_Name := name; ct_Image := image; ct_ImagePullPolicy := va_ImagePullPolicy v;
      ct_Command := ["/bin/k3s"];
      ct_Args := (["agent"; "--config"; "/opt/rancher/k3s/config.yaml"] ++ AgentArgs spec)%list;
      ct_Env := AgentEnvs spec; ct_EnvFrom := []; ct_VolumeMounts := virtual_mounts; ct_Ports := [];
      ct_ReadinessProbe := None; ct_LivenessProbe := None;
      ct_SecurityContext :=
        match policy_or cluster ap_SecurityContext (SecurityContext_ spec) with
        | Some sc => Some sc
        | None => Some Server.privileged
        end;
      ct_Resources := Server.container_resources (WorkerResources spec) (WorkerLimit spec) |}];
    ps_SecurityContext := policy_or cluster ap_PodSecurityContext (PodSecurityContext spec);
    ps_RuntimeClassName := policy_or cluster ap_RuntimeClassName (RuntimeClassName spec);
    ps_HostUsers := policy_or cluster ap_HostUsers (HostUsers spec);
    ps_Resources := WorkerResources spec;
    ps_ImagePullSecrets := va_imagePullSecrets v;
    ps_NodeName := ""; ps_Extra := no_extra |}.

(** The pod with the secret mounts of the role, as both workloads make it. *)
Definition agent_pod (v : VirtualAgent) : outcome PodSpec :=
  podSpec ← virtual_podSpec v (Names.K3SImage (va_cluster v) (va_Image v)) "k3k-agent";
  Server.add_volumes
    (Mounts.BuildSecretsMountsVolumes (SecretMounts (cl_Spec (va_cluster v))) "agent") podSpec.

Definition virtual_meta (v : VirtualAgent) : ObjectMeta :=
  meta_of (Namespace (cl_Meta (va_cluster v))) (VirtualName v).

Definition deployment (v : VirtualAgent) : M W unit :=
  podSpec ← lift (agent_pod v);
  let labels := agent_labels (va_cluster v) "virtual" in
  ensureObject (va_cluster v) {|
    dep_Meta := set_Labels labels (virtual_meta v);
    dep_Replicas := Agents (cl_Spec (va_cluster v));
    dep_Selector := Some {| ls_MatchLabels := labels; ls_MatchExpressions := [] |};
    dep_Template := {| tpl_Labels := labels; tpl_Annotations := None; tpl_Spec := podSpec |} |}.

Definition headlessService (v : VirtualAgent) : M W unit :=
  ensureObject (va_cluster v)
    (cluster_service (virtual_meta v) ClusterIPNone (agent_labels (va_cluster v) "virtual")
       [svc_port "k3s-kubelet-port" ProtocolTCP 10250 10250]).

Definition password_volume (v : VirtualAgent) : Server.VolMounts :=
  ([Server.secret_volume "node-password" (nodePasswordName (Name (cl_Meta (va_cluster v)))) []],
   [Server.mount_at "node-password" "/etc/rancher/node/"]).

Definition statefulset (v : VirtualAgent) : M W unit :=
  podSpec ← lift (agent_pod v);
  podSpec ← lift (Server.add_volumes (password_volume v) podSpec);
  let labels := agent_labels (va_cluster v) "virtual" in
  ensureObject (va_cluster v) {|
    sts_Meta := set_Labels labels (virtual_meta v);
    sts_Replicas := Agents (cl_Spec (va_cluster v));
    sts_ServiceName := "";
    sts_Selector := Some {| ls_MatchLabels := labels; ls_MatchExpressions := [] |};
    sts_PodManagementPolicy := "Parallel";
    sts_Template := {| tpl_Labels := labels; tpl_Annotations := None; tpl_Spec := podSpec |};
    sts_VolumeClaimTemplates := [] |}.

Definition nodePassword (v : VirtualAgent) : M W unit :=
  password ← cryptorand_Read;
  m ← lift (SetControllerReference (cluster_owner (va_cluster v))
              (meta_of (Namespace (cl_Meta (va_cluster v)))
                 (nodePasswordName (Name (cl_Meta (va_cluster v))))));
  r ← attempt (Create c {| sec_Meta := m; sec_Type := ""; sec_Data := map_lit [("password", hex_encode password)] |});
  match r with
  | inl _ => mret tt
  | inr err => if IsAlreadyExists err then mret tt else fail err
  end.

Definition virtual_EnsureResources (v : VirtualAgent) : M W unit :=
  dep ← deprecatedDeployment v;
  match dep with
  | Some _ => ensure_all [virtual_config v true; deployment v]
  | None => ensure_all [virtual_config v false; nodePassword v; headlessService v; statefulset v]
  end.

(** ** What the calls touch *)
Section Effects.
Context `{!ClientLaws c} `{!KubeUtilLaws}.

(** Whatever its outcome, [m] writes the keys [ks] only and removes none. *)
Definition touches {A} (ks : list ObjKey) (m : M W A) : Prop :=
  ∀ w r w', m w = (r, w') →
    (∀ k, k ∉ ks → store w' !! k = store w !! k) ∧
    (∀ k, is_Some (store w !! k) → is_Some (store w' !! k)).

Lemma touches_weaken {A} ks ks' (m : M W A) : ks ⊆ ks' → touches ks m → touches ks' m.
Proof. intros Hsub Hm w r w' E. destruct (Hm w r w' E) as [H1 H2]. split; [|done]. set_solver. Qed.

Lemma touches_same {A} ks (m : M W A) :
  (∀ w r w', m w = (r, w') → store w' = store w) → touches ks m.
Proof. intros Hm w r w' E. by rewrite (Hm w r w' E). Qed.

Lemma touches_lift {A} ks (o : outcome A) : touches ks (lift o).
Proof. apply touches_same. by intros w r w' [= _ <-]. Qed.

Lemma touches_mret {A} ks (a : A) : touches ks (mret a).
Proof. apply touches_same. by intros w r w' [= _ <-]. Qed.

Lemma touches_fail {A} ks e : touches ks (fail e : M W A).
Proof. apply touches_same. by intros w r w' [= _ <-]. Qed.

Lemma touches_bind {A B} ks (m : M W A) (f : A → M W B) :
  touches ks m → (∀ a, touches ks (f a)) → touches ks (x ← m; f x).
Proof.
  intros Hm Hf w r w' E. unfold mbind, M_bind in E. destruct (m w) as [[a|e|] w1] eqn:E1.
  - destruct (Hm _ _ _ E1) as [H1 H2], (Hf _ _ _ _ E) as [H3 H4]. split.
    + intros k Hk. by rewrite H3, H1.
    + auto.
  - injection E as <- <-. by eapply Hm.
  - injection E as <- <-. by eapply Hm.
Qed.

Lemma touches_attempt {A} ks (m : M W A) : touches ks m → touches ks (attempt m).
Proof.
  intros Hm w r w' E. unfold attempt in E. destruct (m w) as [[a|e|] w1] eqn:E1;
    injection E as <- <-; by eapply Hm.
Qed.

Lemma touches_join_all ks ms : Forall (touches ks) ms → touches ks (join_all ms).
Proof.
  induction 1 as [|m ms Hm _ IH]; cbn [join_all]; [apply touches_mret|].
  apply touches_bind; [by apply touches_attempt|]. intros r. apply touches_bind; [done|].
  intros es. apply touches_mret.
Qed.

Lemma touches_ensure_all ks ms : Forall (touches ks) ms → touches ks (ensure_all ms).
Proof.
  intros Hms. apply touches_bind; [by apply touches_join_all|]. intros errs.
  destruct (errors_join errs); [apply touches_fail|apply touches_mret].
Qed.

Lemma touches_Create {T} `{Resource T} (x : T) : touches [obj_key (inj x)] (Create c x).
Proof.
  intros w r w' E%(Create_run c). destruct E as [_ Hr]. destruct r as [y|e|]; [|by rewrite Hr|done].
  destruct Hr as (Hn & _ & Hs & _). rewrite Hs. split.
  - intros k Hk. apply lookup_insert_ne. set_solver.
  - intros k Hk. apply lookup_insert_is_Some. destruct (decide (obj_key (inj x) = k)); auto.
Qed.

Lemma touches_Update {T} `{Resource T} (x : T) :
  is_deleting (meta x) = false → touches [obj_key (inj x)] (Update c x).
Proof.
  intros Hd w r w' E%(Update_run c). destruct E as [_ Hr]. destruct r as [y|e|]; [|by rewrite Hr|done].
  destruct Hr as (_ & _ & _ & Hs & _). rewrite Hd in Hs. cbn in Hs. rewrite Hs. split.
  - intros k Hk. apply lookup_insert_ne. set_solver.
  - intros k Hk. apply lookup_insert_is_Some. destruct (decide (obj_key (inj x) = k)); auto.
Qed.

Lemma owned_meta {T} `{SetMeta T} cluster (obj : T) m :
  SetControllerReference (cluster_owner cluster) (meta obj) = Ok m →
  obj_key (inj (with_meta m obj)) = obj_key (inj obj) ∧
  is_deleting (meta (with_meta m obj)) = is_deleting (meta obj).
Proof.
  intros (rs & -> & _)%SetControllerReference_ok.
  assert (meta (with_meta (set_OwnerReferences rs (meta obj)) obj) = set_OwnerReferences rs (meta obj)) as Hm.
  { rewrite <- !inj_meta, with_meta_inj. apply obj_set_meta_meta. }
  split; [|by rewrite Hm].
  unfold obj_key. rewrite with_meta_inj, obj_set_meta_kind, obj_set_meta_meta. by rewrite inj_meta.
Qed.

Lemma touches_ensureObject {T} `{SetMeta T} cluster (obj : T) :
  is_deleting (meta obj) = false → touches [obj_key (inj obj)] (ensureObject cluster obj).
Proof.
  intros Hd. unfold ensureObject. intros w r w' E.
  destruct (SetControllerReference (cluster_owner cluster) (meta obj)) as [m|e|] eqn:Em;
    unfold lift, mbind, M_bind in E; [|by injection E as _ <-..].
  destruct (owned_meta cluster obj m Em) as [Hk Hdel].
  revert w r w' E. rewrite <- Hk. apply touches_bind; [apply touches_attempt, touches_Create|].
  intros [y|err]; [apply touches_mret|]. destruct (IsAlreadyExists err); [|apply touches_fail].
  apply touches_bind; [|intros; apply touches_mret]. apply touches_Update. by rewrite Hdel.
Qed.

(** An object that is ensured is there. *)
Lemma ensureObject_present {T} `{SetMeta T} cluster (obj : T) w w' :
  is_deleting (meta obj) = false → ensureObject cluster obj w = (Ok tt, w') →
  is_Some (store w' !! obj_key (inj obj)).
Proof.
  intros Hd E. unfold ensureObject in E.
  destruct (SetControllerReference (cluster_owner cluster) (meta obj)) as [m|e|] eqn:Em;
    unfold lift, mbind, M_bind, attempt in E; [|done..].
  destruct (owned_meta cluster obj m Em) as [Hk Hdel]. rewrite <- Hk.
  destruct (Create c (with_meta m obj) w) as [[y|e|] w1] eqn:EC; [| |done].
  - injection E as <-. apply (Create_run c) in EC as [_ (_ & _ & Hs & _)].
    rewrite Hs, lookup_insert_eq. by eexists.
  - destruct (IsAlreadyExists e); [|done].
    destruct (Update c (with_meta m obj) w1) as [[y|e'|] w2] eqn:EU; [|done..].
    injection E as <-. apply (Update_run c) in EU as [_ (_ & _ & _ & Hs & _)].
    rewrite Hdel, Hd in Hs. cbn in Hs. rewrite Hs, lookup_insert_eq. by eexists.
Qed.

(** [m] writes [k] only, and leaves an object there when it succeeds. *)
Definition ensures (m : M W unit) (k : ObjKey) : Prop :=
  touches [k] m ∧ ∀ w w', m w = (Ok tt, w') → is_Some (store w' !! k).

Lemma ensureObject_ensures {T} `{SetMeta T} cluster (obj : T) :
  is_deleting (meta obj) = false → ensures (ensureObject cluster obj) (obj_key (inj obj)).
Proof.
  intros Hd. split; [by apply touches_ensureObject|]. intros w w'. by apply ensureObject_present.
Qed.

Ltac solve_ensures :=
  match goal with |- ensures (ensureObject ?cl ?o) _ => exact (ensureObject_ensures cl o eq_refl) end.

Lemma ensures_lift {A} (o : outcome A) f k :
  (∀ a, ensures (f a) k) → ensures (x ← lift o; f x) k.
Proof.
  intros Hf. split.
  - apply touches_bind; [apply touches_lift|]. intros a. apply Hf.
  - intros w w' E. inv_ok. match goal with H : f ?x _ = _ |- _ => by apply (Hf x) in H end.
Qed.

(** When the join of the errors is nil, every call has succeeded: what each
    puts in place is there at the end. *)
Lemma join_all_present ms keys :
  Forall2 ensures ms keys → ∀ w es w', join_all ms w = (Ok es, w') → Forall (λ e, e = None) es →
    (∀ k, is_Some (store w !! k) → is_Some (store w' !! k)) ∧
    ∀ k, k ∈ keys → is_Some (store w' !! k).
Proof.
  induction 1 as [|m k ms' keys' [Ht Hp] _ IH]; intros w es w'; cbn [join_all].
  - intros [= <- <-] _. split; [done|]. set_solver.
  - intros E Hes. apply bind_inv_ok in E as (r & w1 & Em%attempt_inv & E).
    apply bind_inv_ok in E as (es' & w2 & Ej & E). inv_ok.
    apply Forall_cons_iff in Hes as [He Hes]. destruct r as [[]|e]; [|done].
    destruct (Ht _ _ _ Em) as [_ Hm]. apply Hp in Em.
    destruct (IH _ _ _ Ej Hes) as [Hmono Hin].
    split; [auto|]. intros k' [->|Hk']%elem_of_cons; auto.
Qed.

Lemma ensure_all_spec ms keys :
  Forall2 ensures ms keys →
  touches keys (ensure_all ms) ∧
  ∀ w w', ensure_all ms w = (Ok tt, w') → ∀ k, k ∈ keys → is_Some (store w' !! k).
Proof.
  intros Hall. split.
  - apply touches_ensure_all, Forall_forall. intros m [i Hi]%list_elem_of_lookup.
    destruct (Forall2_lookup_l _ _ _ _ _ Hall Hi) as (k & Hk & [Ht _]).
    eapply touches_weaken; [|exact Ht]. apply list_elem_of_lookup_2 in Hk. set_solver.
  - intros w w' E. unfold ensure_all in E. apply bind_inv_ok in E as (es & w1 & Ej & E).
    destruct (errors_join es) eqn:En; [done|]. inv_ok.
    by apply (join_all_present ms keys Hall w es); [|apply errors_join_None].
Qed.

Definition ns_key (kind : string) (cluster : Cluster) (n : string) : ObjKey :=
  (kind, {| nn_Namespace := Namespace (cl_Meta cluster); nn_Name := n |}).

(** The objects of a shared agent, in the order in which they are ensured. *)
Definition shared_keys (s : SharedAgent) : list ObjKey :=
  let cluster := sa_cluster s in
  [ns_key "Secret" cluster (configSecretName (Name (cl_Meta cluster)));
   ns_key "ServiceAccount" cluster (SharedName s);
   ns_key "Role" cluster (SharedName s);
   ns_key "RoleBinding" cluster (SharedName s);
   ns_key "Service" cluster (SharedName s);
   ns_key "DaemonSet" cluster (SharedName s);
   ns_key "Service" cluster (Names.SafeConcatNameWithPrefix [Name (cl_Meta cluster); "kube-dns"])].

(** C22: The objects of a shared agent: an [EnsureResources] that succeeds leaves
    all seven in place, and whatever its outcome it writes no other object
    and removes none. *)
Theorem shared_EnsureResources_spec s :
  touches (shared_keys s) (shared_EnsureResources s) ∧
  ∀ w w', shared_EnsureResources s w = (Ok tt, w') →
    ∀ k, k ∈ shared_keys s → is_Some (store w' !! k).
Proof.
  apply ensure_all_spec.
  repeat apply List.Forall2_cons; try apply List.Forall2_nil;
    [apply ensures_lift; intros config; solve_ensures|solve_ensures..].
Qed.

(** The pods of the virtual agents, in either kind of workload, mount volumes
    they have. *)
Theorem agent_pod_backed v p :
  agent_pod v = Ok p →
  Mounts.backed_pod [] p ∧
  ∀ p', Server.add_volumes (password_volume v) p = Ok p' → Mounts.backed_pod [] p'.
Proof.
  intros E. assert (Mounts.backed_pod [] p) as Hb.
  { unfold agent_pod in E. destruct (virtual_podSpec _ _ _) as [q|e|] eqn:Eq; [|done..].
    cbn in E. eapply Server.add_volumes_backed; [|..|exact E]; [apply Mounts.secret_mounts_backed|].
    unfold virtual_podSpec in Eq. eapply Server.kata_backed; [|exact Eq].
    intros ct ->%list_elem_of_singleton m Hm. cbn [ct_VolumeMounts ps_Volumes] in *. left.
    assert (Forall (λ m, vm_Name m ∈ (["config"; "run"; "varrun"; "varlibcni"; "varlog";
              "varlibkubelet"; "varlibrancherk3s"])) virtual_mounts) as Hall
      by (apply (bool_decide_unpack _); vm_compute; exact I).
    rewrite Forall_forall in Hall. exact (Hall m Hm). }
  split; [done|]. intros p' E'. eapply Server.add_volumes_backed; [|exact Hb|exact E'].
  apply Mounts.backed_own. by intros m ->%list_elem_of_singleton.
Qed.

Definition password_key (v : VirtualAgent) : ObjKey :=
  ns_key "Secret" (va_cluster v) (nodePasswordName (Name (cl_Meta (va_cluster v)))).

(** A step that leaves an existing object of key [k] as it is. *)
Definition keeps {A} (k : ObjKey) (m : M W A) : Prop :=
  ∀ w r w' o, m w = (r, w') → store w !! k = Some o → store w' !! k = Some o.

Lemma touches_keeps {A} k ks (m : M W A) : k ∉ ks → touches ks m → keeps k m.
Proof. intros Hk Ht w r w' o E Ho. destruct (Ht _ _ _ E) as [H1 _]. by rewrite H1. Qed.

Lemma keeps_bind {A B} k (m : M W A) (f : A → M W B) :
  keeps k m → (∀ a, keeps k (f a)) → keeps k (x ← m; f x).
Proof.
  intros Hm Hf w r w' o E Ho. unfold mbind, M_bind in E. destruct (m w) as [[a|e|] w1] eqn:E1.
  - eapply Hf; [exact E|]. by eapply Hm.
  - injection E as <- <-. by eapply Hm.
  - injection E as <- <-. by eapply Hm.
Qed.

Lemma keeps_attempt {A} k (m : M W A) : keeps k m → keeps k (attempt m).
Proof.
  intros Hm w r w' o E. unfold attempt in E.
  destruct (m w) as [[a|e|] w1] eqn:E1; injection E as <- <-; by eapply Hm.
Qed.

Lemma keeps_ensure_all k ms : Forall (keeps k) ms → keeps k (ensure_all ms).
Proof.
  intros Hms. apply keeps_bind.
  - induction Hms as [|m ms Hm _ IH]; cbn [join_all]; [by intros w r w' o [= _ <-]|].
    apply keeps_bind; [by apply keeps_attempt|]. intros r. apply keeps_bind; [done|].
    intros es. by intros w r' w' o [= _ <-].
  - intros errs. destruct (errors_join errs); by intros w r w' o [= _ <-].
Qed.

Context (random_keeps : ∀ w r w', cryptorand_Read w = (r, w') → store w' = store w).

Lemma keeps_nodePassword v : keeps (password_key v) (nodePassword v).
Proof.
  unfold nodePassword. apply keeps_bind.
  { intros w r w' o E. by rewrite (random_keeps _ _ _ E). }
  intros password. apply keeps_bind; [by intros w r w' o [= _ <-]|]. intros m.
  apply keeps_bind; [|intros [y|err]; [|destruct (IsAlreadyExists err)]; by intros w r w' o [= _ <-]].
  apply keeps_attempt. intros w r w' o E Ho. apply (Create_run c) in E as [_ Hr].
  destruct r as [y|e|]; [|by rewrite Hr|done]. destruct Hr as (Hn & _ & -> & _).
  rewrite lookup_insert_ne; [done|]. intros Hk. rewrite Hk in Hn. congruence.
Qed.

Lemma keeps_lift {A} k (o : outcome A) : keeps k (lift o : M W A).
Proof. by intros w r w' x [= _ <-]. Qed.

Lemma keeps_ensureObject {T} `{SetMeta T} cluster (obj : T) k :
  is_deleting (meta obj) = false → k ≠ obj_key (inj obj) → keeps k (ensureObject cluster obj).
Proof.
  intros Hd Hk. eapply touches_keeps; [|by apply touches_ensureObject]. set_solver.
Qed.

(** The node password of the virtual agents is made once: no later run, on
    whatever path and with whatever outcome, changes a password secret that
    exists (the agents keep their identity). *)
Theorem node_password_kept v :
  configSecretName (Name (cl_Meta (va_cluster v))) ≠ nodePasswordName (Name (cl_Meta (va_cluster v))) →
  keeps (password_key v) (virtual_EnsureResources v).
Proof.
  intros Hne. unfold virtual_EnsureResources. apply keeps_bind.
  { unfold deprecatedDeployment. apply keeps_bind.
    - apply keeps_attempt. intros w r w' o E. apply (Get_run c) in E as (Hs & _). by rewrite Hs.
    - intros [dep|err]; [|destruct (IsNotFound err)]; by intros w r w' o [= _ <-]. }
  assert (∀ b, keeps (password_key v) (virtual_config v b)) as Hconfig.
  { intros b. unfold virtual_config. apply keeps_bind; [apply keeps_lift|]. intros config.
    apply keeps_ensureObject; [done|]. intros Hk. apply Hne. by injection Hk as ->. }
  assert (∀ K n, K ≠ "Secret" → password_key v ≠ (K, n)) as Hkind by (intros K n HK [= HK']; done).
  intros [dep|]; apply keeps_ensure_all; repeat apply List.Forall_cons; try apply List.Forall_nil;
    try apply Hconfig.
  - apply keeps_bind; [apply keeps_lift|]. intros p. apply keeps_ensureObject; [done|by apply Hkind].
  - apply keeps_nodePassword.
  - apply keeps_ensureObject; [done|by apply Hkind].
  - apply keeps_bind; [apply keeps_lift|]. intros p. apply keeps_bind; [apply keeps_lift|].
    intros p'. apply keeps_ensureObject; [done|by apply Hkind].
Qed.
End Effects.
End Agent.

(** ** Concrete runs *)
Definition ex_shared : SharedAgent := {|
  sa_cluster := Server.ex_cluster; sa_serviceIP := "10.43.0.7"; sa_image := "rancher/k3k-kubelet";
  sa_imagePullPolicy := ""; sa_imageRegistry := ""; sa_token := "token"; sa_kubeletPort := 10250;
  sa_imagePullSecrets := [] |}.
Definition ex_virtual : VirtualAgent := {|
  va_cluster := Server.ex_cluster; va_serviceIP := "10.43.0.7"; va_token := "token";
  va_Image := "rancher/k3s"; va_ImagePullPolicy := ""; va_ImageRegistry := "";
  va_imagePullSecrets := [] |}.
Definition ex_random : M mem string := mret "0123456789abcdef".
Definition ex_yaml {A} (_ : A) : outcome string := Ok "yaml".
Definition ex_w1 : mem := (virtual_EnsureResources mem_client ex_yaml ex_random ex_virtual Server.ex_world).2.

Lemma shared_EnsureResources_spec_witness :
  ∃ w', shared_EnsureResources mem_client ex_yaml ex_shared Server.ex_world = (Ok tt, w') ∧
    ∀ k, k ∈ shared_keys ex_shared → is_Some (mem_objects w' !! k).
Proof.
  assert ((shared_EnsureResources mem_client ex_yaml ex_shared Server.ex_world).1 = Ok tt) as Hr
    by (vm_compute; reflexivity).
  destruct (shared_EnsureResources mem_client ex_yaml ex_shared Server.ex_world) as [r w'] eqn:E.
  cbn [fst] in Hr. subst r. exists w'. split; [reflexivity|].
  exact (proj2 (shared_EnsureResources_spec mem_client ex_yaml ex_shared) _ _ E).
Defined.

Lemma agent_pod_backed_witness :
  ∃ p, agent_pod ex_virtual = Ok p ∧ Mounts.backed_pod [] p.
Proof.
  destruct (agent_pod ex_virtual) as [p|e|] eqn:E; [|vm_compute in E; discriminate..].
  exists p. split; [reflexivity|]. exact (proj1 (agent_pod_backed ex_virtual p E)).
Defined.

Lemma node_password_kept_witness :
  ∃ o, mem_objects ex_w1 !! password_key ex_virtual = Some o ∧
    mem_objects (virtual_EnsureResources mem_client ex_yaml (mret "another password") ex_virtual ex_w1).2
      !! password_key ex_virtual = Some o.
Proof.
  assert (is_Some (mem_objects ex_w1 !! password_key ex_virtual)) as Hs
    by (apply (bool_decide_unpack _); vm_compute; exact I).
  assert (configSecretName (Name (cl_Meta (va_cluster ex_virtual))) ≠
          nodePasswordName (Name (cl_Meta (va_cluster ex_virtual)))) as Hne
    by (apply (bool_decide_unpack _); vm_compute; exact I).
  revert Hs. generalize ex_w1 as w1. intros w1 [o Ho]. exists o. split; [exact Ho|].
  assert (∀ w r w', (mret "another password" : M mem string) w = (r, w') →
            store (ClientLaws:=mem_laws) w' = store w) as Hrand by (by intros w r w' [= _ <-]).
  destruct (virtual_EnsureResources mem_client ex_yaml (mret "another password") ex_virtual w1)
    as [r w2] eqn:E.
  exact (node_password_kept mem_client ex_yaml (mret "another password") Hrand ex_virtual Hne
           w1 r w2 o E Ho).
Defined.
End Agent.
