(* ===== verification/Hcp.v ===== *)
(** * The endpoints of the hcp mode (pkg/controller/cluster/hcp.go)

    The addresses under which external nodes reach the API server of a
    cluster, published in the default/kubernetes Endpoints and EndpointSlice of
    the virtual cluster.  The DNS resolver is a parameter. *)

From S2P Require Import Prelude GoStd GoNet GoDate K8s Types Kube Effects Names Expose Server Access.

Local Open Scope string_scope.

Module Hcp.

Fixpoint findNonLoopbackSAN (sans : list string) : string :=
  match sans with
  | [] => ""
  | san :: sans' =>
      if decide (san = "localhost") then findNonLoopbackSAN sans'
      else match ParseIP san with
           | Some ip => if IsLoopback ip then findNonLoopbackSAN sans' else san
           | None => san
           end
  end.

Definition isIPv4 (address : string) : bool :=
  match ParseIP address with
  | Some ip => bool_decide (To4 ip ≠ None)
  | None => false
  end.

(** [URL.Port] and [URL.Hostname] of net/url, on the hosts that [Expose.URL]
    makes: a name, [name:port] or [[name]:port]. *)
Fixpoint last_colon (s : string) : option (string * string) :=
  match s with
  | EmptyString => None
  | String c r =>
      match last_colon r with
      | Some (a, b) => Some (String c a, b)
      | None => if decide (c = ":"%char) then Some ("", r) else None
      end
  end.

Definition all_digits (s : string) : bool := forallb is_digit (String.list_ascii_of_string s).

(** [splitHostPort]: the port after the last colon when it consists of digits,
    and the brackets of an IPv6 host removed. *)
Definition splitHostPort (hostPort : string) : string * string :=
  let '(host, port) := match last_colon hostPort with
                       | Some (h, p) => if all_digits p then (h, p) else (hostPort, "")
                       | None => (hostPort, "")
                       end in
  (if strings_HasPrefix host "[" && bool_decide (str_last host = Some "]"%char)
   then str_take (String.length host - 2) (str_drop 1 host) else host, port).

Definition NodeInternalIP : string := "InternalIP".
Definition LabelServiceName : string := "kubernetes.io/service-name".
Definition LabelSkipMirror : string := "endpointslice.kubernetes.io/skip-mirror".

Section Hcp.
Context {W : Type} (c : Client W) `{KubeUtil}.
Context {RestConfig : Type} (RESTConfigFromKubeConfig : string → outcome RestConfig).
Context (ctrlruntimeclient_New : RestConfig → outcome (Client W)).

(** [net.DefaultResolver.LookupIPAddr] *)
Context (LookupIPAddr : string → M W (list IP)).

Definition listServerPods (cluster : Cluster) : M W (list Pod) :=
  r ← attempt (List_ c Pod {|
    lo_Namespace := Namespace (cl_Meta cluster);
    lo_Selector := [ReqEquals "cluster" (Name (cl_Meta cluster)); ReqEquals "role" "server"];
    lo_Fields := [] |});
  match r with
  | inl pods => mret pods
  | inr err => fail (EFmt [EText "listing server pods: "; err])
  end.

(** The loop over the nodes: one that cannot be fetched, or that is going
    away, is skipped. *)
Definition node_addresses (wantIPv4 : bool) (node : Node) : list string :=
  flat_map (λ address,
    if decide (na_Type address ≠ NodeInternalIP) then []
    else if decide (ParseIP (na_Address address) = None) then []
    else if negb (Bool.eqb (isIPv4 (na_Address address)) wantIPv4) then []
    else [na_Address address]) (node_Addresses node).

Definition collect_node (wantIPv4 : bool) (ips : list string) (nodeName : string) : M W (list string) :=
  r ← attempt (Get c Node {| nn_Namespace := ""; nn_Name := nodeName |});
  match r with
  | inr _ => mret ips
  | inl node => if is_deleting (node_Meta node) then mret ips
                else mret (ips ++ node_addresses wantIPv4 node)%list
  end.

Definition serverNodeIPs (cluster : Cluster) (wantIPv4 : bool) : M W (list string) :=
  serverPods ← listServerPods cluster;
  let nodeNames := flat_map (λ pod,
    if decide (ps_NodeName (pod_Spec pod) ≠ "") then
      if is_deleting (pod_Meta pod) then [] else [ps_NodeName (pod_Spec pod)]
    else []) serverPods in
  fold_m (collect_node wantIPv4) (sets_List nodeNames) [].

(** [client.MatchingLabels] of a label map. *)
Definition labels_opts (l : gomap string) : ListOptions :=
  {| lo_Namespace := "";
     lo_Selector := map (λ p, ReqEquals p.1 p.2) (map_to_list (default ∅ l)); lo_Fields := [] |}.

Definition hostNodeIPs (cluster : Cluster) : M W (list string) :=
  r ← attempt (List_ c Node (labels_opts (Server.NodeSelector_ cluster)));
  match r with
  | inr err => fail (EFmt [EText "listing host nodes: "; err])
  | inl nodeList =>
      mret (sets_List (flat_map (λ node,
        flat_map (λ address, if decide (na_Type address = NodeInternalIP) then [na_Address address] else [])
          (node_Addresses node)) nodeList))
  end.

(** An [EndpointAddress] of which only the address is set. *)
Definition hcpEndpointAddress (host : string) : M W string :=
  match ParseIP host with
  | Some ip =>
      if IsLoopback ip then
        fail (EText ("HCP endpoint host " +:+ fmt_q host +:+ " is a loopback address and cannot be used"))
      else mret host
  | None =>
      r ← attempt (LookupIPAddr host);
      match r with
      | inr err => fail (EFmt [EText ("HCP endpoint host " +:+ fmt_q host
                                      +:+ " is not an IP and does not resolve: "); err])
      | inl ipAddrs =>
          match List.filter (λ ip, negb (IsLoopback ip)) ipAddrs with
          | [] => fail (EText ("HCP endpoint host " +:+ fmt_q host +:+ " resolved to no non-loopback IPs"))
          | ip :: _ => match To4 ip with
                       | Some v4 => mret (v4_string v4)
                       | None => mret (IP_String ip)
                       end
          end
      end
  end.

Definition atoi_error (s : string) : error :=
  EText ("strconv.Atoi: parsing " +:+ fmt_q s +:+ ": invalid syntax").

Definition is_exposed_on_nodes (cluster : Cluster) : bool :=
  match Expose (cl_Spec cluster) with
  | Some {| exp_NodePort := Some _ |} => true
  | _ => false
  end.

Definition hcpEndpointAddresses (cluster : Cluster) : M W (list string * Z) :=
  url ← Expose.URL c cluster (findNonLoopbackSAN (TLSSANs (cl_Spec cluster)));
  let '(hostname, urlPort) := splitHostPort (Expose.Host url) in
  let portText := if decide (urlPort = "") then "443" else urlPort in
  port ← lift (match strconv_Atoi portText with Some p => Ok p | None => Err (atoi_error portText) end);
  addr ← hcpEndpointAddress hostname;
  nodeIPs ← (if is_exposed_on_nodes cluster then serverNodeIPs cluster (isIPv4 addr) else mret []);
  match nodeIPs with
  | _ :: _ => mret (nodeIPs, GoDate.int32 port)
  | [] => mret ([addr], GoDate.int32 port)
  end.

Definition https_port (port : Z) : EndpointPort :=
  {| ep_Name := "https"; ep_Port := port; ep_Protocol := ProtocolTCP |}.

(** [if m == nil { m = make(map[string]string) }; m[k] = v] *)
Definition set_label (k v : string) (m : ObjectMeta) : ObjectMeta :=
  set_Labels (Some (<[k := v]> (default ∅ (Labels m)))) m.

Definition virtual_client (prefix : string) (cluster : Cluster) : M W (Client W) :=
  r ← attempt (Virtual.newVirtualClient c RESTConfigFromKubeConfig ctrlruntimeclient_New
                 (Name (cl_Meta cluster)) (Namespace (cl_Meta cluster)));
  match r with
  | inl vc => mret vc
  | inr err => fail (EFmt [EText prefix; err])
  end.

Definition upserted {A} (what : string) (m : M W A) : M W unit :=
  r ← attempt m;
  match r with
  | inl _ => mret tt
  | inr err => fail (EFmt [EText ("upserting default/kubernetes " +:+ what +:+ " in virtual cluster: "); err])
  end.

Definition kubernetes_slice (ips : list string) (port : Z) (s : EndpointSlice) : EndpointSlice := {|
  eps_Meta := set_label LabelServiceName "kubernetes" (eps_Meta s);
  eps_AddressType := match ips with
                     | ip :: _ => if isIPv4 ip then "IPv4" else "IPv6"
                     | [] => "IPv6"
                     end;
  eps_Endpoints := map (λ ip, [ip]) ips;
  eps_Ports := [https_port port] |}.

Definition ensureHCPKubernetesEndpointSlice (cluster : Cluster) : M W unit :=
  '(ips, port) ← hcpEndpointAddresses cluster;
  virtClient ← virtual_client "creating virtual cluster client: " cluster;
  upserted "endpointslice"
    (CreateOrUpdate virtClient
       {| eps_Meta := meta_of "default" "kubernetes"; eps_AddressType := ""; eps_Endpoints := [];
          eps_Ports := [] |}
       (λ s, Ok (kubernetes_slice ips port s))).

Definition kubernetes_endpoints (ips : list string) (port : Z) (e : Endpoints) : Endpoints := {|
  epo_Meta := set_label LabelSkipMirror "true" (epo_Meta e);
  epo_Subsets := [{| sub_Addresses := ips; sub_Ports := [https_port port] |}] |}.

Definition ensureHCPKubernetesEndpoints (cluster : Cluster) : M W unit :=
  '(ips, port) ← hcpEndpointAddresses cluster;
  virtClient ← virtual_client "creating virtual cluster client: " cluster;
  upserted "endpoints"
    (CreateOrUpdate virtClient
       {| epo_Meta := meta_of "default" "kubernetes"; epo_Subsets := [] |}
       (λ e, Ok (kubernetes_endpoints ips port e))).
End Hcp.
End Hcp.
