(* ===== verification/Policy.v ===== *)
(** * The VirtualClusterPolicy controller (pkg/controller/policy)

    networkpolicy.go, namespace.go, policy_finalize.go and policy.go: the
    reconciler of the policies, the cleanup of the namespaces and the handlers
    of the watched events.  Logs are not modelled; the work queue is the list
    of the requests in the order they are added. *)

From S2P Require Import Prelude GoStd K8s Types Kube Effects Names Translate.

Local Open Scope string_scope.
Local Open Scope nat_scope.

Module Policy.

#[local] Set Default Proof Using "Type*".

Definition PolicyNameLabelKey : string := "policy.k3k.io/policy-name".
Definition ManagedByLabelKey : string := "app.kubernetes.io/managed-by".
Definition VirtualPolicyControllerName : string := "k3k-policy-controller".
Definition policyFinalizerName : string := "policy.k3k.io/finalizer".

Definition psa_enforce : string := "pod-security.kubernetes.io/enforce".
Definition psa_enforce_version : string := "pod-security.kubernetes.io/enforce-version".
Definition psa_warn : string := "pod-security.kubernetes.io/warn".
Definition psa_warn_version : string := "pod-security.kubernetes.io/warn-version".

Definition policy_owner (policy : VirtualClusterPolicy) : OwnerReference := {|
  or_APIVersion := SchemeGroupVersion; or_Kind := "VirtualClusterPolicy";
  or_Name := Name (vcp_Meta policy); or_UID := UID (vcp_Meta policy); or_Controller := None |}.

(** [types.NamespacedName{Name: n}] *)
Definition cluster_scoped (n : string) : NamespacedName :=
  {| nn_Namespace := ""; nn_Name := n |}.

Definition ns_policy (ns : NamespaceObj) : string := map_str (Labels (ns_Meta ns)) PolicyNameLabelKey.

(** ** networkpolicy.go *)
Definition match_labels (l : list (string * string)) : LabelSelector :=
  {| ls_MatchLabels := map_lit l; ls_MatchExpressions := [] |}.

Definition IsolationNetworkPolicySpec (namespaceName : string) (podCIDRs : list string)
  : NetworkPolicySpec := {|
  nps_PodSelector := {|
    ls_MatchLabels := None;
    ls_MatchExpressions := [{| lsr_Key := Translate.ClusterNameLabel; lsr_Operator := "Exists";
                               lsr_Values := [] |}] |};
  nps_PolicyTypes := ["Ingress"; "Egress"];
  nps_Ingress := [[]];
  nps_Egress := [[
    {| npp_IPBlock := Some {| ib_CIDR := "0.0.0.0/0"; ib_Except := podCIDRs |};
       npp_NamespaceSelector := None; npp_PodSelector := None |};
    {| npp_IPBlock := None;
       npp_NamespaceSelector := Some (match_labels [("kubernetes.io/metadata.name", namespaceName)]);
       npp_PodSelector := None |};
    {| npp_IPBlock := None;
       npp_NamespaceSelector := Some (match_labels [("kubernetes.io/metadata.name", "kube-system")]);
       npp_PodSelector := Some (match_labels [("k8s-app", "kube-dns")]) |}]] |}.

(** The name and the labels of the objects the controller manages for a policy
    in a namespace. *)
Definition managed_meta (namespace : string) (policy : VirtualClusterPolicy) : ObjectMeta :=
  set_Labels (map_lit [(ManagedByLabelKey, VirtualPolicyControllerName);
                       (PolicyNameLabelKey, Name (vcp_Meta policy))])
    (meta_of namespace (Names.SafeConcatNameWithPrefix [Name (vcp_Meta policy)])).

Definition networkPolicy (namespaceName : string) (policy : VirtualClusterPolicy)
    (cidrList : list string) : NetworkPolicy := {|
  np_Meta := managed_meta namespaceName policy;
  np_Spec := IsolationNetworkPolicySpec namespaceName cidrList |}.

Section Controller.
Context {W : Type} (c : Client W) `{KubeUtil} (ClusterCIDR : string).

Definition FindPodCIDRs (clusterCIDR : string) : M W (list string) :=
  if decide (clusterCIDR ≠ "") then mret [clusterCIDR]
  else
    nodeList ← List_ c Node list_all;
    mret (sets_List (flat_map (λ node,
            node_PodCIDRs node ++
            (if decide (node_PodCIDR node ≠ "") then [node_PodCIDR node] else []))%list nodeList)).

(** [err := Create(obj); if IsAlreadyExists(err) { return Update(obj) }; return err] *)
Definition create_else_update {T} `{Resource T} (obj : T) : M W unit :=
  r ← attempt (Create c obj);
  match r with
  | inl _ => mret tt
  | inr err => if IsAlreadyExists err then Update c obj ;; mret tt else fail err
  end.

Definition reconcileNetworkPolicy (namespace : string) (policy : VirtualClusterPolicy) : M W unit :=
  cidrList ← FindPodCIDRs ClusterCIDR;
  let np := networkPolicy namespace policy cidrList in
  m ← lift (SetControllerReference (policy_owner policy) (np_Meta np));
  let np := {| np_Meta := m; np_Spec := np_Spec np |} in
  if DisableNetworkPolicy (vcp_Spec policy) then ignore_not_found (Delete c np)
  else create_else_update np.

(** ** namespace.go *)
Definition with_labels (l : gomap string) (ns : NamespaceObj) : NamespaceObj :=
  {| ns_Meta := set_Labels l (ns_Meta ns) |}.

Definition del_psa (l : gomap string) : gomap string :=
  map_del (map_del (map_del (map_del l psa_enforce) psa_enforce_version) psa_warn) psa_warn_version.

Definition reconcileNamespacePodSecurityLabels (namespace : NamespaceObj)
    (policy : VirtualClusterPolicy) : outcome NamespaceObj :=
  let ls := del_psa (Labels (ns_Meta namespace)) in
  match PodSecurityAdmissionLevel_ (vcp_Spec policy) with
  | None => Ok (with_labels ls namespace)
  | Some psaLevel =>
      ls ← map_set ls psa_enforce psaLevel;
      ls ← map_set ls psa_enforce_version "latest";
      if decide (psaLevel ≠ PrivilegedPodSecurityAdmissionLevel) then
        ls ← map_set ls psa_warn psaLevel;
        ls ← map_set ls psa_warn_version "latest";
        mret (with_labels ls namespace)
      else mret (with_labels ls namespace)
  end.

(** The loops over clusters that update a status and go on after an error. *)
Definition update_status_if (changed : bool) (cluster : Cluster) : M W unit :=
  if changed then StatusUpdate c cluster ;; mret tt else mret tt.

Definition wrap_error {A} (f : error → error) (m : M W A) : M W A :=
  r ← attempt m; match r with inl a => mret a | inr e => fail (f e) end.

Definition without_policy (cluster : Cluster) : Cluster :=
  set_Status (st_set_Policy None (cl_Status cluster)) cluster.

Definition clearPolicyFieldsForClustersInNamespace (namespace : string) : M W unit :=
  clusters ← wrap_error (λ err, EFmt [EText "failed listing clusters in namespace "; EText namespace;
                                      EText ": "; err])
               (List_ c Cluster (InNamespace namespace));
  updateErrs ← join_all (map (λ cluster,
    wrap_error (λ err, EFmt [EText "failed updating Status for Cluster ";
                             EText (Name (cl_Meta cluster)); EText ": "; err])
      (update_status_if (bool_decide (st_Policy (cl_Status cluster) ≠ None))
         (without_policy cluster))) clusters);
  ret_err (errors_join updateErrs).

(** The error of [labels.NewRequirement(key, selection.NotEquals, values)]. *)
Context (NewRequirement : string → list string → option error).

Definition cleanup_opts (ns : NamespaceObj) (reqs : list requirement) : ListOptions :=
  {| lo_Namespace := Name (ns_Meta ns); lo_Selector := reqs; lo_Fields := [] |}.

(** The requirement on the policy that the cleanup adds for a bound namespace. *)
Definition other_policy (currentPolicyName : string) : list requirement :=
  match NewRequirement PolicyNameLabelKey [currentPolicyName] with
  | Some _ => []
  | None => [ReqNotEquals PolicyNameLabelKey currentPolicyName]
  end.

Definition cleanupNamespace (ns : NamespaceObj) : M W unit :=
  let currentPolicyName := ns_policy ns in
  let selector := [ReqEquals ManagedByLabelKey VirtualPolicyControllerName] in
  selector ←
    (if decide (currentPolicyName = "") then
       attempt (clearPolicyFieldsForClustersInNamespace (Name (ns_Meta ns))) ;; mret selector
     else
       r ← attempt (Get c VirtualClusterPolicy (cluster_scoped currentPolicyName));
       (match r with
        | inl _ => mret tt
        | inr err =>
            if IsNotFound err then
              attempt (clearPolicyFieldsForClustersInNamespace (Name (ns_Meta ns))) ;; mret tt
            else mret tt
        end) ;;
       mret (selector ++ other_policy currentPolicyName)%list);
  let deleteOpts := cleanup_opts ns selector in
  DeleteAllOf c NetworkPolicy deleteOpts ;;
  DeleteAllOf c ResourceQuota deleteOpts ;;
  DeleteAllOf c LimitRange deleteOpts.

Definition cleanupNamespaces : M W unit :=
  namespaces ← List_ c NamespaceObj list_all;
  for_each namespaces cleanupNamespace.

(** ** policy_finalize.go *)
Definition policy_label (policy : VirtualClusterPolicy) : ListOptions :=
  MatchingLabels [(PolicyNameLabelKey, Name (vcp_Meta policy))].

(** The labels that a deleted policy leaves to a namespace. *)
Definition unbound_labels (policy : VirtualClusterPolicy) (ls : gomap string) : gomap string :=
  let ls := map_del ls PolicyNameLabelKey in
  if decide (PodSecurityAdmissionLevel_ (vcp_Spec policy) ≠ None) then del_psa ls else ls.

Definition collect {A} (f : error → error) (m : M W A) (errs : list (option error))
  : M W (list (option error)) :=
  r ← attempt m;
  mret (match r with inl _ => errs | inr e => (errs ++ [Some (f e)])%list end).

Definition cleanupPolicyNamespace (policy : VirtualClusterPolicy) (cleanupErrs : list (option error))
    (ns : NamespaceObj) : M W (list (option error)) :=
  cleanupErrs ← collect (λ err, EFmt [EText "failed to clear cluster policy fields in namespace ";
                                      EText (Name (ns_Meta ns)); EText ": "; err])
                  (clearPolicyFieldsForClustersInNamespace (Name (ns_Meta ns))) cleanupErrs;
  let ls := unbound_labels policy (Labels (ns_Meta ns)) in
  if decide (Labels (ns_Meta ns) ≠ ls) then
    collect (λ err, EFmt [EText "failed to update namespace "; EText (Name (ns_Meta ns));
                          EText " labels: "; err])
      (Update c (with_labels ls ns)) cleanupErrs
  else mret cleanupErrs.

Definition cleanupPolicyResources (policy : VirtualClusterPolicy) : M W unit :=
  namespaces ← List_ c NamespaceObj (policy_label policy);
  cleanupErrs ← fold_m (cleanupPolicyNamespace policy) namespaces [];
  ret_err (errors_join cleanupErrs).

Definition with_policy_meta (m : ObjectMeta) (policy : VirtualClusterPolicy) : VirtualClusterPolicy :=
  {| vcp_Meta := m; vcp_Spec := vcp_Spec policy; vcp_Status := vcp_Status policy |}.

Definition with_policy_conditions (cs : list Condition) (policy : VirtualClusterPolicy)
  : VirtualClusterPolicy :=
  {| vcp_Meta := vcp_Meta policy; vcp_Spec := vcp_Spec policy;
     vcp_Status := {| vps_ObservedGeneration := vps_ObservedGeneration (vcp_Status policy);
                      vps_LastUpdate := vps_LastUpdate (vcp_Status policy);
                      vps_Summary := vps_Summary (vcp_Status policy);
                      vps_Conditions := cs |} |}.

Definition terminating_condition : Condition := {|
  cond_Type := "Ready"; cond_Status := ConditionFalse; cond_Reason := "Terminating";
  cond_Message := "Policy is being terminated" |}.

Definition finalizePolicy (policy : VirtualClusterPolicy) : M W unit :=
  let policy := with_policy_conditions
                  (SetStatusCondition (vps_Conditions (vcp_Status policy)) terminating_condition)
                  policy in
  r ← attempt (StatusUpdate c policy);
  let policy := match r with inl updated => updated | inr _ => policy end in
  attempt (cleanupPolicyResources policy) ;;
  let '(m, removed) := RemoveFinalizer (vcp_Meta policy) policyFinalizerName in
  if removed : bool then Update c (with_policy_meta m policy) ;; mret tt else mret tt.

(** ** policy.go *)
Definition managed_key (namespace : string) (policy : VirtualClusterPolicy) : NamespacedName :=
  {| nn_Namespace := namespace;
     nn_Name := Names.SafeConcatNameWithPrefix [Name (vcp_Meta policy)] |}.

Definition delete_if_found (T : Type) `{Resource T} (key : NamespacedName) : M W unit :=
  r ← attempt (Get c T key);
  match r with
  | inl toDelete => Delete c toDelete
  | inr err => if IsNotFound err then mret tt else fail err
  end.

Definition reconcileQuota (namespace : string) (policy : VirtualClusterPolicy) : M W unit :=
  match Quota (vcp_Spec policy) with
  | None => delete_if_found ResourceQuota (managed_key namespace policy)
  | Some spec =>
      m ← lift (SetControllerReference (policy_owner policy) (managed_meta namespace policy));
      create_else_update {| rq_Meta := m; rq_Spec := spec; rq_Hard := None |}
  end.

Definition reconcileLimit (namespace : string) (policy : VirtualClusterPolicy) : M W unit :=
  match Limit (vcp_Spec policy) with
  | None => delete_if_found LimitRange (managed_key namespace policy)
  | Some spec =>
      m ← lift (SetControllerReference (policy_owner policy) (managed_meta namespace policy));
      create_else_update {| lr_Meta := m; lr_Spec := spec |}
  end.

Definition applied_policy (policy : VirtualClusterPolicy) : AppliedPolicy := {|
  ap_Name := Name (vcp_Meta policy);
  ap_PriorityClass := Some (DefaultPriorityClass (vcp_Spec policy));
  ap_NodeSelector := DefaultNodeSelector (vcp_Spec policy);
  ap_ServerAffinity := DefaultServerAffinity (vcp_Spec policy);
  ap_AgentAffinity := DefaultAgentAffinity (vcp_Spec policy);
  ap_Sync := vcp_Sync (vcp_Spec policy);
  ap_RuntimeClassName := vcp_RuntimeClassName (vcp_Spec policy);
  ap_PodSecurityContext := None;
  ap_SecurityContext := vcp_SecurityContext (vcp_Spec policy);
  ap_HostUsers := vcp_HostUsers (vcp_Spec policy);
  ap_AllowedHostSchedulers := vcp_AllowedHostSchedulers (vcp_Spec policy) |}.

Definition with_policy (policy : VirtualClusterPolicy) (cluster : Cluster) : Cluster :=
  set_Status (st_set_Policy (Some (applied_policy policy)) (cl_Status cluster)) cluster.

Definition reconcileClusters (namespace : NamespaceObj) (policy : VirtualClusterPolicy) : M W unit :=
  clusters ← List_ c Cluster (InNamespace (Name (ns_Meta namespace)));
  clusterUpdateErrs ← join_all (map (λ cluster,
    let updated := with_policy policy cluster in
    update_status_if (bool_decide (cl_Status cluster ≠ cl_Status updated)) updated) clusters);
  ret_err (errors_join clusterUpdateErrs).

Definition reconcileNamespace (policy : VirtualClusterPolicy) (ns : NamespaceObj) : M W unit :=
  reconcileNetworkPolicy (Name (ns_Meta ns)) policy ;;
  reconcileQuota (Name (ns_Meta ns)) policy ;;
  reconcileLimit (Name (ns_Meta ns)) policy ;;
  reconcileClusters ns policy ;;
  ns' ← lift (reconcileNamespacePodSecurityLabels ns policy);
  if decide (ns ≠ ns') then Update c ns' ;; mret tt else mret tt.

Definition reconcileMatchingNamespaces (policy : VirtualClusterPolicy) : M W unit :=
  namespaces ← List_ c NamespaceObj (policy_label policy);
  for_each namespaces (reconcileNamespace policy).

Definition reconcileVirtualClusterPolicy (policy : VirtualClusterPolicy) : M W unit :=
  reconcileMatchingNamespaces policy ;; cleanupNamespaces.

(** [reflect.DeepEqual(orig, policy)] compares a pointer with a struct: values
    of different types are never deeply equal.  The reconciliation has not
    changed the policy, so the comparison of the statuses is the reflexive
    one. *)
Definition deep_equal_pointer_value (orig policy : VirtualClusterPolicy) : bool := false.

Definition Reconcile (req : NamespacedName) : M W unit :=
  r ← attempt (Get c VirtualClusterPolicy req);
  match r with
  | inr err => if IsNotFound err then mret tt else fail err
  | inl policy =>
      if is_deleting (vcp_Meta policy) then finalizePolicy policy
      else
        let '(m, added) := AddFinalizer (vcp_Meta policy) policyFinalizerName in
        let policy := with_policy_meta m policy in
        policy ← (if added : bool then Update c policy else mret policy);
        let orig := policy in
        reconcilerErr ← attempt (reconcileVirtualClusterPolicy policy);
        (if bool_decide (vcp_Status orig = vcp_Status policy) then mret policy
         else StatusUpdate c policy) ≫= λ policy,
        match reconcilerErr with
        | inr err => fail err
        | inl _ =>
            if deep_equal_pointer_value orig policy then mret tt
            else Update c policy ;; mret tt
        end
  end.

(** ** The event handlers *)
Inductive event : Type :=
| CreateEvent (o : Obj)
| UpdateEvent (old new : Obj)
| DeleteEvent (o : Obj).

Definition enqueue (policyName : string) : list NamespacedName := [cluster_scoped policyName].

Definition namespaceEventHandler (e : event) : list NamespacedName :=
  match e with
  | CreateEvent (ONamespace ns) | DeleteEvent (ONamespace ns) =>
      if decide (ns_policy ns ≠ "") then enqueue (ns_policy ns) else []
  | UpdateEvent (ONamespace oldNs) (ONamespace newNs) =>
      let oldVCPName := ns_policy oldNs in
      let newVCPName := ns_policy newNs in
      if decide (Labels (ns_Meta oldNs) = Labels (ns_Meta newNs)) then []
      else if decide (oldVCPName = "" ∧ newVCPName = "") then []
      else if decide (oldVCPName = newVCPName) then enqueue oldVCPName
      else
        ((if decide (oldVCPName ≠ "") then enqueue oldVCPName else []) ++
         (if decide (newVCPName ≠ "") then enqueue newVCPName else []))%list
  | _ => []
  end.

Definition enqueueAllVCPs : M W (list NamespacedName) :=
  r ← attempt (List_ c VirtualClusterPolicy list_all);
  match r with
  | inr _ => mret []
  | inl vcpList => mret (flat_map (λ vcp, enqueue (Name (vcp_Meta vcp))) vcpList)
  end.

Definition nodeEventHandler (e : event) : M W (list NamespacedName) :=
  if decide (ClusterCIDR ≠ "") then mret []
  else match e with
       | CreateEvent _ | DeleteEvent _ => enqueueAllVCPs
       | UpdateEvent (ONode oldNode) (ONode newNode) =>
           if bool_decide (node_PodCIDR oldNode ≠ node_PodCIDR newNode) ||
              bool_decide (node_PodCIDRs oldNode ≠ node_PodCIDRs newNode)
           then enqueueAllVCPs else mret []
       | UpdateEvent _ _ => mret []
       end.

Definition clusterEventHandler (e : event) : M W (list NamespacedName) :=
  match e with
  | CreateEvent (OCluster cluster) =>
      r ← attempt (Get c NamespaceObj (cluster_scoped (Namespace (cl_Meta cluster))));
      match r with
      | inr _ => mret []
      | inl ns => mret (if decide (ns_policy ns ≠ "") then enqueue (ns_policy ns) else [])
      end
  | UpdateEvent (OCluster oldCluster) (OCluster newCluster) =>
      r ← attempt (Get c NamespaceObj (cluster_scoped (Namespace (cl_Meta oldCluster))));
      match r with
      | inr _ => mret []
      | inl ns =>
          if decide (ns_policy ns = "") then mret []
          else
            let sub cl := (PriorityClass (cl_Spec cl), NodeSelector (cl_Spec cl)) in
            mret (if decide (sub oldCluster ≠ sub newCluster) then enqueue (ns_policy ns) else [])
      end
  | _ => mret []
  end.
(** ** Updating the statuses of listed clusters *)
Section StatusLoop.
Context `{!ClientLaws c}.

(** [m x] replaces the stored cluster [x] by [f x], or fails and changes
    nothing. *)
Definition updates (f : Cluster → Cluster) (m : Cluster → M W unit) : Prop :=
  ∀ x w r w', store w !! obj_key (OCluster x) = Some (OCluster x) → m x w = (r, w') →
    match r with
    | Ok _ => store w' = <[obj_key (OCluster x) := OCluster (f x)]> (store w)
    | Err _ => store w' = store w
    | Panic => False
    end.

Lemma update_status_if_updates (f : Cluster → Cluster) (b : Cluster → bool) :
  (∀ x, ∃ s, f x = set_Status s x) → (∀ x, b x = false → f x = x) →
  updates f (λ x, update_status_if (b x) (f x)).
Proof.
  intros Hf Hb x w r w' Hx. unfold update_status_if. destruct (b x) eqn:Eb.
  - unfold mbind, M_bind. destruct (StatusUpdate c (f x) w) as [r1 w1] eqn:E.
    apply (StatusUpdate_run c) in E as [_ Hr]. destruct (Hf x) as [s Hs].
    destruct r1 as [y|e|]; [|by intros [= <- <-]|done]. intros [= <- <-].
    destruct Hr as (old & Hold & Hy & ->). cbn [inj Cluster_resource] in *. rewrite Hs in *.
    assert (obj_key (OCluster (set_Status s x)) = obj_key (OCluster x)) as Hk by done.
    rewrite Hk in *. rewrite Hx in Hold. injection Hold as <-. by rewrite Hy.
  - intros [= <- <-]. rewrite Hb by done. by rewrite insert_id.
Qed.

Lemma wrap_updates f (g : Cluster → error → error) m :
  updates f m → updates f (λ x, wrap_error (g x) (m x)).
Proof.
  intros Hm x w r w' Hx E. unfold wrap_error, mbind, M_bind, attempt in E.
  destruct (m x w) as [r1 w1] eqn:E1. specialize (Hm x w r1 w1 Hx E1).
  destruct r1 as [[]|e|]; [by injection E as <- <-|by injection E as <- <-|done].
Qed.

Lemma join_updates f m l :
  updates f m → NoDup ((λ x, obj_key (OCluster x)) <$> l) → ∀ w,
  (∀ x, x ∈ l → store w !! obj_key (OCluster x) = Some (OCluster x)) →
  ∃ es w', join_all (map m l) w = (Ok es, w') ∧
    (∀ i, i ∉ (λ x, obj_key (OCluster x)) <$> l → store w' !! i = store w !! i) ∧
    (∀ x, x ∈ l → store w' !! obj_key (OCluster x) = Some (OCluster x) ∨
                  store w' !! obj_key (OCluster x) = Some (OCluster (f x))) ∧
    (Forall (λ e, e = None) es → ∀ x, x ∈ l →
       store w' !! obj_key (OCluster x) = Some (OCluster (f x))).
Proof.
  clear NewRequirement ClusterCIDR.
  intros Hm. induction l as [|x l IH]; intros Hnd w Hin.
  { exists [], w. split_and!; [done..| |]; intros; by (exfalso; eapply not_elem_of_nil). }
  apply NoDup_cons in Hnd as [Hx Hnd]. cbn [map join_all].
  destruct (m x w) as [r w1] eqn:E1.
  pose proof (Hm x w r w1 (Hin x ltac:(set_solver)) E1) as Hr.
  assert (∀ i, i ≠ obj_key (OCluster x) → store w1 !! i = store w !! i) as Hout1.
  { intros i Hi. destruct r as [[]|e|]; [|by rewrite Hr|done]. by rewrite Hr, lookup_insert_ne. }
  destruct (IH Hnd w1) as (es & w2 & E2 & Hout & Hor & Hall).
  { intros y Hy. rewrite Hout1; [apply Hin; set_solver|]. intros Heq. apply Hx. rewrite <- Heq.
    apply list_elem_of_fmap. by exists y. }
  exists ((match r with Ok _ => None | Err e => Some e | Panic => None end) :: es), w2.
  unfold mbind, M_bind, attempt. rewrite E1.
  split; [|split; [|split]].
  - destruct r as [[]|e|]; [by rewrite E2..|done].
  - intros i Hi. rewrite fmap_cons in Hi. rewrite Hout by set_solver. apply Hout1. set_solver.
  - intros y [->|Hy]%elem_of_cons; [|by apply Hor]. rewrite Hout by done.
    destruct r as [[]|e|]; [|left; rewrite Hr; apply Hin; set_solver|done].
    right. by rewrite Hr, lookup_insert_eq.
  - intros Hes y Hy. apply Forall_cons_iff in Hes as [He Hes]. apply elem_of_cons in Hy as [->|Hy]; [|by apply Hall].
    rewrite Hout by done. destruct r as [[]|e|]; [|done..]. by rewrite Hr, lookup_insert_eq.
Qed.

(** The loop from the listing on: what a run has done to the clusters of the
    namespace and to everything else. *)
Definition selected_cluster (namespace : string) (i : ObjKey) (x : Cluster) (st : Store) : Prop :=
  st !! i = Some (OCluster x) ∧ (namespace = "" ∨ Namespace (cl_Meta x) = namespace).

Lemma selected_InNamespace ns o :
  selected (InNamespace ns) o = true ↔ ns = "" ∨ Namespace (obj_meta o) = ns.
Proof.
  unfold selected. cbn [lo_Namespace lo_Selector InNamespace forallb].
  by rewrite andb_true_r, orb_true_iff, !bool_decide_eq_true.
Qed.

Lemma update_listed f m ns w cs w1 es r w' :
  updates f m → List_ c Cluster (InNamespace ns) w = (Ok cs, w1) →
  join_all (map m cs) w1 = (r, w') →
  (∃ es, r = Ok es) ∧
  (∀ i, store w' !! i = store w !! i ∨
        ∃ x, selected_cluster ns i x (store w) ∧ store w' !! i = Some (OCluster (f x))) ∧
  (r = Ok es → Forall (λ e, e = None) es →
     ∀ i x, selected_cluster ns i x (store w) → store w' !! i = Some (OCluster (f x))).
Proof.
  intros Hm EL EJ. apply (List_run c) in EL as (Hs & _ & Hnd & Hin); [|done].
  cbn [inj Cluster_resource] in *.
  assert (∀ i x, selected_cluster ns i x (store w) → i = obj_key (OCluster x) ∧ x ∈ cs) as Hsel.
  { intros i x [Hi Hns]. pose proof (store_keys _ _ _ Hi) as <-. split; [done|]. apply Hin.
    split; [done|]. by apply selected_InNamespace. }
  destruct (join_updates f m cs Hm Hnd w1) as (es' & w2 & E2 & Hout & Hor & Hall).
  { intros x Hx. rewrite Hs. by apply Hin. }
  rewrite E2 in EJ. injection EJ as <- <-. split; [by eexists|]. split.
  - intros i. destruct (decide (i ∈ (λ x, obj_key (OCluster x)) <$> cs)) as [Hi|Hi].
    + apply list_elem_of_fmap in Hi as (x & -> & Hx). pose proof Hx as [Hst Hselx]%Hin.
      destruct (Hor x Hx) as [->| ->]; [left; by rewrite Hst|right].
      exists x. split; [|done]. split; [done|]. by apply selected_InNamespace in Hselx.
    + left. by rewrite Hout, Hs.
  - intros [= ->] Hes i x Hx. destruct (Hsel i x Hx) as [-> Hxin]. by apply Hall.
Qed.

Lemma reconcileClusters_run ns policy w r w' :
  reconcileClusters ns policy w = (r, w') →
  (∀ i, store w' !! i = store w !! i ∨
        ∃ x, selected_cluster (Name (ns_Meta ns)) i x (store w) ∧
             store w' !! i = Some (OCluster (with_policy policy x))) ∧
  (r = Ok tt → ∀ i x, selected_cluster (Name (ns_Meta ns)) i x (store w) →
                      store w' !! i = Some (OCluster (with_policy policy x))) ∧
  r ≠ Panic.
Proof.
  intros E. unfold reconcileClusters, mbind, M_bind in E.
  destruct (List_ c Cluster _ w) as [rl w1] eqn:EL.
  destruct rl as [cs|e|];
    [|apply (List_run c) in EL as (Hs & _); [|done]; injection E as <- <-; rewrite Hs;
      split_and!; [by left|done|done]
     |by apply (List_run c) in EL as (_ & _ & ?)].
  match type of E with context[join_all (map ?m _)] =>
    assert (updates (with_policy policy) m) as Hm end.
  { apply update_status_if_updates; [by eexists|]. intros x Hb.
    apply bool_decide_eq_false, dec_stable in Hb. unfold with_policy in *. destruct x as [mt sp st].
    cbn in *. unfold set_Status. cbn. by rewrite <- Hb. }
  destruct (join_all _ w1) as [rj w2] eqn:EJ.
  destruct (update_listed _ _ _ _ _ _ [] _ _ Hm EL EJ) as ([es ->] & Hor & _).
  destruct (update_listed _ _ _ _ _ _ es _ _ Hm EL EJ) as (_ & _ & Hall).
  destruct (errors_join es) as [err|] eqn:Ej; cbn [ret_err] in E; injection E as <- <-;
    split_and!; try done. intros _. apply Hall; [done|]. by apply errors_join_None.
Qed.

Lemma clear_run ns w r w' :
  clearPolicyFieldsForClustersInNamespace ns w = (r, w') →
  (∀ i, store w' !! i = store w !! i ∨
        ∃ x, selected_cluster ns i x (store w) ∧ store w' !! i = Some (OCluster (without_policy x))) ∧
  (r = Ok tt → ∀ i x, selected_cluster ns i x (store w) →
                      store w' !! i = Some (OCluster (without_policy x))) ∧
  r ≠ Panic.
Proof.
  intros E. unfold clearPolicyFieldsForClustersInNamespace, mbind, M_bind in E.
  unfold wrap_error at 1, mbind, M_bind, attempt in E.
  destruct (List_ c Cluster _ w) as [rl w1] eqn:EL.
  destruct rl as [cs|e|];
    [|apply (List_run c) in EL as (Hs & _); [|done]; injection E as <- <-; rewrite Hs;
      split_and!; [by left|done|done]
     |by apply (List_run c) in EL as (_ & _ & ?)].
  cbn [mret M_ret] in E. cbv beta iota delta [mret M_ret] in E.
  match type of E with context[join_all (map ?m _)] =>
    assert (updates without_policy m) as Hm end.
  { apply (wrap_updates without_policy (λ cluster err, _)
             (λ cluster, update_status_if _ (without_policy cluster))).
    apply (update_status_if_updates without_policy (λ cluster, bool_decide _)); [by eexists|].
    intros x Hb. apply bool_decide_eq_false, dec_stable in Hb. unfold without_policy. 
    destruct x as [mt sp st]. destruct st. cbn in *. by rewrite Hb. }
  destruct (join_all _ w1) as [rj w2] eqn:EJ.
  destruct (update_listed _ _ _ _ _ _ [] _ _ Hm EL EJ) as ([es ->] & Hor & _).
  destruct (update_listed _ _ _ _ _ _ es _ _ Hm EL EJ) as (_ & _ & Hall).
  destruct (errors_join es) as [err|] eqn:Ej; cbn [ret_err] in E; injection E as <- <-;
    split_and!; try done. intros _. apply Hall; [done|]. by apply errors_join_None.
Qed.
End StatusLoop.
(** ** What a reconciliation can change *)
Section Frame.
Context `{!ClientLaws c} `{!KubeUtilLaws} (req : NamespacedName).

Definition managed_kind (k : string) : Prop := k ∈ ["NetworkPolicy"; "ResourceQuota"; "LimitRange"].

Definition is_managed (o : Obj) : bool :=
  req_matches (Labels (obj_meta o)) (ReqEquals ManagedByLabelKey VirtualPolicyControllerName).

(** The effect on what a key holds: none; or the key is a namespace or the
    policy itself; or a quota, a limit range or a network policy under the
    name derived from the policy, or a managed one that is deleted; or a
    cluster in the status of which the applied policy is replaced. *)
Inductive frame (i : ObjKey) (v v' : option Obj) : Prop :=
| frame_same : v' = v → frame i v v'
| frame_namespace : i.1 = "Namespace" → frame i v v'
| frame_policy : i = ("VirtualClusterPolicy", req) → frame i v v'
| frame_own : managed_kind i.1 →
    nn_Name i.2 = Names.SafeConcatNameWithPrefix [nn_Name req] → frame i v v'
| frame_cleanup o : managed_kind i.1 → v = Some o → is_managed o = true → removed o v' → frame i v v'
| frame_status x p : i.1 = "Cluster" → v = Some (OCluster x) →
    v' = Some (OCluster (set_Status (st_set_Policy p (cl_Status x)) x)) → frame i v v'.

Lemma removed_again o v v' :
  removed o v → (v' = v ∨ ∃ o', v = Some o' ∧ removed o' v') → removed o v'.
Proof.
  intros Hr [->|(o' & -> & Hr')]; [done|]. unfold removed in *. destruct (decide _); [done|].
  destruct Hr as [now [= ->]]. unfold mark_deleted in Hr'. rewrite obj_set_meta_meta in Hr'.
  cbn [Finalizers] in Hr'. rewrite decide_False in Hr' by done. destruct Hr' as [now' ->].
  exists now. f_equal.
  destruct o; cbn; unfold mark_deleted; cbn; do 2 f_equal; by destruct (DeletionTimestamp _).
Qed.

#[export] Instance frame_preorder i : PreOrder (frame i).
Proof.
  clear NewRequirement H0 H ClusterCIDR.
  split; [by intros v; apply frame_same|]. intros v1 v2 v3 H1 H2.
  destruct H1 as [->|?|?|? ?|o Hk -> Hm Hr|x p Hk -> ->]; [done|by eapply frame_namespace|by eapply frame_policy
    |by eapply frame_own| |];
  destruct H2 as [->|?|?|? ?|o' Hk' Ho' Hm' Hr'|x' p' Hk' Ho' ->];
    try (by eapply frame_namespace); try (by eapply frame_policy); try (by eapply frame_own).
  - by eapply frame_cleanup.
  - eapply frame_cleanup; [done..|]. eapply removed_again; [done|]. right. by exists o'.
  - rewrite Hk' in Hk. set_solver.
  - by eapply frame_status.
  - rewrite Hk in Hk'. set_solver.
  - injection Ho' as <-. by eapply (frame_status _ _ _ x p').
Qed.

Abbreviation framed := (evolves c (per_key frame)).

Lemma framed_clear ns : framed (clearPolicyFieldsForClustersInNamespace ns).
Proof.
  intros w r w' (Hor & _)%clear_run i. destruct (Hor i) as [->|(x & [Hx _] & ->)]; [done|].
  rewrite Hx. eapply frame_status; [|done|reflexivity]. by rewrite <- (store_keys _ _ _ Hx).
Qed.

Lemma framed_clusters ns policy : framed (reconcileClusters ns policy).
Proof.
  intros w r w' (Hor & _)%reconcileClusters_run i. destruct (Hor i) as [->|(x & [Hx _] & ->)]; [done|].
  rewrite Hx. eapply frame_status; [|done|reflexivity]. by rewrite <- (store_keys _ _ _ Hx).
Qed.

(** A write under a key that may hold anything. *)
Lemma framed_Create {T} `{Resource T} (x : T) :
  (∀ v v', frame (obj_key (inj x)) v v') → framed (Create c x).
Proof. intros Hf. apply evolves_Create; [exact _|]. intros s y _ _. apply per_key_insert; [exact _|apply Hf]. Qed.

Lemma framed_Update {T} `{Resource T} (x : T) :
  (∀ v v', frame (obj_key (inj x)) v v') → framed (Update c x).
Proof.
  intros Hf. apply evolves_Update; [exact _|..]; intros.
  - apply per_key_insert; [exact _|apply Hf].
  - apply per_key_delete; [exact _|apply Hf].
Qed.

Lemma framed_Delete {T} `{Resource T} (x : T) :
  (∀ v v', frame (obj_key (inj x)) v v') → framed (Delete c x).
Proof.
  intros Hf. apply evolves_Delete; [exact _|]. intros s o v _ _. apply per_key_alter; [exact _|].
  unfold obj_key in Hf. rewrite inj_kind, inj_meta in Hf. apply Hf.
Qed.

Lemma framed_delete_all T `{Resource T} opts :
  lo_Fields opts = [] → managed_kind (kind T) →
  ReqEquals ManagedByLabelKey VirtualPolicyControllerName ∈ lo_Selector opts →
  framed (DeleteAllOf c T opts).
Proof.
  intros Hf Hk Hsel. apply per_key_DeleteAllOf; [exact _..|done|].
  intros i o v Hko Hio Hs Hr. apply (frame_cleanup _ _ _ o); [|done| |done].
  - rewrite <- Hio. unfold obj_key. cbn [fst]. by rewrite Hko.
  - unfold selected in Hs. apply andb_true_iff in Hs as [_ Hs]. rewrite forallb_forall in Hs.
    by apply Hs, list_elem_of_In.
Qed.

Lemma framed_cleanupNamespace ns : framed (cleanupNamespace ns).
Proof.
  clear H0 H ClusterCIDR.
  unfold cleanupNamespace. apply evolves_bind_run; [exact _|evolve; apply framed_clear|].
  intros sel w w' Hsel.
  assert (ReqEquals ManagedByLabelKey VirtualPolicyControllerName ∈ sel) as Hin.
  { destruct (decide (ns_policy ns = "")); inv_ok; [set_solver|]. apply elem_of_cons. by left. }
  repeat (apply evolves_bind; [exact _| |intros []]); apply framed_delete_all;
    try done; unfold managed_kind; cbn; set_solver.
Qed.

Lemma framed_cleanup : framed cleanupNamespaces.
Proof. unfold cleanupNamespaces. evolve. apply framed_cleanupNamespace. Qed.

Lemma framed_cleanupPolicy policy : framed (cleanupPolicyResources policy).
Proof.
  unfold cleanupPolicyResources, cleanupPolicyNamespace, collect. evolve; try apply framed_clear.
  apply framed_Update. intros v v'. by apply frame_namespace.
Qed.

Lemma framed_create_else_update {T} `{Resource T} (x : T) :
  (∀ v v', frame (obj_key (inj x)) v v') → framed (create_else_update x).
Proof.
  intros Hf. unfold create_else_update. evolve; [by apply framed_Create|by apply framed_Update].
Qed.

Section Named.
Context (policy : VirtualClusterPolicy) (Hname : Name (vcp_Meta policy) = nn_Name req).

Lemma frame_managed ns m k v v' :
  SetControllerReference (policy_owner policy) (managed_meta ns policy) = Ok m →
  managed_kind k → frame (k, key_of m) v v'.
Proof.
  intros (rs & -> & _)%SetControllerReference_ok Hk. apply frame_own; [done|].
  cbn -[Names.SafeConcatNameWithPrefix]. by rewrite Hname.
Qed.

Ltac own :=
  intros v v';
  match goal with H : SetControllerReference _ _ = Ok _ |- _ =>
    refine (frame_managed _ _ _ v v' H _) end;
  unfold managed_kind; cbn; set_solver.

Lemma framed_delete_if_found T `{Resource T} ns :
  managed_kind (kind T) → framed (delete_if_found T (managed_key ns policy)).
Proof.
  intros Hk. unfold delete_if_found. apply evolves_Get_bind; [exact _|..]; intros x; [|evolve].
  intros Hx. apply framed_Delete. intros v v'. unfold obj_key. rewrite inj_kind, inj_meta, Hx.
  apply frame_own; [done|]. cbn -[Names.SafeConcatNameWithPrefix]. by rewrite Hname.
Qed.

Lemma framed_network ns : framed (reconcileNetworkPolicy ns policy).
Proof.
  clear NewRequirement.
  unfold reconcileNetworkPolicy, FindPodCIDRs. evolve.
  - apply framed_Delete. own.
  - apply framed_create_else_update. own.
Qed.

Lemma framed_quota ns : framed (reconcileQuota ns policy).
Proof.
  clear NewRequirement.
  unfold reconcileQuota. evolve.
  - apply framed_create_else_update. own.
  - apply framed_delete_if_found. unfold managed_kind. cbn. set_solver.
Qed.

Lemma framed_limit ns : framed (reconcileLimit ns policy).
Proof.
  clear NewRequirement.
  unfold reconcileLimit. evolve.
  - apply framed_create_else_update. own.
  - apply framed_delete_if_found. unfold managed_kind. cbn. set_solver.
Qed.

Lemma framed_reconcileNamespace ns : framed (reconcileNamespace policy ns).
Proof.
  unfold reconcileNamespace. evolve; [apply framed_network|apply framed_quota|apply framed_limit
    |apply framed_clusters|]. apply framed_Update. intros v v'. by apply frame_namespace.
Qed.

Lemma framed_reconcile_policy : framed (reconcileVirtualClusterPolicy policy).
Proof.
  unfold reconcileVirtualClusterPolicy, reconcileMatchingNamespaces.
  evolve; [apply framed_reconcileNamespace|apply framed_cleanup].
Qed.
End Named.

Lemma frame_own_key (policy : VirtualClusterPolicy) v v' :
  key_of (vcp_Meta policy) = req → frame (obj_key (inj policy)) v v'.
Proof. intros Hk. apply frame_policy. by rewrite <- Hk. Qed.

Lemma framed_finalize policy : key_of (vcp_Meta policy) = req → framed (finalizePolicy policy).
Proof.
  intros Hk. unfold finalizePolicy. apply evolves_bind_run; [exact _|..].
  - apply evolves_attempt. intros w r w' E. apply (StatusUpdate_run c) in E as [_ Hr].
    destruct r as [y|e|]; [|by rewrite Hr|done]. destruct Hr as (old & _ & _ & ->).
    apply per_key_insert; [exact _|]. by apply frame_own_key.
  - intros p w w' E. evolve; [apply framed_cleanupPolicy|]. apply framed_Update. intros v v'.
    apply frame_own_key. cbn [with_policy_meta vcp_Meta].
    assert (key_of o = key_of (vcp_Meta (match p with inl u => u | inr _ => with_policy_conditions
              (SetStatusCondition (vps_Conditions (vcp_Status policy)) terminating_condition) policy end))) as ->.
    { rewrite RemoveFinalizer_law in Heqp0. apply (f_equal fst) in Heqp0. cbn [fst] in Heqp0. rewrite <- Heqp0. by case_decide. }
    destruct p as [u|e]; [|done]. apply attempt_inv in E. cbn beta iota in E.
    apply (StatusUpdate_run c) in E as [_ Hr]. cbn beta iota in Hr. destruct Hr as (old & Hold & Hu & _).
    pose proof (store_keys _ _ _ Hold) as Ho. assert (obj_key (inj u) = obj_key old) as Hku
      by (by rewrite Hu, obj_with_status_key).
    rewrite Ho in Hku. apply (f_equal snd) in Hku. by rewrite <- Hk.
Qed.

Lemma AddFinalizer_key m f : key_of (AddFinalizer m f).1 = key_of m.
Proof. rewrite AddFinalizer_law. by case_decide. Qed.

Lemma framed_Reconcile : framed (Reconcile req).
Proof.
  unfold Reconcile. apply evolves_Get_bind; [exact _|..]; [intros policy Hk|intros e; evolve].
  change (key_of (vcp_Meta policy) = req) in Hk.
  destruct (is_deleting _); [by apply framed_finalize|].
  pose proof (AddFinalizer_key (vcp_Meta policy) policyFinalizerName) as Hm.
  destruct (AddFinalizer _ _) as [m added]. cbn [fst] in Hm.
  assert (framed (Update c (with_policy_meta m policy))) as Hupd.
  { apply framed_Update. intros v v'. apply frame_own_key. cbn. by rewrite Hm. }
  apply evolves_bind_run; [exact _|by destruct added; evolve|]. intros p w w' E.
  assert (key_of (vcp_Meta p) = req) as Hp.
  { destruct added.
    - apply (Update_run c) in E as [_ (_ & Hkey & _)]. apply (f_equal snd) in Hkey.
      change (key_of (vcp_Meta p) = key_of m) in Hkey. congruence.
    - injection E as <- _. change (key_of m = req). congruence. }
  apply evolves_bind; [exact _| |intros reconcilerErr].
  { apply evolves_attempt, framed_reconcile_policy. by rewrite <- Hp. }
  rewrite bool_decide_true by done.
  apply evolves_bind_run; [exact _|evolve|]. intros q w1 w1' [= <- _].
  evolve. apply framed_Update. intros v v'. by apply frame_own_key.
Qed.
End Frame.
(** ** What a successful reconciliation of a namespace leaves *)
Section Applied.
Context `{!ClientLaws c} `{!KubeUtilLaws}.

(** The store holds what the server made of a create or an update with [x]. *)
Definition stored_as {T} `{Resource T} (x : T) (st : Store) : Prop :=
  ∃ (y : T) w0 w1, st !! obj_key (inj x) = Some (inj y) ∧
    (client_Create c (inj x) w0 = (Ok (inj y), w1) ∨ client_Update c (inj x) w0 = (Ok (inj y), w1)).

(** Nothing is left, or an object that waits for its finalizers. *)
Definition gone (i : ObjKey) (st : Store) : Prop :=
  ∀ o, st !! i = Some o → is_deleting (obj_meta o) = true.

Lemma removed_gone o v : removed o v → ∀ o', v = Some o' → is_deleting (obj_meta o') = true.
Proof.
  unfold removed. case_decide; [by intros ->|]. intros [now ->] o' [= <-].
  unfold mark_deleted. rewrite obj_set_meta_meta. unfold is_deleting. cbn [DeletionTimestamp].
  apply bool_decide_eq_true. destruct (DeletionTimestamp _); by eexists.
Qed.

Lemma create_else_update_ok {T} `{Resource T} (x : T) w w' :
  is_deleting (meta x) = false → create_else_update x w = (Ok tt, w') → stored_as x (store w').
Proof.
  intros Hd E. unfold create_else_update, mbind, M_bind, attempt in E.
  destruct (Create c x w) as [[y|e|] w1] eqn:EC; [| |done].
  - injection E as <-. apply (Create_run c) in EC as (_ & _ & _ & Hs & Hw). exists y, w, w1.
    rewrite Hs, lookup_insert_eq. auto.
  - destruct (IsAlreadyExists e); [|done].
    destruct (Update c x w1) as [[y|e'|] w2] eqn:EU; [|done..]. injection E as <-.
    apply (Update_run c) in EU as (_ & _ & _ & _ & Hs & Hw). rewrite Hd in Hs. cbn in Hs.
    exists y, w1, w2. rewrite Hs, lookup_insert_eq. auto.
Qed.

Lemma Delete_gone {T} `{Resource T} (x : T) w r w' :
  Delete c x w = (r, w') →
  match r with
  | Ok _ => gone (obj_key (inj x)) (store w')
  | Err e => IsNotFound e = true → gone (obj_key (inj x)) (store w')
  | Panic => False
  end.
Proof.
  intros E. unfold Delete in E. unfold obj_key. rewrite inj_kind, inj_meta.
  destruct (delete_spec (kind T) (key_of (meta x)) w) as (r1 & w1 & E1 & _ & Hr).
  rewrite E1 in E. injection E as -> ->. unfold gone. destruct r as [u|e|]; [| |done].
  - destruct Hr as (old & Hold & Hs). intros o Ho. case_decide.
    + rewrite Hs, lookup_delete_eq in Ho. done.
    + destruct Hs as [now Hs]. rewrite Hs, lookup_insert_eq in Ho. injection Ho as <-.
      eapply (removed_gone old (Some (mark_deleted now old))); [|done].
      unfold removed. rewrite decide_False by done. by eexists.
  - intros Hnf o Ho. destruct Hr as [Hs Hr]. rewrite Hnf in Hr. rewrite Hs in Ho.
    pose proof (eq_trans (eq_sym Hr) Ho) as [=].
Qed.

Lemma ignore_not_found_ok (m : M W unit) w w' :
  ignore_not_found m w = (Ok tt, w') →
  m w = (Ok tt, w') ∨ ∃ e, m w = (Err e, w') ∧ IsNotFound e = true.
Proof.
  intros E. unfold ignore_not_found, mbind, M_bind, attempt in E.
  destruct (m w) as [[[]|e|] w1]; [injection E as <-; by left| |done].
  destruct (IsNotFound e) eqn:Hn; [|done]. injection E as <-. right. by exists e.
Qed.

Lemma delete_if_found_ok T `{Resource T} n w w' :
  delete_if_found T n w = (Ok tt, w') → gone (kind T, n) (store w').
Proof.
  intros E. unfold delete_if_found, mbind, M_bind, attempt in E.
  destruct (Get c T n w) as [[x|e|] w1] eqn:EG; [| |done].
  - apply (Get_run c) in EG as (_ & _ & _ & Hk). apply Delete_gone in E.
    unfold obj_key in E. by rewrite inj_kind, inj_meta, Hk in E.
  - destruct (IsNotFound e) eqn:Hn; [|done]. injection E as <-.
    apply (Get_run c) in EG as (Hs & _ & Hr). rewrite Hn in Hr. intros o Ho. rewrite Hs in Ho.
    pose proof (eq_trans (eq_sym Hr) Ho) as [=].
Qed.

(** The object managed for a policy in a namespace: as the spec wants it, or
    gone when the policy does not ask for it. *)
Definition applied {T} `{Resource T} (make : ObjectMeta → T) (wanted : bool) (ns : string)
    (policy : VirtualClusterPolicy) (st : Store) : Prop :=
  if wanted
  then ∃ m, SetControllerReference (policy_owner policy) (managed_meta ns policy) = Ok m ∧
            stored_as (make m) st
  else gone (kind T, managed_key ns policy) st.

Lemma owned_not_deleting policy ns m :
  SetControllerReference (policy_owner policy) (managed_meta ns policy) = Ok m →
  is_deleting m = false ∧ key_of m = managed_key ns policy.
Proof. by intros (rs & -> & _)%SetControllerReference_ok. Qed.

Lemma network_applied ns policy w w' :
  reconcileNetworkPolicy ns policy w = (Ok tt, w') →
  ∃ cidrs w1, FindPodCIDRs ClusterCIDR w = (Ok cidrs, w1) ∧
    applied (λ m, {| np_Meta := m; np_Spec := IsolationNetworkPolicySpec ns cidrs |})
      (negb (DisableNetworkPolicy (vcp_Spec policy))) ns policy (store w').
Proof.
  intros E. unfold reconcileNetworkPolicy in E. apply bind_inv_ok in E as (cidrs & w1 & EF & E).
  exists cidrs, w1. split; [done|]. apply bind_inv_ok in E as (m & w2 & Em & E).
  injection Em as Em <-. destruct (owned_not_deleting _ _ _ Em) as [Hd Hk]. unfold applied.
  destruct (DisableNetworkPolicy _); cbn [negb].
  - apply ignore_not_found_ok in E as [E|(e & E & Hn)]; apply Delete_gone in E; [|specialize (E Hn)];
      unfold obj_key in E; rewrite inj_meta in E; cbn [meta NetworkPolicy_resource np_Meta] in E;
      by rewrite Hk in E.
  - exists m. split; [done|]. by apply create_else_update_ok in E.
Qed.

Lemma quota_applied ns policy w w' :
  reconcileQuota ns policy w = (Ok tt, w') →
  applied (λ m, {| rq_Meta := m; rq_Spec := default JNull (Quota (vcp_Spec policy)); rq_Hard := None |})
    (bool_decide (Quota (vcp_Spec policy) ≠ None)) ns policy (store w').
Proof.
  clear NewRequirement ClusterCIDR.
  intros E. unfold reconcileQuota in E. unfold applied. destruct (Quota _) as [spec|].
  - rewrite bool_decide_true by done. apply bind_inv_ok in E as (m & w2 & Em & E).
    injection Em as Em <-. destruct (owned_not_deleting _ _ _ Em) as [Hd Hk].
    exists m. split; [done|]. by apply create_else_update_ok in E.
  - rewrite bool_decide_false by tauto. by apply delete_if_found_ok in E.
Qed.

Lemma limit_applied ns policy w w' :
  reconcileLimit ns policy w = (Ok tt, w') →
  applied (λ m, {| lr_Meta := m; lr_Spec := default JNull (Limit (vcp_Spec policy)) |})
    (bool_decide (Limit (vcp_Spec policy) ≠ None)) ns policy (store w').
Proof.
  clear NewRequirement ClusterCIDR.
  intros E. unfold reconcileLimit in E. unfold applied. destruct (Limit _) as [spec|].
  - rewrite bool_decide_true by done. apply bind_inv_ok in E as (m & w2 & Em & E).
    injection Em as Em <-. destruct (owned_not_deleting _ _ _ Em) as [Hd Hk].
    exists m. split; [done|]. by apply create_else_update_ok in E.
  - rewrite bool_decide_false by tauto. by apply delete_if_found_ok in E.
Qed.

(** Each step writes one kind of objects. *)
Definition of_kind (k : string) (i : ObjKey) : Prop := i.1 = k.
Abbreviation writes k := (evolves c (per_key (only (of_kind k)))).

Lemma writes_kind {A} k (m : M W A) w r w' i :
  writes k m → m w = (r, w') → i.1 ≠ k → store w' !! i = store w !! i.
Proof. intros Hm E Hi. by destruct (Hm _ _ _ E i). Qed.

Lemma writes_create_else_update {T} `{Resource T} (x : T) : writes (kind T) (create_else_update x).
Proof.
  assert (of_kind (kind T) (obj_key (inj x))) as Hk by (unfold of_kind, obj_key; by rewrite inj_kind).
  unfold create_else_update. evolve.
  - apply evolves_Create; [exact _|]. intros. apply per_key_insert; [exact _|by left].
  - apply evolves_Update; [exact _|..]; intros; [apply per_key_insert|apply per_key_delete];
      (exact _ || by left).
Qed.

Lemma writes_Delete {T} `{Resource T} (x : T) : writes (kind T) (Delete c x).
Proof. apply evolves_Delete; [exact _|]. intros. apply per_key_alter; [exact _|by left]. Qed.

Lemma writes_quota ns policy : writes "ResourceQuota" (reconcileQuota ns policy).
Proof.
  unfold reconcileQuota, delete_if_found. evolve;
    [exact (writes_create_else_update (T:=ResourceQuota) _)|exact (writes_Delete (T:=ResourceQuota) _)].
Qed.

Lemma writes_limit ns policy : writes "LimitRange" (reconcileLimit ns policy).
Proof.
  unfold reconcileLimit, delete_if_found. evolve;
    [exact (writes_create_else_update (T:=LimitRange) _)|exact (writes_Delete (T:=LimitRange) _)].
Qed.

Lemma writes_network ns policy : writes "NetworkPolicy" (reconcileNetworkPolicy ns policy).
Proof.
  unfold reconcileNetworkPolicy, FindPodCIDRs. evolve;
    [exact (writes_Delete (T:=NetworkPolicy) _)|exact (writes_create_else_update (T:=NetworkPolicy) _)].
Qed.

Lemma writes_clusters ns policy : writes "Cluster" (reconcileClusters ns policy).
Proof.
  intros w r w' (Hor & _)%reconcileClusters_run i. destruct (Hor i) as [->|(x & [Hx _] & _)]; [by right|].
  left. by rewrite <- (store_keys _ _ _ Hx).
Qed.

Lemma applied_ext {T} `{Resource T} make wanted ns policy st st' :
  (∀ i : ObjKey, i.1 = kind T → st' !! i = st !! i) →
  applied (T:=T) make wanted ns policy st → applied make wanted ns policy st'.
Proof.
  intros Hext. unfold applied, stored_as, gone. destruct wanted; [|by rewrite Hext].
  intros (m & Hm & y & w0 & w1 & Hy & Hw). exists m. split; [done|]. exists y, w0, w1.
  rewrite Hext; [done|]. unfold obj_key. by rewrite inj_kind.
Qed.

Lemma reconcileNamespace_run policy ns w w' :
  reconcileNamespace policy ns w = (Ok tt, w') →
  (∃ cidrs w1, FindPodCIDRs ClusterCIDR w = (Ok cidrs, w1) ∧
     applied (λ m, {| np_Meta := m; np_Spec := IsolationNetworkPolicySpec (Name (ns_Meta ns)) cidrs |})
       (negb (DisableNetworkPolicy (vcp_Spec policy))) (Name (ns_Meta ns)) policy (store w')) ∧
  applied (λ m, {| rq_Meta := m; rq_Spec := default JNull (Quota (vcp_Spec policy)); rq_Hard := None |})
    (bool_decide (Quota (vcp_Spec policy) ≠ None)) (Name (ns_Meta ns)) policy (store w') ∧
  applied (λ m, {| lr_Meta := m; lr_Spec := default JNull (Limit (vcp_Spec policy)) |})
    (bool_decide (Limit (vcp_Spec policy) ≠ None)) (Name (ns_Meta ns)) policy (store w') ∧
  ∀ i x, selected_cluster (Name (ns_Meta ns)) i x (store w) →
         store w' !! i = Some (OCluster (with_policy policy x)).
Proof.
  intros E. unfold reconcileNamespace in E.
  apply bind_inv_ok in E as ([] & w1 & E1 & E). apply bind_inv_ok in E as ([] & w2 & E2 & E).
  apply bind_inv_ok in E as ([] & w3 & E3 & E). apply bind_inv_ok in E as ([] & w4 & E4 & E).
  apply bind_inv_ok in E as (ns' & w5 & E5 & E). injection E5 as Ens <-.
  assert (∀ i, i.1 ≠ "Namespace" → store w' !! i = store w4 !! i) as H5.
  { intros i Hi. refine (writes_kind "Namespace" _ _ _ _ i _ E Hi). evolve.
    apply evolves_Update; [exact _|..]; intros; [apply per_key_insert|apply per_key_delete];
      (exact _ || by left). }
  pose proof (λ i, writes_kind _ _ _ _ _ i (writes_network _ _) E1) as H1.
  pose proof (λ i, writes_kind _ _ _ _ _ i (writes_quota _ _) E2) as H2.
  pose proof (λ i, writes_kind _ _ _ _ _ i (writes_limit _ _) E3) as H3.
  pose proof (λ i, writes_kind _ _ _ _ _ i (writes_clusters _ _) E4) as H4.
  split; [|split; [|split]].
  - apply network_applied in E1 as (cidrs & w0 & EF & Happ). exists cidrs, w0. split; [done|].
    eapply applied_ext; [|exact Happ]. intros i Hi. change (i.1 = "NetworkPolicy") in Hi.
    by rewrite H5, H4, H3, H2 by (by rewrite Hi).
  - apply quota_applied in E2. eapply applied_ext; [|exact E2]. intros i Hi.
    change (i.1 = "ResourceQuota") in Hi. by rewrite H5, H4, H3 by (by rewrite Hi).
  - apply limit_applied in E3. eapply applied_ext; [|exact E3]. intros i Hi.
    change (i.1 = "LimitRange") in Hi. by rewrite H5, H4 by (by rewrite Hi).
  - intros i x [Hi Hns]. apply reconcileClusters_run in E4 as (_ & Hall & _).
    assert (i.1 = "Cluster") as Hk by (by rewrite <- (store_keys _ _ _ Hi)).
    rewrite H5 by (by rewrite Hk). apply Hall; [done|]. split; [|done].
    by rewrite H3, H2, H1 by (by rewrite Hk).
Qed.
End Applied.
(** ** The cleanup of the namespaces *)
Section Cleanup.
Context `{!ClientLaws c}.

Definition namespace_opts (ns : NamespaceObj) : ListOptions :=
  cleanup_opts ns (ReqEquals ManagedByLabelKey VirtualPolicyControllerName ::
                   (if decide (ns_policy ns = "") then [] else other_policy (ns_policy ns))).

(** What a cleanup that selects objects by [sel] does to a key. *)
Definition swept (sel : Obj → bool) (v v' : option Obj) : Prop :=
  match v with
  | Some o => if sel o then removed o v' else v' = Some o
  | None => v' = None
  end.

Lemma DeleteAllOf_swept T `{Resource T} opts w w' :
  lo_Fields opts = [] → DeleteAllOf c T opts w = (Ok tt, w') → ∀ i : ObjKey,
  if decide (i.1 = kind T) then swept (selected opts) (store w !! i) (store w' !! i)
  else store w' !! i = store w !! i.
Proof.
  intros Hf E i. unfold DeleteAllOf in E.
  destruct (delete_all_spec (kind T) opts w Hf) as (r1 & w1 & E1 & _ & _ & Hor & Hall).
  rewrite E1 in E. injection E as -> ->. specialize (Hall eq_refl i).
  case_decide as Hk.
  - unfold swept. destruct (store w !! i) as [o|] eqn:Ho.
    + assert (obj_kind o = kind T) as Hko by (by rewrite <- Hk, <- (store_keys _ _ _ Ho)).
      destruct (selected opts o) eqn:Hs; [by apply Hall|].
      destruct (Hor i) as [Hs'|(o' & Ho' & _ & Hs' & _)]; congruence.
    + destruct (Hor i) as [Hs'|(o' & Ho' & _)]; congruence.
  - destruct (Hor i) as [->|(o' & Ho & Hko & _)]; [done|]. destruct Hk.
    by rewrite <- Hko, <- (store_keys _ _ _ Ho).
Qed.

Lemma writes_clear ns : evolves c (per_key (only (λ i, i.1 = "Cluster"))) (clearPolicyFieldsForClustersInNamespace ns).
Proof.
  intros w r w' (Hor & _)%clear_run i. destruct (Hor i) as [->|(x & [Hx _] & _)]; [by right|].
  left. by rewrite <- (store_keys _ _ _ Hx).
Qed.

Lemma cleanupNamespace_swept ns w w' :
  cleanupNamespace ns w = (Ok tt, w') →
  (∀ i : ObjKey, managed_kind i.1 → swept (selected (namespace_opts ns)) (store w !! i) (store w' !! i)) ∧
  (∀ i : ObjKey, i.1 = "Namespace" → store w' !! i = store w !! i).
Proof.
  intros E. unfold cleanupNamespace in E. apply bind_inv_ok in E as (sel & w1 & E1 & E).
  assert (cleanup_opts ns sel = namespace_opts ns ∧
          ∀ i : ObjKey, i.1 ≠ "Cluster" → store w1 !! i = store w !! i) as [Hopts H1].
  { split.
    - unfold namespace_opts. destruct (decide (ns_policy ns = "")); by inv_ok.
    - intros i Hi. match type of E1 with ?m _ = _ =>
        assert (evolves c (per_key (only (λ i, i.1 = "Cluster"))) m) as Hm end.
      { evolve; apply writes_clear. }
      by destruct (Hm _ _ _ E1 i). }
  cbv zeta in E. rewrite Hopts in E.
  apply bind_inv_ok in E as ([] & w2 & E2 & E). apply bind_inv_ok in E as ([] & w3 & E3 & E).
  pose proof (DeleteAllOf_swept NetworkPolicy (namespace_opts ns) _ _ eq_refl E2) as H2.
  pose proof (DeleteAllOf_swept ResourceQuota (namespace_opts ns) _ _ eq_refl E3) as H3.
  pose proof (DeleteAllOf_swept LimitRange (namespace_opts ns) _ _ eq_refl E) as H4. split; intros i Hi.
  - specialize (H1 i). specialize (H2 i). specialize (H3 i). specialize (H4 i).
    unfold managed_kind in Hi. cbn [kind NetworkPolicy_resource ResourceQuota_resource LimitRange_resource] in *.
    repeat (apply elem_of_cons in Hi as [Hi|Hi]); [..|by apply elem_of_nil in Hi];
      rewrite Hi in *; rewrite <- H1 by done; repeat (case_decide; try discriminate); congruence.
  - specialize (H1 i). specialize (H2 i). specialize (H3 i). specialize (H4 i).
    cbn [kind NetworkPolicy_resource ResourceQuota_resource LimitRange_resource] in *.
    rewrite Hi in *. rewrite <- H1 by done. clear E1 E2 E3 E H1. repeat case_decide; congruence.
Qed.

Lemma selected_marked opts now o : selected opts (mark_deleted now o) = selected opts o.
Proof. unfold selected, mark_deleted. by rewrite obj_set_meta_meta. Qed.

Lemma swept_trans f g v1 v2 v3 :
  (∀ now o, g (mark_deleted now o) = g o) →
  swept f v1 v2 → swept g v2 v3 → swept (λ o, f o || g o) v1 v3.
Proof.
  intros Hg H1 H2. unfold swept in *. destruct v1 as [o|]; [|by subst].
  destruct (f o); cbn [orb]; [|by subst]. eapply removed_again; [exact H1|].
  destruct v2 as [o2|]; [|by left]. destruct (g o2); [right; by exists o2|by left].
Qed.

Lemma cleanup_each_swept l w w' :
  for_each l cleanupNamespace w = (Ok tt, w') → ∀ i : ObjKey, managed_kind i.1 →
  swept (λ o, existsb (λ ns, selected (namespace_opts ns) o) l) (store w !! i) (store w' !! i).
Proof.
  revert w. induction l as [|ns l IH]; intros w E i Hi; cbn [for_each existsb] in *.
  - injection E as <-. unfold swept. by destruct (store w !! i).
  - apply bind_inv_ok in E as ([] & w1 & E1 & E). apply cleanupNamespace_swept in E1 as [H1 _].
    eapply swept_trans; [|by apply H1|by apply (IH _ E)].
    intros now o. induction l as [|ns' l' IHl]; [done|]. cbn [existsb]. rewrite selected_marked.
    f_equal. clear -H. induction l' as [|n l IH]; cbn [existsb]; [done|]. by rewrite selected_marked, IH.
Qed.
End Cleanup.
(** The end of the finalization, from the cleanup on. *)
Lemma finalize_tail `{!ClientLaws c} `{!KubeUtilLaws} policy q w r w' :
  let i := obj_key (OVirtualClusterPolicy policy) in
  let rest := slices_DeleteFunc (Finalizers (vcp_Meta policy)) (λ f, bool_decide (f = policyFinalizerName)) in
  vcp_Meta q = vcp_Meta policy →
  is_deleting (vcp_Meta policy) = true → policyFinalizerName ∈ Finalizers (vcp_Meta policy) →
  (attempt (cleanupPolicyResources q) ;;
   let '(m, removed) := RemoveFinalizer (vcp_Meta q) policyFinalizerName in
   if removed : bool then Update c (with_policy_meta m q) ;; mret tt else mret tt) w = (r, w') →
  match r with
  | Ok _ => if decide (rest = []) then store w' !! i = None
            else ∃ q, store w' !! i = Some (OVirtualClusterPolicy q) ∧ Finalizers (vcp_Meta q) = rest
  | Err e => ∃ q w1, Finalizers (vcp_Meta q) = rest ∧ Update c q w1 = (Err e, w')
  | Panic => True
  end.
Proof.
  intros i rest Hq Hdel Hfin E. unfold mbind at 1, M_bind, attempt in E.
  destruct (cleanupPolicyResources q w) as [rc w1].
  assert (r = Panic ∨ (let '(m, removed) := RemoveFinalizer (vcp_Meta q) policyFinalizerName in
    if removed : bool then Update c (with_policy_meta m q) ;; mret tt else mret tt) w1 = (r, w'))
    as [->|E1]; [destruct rc; [by right|by right|left; congruence]|done|]. clear E.
  rewrite RemoveFinalizer_law, Hq, decide_True in E1 by done. fold rest in E1.
  unfold mbind, M_bind in E1. set (q' := with_policy_meta _ q) in E1.
  destruct (Update c q' w1) as [ru w2] eqn:EU.
  destruct ru as [y|e|]; [|by injection E1 as <- <-; exists q', w1|by injection E1 as <- <-].
  injection E1 as <- <-. apply (Update_run c) in EU as (_ & _ & Hk & Hf & Hs & _).
  change (is_deleting (meta q')) with (is_deleting (vcp_Meta policy)) in Hs.
  change (Finalizers (meta q')) with rest in Hs, Hf. change (obj_key (inj q')) with i in Hs.
  rewrite Hdel in Hs. cbn [andb] in Hs. case_decide as Hrest.
  - rewrite bool_decide_true in Hs by done. rewrite Hs. apply lookup_delete_eq.
  - rewrite bool_decide_false in Hs by done. exists y. rewrite Hs. split; [apply lookup_insert_eq|done].
Qed.

(** ** Properties *)
Section Properties.
Context `{!ClientLaws c}.

(** C13: A reconciliation touches namespaces, the policy it is for, the objects it
    manages under the name derived from the policy, the managed objects it
    cleans up, and of the clusters nothing but the applied policy in the
    status. *)
Theorem Reconcile_frame `{!KubeUtilLaws} req w r w' :
  Reconcile req w = (r, w') → ∀ i, frame req i (store w !! i) (store w' !! i).
Proof. intros E i. exact (framed_Reconcile req w r w' E i). Qed.

(** C12: A namespace that is reconciled without an error has the network policy,
    the quota and the limit range the policy asks for and not the ones it does
    not ask for, and every cluster in it has the policy in its status. *)
Theorem reconcileNamespace_spec `{!KubeUtilLaws} policy ns w w' :
  reconcileNamespace policy ns w = (Ok tt, w') →
  (∃ cidrs w1, FindPodCIDRs ClusterCIDR w = (Ok cidrs, w1) ∧
     applied (λ m, {| np_Meta := m; np_Spec := IsolationNetworkPolicySpec (Name (ns_Meta ns)) cidrs |})
       (negb (DisableNetworkPolicy (vcp_Spec policy))) (Name (ns_Meta ns)) policy (store w')) ∧
  applied (λ m, {| rq_Meta := m; rq_Spec := default JNull (Quota (vcp_Spec policy)); rq_Hard := None |})
    (bool_decide (Quota (vcp_Spec policy) ≠ None)) (Name (ns_Meta ns)) policy (store w') ∧
  applied (λ m, {| lr_Meta := m; lr_Spec := default JNull (Limit (vcp_Spec policy)) |})
    (bool_decide (Limit (vcp_Spec policy) ≠ None)) (Name (ns_Meta ns)) policy (store w') ∧
  ∀ i x, selected_cluster (Name (ns_Meta ns)) i x (store w) →
         store w' !! i = Some (OCluster (with_policy policy x)).
Proof. apply reconcileNamespace_run. Qed.

(** Clearing the policy of the clusters of a namespace: the others are left
    alone whatever the outcome, and without an error none of the namespace
    has a policy left. *)
Theorem clearPolicyFields_spec ns w r w' :
  clearPolicyFieldsForClustersInNamespace ns w = (r, w') →
  (∀ i, store w' !! i = store w !! i ∨
        ∃ x, selected_cluster ns i x (store w) ∧ store w' !! i = Some (OCluster (without_policy x))) ∧
  (r = Ok tt → ∀ i x, selected_cluster ns i x (store w') → st_Policy (cl_Status x) = None).
Proof.
  intros E. pose proof (clear_run _ _ _ _ E) as (Hor & Hall & _). split; [done|].
  intros Hr i x [Hi Hns]. destruct (Hor i) as [Heq|(y & _ & Hy)].
  - rewrite Heq in Hi. pose proof (Hall Hr i x (conj Hi Hns)) as Hx. rewrite Heq, Hi in Hx.
    injection Hx as Hx. by rewrite Hx.
  - rewrite Hi in Hy. by injection Hy as ->.
Qed.

(** A managed object that no longer belongs: its namespace is not bound to a
    policy, or the object is one of another policy. *)
Definition stale (st : Store) (o : Obj) : Prop :=
  is_managed o = true ∧
  ∃ ns, st !! obj_key (ONamespace ns) = Some (ONamespace ns) ∧
        Namespace (obj_meta o) = Name (ns_Meta ns) ∧
        (ns_policy ns = "" ∨ map_get (Labels (obj_meta o)) PolicyNameLabelKey ≠ Some (ns_policy ns)).

(** The cleanup deletes the stale network policies, quotas and limit ranges
    of every namespace and leaves every other one as it is. *)
Theorem cleanupNamespaces_spec w w' :
  (∀ values, NewRequirement PolicyNameLabelKey values = None) →
  (∀ ns, store w !! obj_key (ONamespace ns) = Some (ONamespace ns) → Name (ns_Meta ns) ≠ "") →
  cleanupNamespaces w = (Ok tt, w') →
  ∀ (i : ObjKey) o, managed_kind i.1 → store w !! i = Some o →
    (stale (store w) o → removed o (store w' !! i)) ∧
    (¬ stale (store w) o → store w' !! i = Some o).
Proof.
  intros Hreq Hnames E i o Hi Ho. unfold cleanupNamespaces in E.
  apply bind_inv_ok in E as (l & w1 & EL & E). apply (List_run c) in EL as (Hs & _ & _ & Hin); [|done].
  apply cleanup_each_swept with (i := i) in E; [|done]. rewrite Hs, Ho in E. unfold swept in E.
  assert (stale (store w) o ↔ existsb (λ ns, selected (namespace_opts ns) o) l = true) as Hst.
  { rewrite existsb_true_iff. unfold stale. split.
    - intros (Hm & ns & Hns & Hname & Hor). exists ns. split; [by apply Hin|].
      unfold selected, namespace_opts, cleanup_opts, other_policy. rewrite Hreq.
      cbn [lo_Namespace lo_Selector forallb]. unfold is_managed in Hm. rewrite Hm, Hname.
      rewrite (bool_decide_true (Name _ = Name _)) by done. rewrite orb_true_r. cbn [andb].
      case_decide; [done|]. destruct Hor as [?|Hor]; [done|]. cbn [forallb req_matches].
      by rewrite bool_decide_true.
    - intros (ns & Hns%Hin & Hsel). destruct Hns as [Hns _].
      unfold selected, namespace_opts, cleanup_opts, other_policy in Hsel. rewrite Hreq in Hsel.
      cbn [lo_Namespace lo_Selector forallb] in Hsel.
      apply andb_true_iff in Hsel as [Hname Hsel]. apply andb_true_iff in Hsel as [Hm Hsel].
      split; [done|]. exists ns. split; [done|].
      apply orb_true_iff in Hname as [Hname|Hname]; apply bool_decide_eq_true in Hname;
        [by apply Hnames in Hns|]. split; [done|].
      case_decide as Hp; [by left|right]. cbn [forallb req_matches] in Hsel.
      rewrite andb_true_r in Hsel. by apply bool_decide_eq_true in Hsel. }
  destruct (existsb _ l); split; intros H1; try done; exfalso; naive_solver.
Qed.

(** The finalization of a policy cannot be held up by its cleanup: with the
    policy stored and being deleted, the only error is that of the final
    update, and without one the finalizer is gone, and the policy with it when
    it had no other. *)
Theorem finalizePolicy_spec `{!KubeUtilLaws} policy w r w' :
  let i := obj_key (OVirtualClusterPolicy policy) in
  let rest := slices_DeleteFunc (Finalizers (vcp_Meta policy)) (λ f, bool_decide (f = policyFinalizerName)) in
  store w !! i = Some (OVirtualClusterPolicy policy) →
  is_deleting (vcp_Meta policy) = true → policyFinalizerName ∈ Finalizers (vcp_Meta policy) →
  finalizePolicy policy w = (r, w') →
  match r with
  | Ok _ => if decide (rest = []) then store w' !! i = None
            else ∃ q, store w' !! i = Some (OVirtualClusterPolicy q) ∧ Finalizers (vcp_Meta q) = rest
  | Err e => ∃ q w1, Finalizers (vcp_Meta q) = rest ∧ Update c q w1 = (Err e, w')
  | Panic => True
  end.
Proof.
  intros i rest Hst Hdel Hfin E. unfold finalizePolicy in E. cbv zeta in E.
  set (p1 := with_policy_conditions _ policy) in E. unfold mbind at 1, M_bind, attempt at 1 in E.
  destruct (StatusUpdate c p1 w) as [r1 w1] eqn:ES. apply (StatusUpdate_run c) in ES as [_ Hr1].
  destruct r1 as [y|e|]; [| |done].
  - destruct Hr1 as (old & Hold & Hy & _). change (store w !! i = Some old) in Hold.
    rewrite Hst in Hold. injection Hold as <-. cbn in Hy. injection Hy as ->.
    by eapply finalize_tail in E.
  - by eapply finalize_tail in E.
Qed.

(** The pod ranges: the configured one, or the ranges of the nodes, sorted
    and without repetition. *)
Theorem FindPodCIDRs_spec `{!KubeUtilLaws} clusterCIDR w r w' :
  FindPodCIDRs clusterCIDR w = (r, w') →
  store w' = store w ∧
  match r with
  | Ok l =>
      if decide (clusterCIDR = "") then
        NoDup l ∧ Sorted str_le l ∧
        ∀ x, x ∈ l ↔ ∃ node, store w !! obj_key (ONode node) = Some (ONode node) ∧
                             (x ∈ node_PodCIDRs node ∨ x = node_PodCIDR node ∧ x ≠ "")
      else l = [clusterCIDR]
  | Err _ => clusterCIDR = "" ∧ ¬ up w
  | Panic => False
  end.
Proof.
  intros E. unfold FindPodCIDRs in E. destruct (decide (clusterCIDR ≠ "")) as [Hne|He].
  - injection E as <- <-. split; [done|]. by rewrite decide_False.
  - apply dec_stable in He. unfold mbind, M_bind in E.
    destruct (List_ c Node list_all w) as [rl w1] eqn:EL. apply (List_run c) in EL as (Hs & _ & Hl); [|done].
    destruct rl as [l|e|]; [|by injection E as <- <-|done]. injection E as <- <-.
    split; [done|]. rewrite decide_True by done. split; [apply sets_List_nodup|].
    split; [apply sets_List_sorted|]. intros x. rewrite sets_List_elem, list_elem_of_In, in_flat_map.
    destruct Hl as [_ Hl]. split.
    + intros (node & Hn & Hx). apply list_elem_of_In in Hn, Hx. apply Hl in Hn as [Hn _].
      exists node. split; [done|]. apply elem_of_app in Hx as [Hx|Hx]; [by left|right].
      case_decide; [|by apply elem_of_nil in Hx]. by apply list_elem_of_singleton in Hx as ->.
    + intros (node & Hn & Hx). exists node. rewrite <- !list_elem_of_In. split; [by apply Hl|].
      apply elem_of_app. destruct Hx as [Hx|[-> Hx]]; [by left|right]. rewrite decide_True by done.
      by apply list_elem_of_singleton.
Qed.

(** A namespace update event enqueues the policies concerned, each once: the
    one it was bound to and the one it is bound to, when its labels have
    changed. *)
Theorem namespaceEventHandler_update old new :
  let q := namespaceEventHandler (UpdateEvent (ONamespace old) (ONamespace new)) in
  NoDup q ∧
  ∀ n, n ∈ q ↔ Labels (ns_Meta old) ≠ Labels (ns_Meta new) ∧ nn_Namespace n = "" ∧ nn_Name n ≠ "" ∧
                 (nn_Name n = ns_policy old ∨ nn_Name n = ns_policy new).
Proof.
  clear NewRequirement ClusterCIDR.
  cbn [namespaceEventHandler]. cbv zeta.
  assert (∀ m s, m ∈ enqueue s ↔ nn_Namespace m = "" ∧ nn_Name m = s) as Henq.
  { intros m s. unfold enqueue. rewrite list_elem_of_singleton. destruct m; unfold cluster_scoped; cbn.
    naive_solver. }
  destruct (decide (Labels (ns_Meta old) = Labels (ns_Meta new))) as [Hl|Hl].
  { split; [constructor|]. intros n. rewrite elem_of_nil. tauto. }
  destruct (decide (ns_policy old = "" ∧ ns_policy new = "")) as [[Ho Hn]|Hne].
  { split; [constructor|]. intros n. rewrite elem_of_nil, Ho, Hn. tauto. }
  destruct (decide (ns_policy old = ns_policy new)) as [Heq|Hd].
  { split; [apply NoDup_singleton|]. intros n. rewrite Henq. rewrite <- Heq in Hne |- *. naive_solver congruence. }
  split.
  - apply NoDup_app. split; [|split].
    + case_decide; [apply NoDup_singleton|constructor].
    + intros n Hn Hn'. destruct (decide (ns_policy old ≠ "")); [|by apply elem_of_nil in Hn].
      destruct (decide (ns_policy new ≠ "")); [|by apply elem_of_nil in Hn']. apply Henq in Hn, Hn'. naive_solver congruence.
    + case_decide; [apply NoDup_singleton|constructor].
  - intros n. rewrite elem_of_app. revert Hl Hd Hne; generalize (ns_policy old), (ns_policy new); intros o' n' Hl Hd Hne.
    repeat case_decide; rewrite ?Henq, ?elem_of_nil; intuition congruence.
Qed.

Definition psa_keys : list string := [psa_enforce; psa_enforce_version; psa_warn; psa_warn_version].

(** The labels that a level asks for. *)
Definition psa_wanted (level : option PodSecurityAdmissionLevel) (k : string) : option string :=
  match level with
  | None => None
  | Some l =>
      if decide (k = psa_enforce) then Some l
      else if decide (k = psa_enforce_version) then Some "latest"
      else if decide (l = PrivilegedPodSecurityAdmissionLevel) then None
      else if decide (k = psa_warn) then Some l else Some "latest"
  end.

Definition with_psa (level : option PodSecurityAdmissionLevel) (g : gmap string string)
  : gmap string string :=
  let g := delete psa_warn_version (delete psa_warn (delete psa_enforce_version (delete psa_enforce g))) in
  match level with
  | None => g
  | Some l =>
      let g := <[psa_enforce_version := "latest"]> (<[psa_enforce := l]> g) in
      if decide (l ≠ PrivilegedPodSecurityAdmissionLevel)
      then <[psa_warn_version := "latest"]> (<[psa_warn := l]> g) else g
  end.

Lemma with_psa_lookup level g k :
  with_psa level g !! k = if decide (k ∈ psa_keys) then psa_wanted level k else g !! k.
Proof.
  unfold with_psa, psa_wanted, psa_keys.
  destruct (decide (k ∈ _)) as [Hk|Hk].
  - repeat (apply elem_of_cons in Hk as [->|Hk]); [..|by apply elem_of_nil in Hk];
      destruct level as [l|]; cbv zeta; repeat case_decide; try done;
      rewrite ?lookup_insert, ?lookup_delete; reflexivity.
  - rewrite !not_elem_of_cons in Hk. destruct Hk as (H1 & H2 & H3 & H4 & _).
    destruct level as [l|]; cbv zeta; repeat case_decide;
      rewrite ?lookup_insert_ne, ?lookup_delete_ne by congruence; done.
Qed.

Lemma reconcile_psa ns policy g :
  Labels (ns_Meta ns) = Some g →
  reconcileNamespacePodSecurityLabels ns policy =
  Ok (with_labels (Some (with_psa (PodSecurityAdmissionLevel_ (vcp_Spec policy)) g)) ns).
Proof.
  intros Hg. unfold reconcileNamespacePodSecurityLabels, with_psa, del_psa. rewrite Hg.
  destruct (PodSecurityAdmissionLevel_ _) as [l|]; [|done]. cbn [map_del map_set].
  cbv zeta. cbn. by case_decide.
Qed.

(** C40: The pod-security labels of a namespace become those of the level of the
    policy, stale ones are dropped, the other labels stay, and a second run
    changes nothing; only a namespace without any label, which no policy
    selects, panics. *)
Theorem reconcileNamespacePodSecurityLabels_spec ns policy :
  let level := PodSecurityAdmissionLevel_ (vcp_Spec policy) in
  match reconcileNamespacePodSecurityLabels ns policy with
  | Ok ns' =>
      ns' = with_labels (Labels (ns_Meta ns')) ns ∧
      (∀ k, map_get (Labels (ns_Meta ns')) k =
            if decide (k ∈ psa_keys) then psa_wanted level k else map_get (Labels (ns_Meta ns)) k) ∧
      reconcileNamespacePodSecurityLabels ns' policy = Ok ns'
  | Panic => Labels (ns_Meta ns) = None ∧ level ≠ None
  | Err _ => False
  end.
Proof.
  cbv zeta. destruct (Labels (ns_Meta ns)) as [g|] eqn:Hg.
  - rewrite (reconcile_psa ns policy g Hg). split; [done|]. split.
    + intros k. cbn. by rewrite with_psa_lookup.
    + erewrite reconcile_psa by reflexivity. f_equal. unfold with_labels. cbn. unfold set_Labels. cbn.
      do 3 f_equal. apply map_eq. intros k. rewrite !with_psa_lookup. by case_decide.
  - unfold reconcileNamespacePodSecurityLabels. rewrite Hg.
    destruct (PodSecurityAdmissionLevel_ _); cbn; [done|]. split; [done|]. split; [|done].
    intros k. by case_decide.
Qed.
End Properties.
End Controller.

(** ** Concrete runs *)
Definition ex_spec : VirtualClusterPolicySpec := {|
  Quota := Some (JStr "quota"); Limit := None; DefaultNodeSelector := None;
  DefaultPriorityClass := "high"; DefaultServerAffinity := None; DefaultAgentAffinity := None;
  AllowedMode := "shared"; DisableNetworkPolicy := false;
  PodSecurityAdmissionLevel_ := Some "baseline"; vcp_Sync := None; vcp_RuntimeClassName := None;
  vcp_SecurityContext := None; vcp_HostUsers := None; vcp_AllowedHostSchedulers := [] |}.

Definition ex_meta (fs : list string) (deleted : option string) : ObjectMeta := {|
  Name := "gold"; Namespace := ""; Labels := None; Annotations := None; OwnerReferences := [];
  Finalizers := fs; ResourceVersion := ""; UID := "uid"; DeletionTimestamp := deleted |}.

Definition ex_policy (fs : list string) (deleted : option string) : VirtualClusterPolicy := {|
  vcp_Meta := ex_meta fs deleted; vcp_Spec := ex_spec;
  vcp_Status := {| vps_ObservedGeneration := 0; vps_LastUpdate := ""; vps_Summary := "";
                   vps_Conditions := [] |} |}.

Definition ex_ns (n : string) (l : list (string * string)) : NamespaceObj :=
  {| ns_Meta := set_Labels (map_lit l) (meta_of "" n) |}.
Definition ex_team : NamespaceObj := ex_ns "team" [(PolicyNameLabelKey, "gold")].
Definition ex_cluster : Cluster := named_cluster "team" "c1" zero_ClusterSpec.
Definition ex_stale : NetworkPolicy := networkPolicy "free" (ex_policy [] None) [].
Definition ex_objects (p : VirtualClusterPolicy) : list Obj :=
  [ONamespace ex_team; ONamespace (ex_ns "free" []); OCluster ex_cluster;
   ONetworkPolicy ex_stale; OVirtualClusterPolicy p].
Definition ex_store (p : VirtualClusterPolicy) : mem := {|
  mem_store := list_to_map (map (λ o, (obj_key o, o)) (ex_objects p));
  mem_up := true |}.
Definition ex_live : mem := ex_store (ex_policy [] None).
Definition ex_dying : VirtualClusterPolicy := ex_policy [policyFinalizerName] (Some "now").
Definition ex_req : string → list string → option error := λ _ _, None.

Lemma ex_names p ns :
  mem_objects (ex_store p) !! obj_key (ONamespace ns) = Some (ONamespace ns) → Name (ns_Meta ns) ≠ "".
Proof.
  intros Hin. apply mem_objects_lookup in Hin as [Hin _]. apply elem_of_list_to_map_2 in Hin.
  apply list_elem_of_fmap in Hin as (o & Heq & Hin). apply (f_equal snd) in Heq. cbn [snd] in Heq.
  subst o.
  assert (Forall (λ o, match o with ONamespace n => Name (ns_Meta n) ≠ "" | _ => True end) (ex_objects p))
    as Hall by (repeat (apply List.Forall_cons; [first [exact I | discriminate]|]); apply List.Forall_nil).
  rewrite Forall_forall in Hall. exact (Hall _ Hin).
Qed.

Lemma Reconcile_frame_witness :
  (Reconcile mem_client "" ex_req (cluster_scoped "gold") ex_live).1 = Ok tt ∧
  ∀ i, frame (cluster_scoped "gold") i (mem_objects ex_live !! i)
         (mem_objects (Reconcile mem_client "" ex_req (cluster_scoped "gold") ex_live).2 !! i).
Proof.
  split; [vm_compute; reflexivity|]. generalize ex_live as w. intros w.
  destruct (Reconcile mem_client "" ex_req (cluster_scoped "gold") w) as [r w'] eqn:E.
  exact (Reconcile_frame mem_client "" ex_req _ _ _ _ E).
Defined.

Lemma reconcileNamespace_spec_witness :
  ∃ w', reconcileNamespace mem_client "" (ex_policy [] None) ex_team ex_live = (Ok tt, w') ∧
    mem_objects w' !! obj_key (OCluster ex_cluster) =
    Some (OCluster (with_policy (ex_policy [] None) ex_cluster)).
Proof.
  assert ((reconcileNamespace mem_client "" (ex_policy [] None) ex_team ex_live).1 = Ok tt) as Hr
    by (vm_compute; reflexivity).
  destruct (reconcileNamespace mem_client "" (ex_policy [] None) ex_team ex_live) as [r w'] eqn:E.
  cbn [fst] in Hr. subst r. exists w'. split; [reflexivity|].
  destruct (reconcileNamespace_spec mem_client "" _ _ _ _ E) as (_ & _ & _ & Hclusters).
  apply Hclusters. split; [vm_compute; reflexivity|right; reflexivity].
Defined.

Definition ex_bound : mem :=
  (reconcileNamespace mem_client "" (ex_policy [] None) ex_team ex_live).2.

Lemma clearPolicyFields_spec_witness :
  ∃ w', clearPolicyFieldsForClustersInNamespace mem_client "team" ex_bound = (Ok tt, w') ∧
    ∀ i x, selected_cluster "team" i x (mem_objects w') → st_Policy (cl_Status x) = None.
Proof.
  assert ((clearPolicyFieldsForClustersInNamespace mem_client "team" ex_bound).1 = Ok tt) as Hr
    by (vm_compute; reflexivity).
  destruct (clearPolicyFieldsForClustersInNamespace mem_client "team" ex_bound) as [r w'] eqn:E.
  cbn [fst] in Hr. subst r. exists w'. split; [reflexivity|].
  exact (proj2 (clearPolicyFields_spec mem_client _ _ _ _ E) eq_refl).
Defined.

Lemma cleanupNamespaces_spec_witness :
  ∃ w', cleanupNamespaces mem_client ex_req ex_live = (Ok tt, w') ∧
    removed (ONetworkPolicy ex_stale) (mem_objects w' !! obj_key (ONetworkPolicy ex_stale)).
Proof.
  assert ((cleanupNamespaces mem_client ex_req ex_live).1 = Ok tt) as Hr by (vm_compute; reflexivity).
  assert (mem_objects ex_live !! obj_key (ONetworkPolicy ex_stale) = Some (ONetworkPolicy ex_stale)) as Hst
    by (vm_compute; reflexivity).
  assert (mem_objects ex_live !! obj_key (ONamespace (ex_ns "free" [])) = Some (ONamespace (ex_ns "free" [])))
    as Hns by (vm_compute; reflexivity).
  destruct (cleanupNamespaces mem_client ex_req ex_live) as [r w'] eqn:E.
  cbn [fst] in Hr. subst r. exists w'. split; [reflexivity|].
  refine (proj1 (cleanupNamespaces_spec mem_client ex_req _ _ (λ _, eq_refl) (ex_names _) E
                   (obj_key (ONetworkPolicy ex_stale)) _ _ Hst) _).
  - apply (bool_decide_unpack _). vm_compute. exact I.
  - split; [vm_compute; reflexivity|]. exists (ex_ns "free" []).
    split; [exact Hns|]. split; [reflexivity|left; vm_compute; reflexivity].
Defined.

Lemma finalizePolicy_spec_witness :
  ∃ w', finalizePolicy mem_client ex_dying (ex_store ex_dying) = (Ok tt, w') ∧
    mem_objects w' !! obj_key (OVirtualClusterPolicy ex_dying) = None.
Proof.
  assert ((finalizePolicy mem_client ex_dying (ex_store ex_dying)).1 = Ok tt) as Hr
    by (vm_compute; reflexivity).
  destruct (finalizePolicy mem_client ex_dying (ex_store ex_dying)) as [r w'] eqn:E.
  cbn [fst] in Hr. subst r. exists w'. split; [reflexivity|].
  refine (finalizePolicy_spec mem_client ex_dying _ _ _ _ _ _ E).
  - vm_compute. reflexivity.
  - reflexivity.
  - apply (bool_decide_unpack _). vm_compute. exact I.
Defined.

Lemma FindPodCIDRs_spec_witness :
  (FindPodCIDRs mem_client "10.42.0.0/16" ex_live).1 = Ok ["10.42.0.0/16"] ∧
  mem_objects (FindPodCIDRs mem_client "10.42.0.0/16" ex_live).2 = mem_objects ex_live.
Proof.
  split; [reflexivity|].
  destruct (FindPodCIDRs mem_client "10.42.0.0/16" ex_live) as [r w'] eqn:E.
  exact (proj1 (FindPodCIDRs_spec mem_client _ _ _ _ E)).
Defined.
End Policy.
