(* ===== verification/Network.v ===== *)
(** * What the network policies of a namespace let through

    The documented meaning of the network policies of Kubernetes, over every
    policy that a namespace has, and what it comes to after the policy controller
    (pkg/controller/policy) has reconciled the namespace.  The membership of an
    address in a block is a parameter. *)

From S2P Require Import Prelude GoStd K8s Types Kube Effects Names Translate Policy.

Local Open Scope string_scope.

Module Network.

#[local] Set Default Proof Using "Type*".

(** ** Selectors *)
Definition requirement_matches (r : LabelSelectorRequirement) (l : gomap string) : bool :=
  let found := map_get l (lsr_Key r) in
  let listed := existsb (λ v, bool_decide (found = Some v)) (lsr_Values r) in
  let op := lsr_Operator r in
  if decide (op = "In") then listed
  else if decide (op = "NotIn") then negb listed
  else if decide (op = "Exists") then bool_decide (is_Some found)
  else if decide (op = "DoesNotExist") then bool_decide (found = None)
  else false.

(** The labels and the expressions must all match; an empty selector matches
    everything. *)
Definition label_matches (s : LabelSelector) (l : gomap string) : bool :=
  forallb (λ p, bool_decide (map_get l p.1 = Some p.2)) (map_to_list (default ∅ (ls_MatchLabels s))) &&
  forallb (λ r, requirement_matches r l) (ls_MatchExpressions s).

Lemma label_matches_one k v l : label_matches (Policy.match_labels [(k, v)]) l = bool_decide (map_get l k = Some v).
Proof.
  unfold label_matches. cbn [Policy.match_labels ls_MatchLabels ls_MatchExpressions forallb]. rewrite andb_true_r.
  unfold map_lit. cbn. rewrite insert_empty, map_to_list_singleton. cbn. by rewrite andb_true_r.
Qed.

(** ** Policies *)

(** A pod as the policies see it, and the other end of a connection: an address
    and, when it is a pod, that pod. *)
Record endpoint_pod : Type := {
  ep_Namespace : string;
  ep_NamespaceLabels : gomap string;
  ep_Labels : gomap string;
}.
Record endpoint : Type := { ep_IP : string; ep_Pod : option endpoint_pod }.

Inductive direction : Set := Ingress | Egress.
Definition direction_name (dir : direction) : string := match dir with Ingress => "Ingress" | Egress => "Egress" end.
Definition rules (dir : direction) (s : NetworkPolicySpec) : list (list NetworkPolicyPeer) :=
  match dir with Ingress => nps_Ingress s | Egress => nps_Egress s end.

Section Semantics.
Context (in_cidr : string → string → bool).

(** A block of addresses but for its exceptions; or the pods whose namespace and
    labels match, of the namespace of the policy when no namespace is selected. *)
Definition peer_allows (namespace : string) (p : NetworkPolicyPeer) (e : endpoint) : bool :=
  match npp_IPBlock p with
  | Some b => in_cidr (ep_IP e) (ib_CIDR b) && negb (existsb (in_cidr (ep_IP e)) (ib_Except b))
  | None =>
      match ep_Pod e with
      | None => false
      | Some pod =>
          match npp_NamespaceSelector p with
          | Some s => label_matches s (ep_NamespaceLabels pod)
          | None => bool_decide (npp_PodSelector p ≠ None) && bool_decide (ep_Namespace pod = namespace)
          end && from_option (λ s, label_matches s (ep_Labels pod)) true (npp_PodSelector p)
      end
  end.

(** A rule without peers allows everything (the rules of the source restrict no
    ports). *)
Definition rule_allows (namespace : string) (peers : list NetworkPolicyPeer) (e : endpoint) : bool :=
  bool_decide (peers = []) || existsb (λ p, peer_allows namespace p e) peers.

(** The directions that a policy restricts: without a list of types, ingress, and
    egress when it has rules for it. *)
Definition restricts (dir : direction) (s : NetworkPolicySpec) : bool :=
  if decide (nps_PolicyTypes s = [])
  then match dir with Ingress => true | Egress => bool_decide (nps_Egress s ≠ []) end
  else bool_decide (direction_name dir ∈ nps_PolicyTypes s).

(** The policy restricts this direction of the traffic of the pod. *)
Definition applies (dir : direction) (p : NetworkPolicy) (pod : endpoint_pod) : bool :=
  bool_decide (Namespace (np_Meta p) = ep_Namespace pod) &&
  label_matches (nps_PodSelector (np_Spec p)) (ep_Labels pod) && restricts dir (np_Spec p).

Definition lets (dir : direction) (p : NetworkPolicy) (e : endpoint) : bool :=
  existsb (λ peers, rule_allows (Namespace (np_Meta p)) peers e) (rules dir (np_Spec p)).

(** Traffic is allowed when no policy restricts it, or when one that does lets it
    through. *)
Definition allowed (policies : NetworkPolicy → Prop) (dir : direction) (pod : endpoint_pod) (e : endpoint) : Prop :=
  (∀ p, policies p → applies dir p pod = false) ∨
  ∃ p, policies p ∧ applies dir p pod = true ∧ lets dir p e = true.

(** One policy next to the others, when it restricts the pod and when not. *)
Lemma allowed_with policies others p dir pod e :
  (∀ q, policies q ↔ q = p ∨ others q) → applies dir p pod = true →
  allowed policies dir pod e ↔
  lets dir p e = true ∨ ∃ q, others q ∧ applies dir q pod = true ∧ lets dir q e = true.
Proof using.
  intros Hp Ha. split.
  - intros [Hn|(q & Hq & Haq & Hl)]; [|apply Hp in Hq as [->|Hq]; [by left|right; by exists q]].
    rewrite (Hn p) in Ha by (apply Hp; by left). done.
  - intros [Hl|(q & Hq & Haq & Hl)]; right; [exists p|exists q]; rewrite Hp; auto.
Qed.

Lemma allowed_without policies others p dir pod e :
  (∀ q, policies q ↔ q = p ∨ others q) → applies dir p pod = false →
  allowed policies dir pod e ↔ allowed others dir pod e.
Proof using.
  intros Hp Ha. unfold allowed. setoid_rewrite Hp. split.
  - intros [Hn|(q & [->|Hq] & Haq & Hl)]; [left; auto|by rewrite Ha in Haq|right; by exists q].
  - intros [Hn|(q & Hq & Haq & Hl)]; [left|right; exists q; tauto]. by intros q [->|Hq]; auto.
Qed.

(** ** The policy of the controller *)

(** Where a synced pod may connect: outside the pod network, in its own namespace
    and to the DNS of the host. *)
Definition reachable_from (namespace : string) (ranges : string → Prop) (e : endpoint) : Prop :=
  (in_cidr (ep_IP e) "0.0.0.0/0" = true ∧ ∀ x, ranges x → in_cidr (ep_IP e) x = false) ∨
  ∃ pod, ep_Pod e = Some pod ∧
    (map_get (ep_NamespaceLabels pod) "kubernetes.io/metadata.name" = Some namespace ∨
     map_get (ep_NamespaceLabels pod) "kubernetes.io/metadata.name" = Some "kube-system" ∧
     map_get (ep_Labels pod) "k8s-app" = Some "kube-dns").

Definition synced (pod : endpoint_pod) : Prop := is_Some (map_get (ep_Labels pod) Translate.ClusterNameLabel).

Lemma applies_isolation dir p pod namespace cidrs :
  np_Spec p = Policy.IsolationNetworkPolicySpec namespace cidrs →
  applies dir p pod = true ↔ Namespace (np_Meta p) = ep_Namespace pod ∧ synced pod.
Proof using.
  clear in_cidr. intros Hs. unfold applies, synced. rewrite Hs, !andb_true_iff, bool_decide_eq_true.
  cbn [nps_PodSelector Policy.IsolationNetworkPolicySpec].
  assert (restricts dir (Policy.IsolationNetworkPolicySpec namespace cidrs) = true) as ->
    by (by destruct dir; apply bool_decide_eq_true_2, (bool_decide_unpack _)).
  unfold label_matches. cbn. rewrite map_to_list_empty. cbn. rewrite !andb_true_r.
  unfold requirement_matches. cbn [lsr_Operator lsr_Key]. rewrite !(decide_False (P:="Exists" = _)), decide_True by done.
  rewrite bool_decide_eq_true. tauto.
Qed.

Lemma lets_ingress p e namespace cidrs :
  np_Spec p = Policy.IsolationNetworkPolicySpec namespace cidrs → lets Ingress p e = true.
Proof using. unfold lets. by intros ->. Qed.

Lemma lets_egress p e namespace cidrs :
  np_Spec p = Policy.IsolationNetworkPolicySpec namespace cidrs →
  lets Egress p e = true ↔ reachable_from namespace (λ x, x ∈ cidrs) e.
Proof using.
  intros Hs. unfold lets, rule_allows. rewrite Hs. cbn [rules nps_Egress Policy.IsolationNetworkPolicySpec existsb].
  rewrite bool_decide_false, !orb_false_r by done. cbn [orb].
  unfold peer_allows, reachable_from. cbn [npp_IPBlock npp_NamespaceSelector npp_PodSelector ib_CIDR ib_Except from_option].
  rewrite !orb_true_iff, andb_true_iff, negb_true_iff, <- not_true_iff_false, existsb_true_iff.
  setoid_rewrite <- not_true_iff_false.
  destruct (ep_Pod e) as [pod|]; rewrite ?andb_true_r, ?label_matches_one, ?andb_true_iff, ?bool_decide_eq_true.
  - split.
    + intros [[H1 H2]|[H1|H1]]; [left|right; exists pod; tauto..].
      split; [done|]. intros x Hx He. apply H2. by exists x.
    + intros [[H1 H2]|(pod' & [= <-] & H1)]; [left|tauto]. split; [done|]. intros (x & Hx & He). by apply (H2 x).
  - split.
    + intros [[H1 H2]|[H1|H1]]; [left|done..]. split; [done|]. intros x Hx He. apply H2. by exists x.
    + intros [[H1 H2]|(pod' & ? & _)]; [left|done]. split; [done|]. intros (x & Hx & He). by apply (H2 x).
Qed.

(** ** A reconciled namespace *)
Context {W : Type} (c : Client W) `{!ClientLaws c} `{KubeUtil} `{!KubeUtilLaws} `{!Keeps c np_Spec}.

(** The pod network: the configured range, or the ranges of the stored nodes. *)
Definition pod_range (ClusterCIDR : string) (st : Store) (x : string) : Prop :=
  if decide (ClusterCIDR = "") then
    ∃ node, st !! obj_key (ONode node) = Some (ONode node) ∧
            (x ∈ node_PodCIDRs node ∨ x = node_PodCIDR node ∧ x ≠ "")
  else x = ClusterCIDR.

Lemma FindPodCIDRs_ranges ClusterCIDR w l w' :
  Policy.FindPodCIDRs c ClusterCIDR w = (Ok l, w') → ∀ x, x ∈ l ↔ pod_range ClusterCIDR (store w) x.
Proof.
  intros [_ Hl]%(Policy.FindPodCIDRs_spec c) x. unfold pod_range. case_decide; [by apply Hl|].
  rewrite Hl. apply list_elem_of_singleton.
Qed.

Lemma reachable_ext namespace r1 r2 e :
  (∀ x, r1 x ↔ r2 x) → reachable_from namespace r1 e ↔ reachable_from namespace r2 e.
Proof using. intros Hr. unfold reachable_from. by setoid_rewrite Hr. Qed.

Definition stored_policy (st : Store) (p : NetworkPolicy) : Prop :=
  st !! obj_key (ONetworkPolicy p) = Some (ONetworkPolicy p).

(** The policy that the controller has left in the namespace. *)
Lemma isolation_stored ClusterCIDR policy ns w w' :
  Policy.reconcileNamespace c ClusterCIDR policy ns w = (Ok tt, w') →
  DisableNetworkPolicy (vcp_Spec policy) = false →
  ∃ p cidrs, stored_policy (store w') p ∧ key_of (np_Meta p) = Policy.managed_key (Name (ns_Meta ns)) policy ∧
    np_Spec p = Policy.IsolationNetworkPolicySpec (Name (ns_Meta ns)) cidrs ∧
    ∀ x, x ∈ cidrs ↔ pod_range ClusterCIDR (store w) x.
Proof.
  intros E Hd. destruct (Policy.reconcileNamespace_run c _ _ _ _ _ E) as ((cidrs & w1 & HF & Happ) & _).
  rewrite Hd in Happ.
  destruct Happ as (m & Hm & y & w2 & w3 & Hy & Hw).
  apply Policy.owned_not_deleting in Hm as [_ Hk]. pose proof (store_keys _ _ _ Hy) as Hkey.
  exists y, cidrs. split; [by rewrite <- Hkey in Hy|]. split; [|split].
  - unfold obj_key in Hkey. cbn in Hkey. rewrite Hk in Hkey. congruence.
  - by destruct Hw as [Hw|Hw]; [apply (create_keeps (f:=np_Spec)) in Hw|apply (update_keeps (f:=np_Spec)) in Hw].
  - by eapply FindPodCIDRs_ranges.
Qed.

End Semantics.

(** ** A concrete run

    A node with the range of the pods, and two tenants. *)
Definition ex_node : Node := {|
  node_Meta := meta_of "" "node1"; node_PodCIDR := "10.42.0.0/24"; node_PodCIDRs := ["10.42.0.0/24"];
  node_Addresses := []; node_Capacity := None; node_Allocatable := None; node_Extra := no_node_extra |}.
Definition ex_world : mem :=
  mem_put (obj_key (ONode ex_node)) (ONode ex_node) Policy.ex_live.
Definition ex_done : mem := (Policy.reconcileNamespace mem_client "" (Policy.ex_policy [] None) Policy.ex_team ex_world).2.

(** The blocks of 24 bits of addresses written with the same width. *)
Definition ex_in_cidr (ip cidr : string) : bool :=
  bool_decide (cidr = "0.0.0.0/0") || bool_decide (String.substring 0 8 ip = String.substring 0 8 cidr).

Definition ex_pod (namespace cluster : string) : endpoint_pod := {|
  ep_Namespace := namespace; ep_NamespaceLabels := map_lit [("kubernetes.io/metadata.name", namespace)];
  ep_Labels := map_lit [(Translate.ClusterNameLabel, cluster)] |}.
Definition ex_internet : endpoint := {| ep_IP := "1.1.1.1"; ep_Pod := None |}.
Definition ex_tenant : endpoint := {| ep_IP := "10.42.0.7"; ep_Pod := Some (ex_pod "free" "c2") |}.

Lemma ex_ranges x : pod_range "" (store ex_world) x ↔ x = "10.42.0.0/24".
Proof.
  split.
  - intros (node & Hn & Hx). apply mem_objects_lookup in Hn as [Hn _]. apply elem_of_map_to_list in Hn.
    assert (forallb (λ i : ObjKey * Obj, match i.2 with ONode n => bool_decide (n = ex_node) | _ => true end)
              (map_to_list (mem_store ex_world)) = true) as Hall by (vm_compute; reflexivity).
    rewrite forallb_forall in Hall. apply list_elem_of_In, Hall, bool_decide_eq_true in Hn as ->. destruct Hx as [Hx|[-> _]]; [|done].
    by apply list_elem_of_singleton in Hx.
  - intros ->. exists ex_node. split; [vm_compute; reflexivity|left]. by apply list_elem_of_singleton.
Qed.

Lemma ex_alone q pod :
  stored_policy (store ex_done) q → key_of (np_Meta q) ≠ Policy.managed_key "team" (Policy.ex_policy [] None) →
  applies Egress q pod = true → ep_Namespace pod ≠ "team".
Proof.
  intros Hq Hk Ha Hp. unfold applies in Ha. rewrite !andb_true_iff, bool_decide_eq_true in Ha. destruct Ha as [[Hn _] _].
  apply mem_objects_lookup in Hq as [Hq _]. apply elem_of_map_to_list in Hq.
  assert (forallb (λ i : ObjKey * Obj, match i.2 with
                       | ONetworkPolicy p =>
                           negb (bool_decide (Namespace (np_Meta p) = "team")) ||
                           bool_decide (key_of (np_Meta p) = Policy.managed_key "team" (Policy.ex_policy [] None))
                       | _ => true
                       end) (map_to_list (mem_store ex_done)) = true) as Hall by (vm_compute; reflexivity).
  rewrite forallb_forall in Hall. apply list_elem_of_In, Hall in Hq. cbn [snd] in Hq.
  rewrite bool_decide_true in Hq by congruence. exact (Hk (proj1 (bool_decide_eq_true _) Hq)).
Qed.

End Network.
