(* ===== verification/Lab.v ===== *)
(** * A concrete environment

    Two API servers side by side, the host and one virtual cluster, a k3s
    server that answers the requests of the controller, and toy versions of the
    codecs and of the X.509 library: what the parameters of the reconciler are
    instantiated with where its theorems are applied to a concrete run. *)

From S2P Require Import Prelude GoStd Base64 GoNet K8s Types Kube Effects K3s Access.

Local Open Scope string_scope.

Module Lab.

(** ** Two servers *)
Definition on_fst {W V A} (m : M W A) : M (W * V) A := λ w,
  let '(r, w1) := m w.1 in (r, (w1, w.2)).
Definition on_snd {W V A} (m : M V A) : M (W * V) A := λ w,
  let '(r, w2) := m w.2 in (r, (w.1, w2)).

Definition fst_client {W V} (c : Client W) : Client (W * V) := {|
  client_Get k n := on_fst (client_Get c k n);
  client_List k o := on_fst (client_List c k o);
  client_Create o := on_fst (client_Create c o);
  client_Update o := on_fst (client_Update c o);
  client_StatusUpdate o := on_fst (client_StatusUpdate c o);
  client_Delete k n := on_fst (client_Delete c k n);
  client_DeleteAllOf k o := on_fst (client_DeleteAllOf c k o);
|}.

Definition snd_client {W V} (c : Client V) : Client (W * V) := {|
  client_Get k n := on_snd (client_Get c k n);
  client_List k o := on_snd (client_List c k o);
  client_Create o := on_snd (client_Create c o);
  client_Update o := on_snd (client_Update c o);
  client_StatusUpdate o := on_snd (client_StatusUpdate c o);
  client_Delete k n := on_snd (client_Delete c k n);
  client_DeleteAllOf k o := on_snd (client_DeleteAllOf c k o);
|}.

Section Pair.
Context {W V : Type}.

Lemma on_fst_run {A} (m : M W A) (w : W * V) r w1 :
  m w.1 = (r, w1) → on_fst m w = (r, (w1, w.2)).
Proof. unfold on_fst. by intros ->. Qed.
Lemma on_snd_run {A} (m : M V A) (w : W * V) r w2 :
  m w.2 = (r, w2) → on_snd m w = (r, (w.1, w2)).
Proof. unfold on_snd. by intros ->. Qed.

Ltac pair_law spec run :=
  let r := fresh in let w' := fresh in let E := fresh in let HH := fresh in
  destruct spec as (r & w' & E & HH); eexists r, _; split; [apply run, E|exact HH].

#[export] Program Instance fst_laws (c : Client W) `{!ClientLaws c} : ClientLaws (fst_client c : Client (W * V)) := {|
  store w := store w.1; up w := up w.1 |}.
Next Obligation. intros c L w k o. apply store_keys. Qed.
Next Obligation. intros c L k n w. pair_law (get_spec k n w.1) (@on_fst_run Obj). Qed.
Next Obligation. intros c L k opts w Hf. pair_law (list_spec k opts w.1 Hf) (@on_fst_run (list Obj)). Qed.
Next Obligation. intros c L o w. pair_law (create_spec o w.1) (@on_fst_run Obj). Qed.
Next Obligation. intros c L o w. pair_law (update_spec o w.1) (@on_fst_run Obj). Qed.
Next Obligation. intros c L o w. pair_law (status_update_spec o w.1) (@on_fst_run Obj). Qed.
Next Obligation. intros c L k n w. pair_law (delete_spec k n w.1) (@on_fst_run unit). Qed.
Next Obligation. intros c L k opts w Hf. pair_law (delete_all_spec k opts w.1 Hf) (@on_fst_run unit). Qed.

#[export] Program Instance snd_laws (c : Client V) `{!ClientLaws c} : ClientLaws (snd_client c : Client (W * V)) := {|
  store w := store w.2; up w := up w.2 |}.
Next Obligation. intros c L w k o. apply store_keys. Qed.
Next Obligation. intros c L k n w. pair_law (get_spec k n w.2) (@on_snd_run Obj). Qed.
Next Obligation. intros c L k opts w Hf. pair_law (list_spec k opts w.2 Hf) (@on_snd_run (list Obj)). Qed.
Next Obligation. intros c L o w. pair_law (create_spec o w.2) (@on_snd_run Obj). Qed.
Next Obligation. intros c L o w. pair_law (update_spec o w.2) (@on_snd_run Obj). Qed.
Next Obligation. intros c L o w. pair_law (status_update_spec o w.2) (@on_snd_run Obj). Qed.
Next Obligation. intros c L k n w. pair_law (delete_spec k n w.2) (@on_snd_run unit). Qed.
Next Obligation. intros c L k opts w Hf. pair_law (delete_all_spec k opts w.2 Hf) (@on_snd_run unit). Qed.

Lemma silent_on_snd (c : Client W) `{!ClientLaws c} {A} (m : M V A) :
  silent (fst_client c : Client (W * V)) (on_snd m).
Proof. intros w r w'. unfold on_snd. destruct (m w.2). by intros [= _ <-]. Qed.

#[export] Instance snd_foreign (c : Client W) `{!ClientLaws c} (vc : Client V) :
  Foreign (fst_client c : Client (W * V)) (snd_client vc).
Proof. split; intros; apply silent_on_snd; exact _. Qed.

Lemma silent_on_fst (c : Client V) `{!ClientLaws c} {A} (m : M W A) :
  silent (snd_client c : Client (W * V)) (on_fst m).
Proof. intros w r w'. unfold on_fst. destruct (m w.1). by intros [= _ <-]. Qed.

#[export] Instance fst_foreign (c : Client V) `{!ClientLaws c} (hc : Client W) :
  Foreign (snd_client c : Client (W * V)) (fst_client hc).
Proof. split; intros; apply silent_on_fst; exact _. Qed.

#[export] Instance fst_keeps (c : Client W) {T} `{Resource T} {A} (f : T → A) :
  Keeps c f → Keeps (fst_client c : Client (W * V)) f.
Proof.
  intros Hc. split; intros x w y w'; cbn; unfold on_fst.
  - destruct (client_Create c (inj x) w.1) as [r w1] eqn:E. intros [= -> _]. exact (create_keeps _ _ _ _ E).
  - destruct (client_Update c (inj x) w.1) as [r w1] eqn:E. intros [= -> _]. exact (update_keeps _ _ _ _ E).
Qed.
End Pair.

(** ** The host, the virtual cluster and the k3s server *)
Definition world : Type := mem * mem.
Definition host : Client world := fst_client mem_client.
Definition virtual : Client world := snd_client mem_client.

#[export] Instance lab_transport : K3s.Transport world := {
  K3s.NewRequest _ _ := None;
  K3s.httpClient_Do req := λ w,
    (if mem_up w.2 then
       Ok {| K3s.StatusCode := 200;
             K3s.Body := Ok (if decide (K3s.rq_Method req = K3s.MethodGet) then K3s.rq_URL req else "{}") |}
     else Err (ESentinel K3s.ECONNREFUSED "connection refused"), w);
}.

Definition ends (suffix s : string) : bool :=
  bool_decide (str_drop (String.length s - String.length suffix) s = suffix).

Definition encoded (s : string) : K3s.cert := K3s.content (Base64.EncodeToString s).
Definition bootstrap_data (f : string → K3s.cert) : K3s.BootstrapData := {|
  K3s.ServerCA := f "server-ca"; K3s.ServerCAKey := f "server-ca-key";
  K3s.ClientCA := f "client-ca"; K3s.ClientCAKey := f "client-ca-key";
  K3s.ETCDServerCA := f "etcd-ca"; K3s.ETCDServerCAKey := f "etcd-ca-key" |}.

(** The text of the bootstrap data joins the six contents with commas. *)
Definition contents (d : K3s.BootstrapData) : list string :=
  map K3s.Content [K3s.ServerCA d; K3s.ServerCAKey d; K3s.ClientCA d; K3s.ClientCAKey d;
                   K3s.ETCDServerCA d; K3s.ETCDServerCAKey d].
Definition parse_bootstrap (s : string) : outcome (option K3s.BootstrapData) :=
  match map K3s.content (strings_Split s ",") with
  | [a; b; c; d; e; f] =>
      Ok (Some {| K3s.ServerCA := a; K3s.ServerCAKey := b; K3s.ClientCA := c; K3s.ClientCAKey := d;
                  K3s.ETCDServerCA := e; K3s.ETCDServerCAKey := f |})
  | _ => Err (EText "bad bootstrap")
  end.

#[export] Instance lab_codec : K3s.Codec := {
  K3s.Unmarshal_Status _ := Err (EText "EOF");
  K3s.Unmarshal_Config s :=
    if ends "/v1-k3s/config" s then Ok (Some {| K3s.ClusterInit := true |}) else Err (EText "bad config");
  K3s.Unmarshal_Bootstrap s :=
    if ends "/v1-k3s/server-bootstrap" s then Ok (Some (bootstrap_data encoded)) else parse_bootstrap s;
  K3s.Unmarshal_Snapshot _ := Ok None;
  K3s.Unmarshal_SnapshotFiles _ := Ok None;
  K3s.Marshal_Bootstrap d := Ok (strings_Join (contents d) ",");
  K3s.Marshal_Snapshot _ := Ok "{}";
}.

#[export] Instance lab_certs : Kubeconfig.CertUtil world string string := {
  Kubeconfig.ParsePrivateKeyPEM s := Ok s;
  Kubeconfig.ParseCertsPEM s := Ok [s];
  Kubeconfig.MakeEllipticPrivateKeyPEM := mret "key";
  Kubeconfig.NewSignedCert cn _ _ _ _ _ _ ca _ := mret (cn +:+ " signed by " +:+ ca);
  Kubeconfig.EncodeCertPEM s := s;
}.

Definition marshal {A} (_ : A) : outcome string := Ok "yaml".
Definition rand_Read (_ : nat) : M world string := mret "0123456789abcdef".
Definition cryptorand_Read : M world string := mret "0123456789abcdef".
Definition lab_exec : K3s.ExecLib world := {|
  K3s.Executor := unit; K3s.NewForConfig := None; K3s.AddToScheme := None;
  K3s.NewSPDYExecutor := λ _, Ok (); K3s.StreamWithContext := λ _, mret "" |}.
Definition RESTConfigFromKubeConfig (s : string) : outcome string := Ok s.
Definition newClient (_ : string) : outcome (Client world) := Ok virtual.
Definition LookupIPAddr (_ : string) : M world (list IP) := mret [].
Definition ServerVersion : M world string := mret "v1.33.1+k3s1".

Lemma lab_transport_silent req : silent host (K3s.httpClient_Do req).
Proof. by intros w r w' [= _ <-]. Qed.
Lemma mret_silent {A} (a : A) : silent host (mret a).
Proof. by intros w r w' [= _ <-]. Qed.
Lemma newClient_foreign rc vc : newClient rc = Ok vc → Foreign host vc.
Proof. intros [= <-]. exact _. Qed.

Definition objects (l : list Obj) : mem :=
  {| mem_store := list_to_map (map (λ o, (obj_key o, o)) l); mem_up := true |}.

(** ** A tenant *)
Definition spec (mode : ClusterMode) : ClusterSpec := {|
  Version := "v1.33.1-k3s1"; Mode := mode; Servers := Some 1%Z; Agents := Some 0%Z;
  ClusterCIDR := ""; ServiceCIDR := ""; ClusterDNS := "";
  Persistence := {| pers_Type := EphemeralPersistenceMode; pers_StorageClassName := None;
                    pers_StorageRequestSize := None |};
  Expose := None; NodeSelector := None; PriorityClass := ""; TokenSecretRef := None; TLSSANs := [];
  ServerArgs := []; AgentArgs := []; ServerEnvs := []; AgentEnvs := []; Addons := [];
  ServerLimit := None; WorkerLimit := None; ServerResources := None; WorkerResources := None;
  ServerAffinity := None; AgentAffinity := None; MirrorHostNodes := true; CustomCAs_ := None;
  Sync := None; SecretMounts := []; PodSecurityContext := None; SecurityContext_ := None;
  RuntimeClassName := None; HostUsers := None; AllowedHostSchedulers := [] |}.

Definition tenant : Cluster :=
  let cl := named_cluster "team" "dev" (spec SharedClusterMode) in
  set_Status (st_set_Phase ClusterProvisioning [] (cl_Status cl))
    (set_Meta (set_Finalizers ["cluster.k3k.io/finalizer"] (cl_Meta cl)) cl).
Definition tenant_key : NamespacedName := key_of (cl_Meta tenant).

Definition other_secret : Obj := OSecret {| sec_Meta := meta_of "rival" "token"; sec_Type := "Opaque"; sec_Data := None |}.
Definition binding (r : string) : Obj :=
  OClusterRoleBinding {| crb_Meta := meta_of "" r; crb_Subjects := [] |}.
Definition ports : ConfigMap := {|
  cm_Meta := meta_of "k3k-system" "k3k-kubelet-port-range";
  cm_Data := map_lit [("range", "50000-50007")]; cm_BinaryData := None |}.

Definition start : ConfigMap * world :=
  (ports, (objects [ONamespace {| ns_Meta := meta_of "" "team" |}; OCluster tenant; other_secret;
                    binding "k3k-kubelet-node"; binding "k3k-priorityclass"],
           objects [])).
End Lab.
