(* ===== verification/Cluster.v ===== *)
(** * The Cluster controller (pkg/controller/cluster)

    cluster.go, status.go and cluster_finalize.go: the reconciler of the
    clusters.  The code passes one [*Cluster] to every step and the steps
    assign to it, so the computations of this file carry it as a state, next to
    the ConfigMap of the port allocator and the world.  Events and logs are
    not modelled, except the events that depend on the condition. *)

From S2P Require Import Prelude GoStd GoNet K8s Types Kube Effects Names Translate K3s Ports Expose.
From S2P Require Import Server Access Agent Hcp Policy Lab.

Local Open Scope string_scope.
Local Open Scope nat_scope.

Module Cluster.

Definition clusterFinalizerName : string := "cluster.k3k.io/finalizer".
Definition ClusterInvalidName : string := "system".
Definition SyncEnabledLabelKey : string := "k3k.io/sync-enabled".
Definition SyncSourceLabelKey : string := "k3k.io/sync-source".
Definition SyncSourceHostLabel : string := "host".
Definition ProviderLabelKey : string := "provider.cattle.io".
Definition ProviderLabelValue : string := "k3k".
Definition defaultVirtualClusterCIDR : string := "10.52.0.0/16".
Definition defaultVirtualServiceCIDR : string := "10.53.0.0/16".
Definition defaultSharedClusterCIDR : string := "10.42.0.0/16".
Definition defaultSharedServiceCIDR : string := "10.43.0.0/16".
Definition etcdPodFinalizerName : string := "etcdpod.k3k.io/finalizer".

Definition ErrClusterValidation : error := ESentinel "ErrClusterValidation" "cluster validation error".
Definition ErrCustomCACertSecretMissing : error :=
  ESentinel "ErrCustomCACertSecretMissing" "custom CA certificate secret is missing".

Record Config : Type := {
  cfg_ClusterCIDR : string;
  SharedAgentImage : string;
  SharedAgentImagePullPolicy : string;
  VirtualAgentImage : string;
  VirtualAgentImagePullPolicy : string;
  K3SServerImage : string;
  K3SServerImagePullPolicy : string;
  ServerImagePullSecrets : list string;
  AgentImagePullSecrets : list string;
}.

(** ** status.go *)
Definition ConditionReady : string := "Ready".
Definition ReasonValidationFailed : string := "ValidationFailed".
Definition ReasonProvisioning : string := "Provisioning".
Definition ReasonProvisioned : string := "Provisioned".
Definition ReasonProvisioningFailed : string := "ProvisioningFailed".
Definition ReasonTerminating : string := "Terminating".

Definition ready_condition (status reason message : string) : Condition :=
  {| cond_Type := ConditionReady; cond_Status := status; cond_Reason := reason;
     cond_Message := message |}.

(** An event: its type, reason and message. *)
Definition Event : Type := string * string * string.
Definition Warning (reason message : string) : Event := ("Warning", reason, message).
Definition Normal (reason message : string) : Event := ("Normal", reason, message).

Section Status.
Context `{KubeUtil}.

Definition set_phase (phase : ClusterPhase) (cond : Condition) (cluster : Cluster) : Cluster :=
  set_Status (st_set_Phase phase (SetStatusCondition (st_Conditions (cl_Status cluster)) cond)
                (cl_Status cluster)) cluster.

Definition updateStatus (cluster : Cluster) (reconcileErr : option error) : Cluster * list Event :=
  if is_deleting (cl_Meta cluster) then
    (set_phase ClusterTerminating
       (ready_condition ConditionFalse ReasonTerminating "Cluster is being terminated") cluster, [])
  else match reconcileErr with
  | Some err =>
      if errors_is "ErrClusterValidation" err then
        (set_phase ClusterPending
           (ready_condition ConditionFalse ReasonValidationFailed (error_text err)) cluster,
         [Warning ReasonValidationFailed (error_text err)])
      else if errors_is "ErrServerNotReady" err then
        (set_phase ClusterProvisioning
           (ready_condition ConditionFalse ReasonProvisioning (error_text err)) cluster, [])
      else
        (set_phase ClusterFailed
           (ready_condition ConditionFalse ReasonProvisioningFailed (error_text err)) cluster,
         [Warning ReasonProvisioningFailed (error_text err)])
  | None =>
      let newCondition := ready_condition ConditionTrue ReasonProvisioned
                            "Cluster successfully provisioned" in
      (set_phase ClusterReady newCondition cluster,
       if negb (IsStatusConditionPresentAndEqual (st_Conditions (cl_Status cluster))
                  ConditionReady ConditionTrue)
       then [Normal ReasonProvisioned (cond_Message newCondition)] else [])
  end.
End Status.

(** ** The validation *)
Definition validateCustomCACerts (s : CredentialSources) : option error :=
  if bool_decide (cs_SecretName (ClientCA s) = "") || bool_decide (cs_SecretName (ServerCA s) = "") ||
     bool_decide (cs_SecretName (EtcdPeerCA s) = "") || bool_decide (cs_SecretName (EtcdServerCA s) = "") ||
     bool_decide (cs_SecretName (RequestHeaderCA s) = "") ||
     bool_decide (cs_SecretName (ServiceAccountToken s) = "")
  then Some ErrCustomCACertSecretMissing else None.

Definition invalid (msg : string) : outcome unit := Err (EFmt [ErrClusterValidation; EText msg]).

Definition validate (cluster : Cluster) (policy : option VirtualClusterPolicy) : outcome unit :=
  let spec := cl_Spec cluster in
  if decide (Name (cl_Meta cluster) = ClusterInvalidName) then
    invalid (": invalid cluster name " +:+ fmt_q (Name (cl_Meta cluster)))
  else
  (match policy with
   | Some p => if decide (Mode spec ≠ AllowedMode (vcp_Spec p)) then
                 invalid (": mode " +:+ fmt_q (Mode spec) +:+ " is not allowed by the policy "
                          +:+ fmt_q (Name (vcp_Meta p)))
               else Ok tt
   | None => Ok tt
   end) ;;
  (match CustomCAs_ spec with
   | Some cas =>
       if ca_Enabled cas then
         match validateCustomCACerts (ca_Sources cas) with
         | Some err => Err (EFmt [ErrClusterValidation; EText ": "; err])
         | None => Ok tt
         end
       else Ok tt
   | None => Ok tt
   end) ;;
  match Expose spec with
  | Some {| exp_Ingress := Some _ |} =>
      if decide (Names.FilterDNSNames (TLSSANs spec) = []) then
        invalid ": expose.ingress requires at least one DNS name in spec.tlsSANs to use as the ingress host"
      else Ok tt
  | _ => Ok tt
  end.

(** [errors.Join(err, e)] *)
Definition join (err : option error) (e : error) : option error := errors_join [err; Some e].

Section Controller.
Context {W : Type} (c : Client W) `{KubeUtil} `{PL : PortLib} `{K3s.Transport W} `{K3s.Codec} `{K3s.ExecLib W}.
Context {Cert Key : Type} `{Kubeconfig.CertUtil W Cert Key}.
Context (cfg : Config).
Context (yaml_MarshalServer : Expose.serverConfig → outcome string).
Context (yaml_MarshalShared : Agent.sharedAgentConfig → outcome string).
Context (yaml_MarshalVirtual : Agent.virtualAgentConfig → outcome string).
Context (rand_Read : nat → M W string) (cryptorand_Read : M W string).
Context {RestConfig : Type} (RESTConfigFromKubeConfig : string → outcome RestConfig).
Context (ctrlruntimeclient_New : RestConfig → outcome (Client W)).
Context (LookupIPAddr : string → M W (list IP)).
(** [clientcmd.Write] and the [GitVersion] of [DiscoveryClient.ServerVersion]. *)
Context (clientcmd_Write : Kubeconfig.ApiConfig → outcome string) (ServerVersion : M W string).

(** ** The steps on one cluster *)

(** The steps that only read the cluster are computations of the world. *)

Definition owned {T} `{SetMeta T} (cluster : Cluster) (x : T) : outcome T :=
  m ← SetControllerReference (cluster_owner cluster) (meta x);
  mret (with_meta m x).

Definition ensureNetworkPolicy (cluster : Cluster) : M W unit :=
  let m := meta_of (Namespace (cl_Meta cluster))
             (Names.SafeConcatNameWithPrefix [Name (cl_Meta cluster)]) in
  if decide (st_PolicyName (cl_Status cluster) ≠ "") then
    ignore_not_found (client_Delete c "NetworkPolicy" (key_of m))
  else
    cidrList ← Policy.FindPodCIDRs c (cfg_ClusterCIDR cfg);
    let expected := {| np_Meta := m;
                       np_Spec := Policy.IsolationNetworkPolicySpec (Namespace (cl_Meta cluster)) cidrList |} in
    CreateOrUpdate c expected (λ cur,
      m ← SetControllerReference (cluster_owner cluster) (np_Meta cur);
      mret {| np_Meta := m; np_Spec := np_Spec expected |}) ;;
    mret tt.

(** The annotations of a service: those it has, overwritten by the expected
    ones. *)
Definition merge_annotations (current expected : gomap string) : gomap string :=
  match current with
  | None => expected
  | Some g => Some (default ∅ expected ∪ g)
  end.

Definition ensureClusterService (cluster : Cluster) : M W Service :=
  let expected := Expose.Service_ cluster in
  r ← CreateOrUpdate c expected (λ cur,
    m ← SetControllerReference (cluster_owner cluster) (svc_Meta cur);
    mret {| svc_Meta := set_Annotations (merge_annotations (Annotations m) (Annotations (svc_Meta expected))) m;
            svc_Spec := svc_Spec expected; svc_Ingress := svc_Ingress cur |});
  mret r.2.

Definition is_ingress_exposed (cluster : Cluster) : bool :=
  match Expose (cl_Spec cluster) with
  | Some {| exp_Ingress := Some _ |} => true
  | _ => false
  end.

Definition ensureIngress (cluster : Cluster) : M W unit :=
  let expected := Expose.Ingress_ cluster in
  if negb (is_ingress_exposed cluster) then ignore_not_found (Delete c expected)
  else
    CreateOrUpdate c expected (λ cur,
      m ← SetControllerReference (cluster_owner cluster) (ing_Meta cur);
      mret {| ing_Meta := set_Annotations (Annotations (ing_Meta expected)) m;
              ing_Spec := ing_Spec expected; ing_LoadBalancer := ing_LoadBalancer cur |}) ;;
    mret tt.

Definition set_secret_data (cluster : Cluster) (data : gomap string) (cur : Secret) : outcome Secret :=
  m ← SetControllerReference (cluster_owner cluster) (sec_Meta cur);
  mret {| sec_Meta := m; sec_Type := sec_Type cur; sec_Data := data |}.

Definition ensureBootstrapSecret (cluster : Cluster) (serviceIP token : string) : M W unit :=
  let k3sClient := K3s.New (K3s.server_config serviceIP token) in
  data ← Bootstrap.Fetch k3sClient cluster;
  Bootstrap.SaveToSecret c cluster data.

Definition ensureKubeconfigSecret (cluster : Cluster) (serviceIP : string) : M W unit :=
  kubeconfig ← Kubeconfig.Generate c Kubeconfig.New cluster serviceIP;
  kubeconfigData ← lift (clientcmd_Write kubeconfig);
  let k := Virtual.kubeconfig_key (Name (cl_Meta cluster)) (Namespace (cl_Meta cluster)) in
  CreateOrUpdate c {| sec_Meta := meta_of (nn_Namespace k) (nn_Name k); sec_Type := ""; sec_Data := None |}
    (set_secret_data cluster (map_lit [("kubeconfig.yaml", kubeconfigData)])) ;;
  mret tt.

Definition server (s : Server.Server) (exposeSANs : list string) : M W unit :=
  let cluster := Server.srv_cluster s in
  serverStatefulService ← lift (owned cluster (Expose.StatefulServerService cluster));
  r ← attempt (Create c serverStatefulService);
  (match r with
   | inr err => if negb (IsAlreadyExists err) then fail err else mret tt
   | inl _ => mret tt
   end) ;;
  expected ← Server.StatefulServer c s exposeSANs;
  let expected := with_meta (AddFinalizer (sts_Meta expected) etcdPodFinalizerName).1 expected in
  CreateOrUpdate c expected (λ cur,
    m ← SetControllerReference (cluster_owner cluster) (sts_Meta cur);
    mret (with_meta m expected)) ;;
  mret tt.

Definition clusterRoles : list string := ["k3k-kubelet-node"; "k3k-priorityclass"].

Definition clusterSubject (cluster : Cluster) : Subject := {|
  sub_Kind := "ServiceAccount";
  sub_Name := Names.SafeConcatNameWithPrefix [Name (cl_Meta cluster); "kubelet"];
  sub_Namespace := Namespace (cl_Meta cluster) |}.

Definition set_Subjects (l : list Subject) (b : ClusterRoleBinding) : ClusterRoleBinding :=
  {| crb_Meta := crb_Meta b; crb_Subjects := l |}.

Definition binding_error (what clusterRole : string) (e : error) : error :=
  EFmt [EText ("failed to " +:+ what +:+ " " +:+ clusterRole +:+ " ClusterRoleBinding: "); e].

(** One turn of the loop over the roles; [f] gives the new subjects when they
    have to be stored. *)
Definition rebind (f : list Subject → option (list Subject)) (err : option error) (clusterRole : string)
  : M W (option error) :=
  r ← attempt (Get c ClusterRoleBinding {| nn_Namespace := ""; nn_Name := clusterRole |});
  match r with
  | inr getErr => mret (join err (binding_error "get or find" clusterRole getErr))
  | inl clusterRoleBinding =>
      match f (crb_Subjects clusterRoleBinding) with
      | None => mret err
      | Some subjects =>
          r ← attempt (Update c (set_Subjects subjects clusterRoleBinding));
          match r with
          | inl _ => mret err
          | inr updateErr => mret (join err (binding_error "update" clusterRole updateErr))
          end
      end
  end.

Definition bind_subjects (cluster : Cluster) (subjects : list Subject) : option (list Subject) :=
  if negb (slices_Contains subjects (clusterSubject cluster))
  then Some (subjects ++ [clusterSubject cluster])%list else None.

Definition bindClusterRoles (cluster : Cluster) : M W unit :=
  err ← fold_m (rebind (bind_subjects cluster)) clusterRoles None;
  ret_err err.

(** [slices.DeleteFunc] clears the tail of the slice it is given, so the
    subjects compared with the cleaned ones are those followed by as many empty
    subjects as were removed. *)
Definition unbind_subjects (cluster : Cluster) (subjects : list Subject) : option (list Subject) :=
  let cleaned := slices_DeleteFunc subjects (λ s, bool_decide (s = clusterSubject cluster)) in
  let zero := {| sub_Kind := ""; sub_Name := ""; sub_Namespace := "" |} in
  let after := (cleaned ++ repeat zero (length subjects - length cleaned))%list in
  if negb (bool_decide (after = cleaned)) then Some cleaned else None.

Definition unbindClusterRoles (cluster : Cluster) : M W unit :=
  err ← fold_m (rebind (unbind_subjects cluster)) clusterRoles None;
  ret_err err.

(** *** Storage classes *)
Definition appliedSync (cluster : Cluster) : option SyncConfig :=
  match st_Policy (cl_Status cluster) with
  | Some p => match ap_Sync p with Some s => Some s | None => Sync (cl_Spec cluster) end
  | None => Sync (cl_Spec cluster)
  end.

Definition synced_label : ListOptions := MatchingLabels [(SyncSourceLabelKey, SyncSourceHostLabel)].

Definition keeps_class (sync : ResourceSyncConfig) (sc : StorageClass) : bool :=
  match map_get (Labels (stc_Meta sc)) SyncEnabledLabelKey with
  | Some syncEnabled => bool_decide (syncEnabled = "true")
  | None => true
  end && selector_matches (sync_Selector sync) (Labels (stc_Meta sc)).

(** The map of the host classes to synchronise, by name. *)
Definition filterStorageClasses (sync : ResourceSyncConfig) (l : list StorageClass)
  : gmap string StorageClass :=
  fold_left (λ m sc, if keeps_class sync sc then <[Name (stc_Meta sc) := sc]> m else m) l ∅.

Definition synced_class (hostSc cur : StorageClass) : StorageClass := {|
  stc_Meta := set_Labels (Some (<[SyncSourceLabelKey := SyncSourceHostLabel]>
                                 (default ∅ (Labels (stc_Meta hostSc)))))
                (set_Annotations (Annotations (stc_Meta hostSc)) (stc_Meta cur));
  stc_Provisioner := stc_Provisioner hostSc; stc_Parameters := stc_Parameters hostSc;
  stc_ReclaimPolicy := stc_ReclaimPolicy hostSc; stc_MountOptions := stc_MountOptions hostSc;
  stc_AllowVolumeExpansion := stc_AllowVolumeExpansion hostSc;
  stc_VolumeBindingMode := stc_VolumeBindingMode hostSc;
  stc_AllowedTopologies := stc_AllowedTopologies hostSc |}.

(** The object handed to [CreateOrUpdate]: the host class under a fresh
    metadata. *)
Definition virtual_class (hostSc : StorageClass) : StorageClass := {|
  stc_Meta := set_Annotations (Annotations (stc_Meta hostSc))
                (set_Labels (Labels (stc_Meta hostSc)) (meta_of "" (Name (stc_Meta hostSc))));
  stc_Provisioner := stc_Provisioner hostSc; stc_Parameters := stc_Parameters hostSc;
  stc_ReclaimPolicy := stc_ReclaimPolicy hostSc; stc_MountOptions := stc_MountOptions hostSc;
  stc_AllowVolumeExpansion := stc_AllowVolumeExpansion hostSc;
  stc_VolumeBindingMode := stc_VolumeBindingMode hostSc;
  stc_AllowedTopologies := stc_AllowedTopologies hostSc |}.

Definition join_error {A} (err : option error) (m : M W A) : M W (option error) :=
  r ← attempt m;
  mret (match r with inl _ => err | inr e => join err e end).

Definition syncStorageClasses (virtualClient : Client W) (filtered : gmap string StorageClass)
    (virtStorageClasses : list StorageClass) : M W (option error) :=
  err ← fold_m (λ err sc,
    match filtered !! Name (stc_Meta sc) with
    | Some _ => mret err
    | None => join_error err (Delete virtualClient sc)
    end) virtStorageClasses None;
  fold_m (λ err hostSc,
    join_error err (CreateOrUpdate virtualClient (virtual_class hostSc) (λ cur, Ok (synced_class hostSc cur))))
    (map snd (map_to_list filtered)) err.

Definition wrap {A} (prefix : string) (m : M W A) : M W A :=
  r ← attempt m;
  match r with inl a => mret a | inr err => fail (EFmt [EText prefix; err]) end.

Definition ensureStorageClasses (cluster : Cluster) : M W unit :=
  virtualClient ← wrap "failed creating virtual client: "
    (Virtual.newVirtualClient c RESTConfigFromKubeConfig ctrlruntimeclient_New
       (Name (cl_Meta cluster)) (Namespace (cl_Meta cluster)));
  let disabled := ignore_not_found (DeleteAllOf virtualClient StorageClass synced_label) in
  match appliedSync cluster with
  | None => disabled
  | Some sync =>
      if negb (sync_Enabled (sync_StorageClasses sync)) then disabled
      else
        hostStorageClasses ← wrap "failed listing host storageclasses: " (List_ c StorageClass list_all);
        let filtered := filterStorageClasses (sync_StorageClasses sync) hostStorageClasses in
        virtStorageClasses ← wrap "failed listing virtual storageclasses: "
          (List_ virtualClient StorageClass synced_label);
        err ← syncStorageClasses virtualClient filtered virtStorageClasses;
        match err with
        | Some err => fail (EFmt [EText "failed to sync storageclasses: "; err])
        | None => mret tt
        end
  end.

(** *** The service CIDR of the host *)
Definition parse_CIDR (s : string) : outcome string :=
  match ParseCIDR s with
  | Some net => Ok net
  | None => Err (EText ("invalid CIDR address: " +:+ s))
  end.

Definition failingSvc : Service := {|
  svc_Meta := meta_of "default" "fail";
  svc_Spec := {| ss_Ports := []; ss_Selector := None; ss_ClusterIP := "1.1.1.1"; ss_Type := "";
                 ss_LoadBalancerClass := None; ss_ExternalTrafficPolicy := "" |};
  svc_Ingress := [] |}.

Definition rangePrefix : string := "--service-cluster-ip-range=".

(** The loop over the arguments: the first one that is the flag decides. *)
Fixpoint range_arg (args : list string) : string :=
  match args with
  | [] => ""
  | arg :: args' =>
      if strings_HasPrefix arg rangePrefix
      then default "" (ParseCIDR (strings_TrimPrefix arg rangePrefix))
      else range_arg args'
  end.

Definition lookup_from_pod : M W string :=
  r ← attempt (List_ c Pod {|
    lo_Namespace := "kube-system";
    lo_Selector := [ReqEquals "component" "kube-apiserver"; ReqEquals "tier" "control-plane"];
    lo_Fields := [] |});
  podList ← (match r with
             | inl l => mret l
             | inr err => if negb (IsNotFound err) then fail err else mret []
             end);
  match podList with
  | [] => mret ""
  | apiServerPod :: _ =>
      container ← lift (deref (head (ps_Containers (pod_Spec apiServerPod))));
      mret (range_arg (ct_Args container))
  end.

Definition lookup_from_failure : M W string :=
  r ← attempt (Create c failingSvc);
  match r with
  | inl _ => lookup_from_pod
  | inr err =>
      match strings_Split (error_text err) "The range of valid IPs is " with
      | _ :: range :: _ => lift (parse_CIDR (strings_TrimSpace range))
      | _ => lookup_from_pod
      end
  end.

Definition lookupServiceCIDR : M W string :=
  r ← attempt (Get c ServiceCIDRObj {| nn_Namespace := ""; nn_Name := "kubernetes" |});
  match r with
  | inl defaultServiceCIDR =>
      match scidr_CIDRs defaultServiceCIDR with
      | serviceCIDR :: _ => lift (parse_CIDR serviceCIDR)
      | [] => lookup_from_failure
      end
  | inr _ => lookup_from_failure
  end.

(** *** The computations that assign to the cluster *)
Definition State : Type := Cluster * (ConfigMap * W).
Definition CM (A : Type) : Type := M State A.

Definition api {A} (m : M W A) : CM A := λ s,
  let '(r, w) := m s.2.2 in (r, (s.1, (s.2.1, w))).
Definition allocator {A} (m : Ports.PM (W:=W) A) : CM A := λ s,
  let '(r, p) := m s.2 in (r, (s.1, p)).
Definition get_cluster : CM Cluster := λ s, (Ok s.1, s).
Definition put_cluster (cl : Cluster) : CM unit := λ s, (Ok tt, (cl, s.2)).
Definition assign (f : ClusterStatus → ClusterStatus) : CM unit := λ s,
  (Ok tt, (set_Status (f (cl_Status s.1)) s.1, s.2)).

(** A step on the cluster as it is now. *)
Definition on_cluster {A} (f : Cluster → M W A) : CM A := cluster ← get_cluster; api (f cluster).

Definition set_provider_label : CM unit :=
  cluster ← get_cluster;
  put_cluster (set_Meta (Hcp.set_label ProviderLabelKey ProviderLabelValue (cl_Meta cluster)) cluster).

(** The policy of the namespace: its name in the status, and the object. *)
Definition boundPolicy : CM (option VirtualClusterPolicy) :=
  ns ← on_cluster (λ cluster, Get c NamespaceObj (Policy.cluster_scoped (Namespace (cl_Meta cluster))));
  let policyName := Policy.ns_policy ns in
  assign (st_set_PolicyName policyName) ;;
  if decide (policyName ≠ "") then
    vcp ← api (Get c VirtualClusterPolicy (Policy.cluster_scoped policyName));
    mret (Some vcp)
  else mret None.

Definition ensureHostVersion : CM unit :=
  cluster ← get_cluster;
  if decide (st_HostVersion (cl_Status cluster) = "") then
    gitVersion ← api ServerVersion;
    let '(k8sVersion, _, _) := strings_Cut gitVersion "+" in
    let '(k8sVersion, _, _) := strings_Cut k8sVersion "-" in
    assign (st_set_HostVersion k8sVersion)
  else mret tt.

Definition set_ClusterCIDR (s : string) (st : ClusterStatus) : ClusterStatus :=
  st_set_CIDRs s (st_ServiceCIDR st) st.
Definition set_ServiceCIDR (s : string) (st : ClusterStatus) : ClusterStatus :=
  st_set_CIDRs (st_ClusterCIDR st) s st.

Definition assignCIDRs : CM unit :=
  cluster ← get_cluster;
  let spec := cl_Spec cluster in
  assign (set_ClusterCIDR
    (if decide (ClusterCIDR spec = "") then
       if decide (Mode spec = SharedClusterMode) then defaultSharedClusterCIDR
       else defaultVirtualClusterCIDR
     else ClusterCIDR spec)) ;;
  assign (set_ServiceCIDR (ServiceCIDR spec)) ;;
  if decide (ServiceCIDR spec = "") then
    (if decide (Mode spec = SharedClusterMode) then
       r ← attempt (api lookupServiceCIDR);
       assign (set_ServiceCIDR (match r with inl cidr => cidr | inr _ => defaultSharedServiceCIDR end))
     else mret tt) ;;
    (if decide (Mode spec = VirtualClusterMode ∨ Mode spec = HCPClusterMode) then
       assign (set_ServiceCIDR defaultVirtualServiceCIDR)
     else mret tt)
  else mret tt.

(** [s.Config(init, ...)] assigns the SANs to the status of the cluster, also
    when it fails afterwards. *)
Definition ensureServerConfig (token : string) (init : bool) (service : Service) (nodeSANs : list string)
  : CM unit :=
  cluster ← get_cluster;
  let '(secret, cluster) := Expose.Config yaml_MarshalServer cluster token init service nodeSANs in
  put_cluster cluster ;;
  secret ← lift secret;
  api (CreateOrUpdate c secret (set_secret_data cluster (sec_Data secret))) ;;
  mret tt.

Definition ensureClusterConfigs (token : string) (service : Service) : CM unit :=
  cluster ← get_cluster;
  nodeSANs ← (if decide (Mode (cl_Spec cluster) = HCPClusterMode)
              then api (Hcp.hostNodeIPs c cluster) else mret []);
  ensureServerConfig token true service nodeSANs ;;
  ensureServerConfig token false service nodeSANs.

Definition ensureAgent (serviceIP token : string) : CM unit :=
  cluster ← get_cluster;
  let mode := Mode (cl_Spec cluster) in
  if decide (mode = HCPClusterMode) then mret tt
  else if decide (mode = "virtual") then
    on_cluster (λ cluster,
      Agent.virtual_EnsureResources c yaml_MarshalVirtual cryptorand_Read
        (Agent.NewVirtualAgent cluster serviceIP token (VirtualAgentImage cfg)
           (VirtualAgentImagePullPolicy cfg) (AgentImagePullSecrets cfg)))
  else
    kubeletPort ← (if MirrorHostNodes (cl_Spec cluster) then
                     port ← allocator (Ports.AllocateKubeletPort c (Name (cl_Meta cluster))
                                         (Namespace (cl_Meta cluster)));
                     assign (st_set_KubeletPort port) ;;
                     mret port
                   else mret 10250%Z);
    on_cluster (λ cluster,
      Agent.shared_EnsureResources c yaml_MarshalShared
        (Agent.NewSharedAgent cluster serviceIP (SharedAgentImage cfg) (SharedAgentImagePullPolicy cfg)
           token kubeletPort (AgentImagePullSecrets cfg))).

Definition waiting_for_address : error :=
  EFmt [K3s.ErrServerNotReady; EText ": waiting for the LoadBalancer address of the cluster service"].

(** [server.New(cluster, ...)] keeps the pointer to the cluster: the server is
    that of the cluster at the time of each call. *)
Definition server_of (token : string) (cluster : Cluster) : Server.Server :=
  Server.New cluster token (K3SServerImage cfg) (K3SServerImagePullPolicy cfg) (ServerImagePullSecrets cfg).

Definition provision (token : string) : CM unit :=
  on_cluster ensureNetworkPolicy ;;
  service ← on_cluster ensureClusterService;
  let serviceIP := ss_ClusterIP (svc_Spec service) in
  let exposeSANs := Expose.LoadBalancerSANs (Some service) in
  if decide (ss_Type (svc_Spec service) = ServiceTypeLoadBalancer ∧ exposeSANs = []) then
    fail waiting_for_address
  else
  ensureClusterConfigs token service ;;
  on_cluster (λ cluster, server (server_of token cluster) exposeSANs) ;;
  ensureAgent serviceIP token ;;
  on_cluster ensureIngress ;;
  on_cluster (λ cluster, ensureBootstrapSecret cluster serviceIP token) ;;
  on_cluster bindClusterRoles ;;
  on_cluster (λ cluster, ensureKubeconfigSecret cluster serviceIP) ;;
  cluster ← get_cluster;
  (if decide (Mode (cl_Spec cluster) = HCPClusterMode) then
     on_cluster (Hcp.ensureHCPKubernetesEndpointSlice c RESTConfigFromKubeConfig ctrlruntimeclient_New
                   LookupIPAddr) ;;
     on_cluster (Hcp.ensureHCPKubernetesEndpoints c RESTConfigFromKubeConfig ctrlruntimeclient_New
                   LookupIPAddr)
   else mret tt) ;;
  on_cluster ensureStorageClasses.

Definition reconcile : CM unit :=
  set_provider_label ;;
  vcp ← boundPolicy;
  cluster ← get_cluster;
  lift (validate cluster vcp) ;;
  ensureHostVersion ;;
  token ← on_cluster (Token.token c rand_Read);
  assignCIDRs ;;
  provision token.

Definition reconcileCluster : CM unit :=
  r ← attempt reconcile;
  cluster ← get_cluster;
  let err := match r with inl _ => None | inr e => Some e end in
  put_cluster (updateStatus cluster err).1 ;;
  match err with None => mret tt | Some e => fail e end.

(** ** The reconciler *)

(** [reconcile.Result]: the seconds after which to run again. *)
Definition Result : Type := option Z.
Definition world (m : M W unit) : M (ConfigMap * W) unit := λ s,
  let '(r, w) := m s.2 in (r, (s.1, w)).

Definition finalizeCluster (cluster : Cluster) : M (ConfigMap * W) Result :=
  let cluster := set_phase ClusterTerminating
    (ready_condition ConditionFalse ReasonTerminating "Cluster is being terminated") cluster in
  world (unbindClusterRoles cluster) ;;
  (if decide (Mode (cl_Spec cluster) = SharedClusterMode) then
     if MirrorHostNodes (cl_Spec cluster) then
       Ports.DeallocateKubeletPort c (Name (cl_Meta cluster)) (Namespace (cl_Meta cluster))
         (st_KubeletPort (cl_Status cluster))
     else mret tt
   else mret tt) ;;
  world (ignore_not_found (client_Delete c "Lease" (key_of (cl_Meta cluster)))) ;;
  let '(m, removed) := RemoveFinalizer (cl_Meta cluster) clusterFinalizerName in
  (if removed : bool then world (Update c (set_Meta m cluster) ;; mret tt) else mret tt) ;;
  mret None.

(** Run the computation on a cluster: its outcome and the cluster after it. *)
Definition run_on (cluster : Cluster) (m : CM unit) : M (ConfigMap * W) ((unit + error) * Cluster) := λ s,
  match attempt m (cluster, s) with
  | (Ok r, (cl, s')) => (Ok (r, cl), s')
  | (Err e, (_, s')) => (Err e, s')
  | (Panic, (_, s')) => (Panic, s')
  end.

Definition lift_world {A} (m : M W A) : M (ConfigMap * W) A := λ s,
  let '(r, w) := m s.2 in (r, (s.1, w)).

Definition Reconcile (req : NamespacedName) : M (ConfigMap * W) Result :=
  r ← attempt (lift_world (Get c Cluster req));
  match r with
  | inr err => if IsNotFound err then mret None else fail err
  | inl cluster =>
      if is_deleting (cl_Meta cluster) then finalizeCluster cluster
      else if decide (st_Phase (cl_Status cluster) = "" ∨ st_Phase (cl_Status cluster) = ClusterUnknown) then
        lift_world (StatusUpdate c (set_phase ClusterProvisioning
          (ready_condition ConditionFalse ReasonProvisioning "Cluster is being provisioned") cluster)) ;;
        mret None
      else
        let '(m, added) := AddFinalizer (cl_Meta cluster) clusterFinalizerName in
        if added : bool then lift_world (Update c (set_Meta m cluster)) ;; mret None
        else
          let orig := set_Meta m cluster in
          '(result, cluster) ← run_on orig reconcileCluster;
          cluster ← (if negb (Semantic_DeepEqual (cl_Status orig) (cl_Status cluster))
                     then lift_world (StatusUpdate c cluster) else mret cluster);
          match result with
          | inr reconcilerErr =>
              if errors_is "ErrServerNotReady" reconcilerErr then mret (Some 10%Z)
              else fail reconcilerErr
          | inl _ =>
              let needsSpecUpdate := negb (Semantic_DeepEqual (cl_Spec orig) (cl_Spec cluster)) in
              let needsLabelsUpdate :=
                negb (Semantic_DeepEqual (Labels (cl_Meta orig)) (Labels (cl_Meta cluster))) in
              if needsSpecUpdate || needsLabelsUpdate then lift_world (Update c cluster) ;; mret None
              else mret None
          end
  end.

(** ** The events *)
Definition storageClassEnabledIndexField : string := "spec.sync.storageClasses.enabled".
Definition storageClassStatusEnabledIndexField : string := "status.policy.sync.storageClasses.enabled".

Definition index_of (enabled : bool) : list string := [if enabled then "true" else "false"].

(** The values of the two indexed fields. *)
Definition index_spec (vc : Cluster) : list string :=
  index_of (match Sync (cl_Spec vc) with
            | Some s => sync_Enabled (sync_StorageClasses s)
            | None => false
            end).
Definition index_status (vc : Cluster) : list string :=
  index_of (match st_Policy (cl_Status vc) with
            | Some p => match ap_Sync p with
                        | Some s => sync_Enabled (sync_StorageClasses s)
                        | None => false
                        end
            | None => false
            end).

Definition MatchingFields (f v : string) : ListOptions :=
  {| lo_Namespace := ""; lo_Selector := []; lo_Fields := [(f, v)] |}.

Definition enabled_clusters (f : string) : M W (gset NamespacedName) :=
  r ← attempt (List_ c Cluster (MatchingFields f "true"));
  mret (match r with
        | inl l => list_to_set (map (λ cl, key_of (cl_Meta cl)) l)
        | inr _ => ∅
        end).

(** The requests in the order of the iteration over the map of keys. *)
Definition mapStorageClassToCluster (obj : Obj) : M W (list NamespacedName) :=
  match obj with
  | OStorageClass _ =>
      a ← enabled_clusters storageClassEnabledIndexField;
      b ← enabled_clusters storageClassStatusEnabledIndexField;
      mret (elements (a ∪ b))
  | _ => mret []
  end.

Definition namespaceEventHandler (e : Policy.event) : M W (list NamespacedName) :=
  match e with
  | Policy.UpdateEvent (ONamespace oldNs) (ONamespace newNs) =>
      if decide (Policy.ns_policy oldNs = Policy.ns_policy newNs) then mret []
      else
        r ← attempt (List_ c Cluster (InNamespace (Name (ns_Meta oldNs))));
        mret (match r with
              | inl clusterList => map (λ cluster, key_of (cl_Meta cluster)) clusterList
              | inr _ => []
              end)
  | _ => mret []
  end.
End Controller.

(** ** A concrete run *)
#[local] Existing Instances Lab.lab_transport Lab.lab_codec Lab.lab_exec Lab.lab_certs Ports.toy_ports.

Definition lab_config : Config := {|
  cfg_ClusterCIDR := ""; SharedAgentImage := "rancher/k3k-kubelet"; SharedAgentImagePullPolicy := "";
  VirtualAgentImage := "rancher/k3s"; VirtualAgentImagePullPolicy := "";
  K3SServerImage := "rancher/k3s"; K3SServerImagePullPolicy := ""; ServerImagePullSecrets := [];
  AgentImagePullSecrets := [] |}.

Definition lab_Reconcile : NamespacedName → M (ConfigMap * Lab.world) Result :=
  Reconcile Lab.host lab_config Lab.marshal Lab.marshal Lab.marshal Lab.rand_Read Lab.cryptorand_Read
    Lab.RESTConfigFromKubeConfig Lab.newClient Lab.LookupIPAddr Lab.marshal Lab.ServerVersion.

Definition lab_done : ConfigMap * Lab.world := (lab_Reconcile Lab.tenant_key Lab.start).2.

(** The reconciliation of a shared cluster ends without an error, in the phase
    Ready, with its server in place. *)
Example lab_run :
  (lab_Reconcile Lab.tenant_key Lab.start).1 = Ok None ∧
  (match mem_objects lab_done.2.1 !! ("Cluster", Lab.tenant_key) with
   | Some (OCluster cl) => st_Phase (cl_Status cl)
   | _ => ""
   end) = ClusterReady ∧
  is_Some (mem_objects lab_done.2.1 !!
             ("StatefulSet", {| nn_Namespace := "team"; nn_Name := "k3k-dev-server" |})).
Proof. vm_compute. split_and!; [reflexivity..|by eexists]. Qed.
End Cluster.
