(* ===== verification/Cli.v ===== *)
(** * k3kcli: the arguments and the creation of a cluster

    cli/cmds/root.go, cluster_create_flags.go, cluster_create.go,
    kubeconfig_flags.go and the shared parts of kubeconfig.go and
    policy_create.go.  The parsing of flags is not modelled: a command is a
    function of the values of its flags and of its arguments.  The files of the
    user, [url.Parse], [clientcmd.Load] and the parsing of a quantity are
    parameters; what is only logged is left out. *)

From S2P Require Import Prelude GoStd GoNet GoDate Waiting K8s Types Kube Effects Names Expose Access UserConfig Policy Lab Cluster.

Local Open Scope string_scope.
Local Open Scope Z_scope.

Module Cli.
Import Names GoDate Waiting UserConfig.

(** [AppContext]: the host of its [rest.Config], its flags; its client is a
    parameter of the commands. *)
Record AppContext : Type := {
  RestConfig_Host : string;
  Kubeconfig_path : string;
  namespace : string;
}.

Definition AppContext_Namespace (ctx : AppContext) (name : string) : string :=
  if decide (namespace ctx ≠ "") then namespace ctx else "k3k-" +:+ name.

(** ** The arguments *)
Definition resolveClusterArg (appCtx : AppContext) (arg : string) : outcome (string * string) :=
  let '(ns, clusterName, ok) := strings_Cut arg "/" in
  if ok : bool then
    if decide (namespace appCtx ≠ "" ∧ namespace appCtx ≠ ns) then
      Err (EText ("namespace mismatch: flag --namespace " +:+ fmt_q (namespace appCtx)
                  +:+ " conflicts with argument namespace " +:+ fmt_q ns))
    else Ok (ns, clusterName)
  else Ok (AppContext_Namespace appCtx arg, arg).

Definition parse_pair (p : string) : string * string :=
  match cut p "=" with Some (k, v) => (k, v) | None => (p, "") end.

Definition parseKeyValuePairs (pairs : list string) : gomap string :=
  Some (fold_left (λ resultMap p, let '(k, v) := parse_pair p in <[k := v]> resultMap) pairs ∅).

(** [logrus.Fatalf] ends the process. *)
Fixpoint env (envSlice : list string) : outcome (list EnvVar) :=
  match envSlice with
  | [] => mret []
  | e :: rest =>
      match strings_Split e "=" with
      | [k; v] => envVars ← env rest; mret ({| env_Name := k; env_Value := v; env_ValueFrom := None |} :: envVars)
      | _ => Panic
      end
  end.

Fixpoint unique_from (seen : gset string) (ss : list string) : list string :=
  match ss with
  | [] => []
  | s :: ss => if decide (s ∈ seen) then unique_from seen ss else s :: unique_from ({[s]} ∪ seen) ss
  end.

Definition uniqueStrings (ss : list string) : list string := unique_from ∅ ss.

(** ** The flags of cluster create *)
Record kubeconfigOutFlags : Type := { out : string; noOut : bool; configName : string }.

Record CreateConfig : Type := {
  cc_out : kubeconfigOutFlags;
  cc_token : string;
  cc_clusterCIDR : string;
  cc_serviceCIDR : string;
  cc_servers : Z;
  cc_agents : Z;
  cc_serverArgs : list string;
  cc_agentArgs : list string;
  cc_serverEnvs : list string;
  cc_agentEnvs : list string;
  cc_labels : list string;
  cc_annotations : list string;
  cc_tlsSANs : list string;
  cc_persistenceType : string;
  cc_storageClassName : string;
  cc_storageRequestSize : string;
  cc_version : string;
  cc_mode : string;
  cc_kubeconfigServerHost : string;
  cc_policy : string;
  cc_mirrorHostNodes : bool;
  cc_customCertsPath : string;
  cc_timeout : Duration;
}.

Definition standalonePath (f : kubeconfigOutFlags) (cluster : Cluster) : string :=
  if noOut f then ""
  else if decide (out f ≠ "") then out f
  else if decide (configName f ≠ "") then configName f
  else Namespace (cl_Meta cluster) +:+ "-" +:+ Name (cl_Meta cluster) +:+ "-kubeconfig.yaml".

Definition validPersistenceModes : list PersistenceMode := [EphemeralPersistenceMode; DynamicPersistenceMode].
Definition validClusterModes : list ClusterMode := [VirtualClusterMode; SharedClusterMode; HCPClusterMode].

(** [resource.ParseQuantity] and [Quantity.String]; [url.Parse], of which only the
    host is used; [clientcmd.Load]. *)
Class CliLib := {
  ParseQuantity : string → outcome Quantity;
  Quantity_String : Quantity → string;
  url_Parse_Host : string → outcome string;
  clientcmd_Load : string → outcome Kubeconfig.ApiConfig;
}.

(** ** getClusterDetails

    The text of the template on the data of a cluster; a range over a map
    follows the order of its keys. *)
Definition newline : string := String (ascii_of_nat 10) "".

Definition map_lines (m : gomap string) : string :=
  String.concat "" (map (λ k, newline +:+ "    " +:+ k +:+ ": " +:+ map_str m k)
                      (slices_Sort (map fst (map_to_list (default ∅ m))))).

Definition details_section (title : string) (m : gomap string) : string :=
  if decide (map_len m = 0%nat) then "" else newline +:+ "  " +:+ title +:+ ": " +:+ map_lines m.

Definition details_line (title value : string) : string :=
  if decide (value = "") then "" else newline +:+ title +:+ ": " +:+ value.

Definition getClusterDetails `{CliLib} (cluster : Cluster) : string :=
  let s := cl_Spec cluster in
  let agents := default 0 (Agents s) in
  let HostVersion := st_HostVersion (cl_Status cluster) in
  let p := Persistence s in
  "Cluster details:" +:+
  newline +:+ "  Mode: " +:+ Mode s +:+
  newline +:+ "  Servers: " +:+ strconv_Itoa (default 0 (Servers s)) +:+
  (if decide (agents = 0) then "" else newline +:+ "  Agents: " +:+ strconv_Itoa agents) +:+
  newline +:+ "  Version: " +:+ (if decide (Version s = "") then HostVersion else Version s)
    +:+ " (Host: " +:+ HostVersion +:+ ")" +:+
  newline +:+ "  Persistence:" +:+
  newline +:+ "    Type: " +:+ pers_Type p +:+
  details_line "    StorageClass" (default "" (pers_StorageClassName p)) +:+
  details_line "    Size" (from_option Quantity_String "" (pers_StorageRequestSize p)) +:+
  details_section "Labels" (Labels (cl_Meta cluster)) +:+
  details_section "Annotations" (Annotations (cl_Meta cluster)).

Section Create.
Context {W : Type} (client : Client W) `{KubeUtil} `{CliLib} `{MapRange} `{Poller W} `{Retrier W} `{ConfigFiles W}.

(** [os.ReadFile] *)
Context (os_ReadFile : string → M W string).

Definition validateCreateConfig (cfg : CreateConfig) : outcome unit :=
  if cc_servers cfg <=? 0 then Err (EText "invalid number of servers: must be 1 or more") else
  (if decide (cc_persistenceType cfg ≠ "" ∧ cc_persistenceType cfg ∉ validPersistenceModes)
   then Err (EText ("persistence-type should be one of " +:+ fmt_q "dynamic" +:+ " or " +:+ fmt_q "ephemeral"))
   else mret tt) ;;
  (if decide (cc_storageRequestSize cfg ≠ "") then
     match ParseQuantity (cc_storageRequestSize cfg) with
     | Err _ => Err (EText ("invalid storage size, should be a valid resource quantity e.g " +:+ fmt_q "10Gi"))
     | Panic => Panic
     | Ok _ => mret tt
     end
   else mret tt) ;;
  if decide (cc_mode cfg ≠ "" ∧ cc_mode cfg ∉ validClusterModes)
  then Err (EText ("mode should be one of " +:+ fmt_q "shared" +:+ ", " +:+ fmt_q "virtual" +:+ " or " +:+ fmt_q "hcp"))
  else mret tt.

(** ** The cluster that is created *)
Definition custom_source (name suffix : string) : CredentialSource :=
  {| cs_SecretName := SafeConcatNameWithPrefix [name; suffix] |}.

Definition newCluster (name namespace : string) (config : CreateConfig) : outcome Cluster :=
  storageRequestSize ← (if decide (cc_storageRequestSize config ≠ "")
                        then parsed ← ParseQuantity (cc_storageRequestSize config); mret (Some parsed)
                        else mret None);
  serverEnvs ← env (cc_serverEnvs config);
  agentEnvs ← env (cc_agentEnvs config);
  mret {|
    cl_Meta := set_Annotations (parseKeyValuePairs (cc_annotations config))
                 (set_Labels (parseKeyValuePairs (cc_labels config)) (meta_of namespace name));
    cl_Spec := {|
      Version := cc_version config; Mode := cc_mode config;
      Servers := Some (int32 (cc_servers config)); Agents := Some (int32 (cc_agents config));
      ClusterCIDR := cc_clusterCIDR config; ServiceCIDR := cc_serviceCIDR config; ClusterDNS := "";
      Persistence := {|
        pers_Type := cc_persistenceType config;
        pers_StorageClassName := if decide (cc_storageClassName config = "") then None
                                 else Some (cc_storageClassName config);
        pers_StorageRequestSize := storageRequestSize |};
      Expose := None; NodeSelector := None; PriorityClass := "";
      TokenSecretRef := if decide (cc_token config ≠ "")
                        then Some {| nn_Namespace := namespace; nn_Name := Token.TokenSecretName name |}
                        else None;
      TLSSANs := []; ServerArgs := cc_serverArgs config; AgentArgs := cc_agentArgs config;
      ServerEnvs := serverEnvs; AgentEnvs := agentEnvs; Addons := []; ServerLimit := None; WorkerLimit := None;
      ServerResources := None; WorkerResources := None; ServerAffinity := None; AgentAffinity := None;
      MirrorHostNodes := cc_mirrorHostNodes config;
      CustomCAs_ := if decide (cc_customCertsPath config ≠ "") then
        Some {| ca_Enabled := true; ca_Sources := {|
          ClientCA := custom_source name "client-ca";
          ServerCA := custom_source name "server-ca";
          EtcdServerCA := custom_source name "etcd-server-ca";
          EtcdPeerCA := custom_source name "etcd-peer-ca";
          RequestHeaderCA := custom_source name "request-header-ca";
          ServiceAccountToken := custom_source name "service-account-token" |} |}
        else None;
      Sync := None; SecretMounts := []; PodSecurityContext := None; SecurityContext_ := None;
      RuntimeClassName := None; HostUsers := None; AllowedHostSchedulers := [] |};
    cl_Status := zero_ClusterStatus |}.

(** The assignments of [createAction] to the specification. *)
Definition exposed (sans : list string) (cluster : Cluster) : Cluster := {|
  cl_Meta := cl_Meta cluster;
  cl_Spec := spec_set_Expose
    (Some {| exp_Ingress := None; exp_LoadBalancer := None;
             exp_NodePort := Some {| npc_ServerPort := None; npc_EtcdPort := None |};
             exp_Annotations := None |}) sans (cl_Spec cluster);
  cl_Status := cl_Status cluster |}.

(** ** The host of a server URL: [URL.Hostname] *)
Definition validOptionalPort (port : string) : bool :=
  match port with
  | EmptyString => true
  | String c rest => bool_decide (c = ":"%char) && forallb is_digit (String.list_ascii_of_string rest)
  end.

(** The text before the last colon, and from it on. *)
Fixpoint last_colon (s : string) : option (string * string) :=
  match s with
  | EmptyString => None
  | String c rest =>
      match last_colon rest with
      | Some (host, port) => Some (String c host, port)
      | None => if decide (c = ":"%char) then Some ("", s) else None
      end
  end.

Definition Hostname (hostPort : string) : string :=
  let host := match last_colon hostPort with
              | Some (host, port) => if validOptionalPort port then host else hostPort
              | None => hostPort
              end in
  if strings_HasPrefix host "[" && bool_decide (str_last host = Some "]"%char)
  then str_take (String.length host - 2) (str_drop 1 host) else host.

Definition extractHost (serverURL override : string) : outcome string :=
  if decide (override ≠ "") then Ok override
  else host ← url_Parse_Host serverURL; mret (Hostname host).

(** ** Namespace, token and certificates *)
Definition createNamespace (name policyName : string) : M W unit :=
  let m := meta_of "" name in
  let ns := {| ns_Meta := if decide (policyName ≠ "")
                          then set_Labels (map_lit [(Policy.PolicyNameLabelKey, policyName)]) m else m |} in
  r ← attempt (Get client NamespaceObj {| nn_Namespace := ""; nn_Name := name |});
  match r with
  | inl _ => mret tt
  | inr err => if negb (IsNotFound err) then fail err else Create client ns ;; mret tt
  end.

Definition SecretTypeTLS : string := "kubernetes.io/tls".

Definition caCertSecret (certName clusterName clusterNamespace cert key : string) : Secret := {|
  sec_Meta := meta_of clusterNamespace (SafeConcatNameWithPrefix [clusterName; certName]);
  sec_Type := SecretTypeTLS;
  sec_Data := map_lit [("tls.crt", cert); ("tls.key", key)] |}.

Definition customCAsMap : gmap string string := list_to_map [
  ("etcd-peer-ca", "/etcd/peer-ca"); ("etcd-server-ca", "/etcd/server-ca"); ("server-ca", "/server-ca");
  ("client-ca", "/client-ca"); ("request-header-ca", "/request-header-ca"); ("service-account-token", "/service")].

(** The body of the loop up to the call of [Create]. *)
Definition read_cert (name namespace customCertsPath certName fileName : string) : M W Secret :=
  cert ← (if decide (certName ≠ "service-account-token")
          then os_ReadFile (customCertsPath +:+ fileName +:+ ".crt") else mret "");
  key ← os_ReadFile (customCertsPath +:+ fileName +:+ ".key");
  mret (caCertSecret certName name namespace cert key).

(** The loop returns when a [Create] fails, with no error when the secret
    exists. *)
Fixpoint create_certs (name namespace customCertsPath : string) (l : list (string * string)) : M W unit :=
  match l with
  | [] => mret tt
  | (certName, fileName) :: l =>
      certSecret ← read_cert name namespace customCertsPath certName fileName;
      r ← attempt (Create client certSecret);
      match r with
      | inr err => if IsAlreadyExists err then mret tt else fail err
      | inl _ => create_certs name namespace customCertsPath l
      end
  end.

Definition CreateCustomCertsSecrets (name namespace customCertsPath : string) : M W unit :=
  create_certs name namespace customCertsPath (range_map customCAsMap).

(** ** Waiting for the cluster *)
Definition get_cluster (cluster : Cluster) : M W (Cluster + error) :=
  r ← attempt (Get client Cluster (key_of (cl_Meta cluster)));
  match r with
  | inl cluster => mret (inl cluster)
  | inr err => mret (inr (EFmt [EText "failed to get resource: "; err]))
  end.

Definition reconciled : Condition W Cluster := λ cluster,
  r ← get_cluster cluster;
  match r with
  | inr err => mret (false, Some err, cluster)
  | inl cluster => mret (bool_decide (st_HostVersion (cl_Status cluster) ≠ ""), None, cluster)
  end.

Definition waitForClusterReconciled (cluster : Cluster) (timeout : Duration) : M W (option error * Cluster) :=
  PollUntilContextTimeout Second timeout false reconciled cluster.

Definition ready : Condition W (Cluster * Z) := λ '(cluster, failCount),
  r ← get_cluster cluster;
  match r with
  | inr err => mret (false, Some err, (cluster, failCount))
  | inl cluster =>
      let phase := st_Phase (cl_Status cluster) in
      if decide (phase = ClusterReady) then mret (true, None, (cluster, failCount))
      else if decide (phase = ClusterFailed) then
        let failCount := failCount + 1 in
        if 3 <? failCount
        then mret (true, Some (EText ("cluster creation failed: " +:+ phase)), (cluster, failCount))
        else mret (false, None, (cluster, failCount))
      else mret (false, None, (cluster, failCount))
  end.

Definition waitForClusterReady (cluster : Cluster) (timeout : Duration) : M W (option error * Cluster) :=
  '(err, (cluster, _)) ← PollUntilContextTimeout (5 * Second) timeout true ready (cluster, 0);
  mret (err, cluster).

(** ** The kubeconfig *)
Definition addKubeconfigContext (appCtx : AppContext) (cluster : Cluster) (config : Kubeconfig.ApiConfig) : M W unit :=
  Add (New (Kubeconfig_path appCtx)) (ContextName (Namespace (cl_Meta cluster)) (Name (cl_Meta cluster))) config.

Definition writeKubeconfig (appCtx : AppContext) (cluster : Cluster) (config : Kubeconfig.ApiConfig) (path : string)
  : M W unit :=
  (if decide (path ≠ "") then Write config path ;; mret tt else mret tt) ;;
  addKubeconfigContext appCtx cluster config.

Definition set_server (serverURL : string) (config : Kubeconfig.ApiConfig) : Kubeconfig.ApiConfig := {|
  Kubeconfig.Clusters := (λ c, {| Kubeconfig.CertificateAuthorityData := Kubeconfig.CertificateAuthorityData c;
                                  Kubeconfig.Server_ := serverURL; Kubeconfig.ac_rest := Kubeconfig.ac_rest c |})
                         <$> Kubeconfig.Clusters config;
  Kubeconfig.AuthInfos := Kubeconfig.AuthInfos config; Kubeconfig.Contexts := Kubeconfig.Contexts config;
  Kubeconfig.CurrentContext := Kubeconfig.CurrentContext config; Kubeconfig.cfg_rest := Kubeconfig.cfg_rest config |}.

(** ** createAction *)
Definition normalized (config : CreateConfig) : CreateConfig := {|
  cc_out := cc_out config; cc_token := cc_token config; cc_clusterCIDR := cc_clusterCIDR config;
  cc_serviceCIDR := cc_serviceCIDR config; cc_servers := cc_servers config; cc_agents := cc_agents config;
  cc_serverArgs := cc_serverArgs config; cc_agentArgs := cc_agentArgs config;
  cc_serverEnvs := cc_serverEnvs config; cc_agentEnvs := cc_agentEnvs config; cc_labels := cc_labels config;
  cc_annotations := cc_annotations config; cc_tlsSANs := cc_tlsSANs config;
  cc_persistenceType := cc_persistenceType config; cc_storageClassName := cc_storageClassName config;
  cc_storageRequestSize := cc_storageRequestSize config;
  cc_version := strings_ReplaceAll (cc_version config) "+" "-"; cc_mode := cc_mode config;
  cc_kubeconfigServerHost := cc_kubeconfigServerHost config; cc_policy := cc_policy config;
  cc_mirrorHostNodes := cc_mirrorHostNodes config; cc_customCertsPath := cc_customCertsPath config;
  cc_timeout := cc_timeout config |}.

(** What is written on the host before the cluster is waited for. *)
Definition create_objects (appCtx : AppContext) (config : CreateConfig) (name : string) : M W (Cluster * string) :=
  let namespace := AppContext_Namespace appCtx name in
  createNamespace namespace (cc_policy config) ;;
  let config := if strings_Contains (cc_version config) "+" then normalized config else config in
  (if decide (cc_token config ≠ "")
   then Create client (Token.TokenSecretObj (cc_token config) name namespace) ;; mret tt else mret tt) ;;
  (if decide (cc_customCertsPath config ≠ "")
   then CreateCustomCertsSecrets name namespace (cc_customCertsPath config) else mret tt) ;;
  cluster ← lift (newCluster name namespace config);
  host ← lift (extractHost (RestConfig_Host appCtx) (cc_kubeconfigServerHost config));
  let cluster := exposed (uniqueStrings (host :: cc_tlsSANs config)) cluster in
  r ← attempt (Create client cluster);
  match r with
  | inl cluster => mret (cluster, host)
  | inr err => if negb (IsAlreadyExists err) then fail err else mret (cluster, host)
  end.

(** [availableBackoff.Steps] *)
Definition available_steps : nat := 25.

Definition fetch_kubeconfig (cluster : Cluster) : M W Kubeconfig.ApiConfig :=
  kubeconfigSecret ← Get client Secret {| nn_Namespace := Namespace (cl_Meta cluster);
    nn_Name := SafeConcatNameWithPrefix [Name (cl_Meta cluster); "kubeconfig"] |};
  lift (clientcmd_Load (map_str (sec_Data kubeconfigSecret) "kubeconfig.yaml")).

Definition createAction (appCtx : AppContext) (config : CreateConfig) (name : string) : M W unit :=
  if decide (name = Cluster.ClusterInvalidName) then fail (EText "invalid cluster name")
  else if decide (cc_agents config ≠ 0 ∧ cc_mode config ≠ VirtualClusterMode) then
    fail (EText "invalid flag, --agents flag is only allowed in virtual mode")
  else
    '(cluster, host) ← create_objects appCtx config name;
    '(err, cluster) ← waitForClusterReconciled cluster (cc_timeout config);
    match err with
    | Some err => fail (EFmt [EText "failed to wait for cluster to be reconciled: "; err])
    | None =>
        '(err, cluster) ← waitForClusterReady cluster (cc_timeout config);
        match err with
        | Some err => fail (EFmt [EText ("failed to wait for cluster to become ready (status: "
                                         +:+ st_Phase (cl_Status cluster) +:+ "): "); err])
        | None =>
            kubeconfig ← retry_OnError available_steps IsNotFound (fetch_kubeconfig cluster);
            serverURL ← Expose.URL client cluster host;
            writeKubeconfig appCtx cluster (set_server (Kubeconfig.url_String serverURL) kubeconfig)
              (standalonePath (cc_out config) cluster)
        end
    end.
End Create.

(** ** The arguments, the flags and the host *)

(** The reference for [uniqueStrings]: a string, then the others without it. *)
Fixpoint first_of (l : list string) : list string :=
  match l with
  | [] => []
  | x :: l => x :: List.filter (λ y, negb (bool_decide (y = x))) (first_of l)
  end.

Lemma elem_of_first_of l x : x ∈ first_of l ↔ x ∈ l.
Proof.
  induction l as [|y l IH]; cbn; [done|]. rewrite !elem_of_cons, list_elem_of_In, filter_In, <- list_elem_of_In, IH.
  rewrite negb_true_iff, bool_decide_eq_false. destruct (decide (x = y)); naive_solver.
Qed.

Lemma NoDup_first_of l : NoDup (first_of l).
Proof.
  induction l as [|y l IH]; cbn; constructor.
  - rewrite list_elem_of_In, filter_In, negb_true_iff, bool_decide_eq_false. naive_solver.
  - apply NoDup_ListNoDup, List.NoDup_filter. by apply NoDup_ListNoDup.
Qed.

Lemma unique_from_filter seen ss :
  unique_from seen ss = List.filter (λ y, negb (bool_decide (y ∈ seen))) (first_of ss).
Proof.
  revert seen. induction ss as [|s ss IH]; intros seen; cbn; [done|].
  assert (∀ l, s ∈ seen →
    List.filter (λ y, negb (bool_decide (y ∈ seen))) (List.filter (λ y, negb (bool_decide (y = s))) l)
    = List.filter (λ y, negb (bool_decide (y ∈ seen))) l) as H1.
  { intros l Hs. induction l as [|y l IHl]; cbn; [done|]. destruct (decide (y = s)) as [->|Hy].
    - rewrite bool_decide_true by done. cbn. rewrite (bool_decide_true _ Hs). exact IHl.
    - rewrite bool_decide_false by done. cbn. by rewrite IHl. }
  assert (∀ l, List.filter (λ y, negb (bool_decide (y ∈ ({[s]} ∪ seen : gset string)))) l
    = List.filter (λ y, negb (bool_decide (y ∈ seen))) (List.filter (λ y, negb (bool_decide (y = s))) l)) as H2.
  { intros l. induction l as [|y l IHl]; cbn; [done|]. destruct (decide (y = s)) as [->|Hy].
    - rewrite (bool_decide_true (s = s)) by done. rewrite bool_decide_true by set_solver. exact IHl.
    - rewrite (bool_decide_false (y = s)) by done. cbn. rewrite IHl.
      by rewrite (bool_decide_ext (y ∈ ({[s]} ∪ seen : gset string)) (y ∈ seen)) by set_solver. }
  destruct (decide (s ∈ seen)) as [Hs|Hs].
  - rewrite (bool_decide_true _ Hs). cbn. by rewrite IH, H1.
  - rewrite (bool_decide_false _ Hs). cbn. by rewrite IH, H2.
Qed.

(** dropping the duplicates of a list with a set of what was seen is keeping, at
    each string, what follows without it: every string stays, once, at the place
    of its first occurrence. *)
Theorem uniqueStrings_first_of ss :
  uniqueStrings ss = first_of ss ∧ NoDup (uniqueStrings ss) ∧ ∀ x, x ∈ uniqueStrings ss ↔ x ∈ ss.
Proof.
  assert (uniqueStrings ss = first_of ss) as ->.
  { unfold uniqueStrings. rewrite unique_from_filter. induction (first_of ss) as [|y l IH]; cbn; [done|].
    rewrite bool_decide_false by set_solver. cbn. by rewrite IH. }
  split; [done|]. split; [apply NoDup_first_of|]. intros x. apply elem_of_first_of.
Qed.

(** the argument that names a cluster is the name of its context in the
    kubeconfig of the user: it resolves to the namespace and the name the context
    was made of, unless the namespace flag says otherwise. *)
Theorem resolveClusterArg_ContextName appCtx ns name :
  ¬ str_elem "/" ns →
  resolveClusterArg appCtx (ContextName ns name) =
  (if decide (namespace appCtx ≠ "" ∧ namespace appCtx ≠ ns)
   then Err (EText ("namespace mismatch: flag --namespace " +:+ fmt_q (namespace appCtx)
                    +:+ " conflicts with argument namespace " +:+ fmt_q ns))
   else Ok (ns, name)).
Proof.
  intros Hns. unfold resolveClusterArg, ContextName, strings_Cut.
  change ("/" +:+ name) with (String "/" name). by rewrite cut_char_first by done.
Qed.

Lemma resolveClusterArg_ContextName_witness :
  resolveClusterArg {| RestConfig_Host := ""; Kubeconfig_path := ""; namespace := "" |} (ContextName "team" "dev")
  = Ok ("team", "dev").
Proof.
  refine (resolveClusterArg_ContextName {| RestConfig_Host := ""; Kubeconfig_path := ""; namespace := "" |}
            "team" "dev" _).
  unfold str_elem. eapply bool_decide_eq_false_1. by vm_compute.
Defined.

Lemma last_colon_None s : last_colon s = None ↔ ¬ str_elem ":" s.
Proof.
  unfold str_elem. induction s as [|c s IH]; cbn; [set_solver|]. rewrite elem_of_cons.
  destruct (last_colon s) as [[h p]|]; [naive_solver|]. destruct (decide (c = ":"%char)) as [->|]; naive_solver.
Qed.

Lemma last_colon_app h p : ¬ str_elem ":" p → last_colon (h +:+ ":" +:+ p) = Some (h, ":" +:+ p).
Proof.
  intros Hp. induction h as [|c h IH]; cbn.
  - rewrite (proj2 (last_colon_None p)) by done. by rewrite decide_True.
  - cbn in IH. by rewrite IH.
Qed.

Lemma digits_no_colon p : forallb is_digit (String.list_ascii_of_string p) = true → ¬ str_elem ":" p.
Proof.
  unfold str_elem. rewrite forallb_forall. intros H Hin. apply list_elem_of_In in Hin. apply H in Hin. by vm_compute in Hin.
Qed.

(** the host of a URL comes back from the address it was joined in: a name or an
    IPv4 address as it is, an IPv6 address without its brackets. *)
Theorem Hostname_JoinHostPort host port :
  forallb is_digit (String.list_ascii_of_string port) = true → strings_HasPrefix host "[" = false →
  Hostname (JoinHostPort host port) = host.
Proof.
  intros Hport Hb. pose proof (digits_no_colon _ Hport) as Hp. unfold JoinHostPort, Hostname.
  destruct (strings_Contains host ":") eqn:Hc.
  - replace ("[" +:+ host +:+ "]:" +:+ port) with (("[" +:+ host +:+ "]") +:+ ":" +:+ port)
      by (cbn; by rewrite !str_app_assoc).
    rewrite last_colon_app by done. cbn [validOptionalPort String.append]. rewrite bool_decide_true by done.
    cbn [andb]. rewrite Hport. unfold strings_HasPrefix. cbn [String.prefix]. destruct (ascii_dec "[" "["); [|done].
    rewrite (bool_decide_true (str_last _ = _)).
    + cbn [str_drop]. change (host +:+ "]") with (host +:+ "]"). destruct (host +:+ "]") eqn:E; [by destruct host|].
      rewrite <- E. cbn [andb String.length]. rewrite str_app_length. cbn [String.length].
      replace (S (String.length host + 1) - 2)%nat with (String.length host) by lia.
      destruct host; cbn; [done|]. f_equal. by apply str_take_app.
    + change (String "[" (host +:+ "]")) with ("[" +:+ (host +:+ "]")). by rewrite !str_last_app by (by destruct host).
  - rewrite last_colon_app by done. cbn [validOptionalPort String.append]. rewrite bool_decide_true by done.
    cbn [andb]. rewrite Hport. by rewrite Hb.
Qed.

Lemma Hostname_JoinHostPort_witness : Hostname (JoinHostPort "2001:db8::1" "6443") = "2001:db8::1".
Proof. apply (Hostname_JoinHostPort "2001:db8::1" "6443"); by vm_compute. Defined.

(** ** The cluster that is created *)
Section NewCluster.
Context `{CliLib}.

Lemma outcome_bind_ok {A B} (o : outcome A) (f : A → outcome B) b :
  (x ← o; f x) = Ok b → ∃ a, o = Ok a ∧ f a = Ok b.
Proof. destruct o as [a|e|]; [|done..]. intros E. by exists a. Qed.

(** the number of servers that is validated is not always the one that is
    asked for: the flag is an [int], the field an [int32].  Below 2^31 they agree
    and there is a server; 2^32 and [k] more pass the validation and ask for
    [k]. *)
Theorem newCluster_servers name namespace cfg cluster :
  validateCreateConfig cfg = Ok tt → newCluster name namespace cfg = Ok cluster →
  ∃ n, Servers (cl_Spec cluster) = Some n ∧ - 2 ^ 31 ≤ n < 2 ^ 31 ∧
    (cc_servers cfg < 2 ^ 31 → n = cc_servers cfg ∧ 0 < n) ∧
    (∀ k, 0 ≤ k < 2 ^ 31 → cc_servers cfg = 2 ^ 32 + k → n = k).
Proof.
  intros Hv Hn. exists (int32 (cc_servers cfg)).
  assert (0 < cc_servers cfg) as Hpos.
  { unfold validateCreateConfig in Hv. destruct (Z.leb_spec (cc_servers cfg) 0); [done|lia]. }
  split; [|split; [apply int32_range|split]].
  - apply outcome_bind_ok in Hn as (size & _ & Hn). apply outcome_bind_ok in Hn as (senv & _ & Hn).
    apply outcome_bind_ok in Hn as (aenv & _ & Hn). by injection Hn as <-.
  - intros Hl. rewrite int32_small by lia. lia.
  - intros k Hk ->. unfold int32. replace (2 ^ 32 + k + 2 ^ 31) with (k + 2 ^ 31 + 1 * 2 ^ 32) by lia.
    rewrite Z.mod_add by done. rewrite Z.mod_small by lia. lia.
Qed.
End NewCluster.

(** ** What the commands write *)
Section Run.
Context {W : Type} (client : Client W) `{!ClientLaws client} `{KubeUtil} `{CliLib} `{MapRangeLaw}.
Context `{PollerLaw W} `{RetrierLaw W} `{CL : ConfigFilesLaws W}.
Context (os_ReadFile : string → M W string).

(** The files of the user are not objects of the cluster. *)
Context (Hread : ∀ p, silent client (os_ReadFile p)).
Context (Hload : ∀ p, silent client (LoadFromFile p)) (Hwrite : ∀ cfg p, silent client (WriteToFile cfg p)).
Context (Habs : ∀ p, silent client (filepath_Abs p)).

Definition cert_key (name namespace certName : string) : ObjKey :=
  ("Secret", {| nn_Namespace := namespace; nn_Name := SafeConcatNameWithPrefix [name; certName] |}).

Lemma read_cert_run name namespace path certName fileName w s w' :
  read_cert os_ReadFile name namespace path certName fileName w = (Ok s, w') →
  store w' = store w ∧ obj_key (OSecret s) = cert_key name namespace certName.
Proof using Hread.
  unfold read_cert. intros (cert & w1 & E1 & E)%bind_inv_ok. apply bind_inv_ok in E as (key & w2 & E2 & E).
  injection E as <- <-. split; [|done]. rewrite (Hread _ _ _ _ E2).
  destruct (decide _); [by rewrite (Hread _ _ _ _ E1)|by injection E1 as _ <-].
Qed.

(** The secrets that are there once the loop has returned: those of the
    certificates it went through, the first that was in its way included. *)
Lemma create_certs_run name namespace path l w w' :
  create_certs client os_ReadFile name namespace path l w = (Ok tt, w') →
  ∃ made rest, l = (made ++ rest)%list ∧
    Forall (λ p, is_Some (store w' !! cert_key name namespace p.1)) made ∧
    match rest with [] => True | p :: _ => is_Some (store w' !! cert_key name namespace p.1) end ∧
    (∀ i, (∀ p, p ∈ made → i ≠ cert_key name namespace p.1) → store w' !! i = store w !! i) ∧
    store w ⊆ store w'.
Proof using Hread.
  revert w. induction l as [|[certName fileName] l IH]; intros w; cbn [create_certs].
  { intros [= <-]. by exists [], []. }
  intros (s & w1 & E1 & E)%bind_inv_ok. apply read_cert_run in E1 as [Hs1 Hk].
  apply bind_inv_ok in E as (r & w2 & E2 & E). apply attempt_inv in E2. destruct r as [s'|err].
  - apply (Create_run client) in E2 as (_ & Hn & Hk' & Hs2 & _). change (inj s) with (OSecret s) in *. rewrite Hk in *.
    apply IH in E as (made & rest & -> & Hm & Hr & Hf & Hsub). rewrite Hs2, Hs1 in *.
    assert (is_Some (store w' !! cert_key name namespace certName)) as Hi.
    { exists (inj s'). eapply lookup_weaken; [|exact Hsub]. apply lookup_insert_eq. }
    exists ((certName, fileName) :: made), rest. split; [done|]. split; [by constructor|]. split; [done|]. split.
    + intros i Hi'. rewrite Hf by (intros p Hp; apply Hi'; by right).
      rewrite lookup_insert_ne; [done|]. intros <-. by apply (Hi' (certName, fileName)); [left|].
    + etrans; [|exact Hsub]. by apply insert_subseteq.
  - destruct (IsAlreadyExists err) eqn:He; [|done]. injection E as <-. exists [], ((certName, fileName) :: l).
    unfold Create, mbind, M_bind in E2. destruct (create_spec (inj s) w1) as (r & w3 & E3 & _ & Hr).
    rewrite E3 in E2. change (inj s) with (OSecret s) in *. rewrite Hk in Hr. rewrite <- Hs1.
    destruct r as [o|e|]; [|injection E2 as -> ->|done].
    + unfold as_typed in E2. by destruct (prj o).
    + rewrite He in Hr. destruct Hr as [-> Hr]. done.
Qed.

(** the secrets of the custom certificates are created one after the other until
    one of them exists: a success means that all six are there only when none of
    them was there before; the one that was ends the loop and leaves those after
    it out, in an order that is not the same from one run to the next. *)
Theorem CreateCustomCertsSecrets_stops name namespace path w w' :
  CreateCustomCertsSecrets client os_ReadFile name namespace path w = (Ok tt, w') →
  ∃ made rest, (made ++ rest)%list ≡ₚ map_to_list customCAsMap ∧
    Forall (λ p, is_Some (store w' !! cert_key name namespace p.1)) made ∧
    match rest with [] => True | p :: _ => is_Some (store w' !! cert_key name namespace p.1) end ∧
    (∀ i, (∀ p, p ∈ made → i ≠ cert_key name namespace p.1) → store w' !! i = store w !! i) ∧
    store w ⊆ store w'.
Proof using Hread H2.
  unfold CreateCustomCertsSecrets. intros (made & rest & E & Hr)%create_certs_run. exists made, rest.
  split; [|done]. rewrite <- E. apply range_map_perm.
Qed.

(** *** createAction only creates *)
Definition grown (K : ObjKey → Prop) (i : ObjKey) (v v' : option Obj) : Prop := v' = v ∨ (K i ∧ v = None).
#[local] Instance grown_preorder K i : PreOrder (grown K i).
Proof using. split; [by left|]. intros v1 v2 v3 [->|[HK ->]] [->|[HK' Hn]]; unfold grown; auto. Qed.

Definition created_keys (appCtx : AppContext) (name : string) (i : ObjKey) : Prop :=
  let ns := AppContext_Namespace appCtx name in
  i = ("Namespace", {| nn_Namespace := ""; nn_Name := ns |}) ∨
  i = ("Secret", {| nn_Namespace := ns; nn_Name := Token.TokenSecretName name |}) ∨
  (∃ certName, is_Some (customCAsMap !! certName) ∧ i = cert_key name ns certName) ∨
  i = ("Cluster", {| nn_Namespace := ns; nn_Name := name |}).

Lemma grown_Create (K : ObjKey → Prop) {T} `{Resource T} (x : T) :
  K (obj_key (inj x)) → evolves client (per_key (grown K)) (Create client x).
Proof using.
  intros HK. apply evolves_Create; [exact _|]. intros s y Hn Hk. apply per_key_insert; [exact _|]. right. by split.
Qed.

Lemma newCluster_key name namespace cfg cluster :
  newCluster name namespace cfg = Ok cluster → key_of (cl_Meta cluster) = {| nn_Namespace := namespace; nn_Name := name |}.
Proof using.
  intros Hn. apply outcome_bind_ok in Hn as (size & _ & Hn). apply outcome_bind_ok in Hn as (senv & _ & Hn).
  apply outcome_bind_ok in Hn as (aenv & _ & Hn). by injection Hn as <-.
Qed.

Lemma grown_create_certs K name namespace path l :
  (∀ p, p ∈ l → K (cert_key name namespace p.1)) →
  evolves client (per_key (grown K)) (create_certs client os_ReadFile name namespace path l).
Proof using Hread.
  intros HK. induction l as [|[certName fileName] l IH]; cbn [create_certs]; [apply evolves_mret, _|].
  apply evolves_bind_run; [exact _| |].
  { apply silent_evolves; [exact _|]. unfold read_cert. apply silent_bind.
    - destruct (decide _); [apply Hread|by intros w r w' [= _ <-]].
    - intros cert. apply silent_bind; [apply Hread|]. by intros key w r w' [= _ <-]. }
  intros s w w' [_ Hk]%read_cert_run. apply evolves_bind; [exact _| |].
  - apply evolves_attempt, grown_Create. change (inj s) with (OSecret s). rewrite Hk. apply (HK (certName, fileName)). by left.
  - intros [s'|err]; [|destruct (IsAlreadyExists err); [apply evolves_mret, _|apply evolves_fail, _]].
    apply IH. intros p Hp. apply HK. by right.
Qed.

Lemma grown_create_objects appCtx config name :
  evolves client (per_key (grown (created_keys appCtx name))) (create_objects client os_ReadFile appCtx config name).
Proof using Hread H2.
  unfold create_objects. set (R := per_key _). apply evolves_bind; [exact _| |intros []].
  { unfold createNamespace. apply evolves_bind; [exact _|apply evolves_attempt, evolves_Get; exact _|].
    intros [ns|err]; [apply evolves_mret, _|]. destruct (negb _); [apply evolves_fail, _|].
    apply evolves_bind; [exact _| |intros; apply evolves_mret, _]. apply grown_Create. left.
    by destruct (decide (cc_policy config ≠ "")). }
  set (cfg := if strings_Contains (cc_version config) "+" then normalized config else config).
  apply evolves_bind; [exact _| |intros []].
  { destruct (decide _); [|apply evolves_mret, _]. apply evolves_bind; [exact _| |intros; apply evolves_mret, _].
    apply grown_Create. by right; left. }
  apply evolves_bind; [exact _| |intros []].
  { destruct (decide _); [|apply evolves_mret, _]. apply grown_create_certs. intros [c f] Hp. right; right; left.
    exists c. split; [|done]. unfold CreateCustomCertsSecrets in Hp. rewrite range_map_perm in Hp.
    exists f. by apply elem_of_map_to_list. }
  apply evolves_bind_lift; [exact _|]. intros cluster Hc. apply newCluster_key in Hc.
  apply evolves_bind_lift; [exact _|]. intros host _. apply evolves_bind; [exact _| |].
  - apply evolves_attempt, grown_Create. right; right; right. unfold obj_key. cbn. unfold key_of in *. cbn in *. by rewrite Hc.
  - intros [cl|err]; [apply evolves_mret, _|]. destruct (negb _); [apply evolves_fail, _|apply evolves_mret, _].
Qed.

Lemma silent_get_cluster cluster : silent client (get_cluster client cluster).
Proof using.
  unfold get_cluster. apply silent_eq. apply evolves_bind; [exact _|apply evolves_attempt, evolves_Get; exact _|].
  intros [x|e]; apply evolves_mret, _.
Qed.

Lemma silent_URL cluster host : silent client (Expose.URL client cluster host).
Proof using.
  apply silent_eq. unfold Expose.URL.
  assert (evolves client eq
    (k3kService ← Get client Service {| nn_Namespace := Namespace (cl_Meta cluster);
                                        nn_Name := Expose.ServiceName (Name (cl_Meta cluster)) |};
     lift (Expose.service_url cluster k3kService host))) as Hs
    by (apply evolves_bind; [exact _|apply evolves_Get, _|intros; apply evolves_lift, _]).
  destruct (Expose (cl_Spec cluster)) as [[[ic|] lb np an]|]; [|exact Hs|exact Hs].
  apply evolves_bind; [exact _|apply evolves_Get, _|]. intros ing.
  destruct (ing_Rules (ing_Spec ing)); [exact Hs|]. destruct (negb _); [apply evolves_mret, _|exact Hs].
Qed.

Lemma silent_fetch cluster : silent client (fetch_kubeconfig client cluster).
Proof using.
  apply silent_eq. apply evolves_bind; [exact _|apply evolves_Get, _|]. intros; apply evolves_lift, _.
Qed.

Lemma silent_load p : silent client (load p).
Proof using Hload.
  apply silent_eq. apply evolves_bind; [exact _|apply evolves_attempt, silent_eq, Hload|].
  intros [x|e]; [apply evolves_mret, _|]. destruct (os_IsNotExist e); [apply evolves_mret, _|apply evolves_fail, _].
Qed.

Lemma silent_writeKubeconfig appCtx cluster config p : silent client (writeKubeconfig appCtx cluster config p).
Proof using Hload Hwrite Habs.
  apply silent_bind.
  - destruct (decide _); [|by intros w r w' [= _ <-]]. apply silent_bind; [|by intros x w r w' [= _ <-]].
    apply silent_bind; [apply Hwrite|]. intros _. apply Habs.
  - intros _. unfold addKubeconfigContext, Add. apply silent_bind; [by intros w r w' [= _ <-]|].
    intros [c u]. apply silent_bind; [apply silent_load|]. intros cfg. apply Hwrite.
Qed.

Lemma silent_reconciled s : silent client (reconciled client s).
Proof using.
  apply silent_bind; [apply silent_get_cluster|]. by intros [x|e] w r w' [= _ <-].
Qed.

Lemma silent_ready s : silent client (ready client s).
Proof using.
  destruct s as [cl n]. apply silent_bind; [apply silent_get_cluster|].
  intros [x|e] w r w'; [|by intros [= _ <-]]. cbv zeta. destruct (decide _); [by intros [= _ <-]|].
  destruct (decide _); [|by intros [= _ <-]]. destruct (3 <? n + 1)%Z; by intros [= _ <-].
Qed.

Lemma grown_silent K {A} (m : M W A) : silent client m → evolves client (per_key (grown K)) m.
Proof using. apply silent_evolves. exact _. Qed.

(** C35: creating a cluster from the command line only adds objects to the host, the
    namespace, the secrets and the cluster it is asked for: whatever the outcome,
    no object that exists is changed or removed, and no other object appears. *)
Theorem createAction_additive appCtx config name w r w' :
  createAction client os_ReadFile appCtx config name w = (r, w') →
  ∀ i, store w' !! i = store w !! i ∨ (created_keys appCtx name i ∧ store w !! i = None).
Proof using ClientLaws0 H2 H4 H6 Hread Hload Hwrite Habs.
  enough (evolves client (per_key (grown (created_keys appCtx name)))
            (createAction client os_ReadFile appCtx config name)) as He by (intros E i; exact (He _ _ _ E i)).
  unfold createAction. do 2 (destruct (decide _); [apply evolves_fail, _|]).
  apply evolves_bind; [exact _|apply grown_create_objects|]. intros [cluster host].
  apply evolves_bind; [exact _| |].
  { apply evolves_poll_timeout; [exact _|exact _|done|]. intros s. apply grown_silent, silent_reconciled. }
  intros [[e|] cl]; [apply evolves_fail, _|]. apply evolves_bind; [exact _| |].
  { apply evolves_bind; [exact _| |by intros [e [c f]]; apply evolves_mret, _].
    apply evolves_poll_timeout; [exact _|exact _|done|]. intros s. apply grown_silent, silent_ready. }
  intros [[e|] cl']; [apply evolves_fail, _|]. apply evolves_bind; [exact _| |].
  { apply evolves_retry; [exact _|exact _|unfold available_steps; lia|]. apply grown_silent, silent_fetch. }
  intros kc. apply evolves_bind; [exact _|apply grown_silent, silent_URL|].
  intros u. apply grown_silent, silent_writeKubeconfig.
Qed.

(** *** A success *)
Lemma reconciled_key n s w b err s' w' :
  key_of (cl_Meta s) = n → reconciled client s w = (Ok (b, err, s'), w') → key_of (cl_Meta s') = n.
Proof using ClientLaws0.
  intros Hk. unfold reconciled. intros (r & w1 & E1 & E)%bind_inv_ok. unfold get_cluster in E1.
  apply bind_inv_ok in E1 as (r0 & w2 & E2 & E1). apply attempt_inv in E2. destruct r0 as [x|e].
  - apply (Get_run client) in E2 as (_ & _ & _ & Hx). injection E1 as <- <-. injection E as <- <- <- <-.
    change (meta x) with (cl_Meta x) in Hx. congruence.
  - injection E1 as <- <-. by injection E as <- <- <- <-.
Qed.

Lemma ready_run s w b err s' w' :
  ready client s w = (Ok (b, err, s'), w') →
  key_of (cl_Meta s'.1) = key_of (cl_Meta s.1) ∧
  (b = true → err = None →
   store w' !! (("Cluster", key_of (cl_Meta s.1)) : ObjKey) = Some (OCluster s'.1) ∧
   st_Phase (cl_Status s'.1) = ClusterReady).
Proof using ClientLaws0.
  destruct s as [cl n]. unfold ready. intros (r & w1 & E1 & E)%bind_inv_ok. unfold get_cluster in E1.
  apply bind_inv_ok in E1 as (r0 & w2 & E2 & E1). apply attempt_inv in E2. destruct r0 as [x|e].
  - apply (Get_run client) in E2 as (Hs & _ & Hg & Hx). injection E1 as <- <-. cbv zeta in E. rewrite <- Hs in Hg.
    destruct (decide _) as [Hp|_]; [|destruct (decide _); [destruct (3 <? n + 1)%Z|]];
      injection E as <- <- <- <-; (split; [exact Hx|done]).
  - injection E1 as <- <-. injection E as <- <- <- <-. by split.
Qed.

Lemma ServerURL_set_server url config c u :
  currentEntries (set_server url config) = Ok (c, u) → Kubeconfig.Server_ c = url.
Proof using.
  unfold currentEntries, set_server; cbn. destruct (Kubeconfig.Contexts config !! _) as [ctx|]; [|done].
  rewrite lookup_fmap. destruct (Kubeconfig.Clusters config !! _) as [c0|]; [|done]. cbn.
  destruct (Kubeconfig.AuthInfos config !! _); [|done]. by intros [= <- _].
Qed.

Lemma create_objects_key appCtx config name w cluster host w' :
  create_objects client os_ReadFile appCtx config name w = (Ok (cluster, host), w') →
  key_of (cl_Meta cluster) = {| nn_Namespace := AppContext_Namespace appCtx name; nn_Name := name |}.
Proof using ClientLaws0.
  unfold create_objects. intros ([] & w1 & _ & E)%bind_inv_ok. cbv zeta in E.
  set (cfg := if strings_Contains (cc_version config) "+" then normalized config else config) in *.
  apply bind_inv_ok in E as ([] & w2 & _ & E). apply bind_inv_ok in E as ([] & w3 & _ & E).
  apply bind_inv_ok in E as (cl & w4 & E4 & E). unfold lift in E4. injection E4 as Hc <-. apply newCluster_key in Hc.
  apply bind_inv_ok in E as (h & w5 & _ & E). apply bind_inv_ok in E as (r & w6 & E6 & E). apply attempt_inv in E6.
  destruct r as [cl'|err].
  - apply (Create_run client) in E6 as (_ & _ & Hk & _). injection E as <- <- <-. unfold obj_key in Hk. cbn in Hk.
    unfold key_of in *. cbn in *. congruence.
  - destruct (negb _); [done|]. by injection E as <- <- <-.
Qed.

(** when the creation of a cluster succeeds the cluster is there and ready, and
    the context <namespace>/<name> of the kubeconfig of the user leads to the URL
    it is exposed at. *)
Theorem createAction_ready appCtx config name w w' :
  createAction client os_ReadFile appCtx config name w = (Ok tt, w') →
  let ns := AppContext_Namespace appCtx name in
  ∃ cluster url after c u rest,
    store w' !! (("Cluster", {| nn_Namespace := ns; nn_Name := name |}) : ObjKey) = Some (OCluster cluster) ∧
    st_Phase (cl_Status cluster) = ClusterReady ∧
    (∃ host w1 w2, Expose.URL client cluster host w1 = (Ok url, w2) ∧ store w1 = store w') ∧
    content w' (GetDefaultFilename (Kubeconfig_path appCtx)) = Some (inl after) ∧
    currentEntries {| Kubeconfig.Clusters := Kubeconfig.Clusters after;
                      Kubeconfig.AuthInfos := Kubeconfig.AuthInfos after;
                      Kubeconfig.Contexts := Kubeconfig.Contexts after;
                      Kubeconfig.CurrentContext := ContextName ns name;
                      Kubeconfig.cfg_rest := rest |} = Ok (c, u) ∧
    Kubeconfig.Server_ c = Kubeconfig.url_String url.
Proof using ClientLaws0 H2 H4 H6 Hread Hload Hwrite Habs CL.
  unfold createAction. do 2 (destruct (decide _); [done|]).
  intros ([cluster host] & w1 & E1 & E)%bind_inv_ok. apply create_objects_key in E1.
  apply bind_inv_ok in E as ([err cl1] & w2 & E2 & E). destruct err as [e|]; [done|].
  unfold waitForClusterReconciled in E2.
  destruct (poll_timeout_spec Second (cc_timeout config) false (reconciled client) cluster w1) as (n1 & st1 & _ & _ & Hn1);
    [done|]. rewrite Hn1 in E2.
  apply (poll_loop_done (λ s, key_of (cl_Meta s) = key_of (cl_Meta cluster))) in E2 as (s0 & w0 & Hs0 & E2);
    [|by intros; eapply reconciled_key|done].
  eapply reconciled_key in E2; [|exact Hs0]. clear s0 w0 Hs0 Hn1.
  apply bind_inv_ok in E as ([err cl2] & w3 & E3 & E). destruct err as [e|]; [done|].
  unfold waitForClusterReady in E3. apply bind_inv_ok in E3 as ([err [cl3 f]] & w4 & E3 & E4).
  injection E4 as -> -> ->.
  destruct (poll_timeout_spec (5 * Second) (cc_timeout config) true (ready client) (cl1, 0) w2)
    as (n2 & st2 & _ & _ & Hn2); [done|]. rewrite Hn2 in E3.
  apply (poll_loop_done (λ s, key_of (cl_Meta s.1) = key_of (cl_Meta cluster))) in E3 as (s0 & w0 & Hs0 & E3);
    [|intros ? ? ? ? ? ? ? [? _]%ready_run; congruence|done].
  apply ready_run in E3 as [Hk3 E3]. destruct (E3 eq_refl eq_refl) as [Hst Hph]. cbn [fst] in *. clear E3 Hn2.
  rewrite Hs0, E1 in Hst, Hk3.
  apply bind_inv_ok in E as (kc & w5 & E5 & E). rewrite retry_spec in E5 by (unfold available_steps; lia).
  assert (store w5 = store w3) as Hs5.
  { assert (PreOrder (λ w w' : W, store w' = store w)) as HP
      by (split; [by intros x|intros x y z Ha Hb; congruence]).
    exact (retry_loop_keeps (λ w w', store w' = store w) _ _ _ _ _ _ (silent_fetch cl2) E5). }
  apply bind_inv_ok in E as (url & w6 & E6 & E). pose proof (silent_URL _ _ _ _ _ E6) as Hs6.
  pose proof (silent_writeKubeconfig _ _ _ _ _ _ _ E) as Hs7.
  unfold writeKubeconfig in E. apply bind_inv_ok in E as ([] & w7 & _ & E). unfold addKubeconfigContext in E.
  apply Add_run in E as (c & u & before & Hcur & _ & Hcontent). cbn [path New] in Hcontent.
  unfold key_of in Hk3. injection Hk3 as Hns Hname. rewrite Hns, Hname in Hcontent.
  eexists cl2, url, _, c, u, JNull. split; [by rewrite Hs7, Hs6, Hs5|]. split; [done|]. split.
  { exists host, w5, w6. split; [done|]. by rewrite Hs7, Hs6. }
  split; [exact Hcontent|]. split; [|by eapply ServerURL_set_server].
  unfold currentEntries; cbn. rewrite lookup_insert_eq. cbn. by rewrite !lookup_insert_eq.
Qed.
End Run.

(** ** A concrete environment

    The API server of the host and the disk of the user. *)
Import Lab.
Definition station : Type := mem * gmap string (Kubeconfig.ApiConfig + error).
Definition host : Client station := Lab.fst_client mem_client.

#[export] Instance station_files : ConfigFiles station := {
  LoadFromFile p := Lab.on_snd (LoadFromFile p);
  WriteToFile cfg p := Lab.on_snd (WriteToFile cfg p);
  filepath_Abs p := Lab.on_snd (filepath_Abs p);
  os_IsNotExist := os_IsNotExist (W := gmap string (Kubeconfig.ApiConfig + error));
  GetDefaultFilename := GetDefaultFilename (W := gmap string (Kubeconfig.ApiConfig + error));
}.

#[export] Program Instance station_laws : ConfigFilesLaws station := { content w := content w.2 }.
Next Obligation.
  intros p w. destruct (load_spec p w.2) as (r & w' & E & Hc & Hr). exists r, (w.1, w').
  split; [by apply Lab.on_snd_run|]. by split.
Qed.
Next Obligation.
  intros cfg p w. destruct (write_spec cfg p w.2) as (r & w' & E & Hr). exists r, (w.1, w').
  split; [by apply Lab.on_snd_run|]. exact Hr.
Qed.

#[export] Instance station_poller : Poller station := loop_poller station 0.
#[export] Instance station_poller_law : PollerLaw station := loop_poller_law station 0.
#[export] Instance station_retrier : Retrier station := loop_retrier station.
#[export] Instance station_retrier_law : RetrierLaw station := loop_retrier_law station.
#[export] Instance station_order : MapRange := key_order.
#[export] Instance station_order_law : MapRangeLaw := key_order_law.

#[export] Instance lab_clilib : CliLib := {
  ParseQuantity s := if decide (s = "") then Err (EText "empty quantity") else Ok zero_Quantity;
  Quantity_String q := "0";
  url_Parse_Host s := Ok s;
  clientcmd_Load s := Ok dev_config;
}.

Lemma station_load_silent p : silent host (LoadFromFile p).
Proof. exact (Lab.silent_on_snd mem_client (LoadFromFile p)). Qed.
Lemma station_write_silent cfg p : silent host (WriteToFile cfg p).
Proof. exact (Lab.silent_on_snd mem_client (WriteToFile cfg p)). Qed.
Lemma station_abs_silent p : silent host (filepath_Abs p).
Proof. exact (Lab.silent_on_snd mem_client (filepath_Abs p)). Qed.

Definition read_cert_file (p : string) : M station string := mret ("contents of " +:+ p).
Lemma read_cert_file_silent p : silent host (read_cert_file p).
Proof. by intros w r w' [= _ <-]. Qed.

Definition flags : CreateConfig := {|
  cc_out := {| out := ""; noOut := true; configName := "" |};
  cc_token := ""; cc_clusterCIDR := ""; cc_serviceCIDR := ""; cc_servers := 1; cc_agents := 0;
  cc_serverArgs := []; cc_agentArgs := []; cc_serverEnvs := ["A=b"]; cc_agentEnvs := []; cc_labels := ["team=blue"];
  cc_annotations := []; cc_tlsSANs := ["dev.example.com"]; cc_persistenceType := "ephemeral";
  cc_storageClassName := ""; cc_storageRequestSize := ""; cc_version := "v1.33.1+k3s1"; cc_mode := "shared";
  cc_kubeconfigServerHost := ""; cc_policy := ""; cc_mirrorHostNodes := false; cc_customCertsPath := "";
  cc_timeout := 60 * Second |}.

Definition many_servers : CreateConfig := {|
  cc_out := cc_out flags; cc_token := ""; cc_clusterCIDR := ""; cc_serviceCIDR := ""; cc_servers := 2 ^ 32 + 0;
  cc_agents := 0; cc_serverArgs := []; cc_agentArgs := []; cc_serverEnvs := []; cc_agentEnvs := []; cc_labels := [];
  cc_annotations := []; cc_tlsSANs := []; cc_persistenceType := ""; cc_storageClassName := "";
  cc_storageRequestSize := ""; cc_version := ""; cc_mode := ""; cc_kubeconfigServerHost := ""; cc_policy := "";
  cc_mirrorHostNodes := false; cc_customCertsPath := ""; cc_timeout := 0 |}.

Definition session : AppContext :=
  {| RestConfig_Host := "[2001:db8::1]:6443"; Kubeconfig_path := ""; namespace := "team" |}.

(** A cluster that is ready, with its kubeconfig and its service. *)
Definition ready_tenant : Cluster :=
  set_Status (st_set_HostVersion "v1.33.1-k3s1" (st_set_Phase ClusterReady [] (cl_Status Lab.tenant))) Lab.tenant.
Definition kubeconfig_secret : Secret := {|
  sec_Meta := meta_of "team" (SafeConcatNameWithPrefix ["dev"; "kubeconfig"]); sec_Type := "";
  sec_Data := map_lit [("kubeconfig.yaml", "yaml")] |}.
Definition desk : station :=
  (Lab.objects [ONamespace {| ns_Meta := meta_of "" "team" |}; OCluster ready_tenant; OSecret kubeconfig_secret;
                OService (Expose.Service_ ready_tenant)], user_disk).

Lemma createAction_additive_witness :
  ∃ r (w' : station), createAction host read_cert_file session flags "dev" desk = (r, w') ∧
    store w' !! obj_key (OCluster ready_tenant) = store desk !! obj_key (OCluster ready_tenant) ∧
    is_Some (store desk !! obj_key (OCluster ready_tenant)).
Proof.
  destruct (createAction host read_cert_file session flags "dev" desk) as [r w'] eqn:E. exists r, w'.
  split; [reflexivity|].
  destruct (createAction_additive host read_cert_file read_cert_file_silent
    station_load_silent station_write_silent station_abs_silent session flags "dev" desk r w' E
    (obj_key (OCluster ready_tenant))) as [H|[_ H]].
  - split; [exact H|]. vm_compute. by eexists.
  - vm_compute in H. discriminate.
Defined.

Lemma createAction_ready_witness :
  ∃ (w' : station) cluster url after c u,
    store w' !! (("Cluster", {| nn_Namespace := "team"; nn_Name := "dev" |}) : ObjKey) = Some (OCluster cluster) ∧
    st_Phase (cl_Status cluster) = ClusterReady ∧
    content w' "/home/user/.kube/config" = Some (inl after) ∧
    Kubeconfig.Server_ c = Kubeconfig.url_String url ∧
    currentEntries (set_server (Kubeconfig.url_String url) dev_config) = Ok (c, u).
Proof.
  destruct (createAction host read_cert_file session flags "dev" desk) as [r w'] eqn:E.
  assert (r = Ok tt) as ->. { change r with (r, w').1. rewrite <- E. vm_compute. reflexivity. }
  destruct (createAction_ready host read_cert_file read_cert_file_silent
    station_load_silent station_write_silent station_abs_silent session flags "dev" desk w' E)
    as (cluster & url & after & c & u & rest & H1 & H2 & H3 & H4 & H5 & H6).
  exists w', cluster, url, after.
  destruct (currentEntries (set_server (Kubeconfig.url_String url) dev_config)) as [[c0 u0]|e|] eqn:Ec.
  - exists c0, u0. split; [exact H1|]. split; [exact H2|]. split; [exact H4|].
    split; [by eapply ServerURL_set_server|reflexivity].
  - exfalso. revert Ec. unfold currentEntries, set_server; cbn. done.
  - exfalso. revert Ec. unfold currentEntries, set_server; cbn. done.
Defined.

Lemma newCluster_servers_witness :
  ∃ cluster, newCluster "dev" "team" many_servers = Ok cluster ∧ Servers (cl_Spec cluster) = Some 0.
Proof.
  destruct (newCluster "dev" "team" many_servers) as [cluster|e|] eqn:E.
  - destruct (newCluster_servers "dev" "team" many_servers cluster) as (n & Hn & _ & _ & H0);
      [by vm_compute|exact E|]. exists cluster. split; [reflexivity|]. by rewrite Hn, (H0 0).
  - exfalso. by vm_compute in E.
  - exfalso. by vm_compute in E.
Defined.

(** One of the six secrets exists: nothing is created, and the call succeeds. *)
Definition first_cert : string := from_option fst "" (head (range_map customCAsMap)).
Definition half_done : station :=
  (Lab.objects [OSecret (caCertSecret first_cert "dev" "team" "crt" "key")], ∅).

Lemma CreateCustomCertsSecrets_stops_witness :
  ∃ (w' : station) made rest, (made ++ rest)%list ≡ₚ map_to_list customCAsMap ∧
    Forall (λ p, is_Some (store w' !! cert_key "dev" "team" p.1)) made ∧
    length (List.filter (λ p, bool_decide (is_Some (store w' !! cert_key "dev" "team" p.1)))
              (map_to_list customCAsMap)) = 1%nat.
Proof.
  destruct (CreateCustomCertsSecrets host read_cert_file "dev" "team" "certs" half_done) as [r w'] eqn:E.
  assert (r = Ok tt) as ->. { change r with (r, w').1. rewrite <- E. vm_compute. reflexivity. }
  destruct (CreateCustomCertsSecrets_stops host read_cert_file read_cert_file_silent "dev" "team" "certs" half_done w' E)
    as (made & rest & H1 & H2 & _).
  exists w', made, rest. split; [exact H1|]. split; [exact H2|].
  change w' with (Ok tt : outcome unit, w').2. rewrite <- E. vm_compute. reflexivity.
Defined.
End Cli.
