(* ===== verification/Isolation.v ===== *)
(** * The reach of a reconciliation

    What a run of the cluster controller on one cluster can change in the host
    cluster: every call is followed down to the calls of the client.  The
    clusters of other namespaces, and everything else in them, are out of
    reach. *)

From S2P Require Import Prelude GoStd GoNet K8s Types Kube Effects Names Translate K3s Ports Expose.
From S2P Require Import Server Access Agent Hcp Policy Lab Cluster.

Local Open Scope string_scope.

Module Isolation.

#[local] Existing Instances Lab.lab_transport Lab.lab_codec Lab.lab_exec Lab.lab_certs Lab.fst_laws Lab.snd_laws
  Ports.toy_ports.

#[local] Set Default Proof Using "Type*".

(** The objects a reconciliation of a cluster of the namespace [ns] may write:
    those of the namespace that are not clusters, the two shared
    ClusterRoleBindings, the ConfigMap [K] of the port allocator, the Service
    that is made to fail, and the cluster [own], if any. *)
Definition reach (ns : string) (K : NamespacedName) (own : option NamespacedName) (i : ObjKey) : Prop :=
  nn_Namespace i.2 = ns ∧ i.1 ≠ "Cluster" ∨
  (∃ r, r ∈ Cluster.clusterRoles ∧ i = ("ClusterRoleBinding", Policy.cluster_scoped r)) ∨
  i = ("ConfigMap", K) ∨
  i = ("Service", {| nn_Namespace := "default"; nn_Name := "fail" |}) ∨
  (∃ n, own = Some n ∧ i = ("Cluster", n)).

Ltac stable_step :=
  match goal with
  | |- stable _ Ports.get_cm => apply stable_same; [exact _|done]
  | _ => Effects.stable_step
  end.
Ltac walk := repeat stable_step.

(** ** The port allocator

    Its calls keep the key of the ConfigMap they work on, and write no other
    object. *)
Section Held.
Context {W : Type} (c : Client W) `{!ClientLaws c} (K : NamespacedName).
Context (Q : ObjKey → Prop) (HQ : Q ("ConfigMap", K)).

Definition held (s s' : ConfigMap * W) : Prop :=
  key_of (cm_Meta s.1) = K →
  key_of (cm_Meta s'.1) = K ∧ per_key (only (Q)) (store s.2) (store s'.2).

#[local] Instance held_preorder : PreOrder held.
Proof using.
  split.
  - intros s Hs. split; [done|]. reflexivity.
  - intros s1 s2 s3 H12 H23 Hs. destruct (H12 Hs) as [Hs2 HR]. destruct (H23 Hs2) as [Hs3 HR']. split; [done|].
    etrans; [exact HR|exact HR'].
Qed.

Lemma held_getOrCreate r : stable held (Ports.getOrCreate c r).
Proof.
  intros [cm w] r' s' E HK. cbn in HK.
  unfold Ports.getOrCreate, mbind, M_bind, Ports.get_cm, Ports.put_cm, attempt, Ports.api in E.
  cbn [fst snd] in E. destruct (Get c ConfigMap _ w) as [r1 w1] eqn:EG.
  apply (Get_run c) in EG as (Hs & _ & Hr). cbn [fst snd] in *.
  destruct r1 as [cm1|e|]; [|destruct (IsNotFound e)|done]; cbn in E.
  - injection E as <- <-. cbn. rewrite Hs. destruct Hr as [_ Hk]. split; [|reflexivity].
    cbn in Hk. by rewrite Hk.
  - destruct (Create c _ w1) as [r2 w2] eqn:EC. apply (Create_run c) in EC as (_ & Hr2).
    destruct r2 as [cm2|e'|]; [| |done]; injection E as <- <-; cbn; cbn [fst snd] in *.
    + destruct Hr2 as (_ & Hk & Hs2 & _). cbn in Hk, Hs2. rewrite Hs2, Hs.
      apply (f_equal snd) in Hk. change (key_of (cm_Meta cm2) = key_of (cm_Meta cm)) in Hk.
      split; [congruence|]. apply per_key_insert; [exact _|]. left. unfold obj_key. cbn. by rewrite HK.
    + rewrite Hr2, Hs. split; [done|reflexivity].
  - injection E as <- <-. cbn. rewrite Hs. split; [done|reflexivity].
Qed.

Lemma held_update_cm : stable held (Ports.update_cm c).
Proof.
  intros [cm w] r' s' E HK. cbn in HK.
  unfold Ports.update_cm, mbind, M_bind, Ports.get_cm, Ports.put_cm, Ports.api in E.
  cbn [fst snd] in E. destruct (Update c cm w) as [r1 w1] eqn:EU.
  pose proof (confined_Update c (Q) cm) as HU. ospecialize (HU _ _ _ _ EU).
  { unfold obj_key. cbn. by rewrite HK. }
  apply (Update_run c) in EU as (_ & Hr).
  destruct r1 as [cm1|e|]; [|by injection E as <- <-|done].
  injection E as <- <-. destruct Hr as (_ & Hk & _). cbn. split; [|done].
  apply (f_equal snd) in Hk. change (key_of (cm_Meta cm1) = key_of (cm_Meta cm)) in Hk. congruence.
Qed.

Lemma held_saveSnapshot `{PL : PortLib} pa snap m : stable held (Ports.saveSnapshot (W:=W) pa snap m).
Proof.
  intros s r s' [Hs Hm]%Ports.saveSnapshot_frame HK. rewrite Hm, Hs. split; [done|reflexivity].
Qed.

Lemma held_allocate `{PL : PortLib} n m : stable held (Ports.AllocateKubeletPort c n m).
Proof.
  unfold Ports.AllocateKubeletPort, Ports.allocatePort. walk;
    first [apply held_getOrCreate|apply held_saveSnapshot|apply held_update_cm].
Qed.

Lemma held_deallocate `{PL : PortLib} n m p : stable held (Ports.DeallocateKubeletPort c n m p).
Proof.
  unfold Ports.DeallocateKubeletPort, Ports.deallocatePort. walk;
    first [apply held_getOrCreate|apply held_saveSnapshot|apply held_update_cm].
Qed.
End Held.

Section Isolation.
Context {W : Type} (c : Client W) `{!ClientLaws c} `{KubeUtilLaws}.
Context (ns : string) (K : NamespacedName) (own : option NamespacedName).

Abbreviation confined := (confined c (reach ns K own)).

Lemma reach_ns k n : k ≠ "Cluster" → nn_Namespace n = ns → reach ns K own (k, n).
Proof. by left. Qed.
Hint Resolve reach_ns : core.

(** ** The calls on the host *)
Lemma confined_owned {T} `{SetMeta T} cluster (x : T) m :
  SetControllerReference (cluster_owner cluster) (meta x) = Ok m → kind T ≠ "Cluster" →
  nn_Namespace (key_of (meta x)) = ns → reach ns K own (obj_key (inj (with_meta m x))).
Proof.
  intros (rs & -> & _)%SetControllerReference_ok Hk Hns. left.
  unfold obj_key. by rewrite with_meta_inj, obj_set_meta_kind, obj_set_meta_meta, inj_kind.
Qed.

Lemma confined_ensureObject {T} `{SetMeta T} cluster (x : T) :
  kind T ≠ "Cluster" → nn_Namespace (key_of (meta x)) = ns → confined (Agent.ensureObject c cluster x).
Proof.
  intros Hk Hns. unfold Agent.ensureObject. apply evolves_bind_lift; [exact _|]. intros m Hm.
  assert (reach ns K own (obj_key (inj (with_meta m x)))) by (by eapply confined_owned).
  evolve; first [by apply confined_Create|by apply confined_Update].
Qed.

Lemma confined_ensure_all ms : Forall confined ms → confined (Agent.ensure_all ms).
Proof.
  intros Hms. apply evolves_bind; [exact _|apply evolves_join_all; [exact _|done]|].
  intros errs. evolve.
Qed.

Lemma confined_inj {T} `{Resource T} (x : T) :
  kind T ≠ "Cluster" → nn_Namespace (key_of (meta x)) = ns → reach ns K own (obj_key (inj x)).
Proof. intros Hk Hns. unfold obj_key. rewrite inj_meta, inj_kind. by left. Qed.

Lemma confined_silent {A} (m : M W A) : silent c m → confined m.
Proof. intros Hm. apply silent_evolves; [exact _|done]. Qed.

Lemma confined_upsert {T} `{Resource T} (x : T) f :
  kind T ≠ "Cluster" → nn_Namespace (key_of (meta x)) = ns → confined (CreateOrUpdate c x f).
Proof. intros Hk Hns. by apply confined_CreateOrUpdate; [exact _..|apply confined_inj]. Qed.

(** Walk through a computation on the host: the writes go to the namespace. *)
Ltac host_step :=
  match goal with
  | |- Effects.confined ?d ?L ?m => change (evolves d (per_key (only L)) m)
  | |- evolves _ _ (CreateOrUpdate _ _ _) => apply confined_upsert; [done|cbn; congruence]
  | |- evolves _ _ (Agent.ensureObject _ _ _) => apply confined_ensureObject; [done|cbn; congruence]
  | |- evolves _ _ (Create _ _) => apply confined_Create, confined_inj; [done|cbn; congruence]
  | |- evolves _ _ (Update _ _) => apply confined_Update, confined_inj; [done|cbn; congruence]
  | |- evolves _ _ (Delete _ _) => apply confined_Delete, confined_inj; [done|cbn; congruence]
  | |- evolves _ _ (client_Delete _ _ _) =>
      apply confined_client_Delete, reach_ns; [done|cbn; congruence]
  | |- evolves _ _ (Agent.ensure_all _) => apply confined_ensure_all; repeat apply Forall_cons_2; try apply Forall_nil_2
  | _ => evolve_step
  end.
Ltac host := repeat host_step.

(** ** What is not a call on the host

    The network, the random source, the key generation, the commands run in pods and
    the clients of the virtual clusters do not change what the host stores. *)
Context `{K3s.Transport W} `{K3s.Codec} (Htransport : ∀ req, silent c (K3s.httpClient_Do req)).
Context {Cert Key : Type} `{Kubeconfig.CertUtil W Cert Key}.
Context (Hmakekey : silent c Kubeconfig.MakeEllipticPrivateKeyPEM).
Context (Hsign : ∀ cn org dns u ips e k ca cak, silent c (Kubeconfig.NewSignedCert cn org dns u ips e k ca cak)).
Context (rand_Read : nat → M W string) (Hrand : ∀ n, silent c (rand_Read n)).
Context (cryptorand_Read : M W string) (Hcryptorand : silent c cryptorand_Read).
Context `{K3s.ExecLib W} (Hexec : ∀ exec, silent c (K3s.StreamWithContext exec)).
Context {RestConfig : Type} (RESTConfigFromKubeConfig : string → outcome RestConfig).
Context (ctrlruntimeclient_New : RestConfig → outcome (Client W)).
Context (Hforeign : ∀ rc vc, ctrlruntimeclient_New rc = Ok vc → Foreign c vc).
Context (LookupIPAddr : string → M W (list IP)) (Hlookup : ∀ h, silent c (LookupIPAddr h)).
Context (ServerVersion : M W string) (Hversion : silent c ServerVersion).

Lemma confined_do_request k e u m r : confined (K3s.do_request k e u m r).
Proof. unfold K3s.do_request. host. by apply confined_silent. Qed.

Lemma confined_do {T} (f : string → outcome T) k e u m b : confined (K3s.do_ f k e u m b).
Proof. unfold K3s.do_. host. apply confined_do_request. Qed.

Lemma confined_podExec n p l : confined (K3s.podExec n p l).
Proof. unfold K3s.podExec, K3s.described. host. by apply confined_silent. Qed.

Lemma confined_Fetch k cluster : confined (Bootstrap.Fetch k cluster).
Proof.
  unfold Bootstrap.Fetch, K3s.GetServerConfig, K3s.GetServerBootstrap, K3s.ReadBootstrapFromK3sPod.
  host; first [apply confined_do|apply confined_podExec|by apply confined_silent].
Qed.

Lemma confined_URL cluster h : confined (Expose.URL c cluster h).
Proof. unfold Expose.URL. host. Qed.

Lemma confined_Generate k cluster h : confined (Kubeconfig.Generate c k cluster h).
Proof.
  unfold Kubeconfig.Generate, Bootstrap.LoadFromSecret, Kubeconfig.CreateClientCertKey, Kubeconfig.generateKey.
  host; first [apply confined_URL|by apply confined_silent].
Qed.

Lemma confined_newVirtualClient n m :
  confined (Virtual.newVirtualClient c RESTConfigFromKubeConfig ctrlruntimeclient_New n m).
Proof. unfold Virtual.newVirtualClient. host. Qed.

(** *** The calls on a virtual cluster *)
Section Foreign.
Context (vc : Client W) `{!Foreign c vc}.

Lemma foreign_upsert {T} `{Resource T} (x : T) f : confined (CreateOrUpdate vc x f).
Proof.
  apply confined_silent. apply silent_bind; [|intros; apply silent_bind; [apply silent_as_typed|]].
  2:{ intros. by intros ? ? ? [= _ <-]. }
  intros w r w'. rewrite CreateOrUpdate_law. revert w r w'. apply (silent_eq c).
  unfold create_or_update. destruct (obj_key (inj x)) as [k n].
  apply evolves_bind; [exact _|apply evolves_attempt, silent_eq, foreign_Get|].
  intros [cur|e]; evolve; apply silent_eq; first [apply foreign_Update|apply foreign_Create].
Qed.

Lemma foreign_Delete_ {T} `{Resource T} (x : T) : confined (Delete vc x).
Proof. apply confined_silent, foreign_Delete. Qed.

Lemma foreign_DeleteAllOf_ T `{Resource T} opts : confined (DeleteAllOf vc T opts).
Proof. apply confined_silent, foreign_DeleteAllOf. Qed.

Lemma foreign_List_ T `{Resource T} opts : confined (List_ vc T opts).
Proof. apply confined_silent, silent_bind; [apply foreign_List|]. by intros ? ? ? ? [= _ <-]. Qed.
End Foreign.

(** *** The agents *)
Context {shared_yaml : Agent.sharedAgentConfig → outcome string}.
Context {virtual_yaml : Agent.virtualAgentConfig → outcome string}.

Lemma confined_shared s :
  Namespace (cl_Meta (Agent.sa_cluster s)) = ns →
  confined (Agent.shared_EnsureResources c shared_yaml s).
Proof.
  intros Hns. unfold Agent.shared_EnsureResources. host. unfold Agent.shared_config. host.
Qed.

Lemma confined_virtual v :
  Namespace (cl_Meta (Agent.va_cluster v)) = ns →
  confined (Agent.virtual_EnsureResources c virtual_yaml cryptorand_Read v).
Proof.
  intros Hns. assert (∀ b, confined (Agent.virtual_config c virtual_yaml v b)) as Hcfg.
  { intros b. unfold Agent.virtual_config. host. }
  assert (confined (Agent.nodePassword c cryptorand_Read v)).
  { unfold Agent.nodePassword. apply evolves_bind; [exact _|by apply confined_silent|]. intros p.
    apply evolves_bind_lift; [exact _|]. intros m (rs & -> & _)%SetControllerReference_ok. host. }
  unfold Agent.virtual_EnsureResources, Agent.deprecatedDeployment, Agent.deployment,
    Agent.headlessService, Agent.statefulset. host; first [apply Hcfg|done].
Qed.

(** *** The servers *)
Lemma confined_addons cluster :
  Namespace (cl_Meta cluster) = ns → confined (Server.buildAddonsVolumes c cluster).
Proof. intros Hns. unfold Server.buildAddonsVolumes, Server.addon_step. host. Qed.

Lemma confined_CAs cluster : confined (Server.buildCABundleVolumes c cluster).
Proof. unfold Server.buildCABundleVolumes, Server.ca_step. host. Qed.

Lemma confined_StatefulServer s sans :
  Namespace (cl_Meta (Server.srv_cluster s)) = ns → confined (Server.StatefulServer c s sans).
Proof.
  intros Hns. unfold Server.StatefulServer, Server.extra_volumes. host;
    first [by apply confined_addons|apply confined_CAs].
Qed.

(** *** The steps of the cluster reconciler *)
Context (cfg : Cluster.Config).
Context (yaml_MarshalServer : Expose.serverConfig → outcome string).
Context (clientcmd_Write : Kubeconfig.ApiConfig → outcome string).

Lemma confined_token cluster :
  Namespace (cl_Meta cluster) = ns → confined (Token.token c rand_Read cluster).
Proof.
  intros Hns. unfold Token.token, Token.ensureTokenSecret, Token.random.
  host; by apply confined_silent.
Qed.

Lemma confined_FindPodCIDRs d : confined (Policy.FindPodCIDRs c d).
Proof. unfold Policy.FindPodCIDRs. host. Qed.

Lemma confined_ensureNetworkPolicy cluster :
  Namespace (cl_Meta cluster) = ns → confined (Cluster.ensureNetworkPolicy c cfg cluster).
Proof. intros Hns. unfold Cluster.ensureNetworkPolicy. host. apply confined_FindPodCIDRs. Qed.

Lemma Service_meta cluster : Namespace (svc_Meta (Expose.Service_ cluster)) = Namespace (cl_Meta cluster).
Proof.
  unfold Expose.Service_. by destruct (Expose (cl_Spec cluster)) as [[[] [] [] []]|].
Qed.

Lemma confined_ensureClusterService cluster :
  Namespace (cl_Meta cluster) = ns → confined (Cluster.ensureClusterService c cluster).
Proof.
  intros Hns. unfold Cluster.ensureClusterService. host. apply confined_upsert; [done|]. cbn. by rewrite Service_meta.
Qed.

Lemma Ingress_meta cluster : Namespace (ing_Meta (Expose.Ingress_ cluster)) = Namespace (cl_Meta cluster).
Proof.
  unfold Expose.Ingress_. by destruct (Expose (cl_Spec cluster)) as [[[] [] [] []]|].
Qed.

Lemma confined_ensureIngress cluster :
  Namespace (cl_Meta cluster) = ns → confined (Cluster.ensureIngress c cluster).
Proof.
  intros Hns. unfold Cluster.ensureIngress. host.
  - apply confined_Delete, confined_inj; [done|]. cbn. by rewrite Ingress_meta.
  - apply confined_upsert; [done|]. cbn. by rewrite Ingress_meta.
Qed.

Lemma StatefulServer_meta s sans w x w' :
  Server.StatefulServer c s sans w = (Ok x, w') →
  Namespace (sts_Meta x) = Namespace (cl_Meta (Server.srv_cluster s)).
Proof. unfold Server.StatefulServer. intros E. by inv_ok. Qed.

Lemma AddFinalizer_ns m f : Namespace (AddFinalizer m f).1 = Namespace m.
Proof. rewrite AddFinalizer_law. by case_decide. Qed.

Lemma confined_server s sans :
  Namespace (cl_Meta (Server.srv_cluster s)) = ns → confined (Cluster.server c s sans).
Proof.
  intros Hns. unfold Cluster.server. apply evolves_bind_lift; [exact _|].
  unfold Cluster.owned. intros svc Hsvc. destruct (SetControllerReference _ _) as [m|e|] eqn:Em; [|done..].
  injection Hsvc as <-. apply SetControllerReference_ok in Em as (rs & -> & _).
  do 2 (apply evolves_bind; [exact _|host|intros ?]).
  apply evolves_bind_run; [exact _|by apply confined_StatefulServer|].
  intros x w w' E%StatefulServer_meta. host. apply confined_upsert; [done|]. cbn. rewrite AddFinalizer_ns. congruence.
Qed.

Lemma binding_reach r subjects b :
  r ∈ Cluster.clusterRoles → key_of (crb_Meta b) = Policy.cluster_scoped r →
  reach ns K own (obj_key (inj (Cluster.set_Subjects subjects b))).
Proof.
  intros Hr Hk. right. left. exists r. split; [done|]. unfold obj_key. cbn. by rewrite Hk.
Qed.

Lemma confined_rebind f err r : r ∈ Cluster.clusterRoles → confined (Cluster.rebind c f err r).
Proof.
  intros Hr. unfold Cluster.rebind. apply evolves_Get_bind; [exact _| |].
  - intros b Hk. host. by apply confined_Update, (binding_reach r).
  - intros e. host.
Qed.

Lemma confined_bindings f : confined (x ← fold_m (Cluster.rebind c f) Cluster.clusterRoles None; ret_err x).
Proof.
  unfold Cluster.clusterRoles. cbn [fold_m]. host;
    (apply confined_rebind, (bool_decide_unpack _); vm_compute; exact I).
Qed.

Lemma confined_bindClusterRoles cluster : confined (Cluster.bindClusterRoles c cluster).
Proof. apply confined_bindings. Qed.

Lemma confined_unbindClusterRoles cluster : confined (Cluster.unbindClusterRoles c cluster).
Proof. apply confined_bindings. Qed.

Lemma confined_lookupServiceCIDR : confined (Cluster.lookupServiceCIDR c).
Proof.
  assert (confined (Cluster.lookup_from_pod c)) by (unfold Cluster.lookup_from_pod; host).
  unfold Cluster.lookupServiceCIDR, Cluster.lookup_from_failure. host; try done.
  all: apply confined_Create; do 3 right; by left.
Qed.

Lemma confined_ensureBootstrapSecret cluster ip token :
  Namespace (cl_Meta cluster) = ns → confined (Cluster.ensureBootstrapSecret c cluster ip token).
Proof.
  intros Hns. unfold Cluster.ensureBootstrapSecret, Bootstrap.SaveToSecret. host. apply confined_Fetch.
Qed.

Lemma confined_ensureKubeconfigSecret cluster ip :
  Namespace (cl_Meta cluster) = ns →
  confined (Cluster.ensureKubeconfigSecret c clientcmd_Write cluster ip).
Proof. intros Hns. unfold Cluster.ensureKubeconfigSecret. host. apply confined_Generate. Qed.

Lemma confined_hostNodeIPs cluster : confined (Hcp.hostNodeIPs c cluster).
Proof. unfold Hcp.hostNodeIPs. host. Qed.

Lemma confined_hcpEndpointAddresses cluster : confined (Hcp.hcpEndpointAddresses c LookupIPAddr cluster).
Proof.
  unfold Hcp.hcpEndpointAddresses, Hcp.hcpEndpointAddress, Hcp.serverNodeIPs, Hcp.listServerPods, Hcp.collect_node.
  host; first [apply confined_URL|by apply confined_silent].
Qed.

(** The client of a virtual cluster, once it is made. *)
Lemma newVirtualClient_foreign n m w vc w' :
  Virtual.newVirtualClient c RESTConfigFromKubeConfig ctrlruntimeclient_New n m w = (Ok vc, w') →
  Foreign c vc.
Proof.
  unfold Virtual.newVirtualClient. intros E. inv_ok. unfold lift in E. injection E as E _.
  by eapply Hforeign.
Qed.

Lemma virtual_client_foreign prefix cluster w vc w' :
  Hcp.virtual_client c RESTConfigFromKubeConfig ctrlruntimeclient_New prefix cluster w = (Ok vc, w') →
  Foreign c vc.
Proof.
  unfold Hcp.virtual_client. intros E. inv_ok. destruct x as [vc'|e]; [|done].
  injection E as -> ->. by eapply newVirtualClient_foreign.
Qed.

Lemma confined_virtual_client prefix cluster :
  confined (Hcp.virtual_client c RESTConfigFromKubeConfig ctrlruntimeclient_New prefix cluster).
Proof. unfold Hcp.virtual_client. host. apply confined_newVirtualClient. Qed.

Lemma confined_EndpointSlice cluster :
  confined (Hcp.ensureHCPKubernetesEndpointSlice c RESTConfigFromKubeConfig ctrlruntimeclient_New
              LookupIPAddr cluster).
Proof.
  unfold Hcp.ensureHCPKubernetesEndpointSlice.
  apply evolves_bind; [exact _|apply confined_hcpEndpointAddresses|]. intros [ips port].
  apply evolves_bind_run; [exact _|apply confined_virtual_client|].
  intros vc w w' E%virtual_client_foreign. unfold Hcp.upserted. host. by apply foreign_upsert.
Qed.

Lemma confined_Endpoints cluster :
  confined (Hcp.ensureHCPKubernetesEndpoints c RESTConfigFromKubeConfig ctrlruntimeclient_New
              LookupIPAddr cluster).
Proof.
  unfold Hcp.ensureHCPKubernetesEndpoints.
  apply evolves_bind; [exact _|apply confined_hcpEndpointAddresses|]. intros [ips port].
  apply evolves_bind_run; [exact _|apply confined_virtual_client|].
  intros vc w w' E%virtual_client_foreign. unfold Hcp.upserted. host. by apply foreign_upsert.
Qed.

Lemma wrap_inv {A} prefix (m : M W A) w a w' : Cluster.wrap prefix m w = (Ok a, w') → m w = (Ok a, w').
Proof. unfold Cluster.wrap. intros E. inv_ok. destruct x as [vc'|e]; [|done]. by injection E as -> ->. Qed.

Lemma confined_wrap {A} prefix (m : M W A) : confined m → confined (Cluster.wrap prefix m).
Proof. intros Hm. unfold Cluster.wrap. host. Qed.

Lemma confined_ensureStorageClasses cluster :
  confined (Cluster.ensureStorageClasses c RESTConfigFromKubeConfig ctrlruntimeclient_New cluster).
Proof.
  unfold Cluster.ensureStorageClasses.
  apply evolves_bind_run; [exact _|apply confined_wrap, confined_newVirtualClient|].
  intros vc w w' E%wrap_inv%newVirtualClient_foreign.
  assert (confined (ignore_not_found (DeleteAllOf vc StorageClass Cluster.synced_label))).
  { host. by apply foreign_DeleteAllOf_. }
  destruct (Cluster.appliedSync cluster) as [sync|]; [|done]. case_match; [done|].
  apply evolves_bind; [exact _|apply confined_wrap; host|intros l].
  apply evolves_bind; [exact _|by apply confined_wrap, foreign_List_|intros l'].
  apply evolves_bind; [exact _| |intros err; host].
  unfold Cluster.syncStorageClasses, Cluster.join_error. host;
    first [by apply foreign_Delete_|by apply foreign_upsert].
Qed.

(** ** The computations on the state of the reconciler *)

(** The cluster keeps its key, the allocator keeps its ConfigMap, and the host
    is changed within reach. *)
Context (me : string).
Definition placed (s : Cluster.State (W:=W)) : Prop :=
  (Namespace (cl_Meta s.1) = ns ∧ Name (cl_Meta s.1) = me) ∧ key_of (cm_Meta s.2.1) = K.
Definition within (s s' : Cluster.State) : Prop :=
  placed s → placed s' ∧ per_key (only (reach ns K own)) (store s.2.2) (store s'.2.2).

#[local] Instance within_preorder : PreOrder within.
Proof using.
  split.
  - intros s Hs. split; [done|]. reflexivity.
  - intros s1 s2 s3 H12 H23 Hs. destruct (H12 Hs) as [Hs2 HR]. destruct (H23 Hs2) as [Hs3 HR']. split; [done|].
    etrans; [exact HR|exact HR'].
Qed.

Abbreviation steps := (stable within).

Lemma steps_get {A} (f : Cluster → Cluster.CM A) :
  (∀ cluster, Namespace (cl_Meta cluster) = ns → Name (cl_Meta cluster) = me → steps (f cluster)) →
  steps (cluster ← Cluster.get_cluster; f cluster).
Proof. intros Hf s r s' E Hs. destruct Hs as [[] ?] eqn:?. by apply (Hf s.1 ltac:(done) ltac:(done) s r s' E). Qed.

Lemma steps_api {A} (m : M W A) : confined m → steps (Cluster.api m).
Proof.
  intros Hm [cl [cm w]] r s' E [Hp Hk]. unfold Cluster.api in E. cbn [fst snd] in *.
  destruct (m w) as [r1 w1] eqn:E1. injection E as <- <-. split; [done|]. exact (Hm _ _ _ E1).
Qed.

Lemma steps_on_cluster {A} (f : Cluster → M W A) :
  (∀ cluster, Namespace (cl_Meta cluster) = ns → confined (f cluster)) → steps (Cluster.on_cluster f).
Proof. intros Hf. apply steps_get. intros cluster Hc _. by apply steps_api, Hf. Qed.

Lemma steps_put cl :
  Namespace (cl_Meta cl) = ns → Name (cl_Meta cl) = me → steps (Cluster.put_cluster cl).
Proof. intros Hc Hn s r s' [= <- <-] [Hp Hk]. split; [done|]. reflexivity. Qed.

Lemma steps_assign f : steps (Cluster.assign f).
Proof. intros s r s' [= <- <-] [Hp Hk]. split; [done|]. reflexivity. Qed.

Abbreviation held := (held c K (reach ns K own)).
#[local] Instance held_preorder_ : PreOrder held := held_preorder c K (reach ns K own).
Lemma reach_ports : reach ns K own ("ConfigMap", K).
Proof. do 2 right. by left. Qed.

Lemma steps_allocator {A} (m : Ports.PM A) : stable held m → steps (Cluster.allocator m).
Proof.
  intros Hm [cl p] r s' E [Hp Hk]. unfold Cluster.allocator in E. cbn [fst snd] in *.
  destruct (m p) as [r1 p1] eqn:E1. injection E as <- <-. cbn.
  destruct (Hm _ _ _ E1 Hk). unfold placed. auto.
Qed.

(** *** The reconciliation of one cluster *)
Context `{PL : PortLib}.

Ltac steps_step :=
  match goal with
  | |- stable _ (mbind _ Cluster.get_cluster) => apply steps_get; intros
  | |- stable _ (Cluster.on_cluster _) => apply steps_on_cluster; intros
  | |- stable _ (Cluster.api _) => apply steps_api
  | |- stable _ (Cluster.assign _) => apply steps_assign
  | |- stable _ (Cluster.put_cluster _) => apply steps_put
  | _ => stable_step
  end.
Ltac march := repeat steps_step.

Lemma Config_cluster cluster token init service sans :
  cl_Meta (Expose.Config yaml_MarshalServer cluster token init service sans).2 = cl_Meta cluster.
Proof. done. Qed.

Lemma Config_secret cluster token init service sans secret :
  (Expose.Config yaml_MarshalServer cluster token init service sans).1 = Ok secret →
  Namespace (sec_Meta secret) = Namespace (cl_Meta cluster).
Proof. cbn. destruct (yaml_MarshalServer _); cbn; [|done..]. by intros [= <-]. Qed.

Lemma steps_ensureServerConfig token init service sans :
  steps (Cluster.ensureServerConfig c yaml_MarshalServer token init service sans).
Proof.
  unfold Cluster.ensureServerConfig. apply steps_get. intros cluster Hns Hme.
  pose proof (Config_cluster cluster token init service sans) as Hm.
  pose proof (Config_secret cluster token init service sans) as Hsec.
  destruct (Expose.Config _ _ _ _ _ _) as [secret cluster']. cbn in Hm, Hsec.
  apply stable_bind; [exact _|apply steps_put; congruence|intros _].
  apply stable_bind_lift; [exact _|]. intros x ->. specialize (Hsec _ eq_refl). march.
  apply confined_upsert; [done|]. cbn. congruence.
Qed.

Lemma steps_ensureAgent ip token :
  steps (Cluster.ensureAgent c cfg shared_yaml virtual_yaml cryptorand_Read ip token).
Proof.
  unfold Cluster.ensureAgent. march;
    first [by apply confined_virtual|by apply confined_shared|by apply steps_allocator, held_allocate, reach_ports].
Qed.

Lemma steps_provision token :
  steps (Cluster.provision c cfg yaml_MarshalServer shared_yaml virtual_yaml cryptorand_Read
           RESTConfigFromKubeConfig ctrlruntimeclient_New LookupIPAddr clientcmd_Write token).
Proof.
  unfold Cluster.provision, Cluster.ensureClusterConfigs. march;
    first [by apply confined_ensureNetworkPolicy|by apply confined_ensureClusterService
          |apply confined_hostNodeIPs|apply steps_ensureServerConfig|by apply confined_server
          |apply steps_ensureAgent|by apply confined_ensureIngress|by apply confined_ensureBootstrapSecret
          |apply confined_bindClusterRoles|by apply confined_ensureKubeconfigSecret
          |apply confined_EndpointSlice|apply confined_Endpoints|apply confined_ensureStorageClasses].
Qed.

Abbreviation reconcile_ :=
  (Cluster.reconcile c cfg yaml_MarshalServer shared_yaml virtual_yaml rand_Read cryptorand_Read
     RESTConfigFromKubeConfig ctrlruntimeclient_New LookupIPAddr clientcmd_Write ServerVersion).

Lemma steps_reconcile : steps reconcile_.
Proof.
  unfold Cluster.reconcile, Cluster.set_provider_label, Cluster.boundPolicy, Cluster.ensureHostVersion,
    Cluster.assignCIDRs. march;
    first [done|host; done|by apply confined_silent|by apply confined_token|apply confined_lookupServiceCIDR
          |apply steps_provision|host].
Qed.

Lemma updateStatus_meta cluster err : cl_Meta (Cluster.updateStatus cluster err).1 = cl_Meta cluster.
Proof. unfold Cluster.updateStatus. repeat case_match; done. Qed.

Lemma steps_reconcileCluster :
  steps (Cluster.reconcileCluster c cfg yaml_MarshalServer shared_yaml virtual_yaml rand_Read
     cryptorand_Read RESTConfigFromKubeConfig ctrlruntimeclient_New LookupIPAddr clientcmd_Write
     ServerVersion).
Proof.
  unfold Cluster.reconcileCluster. apply stable_bind; [exact _|apply stable_attempt, steps_reconcile|].
  intros r. march; by rewrite updateStatus_meta.
Qed.

(** *** The reconciler *)
Lemma held_lift_world {A} (m : M W A) : confined m → stable held (Cluster.lift_world m).
Proof.
  intros Hm [cm w] r s' E HK. unfold Cluster.lift_world in E. cbn [fst snd] in *.
  destruct (m w) as [r1 w1] eqn:E1. injection E as <- <-. split; [done|]. exact (Hm _ _ _ E1).
Qed.

Lemma lift_world_ok {A} (m : M W A) s a s' :
  Cluster.lift_world m s = (Ok a, s') → m s.2 = (Ok a, s'.2).
Proof using. unfold Cluster.lift_world. destruct (m s.2) as [r1 w1]. by intros [= -> <-]. Qed.

Lemma run_on_within cluster m s r s' :
  steps m → Namespace (cl_Meta cluster) = ns → Name (cl_Meta cluster) = me → key_of (cm_Meta s.1) = K →
  Cluster.run_on cluster m s = (r, s') →
  (key_of (cm_Meta s'.1) = K ∧ per_key (only (reach ns K own)) (store s.2) (store s'.2)) ∧
  match r with Ok (_, cl) => Namespace (cl_Meta cl) = ns ∧ Name (cl_Meta cl) = me | _ => True end.
Proof.
  intros Hm Hns Hme HK E. unfold Cluster.run_on in E.
  destruct (attempt m (cluster, s)) as [r1 [cl1 s1]] eqn:E1.
  destruct (stable_attempt _ _ Hm _ _ _ E1) as [[[? ?] ?] ?]; [done|]. cbn in *.
  destruct r1; injection E as <- <-; auto.
Qed.

Context (Hown : own = Some {| nn_Namespace := ns; nn_Name := me |}).

Lemma own_reach (x : Cluster) :
  Namespace (cl_Meta x) = ns → Name (cl_Meta x) = me → reach ns K own (obj_key (inj x)).
Proof. intros Hns Hme. do 4 right. eexists. split; [exact Hown|]. by rewrite <- Hns, <- Hme. Qed.
Lemma confined_cluster_update (x : Cluster) :
  Namespace (cl_Meta x) = ns → Name (cl_Meta x) = me → confined (Update c x).
Proof. intros Hns Hme. by apply confined_Update, own_reach. Qed.
Lemma confined_cluster_status (x : Cluster) :
  Namespace (cl_Meta x) = ns → Name (cl_Meta x) = me → confined (StatusUpdate c x).
Proof. intros Hns Hme. by apply confined_StatusUpdate, own_reach. Qed.

Lemma held_finalizeCluster cluster :
  Namespace (cl_Meta cluster) = ns → Name (cl_Meta cluster) = me →
  stable held (Cluster.finalizeCluster c cluster).
Proof.
  intros Hns Hme. unfold Cluster.finalizeCluster.
  change (@Cluster.world W) with (@Cluster.lift_world W unit).
  apply stable_bind; [exact _|apply held_lift_world, confined_unbindClusterRoles|intros _].
  apply stable_bind; [exact _|walk; by apply held_deallocate, reach_ports|intros _].
  apply stable_bind; [exact _|apply held_lift_world; host|intros _].
  pose proof (RemoveFinalizer_law (cl_Meta cluster) Cluster.clusterFinalizerName) as HR. cbn [cl_Meta] in *.
  assert (∀ m b, RemoveFinalizer (cl_Meta cluster) Cluster.clusterFinalizerName = (m, b) →
            Namespace m = ns ∧ Name m = me) as Hm.
  { rewrite HR. intros m b. case_decide; by intros [= <- _]. }
  cbn. destruct (RemoveFinalizer _ _) as [m b]. destruct (Hm m b eq_refl). walk.
  apply held_lift_world. host. by apply confined_cluster_update.
Qed.

Abbreviation Reconcile_ :=
  (Cluster.Reconcile c cfg yaml_MarshalServer shared_yaml virtual_yaml rand_Read cryptorand_Read
     RESTConfigFromKubeConfig ctrlruntimeclient_New LookupIPAddr clientcmd_Write ServerVersion).

Lemma held_Reconcile req :
  req = {| nn_Namespace := ns; nn_Name := me |} → stable held (Reconcile_ req).
Proof.
  intros ->. unfold Cluster.Reconcile.
  apply stable_bind_run; [exact _|apply stable_attempt, held_lift_world; host|].
  intros [cluster|e] s s1 E; [|walk]. apply attempt_inv, lift_world_ok, (Get_run c) in E as (_ & _ & _ & Hk).
  injection Hk as Hns Hme.
  destruct (is_deleting (cl_Meta cluster)); [by apply held_finalizeCluster|].
  case_decide.
  { apply stable_bind; [exact _| |intros; walk]. by apply held_lift_world, confined_cluster_status. }
  assert (∀ m b, AddFinalizer (cl_Meta cluster) Cluster.clusterFinalizerName = (m, b) →
            Namespace m = ns ∧ Name m = me) as Hm.
  { rewrite AddFinalizer_law. intros m b. case_decide; by intros [= <- _]. }
  destruct (AddFinalizer _ _) as [m b]. destruct (Hm m b eq_refl) as [Hns' Hme']. destruct b.
  { apply stable_bind; [exact _| |intros; walk]. by apply held_lift_world, confined_cluster_update. }
  intros s2 r2 s3 E2 HK. unfold mbind at 1, M_bind at 1 in E2.
  destruct (Cluster.run_on _ _ s2) as [r4 s4] eqn:E4.
  apply run_on_within in E4 as [[HK4 HR] Hcl4]; [|apply steps_reconcileCluster|done..].
  cut (key_of (cm_Meta s3.1) = K ∧ per_key (only (reach ns K own)) (store s4.2) (store s3.2)).
  { intros [? ?]. split; [done|]. etrans; [exact HR|done]. }
  destruct r4 as [[res cl]|e|]; [|injection E2 as <- <-; split; [done|reflexivity]..].
  destruct Hcl4 as [Hns4 Hme4].
  clear HR. revert s4 r2 s3 E2 HK4. apply (stable_bind_run held).
  - walk. by apply held_lift_world, confined_cluster_status.
  - intros cl' s4 s5 E5.
    assert (Namespace (cl_Meta cl') = ns ∧ Name (cl_Meta cl') = me) as [Hcl' Hme''].
    { case_match; [|by injection E5 as -> _].
      apply lift_world_ok, (StatusUpdate_run c) in E5 as (_ & old & Hold & Hy & _).
      apply store_keys in Hold. apply (f_equal obj_key) in Hy. rewrite obj_with_status_key, Hold in Hy.
      cbn in Hy. injection Hy; cbn; split; congruence. }
    walk; by apply held_lift_world, confined_cluster_update.
Qed.

(** C3: The tenants are isolated: a reconciliation of a cluster, whatever calls fail
    on the way and whatever it ends with, provisioning, finalization and the
    panics included, changes nothing in the host cluster but the cluster
    itself, objects of its namespace that are no clusters, the two shared role
    bindings, the ConfigMap of the ports and the Service that is created to
    fail. *)
Theorem Reconcile_isolated req cm w r cm' w' i :
  req = {| nn_Namespace := ns; nn_Name := me |} → K = key_of (cm_Meta cm) →
  Reconcile_ req (cm, w) = (r, (cm', w')) → ¬ reach ns K own i →
  store w' !! i = store w !! i ∧ key_of (cm_Meta cm') = K.
Proof.
  intros Hreq HK E Hi. apply held_Reconcile in E; [|done]. destruct E as [HK' HR]; [done|]. cbn in *.
  split; [|done]. by destruct (HR i).
Qed.
End Isolation.

(** In the concrete environment, the secret of another tenant stays. *)
Lemma Reconcile_isolated_witness :
  ∃ r s', Cluster.lab_Reconcile Lab.tenant_key Lab.start = (r, s') ∧
    mem_objects s'.2.1 !! obj_key Lab.other_secret = Some Lab.other_secret.
Proof.
  assert (mem_objects Lab.start.2.1 !! obj_key Lab.other_secret = Some Lab.other_secret) as Hs
    by (vm_compute; reflexivity).
  assert (key_of (cm_Meta Lab.start.1) = key_of (cm_Meta Lab.ports)) as Hk by reflexivity.
  revert Hs Hk. generalize Lab.start. intros [cm w] Hs Hk.
  destruct (Cluster.lab_Reconcile Lab.tenant_key (cm, w)) as [r [cm' w']] eqn:E.
  exists r, (cm', w'). split; [reflexivity|]. cbn [fst snd] in *. rewrite <- Hs.
  refine (proj1 (Reconcile_isolated Lab.host "team" (key_of (cm_Meta Lab.ports)) (Some Lab.tenant_key) Lab.lab_transport_silent
            _ _ Lab.rand_Read _ Lab.cryptorand_Read _ _ Lab.RESTConfigFromKubeConfig
            Lab.newClient Lab.newClient_foreign Lab.LookupIPAddr _ Lab.ServerVersion _ _ _ _
            "dev" eq_refl Lab.tenant_key cm w r cm' w' (obj_key Lab.other_secret) eq_refl (eq_sym Hk) E _)).
  all: try (intros; apply Lab.mret_silent).
  intros [[H _]|[[x [_ H]]|[H|[H|[x [_ H]]]]]]; vm_compute in H; discriminate.
Defined.
End Isolation.
