(* ===== verification/Lifecycle.v ===== *)
(** * The life of a cluster

    The validation, the phases, the stages of the reconciler, the role
    bindings and the finalization of a cluster: what Cluster.v promises. *)

From S2P Require Import Prelude GoStd GoNet K8s Types Kube Effects Names Translate K3s Ports Expose.
From S2P Require Import Server Access Agent Hcp Policy Lab Cluster Isolation.

Local Open Scope string_scope.

Module Lifecycle.

#[local] Existing Instances Lab.lab_transport Lab.lab_codec Lab.lab_exec Lab.lab_certs Lab.fst_laws Lab.snd_laws Lab.fst_keeps
  Ports.toy_ports.
#[local] Set Default Proof Using "Type*".

(** ** Validation *)

(** What a cluster must satisfy under the policy of its namespace, if any. *)
Record acceptable (cluster : Cluster) (policy : option VirtualClusterPolicy) : Prop := {
  acc_name : Name (cl_Meta cluster) ≠ "system";
  acc_mode p : policy = Some p → Mode (cl_Spec cluster) = AllowedMode (vcp_Spec p);
  acc_CAs cas : CustomCAs_ (cl_Spec cluster) = Some cas → ca_Enabled cas = true →
    Forall (λ s, cs_SecretName s ≠ "")
      (let s := ca_Sources cas in
       [ClientCA s; ServerCA s; EtcdPeerCA s; EtcdServerCA s; RequestHeaderCA s; ServiceAccountToken s]);
  acc_ingress : Cluster.is_ingress_exposed cluster = true →
    ∃ san, san ∈ TLSSANs (cl_Spec cluster) ∧ ParseIP san = None;
}.

Lemma validateCustomCACerts_spec s :
  Cluster.validateCustomCACerts s = None ↔
  Forall (λ s, cs_SecretName s ≠ "")
    [ClientCA s; ServerCA s; EtcdPeerCA s; EtcdServerCA s; RequestHeaderCA s; ServiceAccountToken s].
Proof.
  unfold Cluster.validateCustomCACerts. rewrite !Forall_cons. case_match eqn:E.
  - split; [done|]. rewrite !orb_true_iff, !bool_decide_eq_true in E.
    intros (?&?&?&?&?&?&?). tauto.
  - rewrite !orb_false_iff, !bool_decide_eq_false in E. split; [|done]. intros _.
    destruct E as [[[[[]]]]]. by split_and!.
Qed.

Lemma FilterDNSNames_nil l : Names.FilterDNSNames l = [] ↔ ∀ san, san ∈ l → ParseIP san ≠ None.
Proof.
  unfold Names.FilterDNSNames, slices_DeleteFunc. induction l as [|x l IH]; cbn.
  - split; [|done]. intros _ san Hs. by apply elem_of_nil in Hs.
  - setoid_rewrite elem_of_cons. destruct (ParseIP x) as [ip|] eqn:E; cbn.
    + rewrite IH. naive_solver congruence.
    + split; [done|]. intros Hx. by destruct (Hx x (or_introl eq_refl)).
Qed.

(** C15: A cluster is accepted exactly when it satisfies its rules: its name is not
    "system" (the namespace may be: the comment of the constant says otherwise),
    its mode is the one of the policy, if any, every custom CA names its secret,
    and an ingress has a DNS name among the SANs.  A rejection is a validation
    error, whatever it wraps, and the validation never panics. *)
Theorem validate_spec cluster policy :
  match Cluster.validate cluster policy with
  | Ok _ => acceptable cluster policy
  | Err e => ¬ acceptable cluster policy ∧ errors_is "ErrClusterValidation" e = true
  | Panic => False
  end.
Proof.
  unfold Cluster.validate, Cluster.invalid. case_decide as Hn; cbn [mbind outcome_bind].
  { split; [|done]. by intros []. }
  destruct (match policy with Some p => _ | None => _ end) as [[]|e|] eqn:Emode.
  2:{ destruct policy as [p|]; [case_decide|]; simplify_eq. split; [|done]. intros []. naive_solver. }
  2:{ destruct policy; [case_decide|]; done. }
  destruct (match CustomCAs_ (cl_Spec cluster) with Some cas => _ | None => _ end) as [[]|e|] eqn:ECA.
  2:{ destruct (CustomCAs_ _) as [cas|] eqn:Hcas; [|done]. destruct (ca_Enabled cas) eqn:Hen; [|done].
      destruct (Cluster.validateCustomCACerts _) eqn:Hv; [|done]. simplify_eq. split; [|done].
      intros Hacc. pose proof (acc_CAs _ _ Hacc cas Hcas Hen) as HC.
      apply validateCustomCACerts_spec in HC. congruence. }
  2:{ repeat case_match; done. }
  assert (∀ p, policy = Some p → Mode (cl_Spec cluster) = AllowedMode (vcp_Spec p)) as Hmode.
  { intros p ->. by case_decide. }
  assert (∀ cas, CustomCAs_ (cl_Spec cluster) = Some cas → ca_Enabled cas = true →
            Cluster.validateCustomCACerts (ca_Sources cas) = None) as HCA.
  { intros cas Hcas Hen. rewrite Hcas, Hen in ECA. by case_match. }
  setoid_rewrite validateCustomCACerts_spec in HCA.
  assert (match Expose (cl_Spec cluster) with
          | Some {| exp_Ingress := Some _ |} => Cluster.is_ingress_exposed cluster = true
          | _ => Cluster.is_ingress_exposed cluster = false
          end) as Hing by (unfold Cluster.is_ingress_exposed; repeat case_match; done).
  destruct (Expose (cl_Spec cluster)) as [[[ing|] lb np an]|]; cbn [mbind outcome_bind].
  2,3: split; [done..|congruence].
  case_decide as Hf; [split; [|done]|].
  - intros Hacc. destruct (acc_ingress _ _ Hacc Hing) as (san & Hin & Hp).
    by destruct (proj1 (FilterDNSNames_nil _) Hf san Hin).
  - split; [done..|]. intros _. destruct (decide (Exists (λ san, ParseIP san = None) (TLSSANs (cl_Spec cluster))))
      as [He|He]; [by apply Exists_exists in He|].
    destruct Hf. apply FilterDNSNames_nil. intros san Hin Hp. apply He, Exists_exists. eauto.
Qed.

(** ** The phases *)

(** The phase that the outcome of a reconciliation calls for. *)
Definition phase_of (err : option error) : ClusterPhase :=
  match err with
  | None => ClusterReady
  | Some e => if errors_is "ErrClusterValidation" e then ClusterPending
              else if errors_is "ErrServerNotReady" e then ClusterProvisioning
              else ClusterFailed
  end.

(** The Ready condition of the cluster says whether the reconciliation
    succeeded, and why not. *)
Definition condition_tells (cluster : Cluster) (err : option error) : Prop :=
  ∃ cond, find_condition (st_Conditions (cl_Status cluster)) "Ready" = Some cond ∧
    match err with
    | None => cond_Status cond = "True"
    | Some e => cond_Status cond = "False" ∧ cond_Message cond = error_text e
    end.

Section Phases.
Context `{KubeUtilLaws}.

Lemma set_phase_tells phase cond cluster :
  cond_Type cond = "Ready" →
  st_Phase (cl_Status (Cluster.set_phase phase cond cluster)) = phase ∧
  find_condition (st_Conditions (cl_Status (Cluster.set_phase phase cond cluster))) "Ready" = Some cond.
Proof. intros Ht. split; [done|]. cbn. rewrite <- Ht. apply SetStatusCondition_same. Qed.

Lemma updateStatus_run cluster err :
  is_deleting (cl_Meta cluster) = false →
  st_Phase (cl_Status (Cluster.updateStatus cluster err).1) = phase_of err ∧
  condition_tells (Cluster.updateStatus cluster err).1 err.
Proof.
  intros Hd. unfold Cluster.updateStatus, phase_of. rewrite Hd.
  destruct err as [e|]; repeat case_match; (split; [done|]); eexists;
    (split; [by apply (set_phase_tells _ (Cluster.ready_condition _ _ _))|done]).
Qed.

(** An event says that a cluster became ready once, when its condition was not
    already true, and every failure that needs a look at the cluster (all but a
    server that is not up yet) is reported. *)
Theorem updateStatus_events cluster err :
  is_deleting (cl_Meta cluster) = false →
  let '(cluster', events) := Cluster.updateStatus cluster err in
  st_Phase (cl_Status cluster') = phase_of err ∧ condition_tells cluster' err ∧
  cl_Spec cluster' = cl_Spec cluster ∧ cl_Meta cluster' = cl_Meta cluster ∧
  (err = None → events = [] ↔ condition_tells cluster None) ∧
  (∀ e, err = Some e → events = [] ↔ phase_of err = ClusterProvisioning) ∧
  (err = None → (Cluster.updateStatus cluster' None).2 = []).
Proof.
  intros Hd. pose proof (updateStatus_run cluster err Hd) as [Hp Hc].
  pose proof (IsStatusConditionPresentAndEqual_law (st_Conditions (cl_Status cluster)) "Ready" "True") as Heq.
  destruct (Cluster.updateStatus cluster err) as [cluster' events] eqn:E. cbn [fst] in *.
  assert (cl_Spec cluster' = cl_Spec cluster ∧ cl_Meta cluster' = cl_Meta cluster) as [HS HM].
  { unfold Cluster.updateStatus in E. rewrite Hd in E. by repeat case_match; simplify_eq. }
  split_and!; [done..| | |].
  - intros ->. unfold Cluster.updateStatus in E. rewrite Hd in E. injection E as _ <-.
    change (Cluster.ConditionReady) with "Ready". change ConditionTrue with "True". unfold condition_tells.
    destruct (IsStatusConditionPresentAndEqual _ _ _); cbn; [naive_solver|]. split; [done|].
    intros Hx. by apply Heq in Hx.
  - intros e ->. unfold Cluster.updateStatus in E. rewrite Hd in E. unfold phase_of.
    destruct (errors_is "ErrClusterValidation" e); [by injection E as _ <-|].
    by destruct (errors_is "ErrServerNotReady" e); injection E as _ <-.
  - intros ->. unfold Cluster.updateStatus. rewrite HM, Hd. cbn.
    destruct Hc as (cond & Hf & Hs). by rewrite (proj2 (IsStatusConditionPresentAndEqual_law _ _ _))
      by (exists cond; auto).
Qed.
End Phases.

(** ** The reconciler *)
Section Reconciler.
Context {W : Type} (c : Client W) `{KubeUtilLaws} `{PL : PortLib} `{K3s.Transport W} `{K3s.Codec} `{K3s.ExecLib W}.
Context {Cert Key : Type} `{Kubeconfig.CertUtil W Cert Key}.
Context (cfg : Cluster.Config).
Context (yaml_MarshalServer : Expose.serverConfig → outcome string).
Context (yaml_MarshalShared : Agent.sharedAgentConfig → outcome string).
Context (yaml_MarshalVirtual : Agent.virtualAgentConfig → outcome string).
Context (rand_Read : nat → M W string) (cryptorand_Read : M W string).
Context {RestConfig : Type} (RESTConfigFromKubeConfig : string → outcome RestConfig).
Context (ctrlruntimeclient_New : RestConfig → outcome (Client W)).
Context (LookupIPAddr : string → M W (list IP)).
Context (clientcmd_Write : Kubeconfig.ApiConfig → outcome string) (ServerVersion : M W string).

Abbreviation reconcile :=
  (Cluster.reconcile c cfg yaml_MarshalServer yaml_MarshalShared yaml_MarshalVirtual rand_Read
     cryptorand_Read RESTConfigFromKubeConfig ctrlruntimeclient_New LookupIPAddr clientcmd_Write
     ServerVersion).
Abbreviation reconcileCluster :=
  (Cluster.reconcileCluster c cfg yaml_MarshalServer yaml_MarshalShared yaml_MarshalVirtual rand_Read
     cryptorand_Read RESTConfigFromKubeConfig ctrlruntimeclient_New LookupIPAddr clientcmd_Write
     ServerVersion).
Abbreviation Reconcile :=
  (Cluster.Reconcile c cfg yaml_MarshalServer yaml_MarshalShared yaml_MarshalVirtual rand_Read
     cryptorand_Read RESTConfigFromKubeConfig ctrlruntimeclient_New LookupIPAddr clientcmd_Write
     ServerVersion).

(** The steps assign to the status and to the labels of the cluster only. *)
Definition same_object (s s' : Cluster.State (W:=W)) : Prop :=
  cl_Spec s'.1 = cl_Spec s.1 ∧ key_of (cl_Meta s'.1) = key_of (cl_Meta s.1) ∧
  UID (cl_Meta s'.1) = UID (cl_Meta s.1) ∧
  Finalizers (cl_Meta s'.1) = Finalizers (cl_Meta s.1) ∧
  DeletionTimestamp (cl_Meta s'.1) = DeletionTimestamp (cl_Meta s.1).

#[local] Instance same_object_preorder : PreOrder same_object.
Proof using.
  split; [by intros s|]. intros s1 s2 s3 (?&?&?&?&?) (?&?&?&?&?). unfold same_object. split_and!; congruence.
Qed.

Lemma same_get {A} (f : Cluster → Cluster.CM A) :
  (∀ cluster : Cluster, stable (λ s s', s.1 = cluster → same_object s s') (f cluster)) →
  stable same_object (cluster ← Cluster.get_cluster; f cluster).
Proof. intros Hf s r s' E. by apply (Hf s.1 s r s' E). Qed.

Lemma same_api {A} (m : M W A) : stable same_object (Cluster.api m).
Proof.
  intros [cl [cm w]] r s' E. unfold Cluster.api in E. cbn [fst snd] in *. destruct (m w).
  by injection E as <- <-.
Qed.

Lemma same_on_cluster {A} (f : Cluster → M W A) : stable same_object (Cluster.on_cluster f).
Proof. apply same_get. intros cluster s r s' E _. exact (same_api _ _ _ _ E). Qed.

Lemma same_allocator {A} (m : Ports.PM A) : stable same_object (Cluster.allocator m).
Proof.
  intros [cl p] r s' E. unfold Cluster.allocator in E. cbn [fst snd] in *. destruct (m p).
  by injection E as <- <-.
Qed.

Lemma same_assign f : stable same_object (Cluster.assign (W:=W) f).
Proof. by intros s r s' [= <- <-]. Qed.

(** Where the cluster that was read is put back with changes. *)
Lemma same_put (cl cluster : Cluster) {A} (m : Cluster.CM A) :
  cl_Spec cl = cl_Spec cluster → key_of (cl_Meta cl) = key_of (cl_Meta cluster) →
  UID (cl_Meta cl) = UID (cl_Meta cluster) → Finalizers (cl_Meta cl) = Finalizers (cl_Meta cluster) →
  DeletionTimestamp (cl_Meta cl) = DeletionTimestamp (cl_Meta cluster) → stable same_object m →
  stable (λ s s', s.1 = cluster → same_object s s') (Cluster.put_cluster cl ;; m).
Proof.
  intros ????? Hm s r s' E <-. etrans; [|exact (Hm (cl, s.2) r s' E)].
  unfold same_object. auto.
Qed.

Lemma same_read {A} (m : Cluster.CM A) :
  stable same_object m → ∀ cluster, stable (λ s s', s.1 = cluster → same_object s s') m.
Proof. intros Hm cluster s r s' E _. exact (Hm _ _ _ E). Qed.

Ltac same_step :=
  match goal with
  | |- stable _ (mbind _ Cluster.get_cluster) => apply same_get; intros; apply same_read
  | |- stable _ (mbind _ _) => apply stable_bind; [exact _| |intros ?]
  | |- stable _ (if ?b then _ else _) => destruct b eqn:?
  | |- stable _ (match ?x with _ => _ end) => destruct x eqn:?
  | |- stable _ (attempt _) => apply stable_attempt
  | |- stable _ (mret _) => apply stable_mret; exact _
  | |- stable _ (fail _) => apply stable_fail; exact _
  | |- stable _ (lift _) => apply stable_lift; exact _
  | |- stable _ (Cluster.api _) => apply same_api
  | |- stable _ (Cluster.on_cluster _) => apply same_on_cluster
  | |- stable _ (Cluster.allocator _) => apply same_allocator
  | |- stable _ (Cluster.assign _) => apply same_assign
  end.
Ltac same := repeat same_step.

Lemma same_ensureServerConfig token init service sans :
  stable same_object (Cluster.ensureServerConfig c yaml_MarshalServer token init service sans).
Proof.
  unfold Cluster.ensureServerConfig. apply same_get. intros cluster.
  assert (let cl := (Expose.Config yaml_MarshalServer cluster token init service sans).2 in
          cl_Spec cl = cl_Spec cluster ∧ cl_Meta cl = cl_Meta cluster) as [HS HM] by done.
  destruct (Expose.Config _ _ _ _ _ _) as [secret cluster']. cbn in HS, HM.
  apply same_put; [by rewrite ?HS, ?HM..|]. same.
Qed.

Lemma same_provider_label : stable same_object (Cluster.set_provider_label (W:=W)).
Proof. unfold Cluster.set_provider_label. apply same_get. intros cluster s r s' [= <- <-] <-. done. Qed.

Lemma same_reconcile : stable same_object reconcile.
Proof.
  unfold Cluster.reconcile, Cluster.boundPolicy, Cluster.ensureHostVersion, Cluster.assignCIDRs,
    Cluster.provision, Cluster.ensureClusterConfigs, Cluster.ensureAgent.
  same; first [apply same_provider_label|apply same_ensureServerConfig].
Qed.
(** The run of a reconciliation sets the phase that its outcome calls for, the
    condition says the outcome, and nothing but the status and the labels of the
    cluster in memory changes. *)
Lemma reconcileCluster_tells cluster s r cluster' s' :
  is_deleting (cl_Meta cluster) = false →
  reconcileCluster (cluster, s) = (r, (cluster', s')) →
  same_object (cluster, s) (cluster', s') ∧
  match r with
  | Ok _ => st_Phase (cl_Status cluster') = phase_of None ∧ condition_tells cluster' None
  | Err e => st_Phase (cl_Status cluster') = phase_of (Some e) ∧ condition_tells cluster' (Some e)
  | Panic => True
  end.
Proof.
  intros Hd E. unfold Cluster.reconcileCluster, mbind, M_bind, attempt in E.
  destruct (reconcile (cluster, s)) as [r1 [cl1 s1]] eqn:E1.
  apply same_reconcile in E1 as Hs. cbn in E.
  assert (is_deleting (cl_Meta cl1) = false) as Hd1.
  { destruct Hs as (_&_&_&_&HD). unfold is_deleting. cbn in HD. by rewrite HD. }
  assert (∀ err, same_object (cluster, s) ((Cluster.updateStatus cl1 err).1, s1)) as Hs'.
  { intros err. destruct Hs as (?&?&?&?&?). unfold same_object, Cluster.updateStatus in *. cbn in *.
    rewrite Hd1. by repeat case_match. }
  destruct r1 as [[]|e|]; cbn in E; injection E as <- <- <-; (split; [done|]); try done;
    by apply updateStatus_run.
Qed.

(** *** What the reconciler leaves in the store *)
Context `{!ClientLaws c} (Htransport : ∀ req, silent c (K3s.httpClient_Do req)).
Context (Hmakekey : silent c Kubeconfig.MakeEllipticPrivateKeyPEM).
Context (Hsign : ∀ cn org dns u ips e k ca cak, silent c (Kubeconfig.NewSignedCert cn org dns u ips e k ca cak)).
Context (Hrand : ∀ n, silent c (rand_Read n)) (Hcryptorand : silent c cryptorand_Read).
Context (Hexec : ∀ exec, silent c (K3s.StreamWithContext exec)).
Context (Hforeign : ∀ rc vc, ctrlruntimeclient_New rc = Ok vc → Foreign c vc).
Context (Hlookup : ∀ h, silent c (LookupIPAddr h)) (Hversion : silent c ServerVersion).

(** The status is a subresource: an update of a cluster stores the status that
    was there, or at least the one it is given. *)
Context (Hstatus : ∀ x w old y w',
  store w !! obj_key (OCluster x) = Some (OCluster old) →
  client_Update c (OCluster x) w = (Ok (OCluster y), w') →
  cl_Status y = cl_Status old ∨ cl_Status y = cl_Status x).
(** Statuses that are semantically equal have the same phase and conditions. *)
Context (Hequal : ∀ st st' : ClusterStatus, Semantic_DeepEqual st st' = true →
  st_Phase st = st_Phase st' ∧
  ∀ t, find_condition (st_Conditions st) t = find_condition (st_Conditions st') t).

(** The status reports the outcome [err]. *)
Definition reports (st : ClusterStatus) (err : option error) : Prop :=
  st_Phase st = phase_of err ∧
  ∃ cond, find_condition (st_Conditions st) "Ready" = Some cond ∧
    match err with
    | None => cond_Status cond = "True"
    | Some e => cond_Status cond = "False" ∧ cond_Message cond = error_text e
    end.

(** The run leaves the stored cluster alone. *)
Lemma run_keeps_cluster (cluster : Cluster) s r s' :
  Cluster.run_on cluster reconcileCluster s = (r, s') →
  store s'.2 !! ("Cluster", key_of (cl_Meta cluster)) = store s.2 !! ("Cluster", key_of (cl_Meta cluster)).
Proof.
  intros E. eapply (Isolation.run_on_within c (Namespace (cl_Meta cluster)) (key_of (cm_Meta s.1)) None)
    in E as [[_ HR] _]; try done; [|by apply Isolation.steps_reconcileCluster].
  destruct (HR ("Cluster", key_of (cl_Meta cluster))) as [Hr|Hr]; [|done].
  destruct Hr as [[_ Hr]|[(r0 & _ & Hr)|[Hr|[Hr|(n & Hr & _)]]]]; by cbn in Hr.
Qed.

Lemma run_reports cluster s err cluster' s' :
  is_deleting (cl_Meta cluster) = false →
  Cluster.run_on cluster reconcileCluster s = (Ok (err, cluster'), s') →
  same_object (cluster, s) (cluster', s') ∧
  reports (cl_Status cluster') (match err with inl _ => None | inr e => Some e end).
Proof.
  intros Hd E. unfold Cluster.run_on, attempt in E.
  destruct (reconcileCluster (cluster, s)) as [r [cl1 s1]] eqn:E1.
  apply reconcileCluster_tells in E1 as [Hs Ht]; [|done].
  by destruct r as [[]|e|]; simplify_eq.
Qed.

Lemma run_on_no_error (cluster : Cluster) m s e s' : Cluster.run_on (W := W) cluster m s ≠ (Err e, s').
Proof. unfold Cluster.run_on, attempt. by destruct (m _) as [[|?|] [? ?]]. Qed.

(** The writes of the reconciler on the cluster itself. *)
Lemma StatusUpdate_stored n old (x y : Cluster) w w' :
  store w !! ("Cluster", n) = Some (OCluster old) → key_of (cl_Meta x) = n →
  StatusUpdate c x w = (Ok y, w') →
  y = set_Status (cl_Status x) old ∧ store w' !! ("Cluster", n) = Some (OCluster y).
Proof using ClientLaws0.
  intros Hold <- E%(StatusUpdate_run c). destruct E as (_ & old' & Hold' & Hy & Hs).
  pose proof (eq_trans (eq_sym Hold') Hold) as [= ->]. cbn in Hy. injection Hy as ->.
  split; [done|]. rewrite Hs. apply lookup_insert_eq.
Qed.

Lemma Update_stored n old (x y : Cluster) w w' :
  store w !! ("Cluster", n) = Some (OCluster old) → key_of (cl_Meta x) = n →
  is_deleting (cl_Meta x) = false → Update c x w = (Ok y, w') →
  store w' !! ("Cluster", n) = Some (OCluster y) ∧
  (cl_Status y = cl_Status old ∨ cl_Status y = cl_Status x).
Proof.
  intros Hold <- Hd E%(Update_run c). destruct E as (_ & _ & _ & _ & Hs & Hu).
  change (meta x) with (cl_Meta x) in Hs. rewrite Hd in Hs. cbn [andb] in Hs.
  split; [rewrite Hs; apply lookup_insert_eq|]. by eapply Hstatus.
Qed.

(** What a run that ends with [res] leaves of the cluster under [req]. *)
Definition told (req : NamespacedName) (cluster : Cluster) (w : W) (res : outcome Cluster.Result) (w' : W) : Prop :=
  let stored x := store w' !! (("Cluster", req) : ObjKey) = Some (OCluster x) in
  match res with
  | Ok r => ∃ cluster' err, stored cluster' ∧ reports (cl_Status cluster') err ∧
      match r with
      | None => err = None
      | Some d => d = 10%Z ∧ ∃ e, err = Some e ∧ errors_is "ErrServerNotReady" e = true
      end
  | Err e =>
      (stored cluster ∧ (Get c Cluster req w = (Err e, w') ∨ ∃ (x : Cluster) w1, key_of (cl_Meta x) = req ∧ StatusUpdate c x w1 = (Err e, w'))) ∨
      (∃ cluster', stored cluster' ∧ reports (cl_Status cluster') (Some e) ∧ errors_is "ErrServerNotReady" e = false) ∨
      (∃ cluster', stored cluster' ∧ reports (cl_Status cluster') None ∧ ∃ (x : Cluster) w1, key_of (cl_Meta x) = req ∧ Update c x w1 = (Err e, w'))
  | Panic => True
  end.

(** The end of a run, from the moment the status is stored. *)
Lemma ends_told req cluster w (res : unit + error) old x (b : bool) cm w3 r cm' w' :
  store w3 !! ("Cluster", req) = Some (OCluster old) → key_of (cl_Meta x) = req → is_deleting (cl_Meta x) = false →
  reports (cl_Status old) (match res with inl _ => None | inr e => Some e end) →
  reports (cl_Status x) (match res with inl _ => None | inr e => Some e end) →
  (match res with
   | inr e => if errors_is "ErrServerNotReady" e then mret (Some 10%Z) else fail e
   | inl _ => if b then Cluster.lift_world (Update c x) ;; mret None else mret None
   end : M (ConfigMap * W) Cluster.Result) (cm, w3) = (r, (cm', w')) →
  told req cluster w r w'.
Proof.
  intros Hst Hk Hd Hold Hx E. destruct res as [[]|e].
  - destruct b; [|injection E as <- <- <-; by exists old, None].
    unfold mbind, M_bind, Cluster.lift_world in E. cbn [fst snd] in E.
    destruct (Update c x w3) as [r4 w4] eqn:EU. destruct r4 as [y|e|]; injection E as <- <- <-; [| |done].
    + apply (Update_stored req old) in EU as [Hst4 Hor]; [|done..]. exists y, None.
      split_and!; [exact Hst4| |done]. by destruct Hor as [-> | ->].
    + right. right. exists old. pose proof EU as (_ & Hs)%(Update_run c). rewrite Hs. eauto 10.
  - destruct (errors_is _ e) eqn:He; injection E as <- <- <-; [exists old, (Some e); eauto 10|].
    right. left. by exists old.
Qed.

(** C5: A run of the reconciler on a cluster that is being provisioned, and that is
    protected by its finalizer, leaves the stored status in accordance with what
    it returns: [Ready] when the cluster needs nothing more, [Provisioning] when
    it is to be tried again in ten seconds because its server is not up yet.  A run
    that returns an error leaves that error in the stored status, but for two
    cases: the cluster could not be read or its status could not be stored, and
    it is as it was; or the provisioning ended well, which the status says, and it
    is the update of the specification and the labels that failed. *)
Theorem Reconcile_reports req cm w r cm' w' cluster :
  store w !! ("Cluster", req) = Some (OCluster cluster) →
  is_deleting (cl_Meta cluster) = false →
  st_Phase (cl_Status cluster) ≠ "" → st_Phase (cl_Status cluster) ≠ ClusterUnknown →
  Cluster.clusterFinalizerName ∈ Finalizers (cl_Meta cluster) →
  Reconcile req (cm, w) = (r, (cm', w')) →
  told req cluster w r w'.
Proof.
  intros Hst Hd Hp Hu Hfin E. unfold Cluster.Reconcile in E. unfold mbind at 1, M_bind at 1, attempt in E.
  destruct (Cluster.lift_world _ _) as [r1 [cm1 w1]] eqn:E1. unfold Cluster.lift_world in E1. cbn [fst snd] in E1.
  destruct (Get c Cluster req w) as [r2 w2] eqn:EG. injection E1 as <- <- <-.
  pose proof EG as (Hs & _ & Hr)%(Get_run c). rewrite <- Hs in Hst.
  destruct r2 as [cl|e|]; [| |by injection E as <-].
  2:{ destruct (IsNotFound e) eqn:He; cbn [fst snd] in E; rewrite ?He in E; injection E as <- <- <-.
      - rewrite Hs in Hst. by pose proof (eq_trans (eq_sym Hr) Hst).
      - left. split; [exact Hst|by left]. }
  destruct Hr as [Hcl Hk]. rewrite Hs in Hst. pose proof (eq_trans (eq_sym Hcl) Hst) as [= ->].
  rewrite <- Hs in Hst. clear Hcl. change (key_of (cl_Meta cluster) = req) in Hk.
  rewrite Hd, decide_False, AddFinalizer_law, decide_True in E by (done || naive_solver).
  replace (set_Meta (cl_Meta cluster) cluster) with cluster in E by (by destruct cluster).
  unfold mbind at 1, M_bind at 1 in E.
  destruct (Cluster.run_on _ _ _) as [r3 [cm2 w3]] eqn:E2.
  destruct r3 as [[res cl1]|e|]; [|by destruct (run_on_no_error _ _ _ _ _ E2)|by injection E as <-].
  pose proof (run_keeps_cluster _ _ _ _ E2) as Hst2. cbn [fst snd] in *. rewrite Hk, Hst in Hst2.
  apply run_reports in E2 as [Hsame Hrep]; [|done].
  destruct Hsame as (_ & Hkey & _ & _ & HD). cbn [fst snd] in *. rewrite Hk in Hkey.
  assert (is_deleting (cl_Meta cl1) = false) as Hd1 by (unfold is_deleting; by rewrite HD).
  unfold mbind at 1, M_bind at 1 in E. destruct (Semantic_DeepEqual _ _) eqn:Heq; cbn [negb] in E.
  - eapply (ends_told _ _ _ _ cluster); [exact Hst2|exact Hkey|exact Hd1| |exact Hrep|exact E].
    apply Hequal in Heq as [Hp' Hc']. destruct Hrep as (? & cond & Hf & ?).
    split; [congruence|]. exists cond. by rewrite Hc'.
  - unfold Cluster.lift_world at 1 in E. cbn [fst snd] in E. destruct (StatusUpdate c cl1 w3) as [r4 w4] eqn:E4.
    destruct r4 as [y|e|]; [| |by injection E as <-].
    + pose proof E4 as [-> Hst4]%(StatusUpdate_stored req cluster); [|done..].
      eapply (ends_told _ _ _ _ _ (set_Status (cl_Status cl1) cluster)); [exact Hst4|exact Hk|exact Hd|exact Hrep|exact Hrep|exact E].
    + injection E as <- <- <-. left. pose proof E4 as [_ ->]%(StatusUpdate_run c). split; [exact Hst2|]. right. by exists cl1, w3.
Qed.

(** A new cluster goes through two runs that write nothing but the cluster: the
    first one stores the phase [Provisioning], the second one protects the
    cluster with its finalizer.  Nothing is provisioned before. *)
Theorem Reconcile_first_runs req cm w r cm' w' cluster :
  store w !! (("Cluster", req) : ObjKey) = Some (OCluster cluster) →
  is_deleting (cl_Meta cluster) = false →
  let fresh := st_Phase (cl_Status cluster) = "" ∨ st_Phase (cl_Status cluster) = ClusterUnknown in
  fresh ∨ Cluster.clusterFinalizerName ∉ Finalizers (cl_Meta cluster) →
  Reconcile req (cm, w) = (r, (cm', w')) →
  cm' = cm ∧ (∀ i, i ≠ ("Cluster", req) → store w' !! i = store w !! i) ∧
  (∀ res, r = Ok res → res = None ∧
    ∃ cl', store w' !! (("Cluster", req) : ObjKey) = Some (OCluster cl') ∧
      if decide fresh then
        cl_Meta cl' = cl_Meta cluster ∧ cl_Spec cl' = cl_Spec cluster ∧
        st_Phase (cl_Status cl') = ClusterProvisioning
      else Finalizers (cl_Meta cl') = (Finalizers (cl_Meta cluster) ++ [Cluster.clusterFinalizerName])%list).
Proof using ClientLaws0 H0.
  intros Hst Hd fresh Hor E. unfold Cluster.Reconcile in E. unfold mbind at 1, M_bind at 1, attempt in E.
  destruct (Cluster.lift_world _ _) as [r1 [cm1 w1]] eqn:E1. unfold Cluster.lift_world in E1. cbn [fst snd] in E1.
  destruct (Get c Cluster req w) as [r2 w2] eqn:EG. injection E1 as <- <- <-.
  apply (Get_run c) in EG as (Hs & _ & Hr).
  destruct r2 as [cl|e|]; [| |done].
  2:{ destruct (IsNotFound e) eqn:He; cbn [fst snd] in E; rewrite ?He in E; injection E as <- <- <-; rewrite Hs;
      (split; [done|]); (split; [done|]); intros res; [|done]. by pose proof (eq_trans (eq_sym Hr) Hst). }
  destruct Hr as [Hcl Hk]. pose proof (eq_trans (eq_sym Hcl) Hst) as [= ->]. clear Hcl.
  change (key_of (cl_Meta cluster) = req) in Hk. rewrite Hd in E. rewrite <- Hs in Hst |- *. fold fresh in E.
  destruct (decide fresh) as [Hfr|Hfr].
  - unfold mbind, M_bind, Cluster.lift_world in E. cbn [fst snd] in E.
    destruct (StatusUpdate c _ w2) as [r3 w3] eqn:E3. pose proof E3 as Hrun. apply (StatusUpdate_run c) in Hrun as [_ Hrun].
    destruct r3 as [y|e|]; [| |done]; injection E as <- <- <-; [|by rewrite Hrun].
    destruct Hrun as (_ & _ & _ & Hw).
    apply (StatusUpdate_stored req cluster) in E3 as [-> Hst3]; [|done..].
    split; [done|]. split; [intros i Hi; rewrite Hw; apply lookup_insert_ne; by rewrite <- Hk in Hi|].
    intros res [= <-]. split; [done|]. by eexists.
  - assert (Cluster.clusterFinalizerName ∉ Finalizers (cl_Meta cluster)) as Hfin by (by destruct Hor).
    rewrite AddFinalizer_law, decide_False in E by done.
    unfold mbind, M_bind, Cluster.lift_world in E. cbn [fst snd] in E.
    destruct (Update c _ w2) as [r3 w3] eqn:E3. apply (Update_run c) in E3 as [_ Hrun].
    destruct r3 as [y|e|]; [| |done]; injection E as <- <- <-; [|by rewrite Hrun].
    destruct Hrun as (_ & _ & Hf & Hw & _). match type of Hw with context [is_deleting ?m] =>
      change (is_deleting m) with (is_deleting (cl_Meta cluster)) in Hw end.
    rewrite Hd in Hw. cbn [andb] in Hw. change (obj_key _) with (("Cluster", key_of (cl_Meta cluster)) : ObjKey) in Hw.
    rewrite Hk in Hw. split; [done|]. split; [intros i Hi; rewrite Hw; by apply lookup_insert_ne|].
    intros res [= <-]. split; [done|]. exists y. split; [rewrite Hw; apply lookup_insert_eq|exact Hf].
Qed.
End Reconciler.

(** The concrete server stores a cluster as it is given, and its equality of
    statuses is that of their values. *)
Lemma lab_status (x : Cluster) (w : Lab.world) old y w' :
  store (c:=Lab.host) w !! obj_key (OCluster x) = Some (OCluster old) →
  client_Update Lab.host (OCluster x) w = (Ok (OCluster y), w') →
  cl_Status y = cl_Status old ∨ cl_Status y = cl_Status x.
Proof.
  intros _ E. right. assert (Keeps Lab.host (T:=Cluster) cl_Status) as HK by exact _.
  exact (@update_keeps _ _ _ _ _ _ HK x w y w' E).
Qed.

Lemma std_equal (st st' : ClusterStatus) :
  Semantic_DeepEqual st st' = true →
  st_Phase st = st_Phase st' ∧
  ∀ t, find_condition (st_Conditions st) t = find_condition (st_Conditions st') t.
Proof. by intros ->%bool_decide_eq_true. Qed.

(** The tenant of the concrete environment: its stored status is that of a
    cluster that is ready. *)
Lemma Reconcile_reports_witness :
  ∃ cluster', mem_objects Cluster.lab_done.2.1 !! ("Cluster", Lab.tenant_key) = Some (OCluster cluster') ∧
    reports (cl_Status cluster') None.
Proof.
  assert (mem_objects Lab.start.2.1 !! ("Cluster", Lab.tenant_key) = Some (OCluster Lab.tenant)) as Hst
    by (vm_compute; reflexivity).
  assert ((Cluster.lab_Reconcile Lab.tenant_key Lab.start).1 = Ok None) as Hok by (vm_compute; reflexivity).
  unfold Cluster.lab_done. revert Hst Hok. generalize Lab.start. intros [cm w] Hst Hok.
  destruct (Cluster.lab_Reconcile Lab.tenant_key (cm, w)) as [r [cm' w']] eqn:E. cbn [fst snd] in *. subst r.
  opose proof (Reconcile_reports Lab.host Cluster.lab_config _ _ _ Lab.rand_Read Lab.cryptorand_Read
    Lab.RESTConfigFromKubeConfig Lab.newClient Lab.LookupIPAddr _ Lab.ServerVersion
    Lab.lab_transport_silent _ _ _ _ _ Lab.newClient_foreign _ _ lab_status std_equal
    Lab.tenant_key cm w (Ok None) cm' w' Lab.tenant Hst _ _ _ _ E) as Hrep;
    try (intros; apply Lab.mret_silent); try done;
    try (apply (bool_decide_unpack _); vm_compute; exact I).
  destruct Hrep as (cl' & err & Hcl & Hrep & ->). by exists cl'.
Defined.

(** A cluster as a user creates it, in the concrete environment. *)
Definition newcomer : Cluster := named_cluster "team" "dev" (Lab.spec SharedClusterMode).

Lemma Reconcile_first_runs_witness :
  let w := (Lab.objects [OCluster newcomer], Lab.objects []) in
  ∃ w' cl', Cluster.lab_Reconcile Lab.tenant_key (Lab.ports, w) = (Ok None, (Lab.ports, w')) ∧
    mem_objects w'.1 !! ("Cluster", Lab.tenant_key) = Some (OCluster cl') ∧
    st_Phase (cl_Status cl') = ClusterProvisioning.
Proof.
  intros w. destruct (Cluster.lab_Reconcile Lab.tenant_key (Lab.ports, w)) as [r [cm' w']] eqn:E.
  assert (r = Ok None) as ->.
  { change r with (r, (cm', w')).1. rewrite <- E. vm_compute. reflexivity. }
  opose proof (Reconcile_first_runs Lab.host Cluster.lab_config Lab.marshal Lab.marshal Lab.marshal Lab.rand_Read Lab.cryptorand_Read
    Lab.RESTConfigFromKubeConfig Lab.newClient Lab.LookupIPAddr Lab.marshal Lab.ServerVersion
    Lab.tenant_key Lab.ports w _ cm' w' newcomer _ _ _ E) as (-> & _ & Hrun).
  - vm_compute. reflexivity.
  - reflexivity.
  - left. left. reflexivity.
  - destruct (Hrun None eq_refl) as (_ & cl' & Hcl & Hp). destruct (decide _) as [_|Hno]; [|destruct Hno; left; reflexivity].
    exists w', cl'. split; [reflexivity|]. split; [exact Hcl|]. exact (proj2 (proj2 Hp)).
Defined.

Lemma updateStatus_events_witness :
  let '(cluster', events) := Cluster.updateStatus newcomer None in
  st_Phase (cl_Status cluster') = ClusterReady ∧ events ≠ [] ∧
  (Cluster.updateStatus cluster' None).2 = [].
Proof.
  pose proof (updateStatus_events newcomer None eq_refl) as Hev.
  destruct (Cluster.updateStatus newcomer None) as [cluster' events] eqn:E.
  destruct Hev as (Hp & _ & _ & _ & _ & _ & Hquiet).
  split; [exact Hp|]. split; [by injection E as _ <-|exact (Hquiet eq_refl)].
Defined.
End Lifecycle.
