(* ===== verification/Release.v ===== *)
(** * Role bindings and finalization

    A shared cluster is a subject of the two ClusterRoleBindings of the
    kubelets; a cluster that is deleted keeps its finalizer until it is a
    subject no more, its port is given back and its lease is gone. *)

From S2P Require Import Prelude GoStd GoNet K8s Types Kube Effects Names Translate K3s Ports Expose.
From S2P Require Import Server Access Agent Hcp Policy Lab Cluster Isolation.

Local Open Scope string_scope.

Module Release.

#[local] Set Default Proof Using "Type*".

Section Bindings.
Context {W : Type} (c : Client W) `{!ClientLaws c} `{!Keeps c crb_Subjects}.

Definition role_key (r : string) : ObjKey := ("ClusterRoleBinding", Policy.cluster_scoped r).

(** The binding of the role [r], with subjects [l], gets the subjects [l'].  A
    binding that was being deleted may go at once. *)
Definition rebound (f : list Subject → list Subject) (w w' : W) (r : string) : Prop :=
  ∃ b, store w !! role_key r = Some (OClusterRoleBinding b) ∧
    (∀ o, store w' !! role_key r = Some o →
       ∃ b', o = OClusterRoleBinding b' ∧ crb_Subjects b' = f (crb_Subjects b)) ∧
    (is_deleting (crb_Meta b) = false → is_Some (store w' !! role_key r)).

Definition total (f : list Subject → option (list Subject)) (l : list Subject) : list Subject :=
  default l (f l).

Lemma rebound_same f (w w1 w2 : W) r :
  store w2 !! role_key r = store w1 !! role_key r → rebound f w w1 r → rebound f w w2 r.
Proof using. intros Hs (b & Hb & Hf & Hd). exists b. by rewrite Hs. Qed.

Lemma rebound_before f (w0 w w' : W) r :
  store w0 !! role_key r = store w !! role_key r → rebound f w w' r → rebound f w0 w' r.
Proof using. intros Hs (b & Hb & Hf & Hd). exists b. by rewrite Hs. Qed.

(** One turn of the loop adds an error or binds its role, and leaves the other
    objects alone. *)
Lemma rebind_run f err r w res w' :
  Cluster.rebind c f err r w = (res, w') →
  (∀ i, i ≠ role_key r → store w' !! i = store w !! i) ∧
  match res with
  | Ok None => err = None ∧ rebound (total f) w w' r
  | Ok (Some _) => True
  | _ => False
  end.
Proof.
  intros E. unfold Cluster.rebind, mbind, M_bind, attempt in E.
  destruct (Get c ClusterRoleBinding _ w) as [r1 w1] eqn:EG. apply (Get_run c) in EG as (Hs & _ & Hr).
  destruct r1 as [b|e|]; [| |done]; cbn in E; [|injection E as <- <-; rewrite Hs; by destruct err].
  destruct Hr as [Hb Hk]. change (key_of (crb_Meta b) = Policy.cluster_scoped r) in Hk.
  destruct (f (crb_Subjects b)) as [l|] eqn:Ef.
  2:{ injection E as <- <-. rewrite Hs. split; [done|]. destruct err; [done|]. split; [done|].
      exists b. split; [exact Hb|]. rewrite Hs. split; [|intros _; by eexists].
      intros o Ho. pose proof (eq_trans (eq_sym Ho) Hb) as [= ->]. exists b. unfold total. by rewrite Ef. }
  destruct (Update c _ w1) as [r2 w2] eqn:EU. apply (Update_run c) in EU as (_ & Hr2).
  assert (obj_key (inj (Cluster.set_Subjects l b)) = role_key r) as Hkey.
  { unfold obj_key. cbn. by rewrite Hk. }
  destruct r2 as [b2|e2|]; [| |done]; cbn in E; injection E as <- <-;
    [|rewrite Hr2, Hs; by destruct err].
  destruct Hr2 as (_ & Hk2 & _ & Hst & Hcl). rewrite Hkey in Hst, Hk2.
  apply update_keeps in Hcl. change (meta (Cluster.set_Subjects l b)) with (crb_Meta b) in Hst. split.
  - intros i Hi. destruct (_ && _); rewrite Hst, ?lookup_delete_ne, ?lookup_insert_ne, Hs by done; done.
  - destruct err; [done|]. split; [done|]. exists b. split; [exact Hb|].
    destruct (is_deleting (crb_Meta b)); cbn [andb] in Hst; [case_bool_decide|];
      rewrite Hst, ?lookup_delete_eq, ?lookup_insert_eq; (split; [|by eauto]); try done;
      intros o [= <-]; exists b2; unfold total; rewrite Ef; done.
Qed.

Lemma rebind_all f roles err w e w' :
  NoDup roles → fold_m (Cluster.rebind c f) roles err w = (e, w') →
  (∀ i, Forall (λ r, i ≠ role_key r) roles → store w' !! i = store w !! i) ∧
  match e with
  | Ok None => err = None ∧ Forall (rebound (total f) w w') roles
  | Ok (Some _) => True
  | _ => False
  end.
Proof.
  intros Hnd. revert err w. induction Hnd as [|r roles Hr Hnd IH]; intros err w E; cbn [fold_m] in E.
  { injection E as <- <-. split; [done|]. by destruct err. }
  unfold mbind, M_bind in E. destruct (Cluster.rebind c f err r w) as [r1 w1] eqn:E1.
  apply rebind_run in E1 as [Hf Hr1]. destruct r1 as [err1| |]; [|done..].
  apply IH in E as [Hf' Hr'].
  assert (Forall (λ r', role_key r ≠ role_key r') roles) as Hne.
  { apply Forall_forall. intros r' Hr2 [= ->]. done. }
  split.
  - intros i [Hi Hi']%Forall_cons. by rewrite Hf', Hf.
  - destruct e as [[e|]| |]; [done| |done..]. destruct Hr' as [-> Hall]. destruct Hr1 as [-> Hb].
    split; [done|]. constructor; [eapply rebound_same; [|exact Hb]; by apply Hf'|].
    apply Forall_forall. intros r' Hr2. eapply rebound_before; [|by eapply Forall_forall in Hall].
    symmetry. apply Hf. by intros [= ->].
Qed.

Lemma roles_run f w r w' :
  (err ← fold_m (Cluster.rebind c f) Cluster.clusterRoles None; ret_err err) w = (r, w') →
  (∀ i, Forall (λ r, i ≠ role_key r) Cluster.clusterRoles → store w' !! i = store w !! i) ∧
  match r with
  | Ok _ => Forall (rebound (total f) w w') Cluster.clusterRoles
  | Err _ => True
  | Panic => False
  end.
Proof.
  intros E. unfold mbind, M_bind in E. destruct (fold_m _ _ _ w) as [r1 w1] eqn:E1.
  apply rebind_all in E1 as [Hf Hr].
  2:{ apply (bool_decide_unpack _). vm_compute. exact I. }
  destruct r1 as [[e|]| |]; [| |done..]; cbn in E; injection E as <- <-; (split; [done|]); [done|].
  by destruct Hr.
Qed.

Lemma total_bind cluster l :
  total (Cluster.bind_subjects cluster) l =
  if decide (Cluster.clusterSubject cluster ∈ l) then l else (l ++ [Cluster.clusterSubject cluster])%list.
Proof using.
  unfold total, Cluster.bind_subjects, slices_Contains. destruct (decide (_ ∈ l)) as [Hl|Hl].
  - by rewrite bool_decide_eq_true_2.
  - by rewrite bool_decide_eq_false_2.
Qed.

Lemma total_unbind cluster l :
  total (Cluster.unbind_subjects cluster) l =
  slices_DeleteFunc l (λ s, bool_decide (s = Cluster.clusterSubject cluster)).
Proof using.
  unfold total, Cluster.unbind_subjects. set (cleaned := slices_DeleteFunc l _).
  case_bool_decide as Hc; cbn; [|done].
  assert (length cleaned ≤ length l)%nat as Hle by (apply List.filter_length_le).
  assert (length cleaned = length l) as Hlen.
  { apply (f_equal length) in Hc. rewrite length_app, repeat_length in Hc. lia. }
  clear Hc Hle. subst cleaned. unfold slices_DeleteFunc in *. induction l as [|s l IH]; [done|]. cbn in *.
  destruct (negb _) eqn:Es; cbn in *; [by rewrite <- IH by lia|].
  pose proof (List.filter_length_le (λ x, negb (bool_decide (x = Cluster.clusterSubject cluster))) l). lia.
Qed.

(** Binding a cluster to the roles of the kubelets makes it a subject of both
    bindings, once, and keeps their other subjects in their order; nothing else
    is written, even when a call fails. *)
Theorem bindClusterRoles_spec cluster w r w' :
  Cluster.bindClusterRoles c cluster w = (r, w') →
  (∀ i, Forall (λ r, i ≠ role_key r) Cluster.clusterRoles → store w' !! i = store w !! i) ∧
  r ≠ Panic ∧
  (r = Ok tt → Forall (rebound (λ l, if decide (Cluster.clusterSubject cluster ∈ l) then l
                                     else (l ++ [Cluster.clusterSubject cluster])%list) w w')
                 Cluster.clusterRoles).
Proof.
  intros E. apply roles_run in E as [Hf Hr]. split; [exact Hf|]. split; [by destruct r|]. intros ->.
  eapply Forall_impl; [exact Hr|]. intros role (b & Hb & Hs & Hd). exists b. split; [done|]. split; [|done].
  intros o (b' & -> & Hb')%Hs. exists b'. by rewrite Hb', total_bind.
Qed.
End Bindings.

(** ** Finalization *)
Section Finalize.
Context {W : Type} (c : Client W) `{!ClientLaws c} `{!Keeps c crb_Subjects} `{!KeepsConfigMaps c}.
Context `{KubeUtilLaws} `{PortLibLaws}.

Lemma world_run (m : M W unit) s r s' : Cluster.world m s = (r, s') → m s.2 = (r, s'.2) ∧ s'.1 = s.1.
Proof using. unfold Cluster.world. destruct (m s.2). by intros [= <- <-]. Qed.

Lemma roles_not_of k n r : k ≠ "ClusterRoleBinding" → ((k, n) : ObjKey) ≠ role_key r.
Proof using. by intros Hk [= ->]. Qed.

(** What the allocator relies on is what is stored under its key. *)
Lemma ports_frame K (cm : ConfigMap) (w w' : W) :
  store w' !! (("ConfigMap", K) : ObjKey) = store w !! (("ConfigMap", K) : ObjKey) →
  Ports.Inv c K (cm, w) → Ports.Live c K (cm, w) → Ports.Inv c K (cm, w') ∧ Ports.Live c K (cm, w').
Proof using.
  intros Hs [HK Hc] [HL HL']. split; split; try done; intros o Ho; [apply Hc|apply HL'];
    exact (eq_trans (eq_sym Hs) Ho).
Qed.

Lemma deallocate_run K n ns port s r s' :
  Ports.Inv c K s → Ports.Live c K s → Ports.DeallocateKubeletPort c n ns port s = (r, s') →
  (∀ i, i ≠ ("ConfigMap", K) → store s'.2 !! i = store s.2 !! i) ∧
  (r = Ok tt → Ports.stored c K s' ∧ Ports.unrecorded s'.1 (Ports.cluster_key n ns)).
Proof.
  intros HI HL E. pose proof HI as [HK _]. split.
  - intros i Hi. destruct (Isolation.held_deallocate c K (λ i, i = ("ConfigMap", K)) eq_refl _ _ _ _ _ _ E HK)
      as [_ HR]. by destruct (HR i).
  - intros ->. pose proof (Ports.hoare_deallocate c K True n ns port s) as Ht. cbn beta in Ht.
    unfold Ports.DeallocateKubeletPort in E. rewrite E in Ht.
    destruct Ht as (_ & ? & Hs); [done|]. split; [by apply Hs|done].
Qed.

Lemma lease_run n w r w' :
  ignore_not_found (client_Delete c "Lease" n) w = (r, w') →
  (∀ i, i ≠ ("Lease", n) → store w' !! i = store w !! i) ∧
  (r = Ok tt → ∀ o, store w' !! (("Lease", n) : ObjKey) = Some o → is_deleting (obj_meta o) = true).
Proof.
  intros E. split.
  - intros i Hi. eapply (confined_frame c (λ i, i = ("Lease", n))); [|exact E|exact Hi].
    apply evolves_ignore_not_found; [exact _|]. by apply confined_client_Delete.
  - unfold ignore_not_found, mbind, M_bind, attempt in E.
    destruct (delete_spec "Lease" n w) as (r1 & w1 & E1 & _ & Hr). rewrite E1 in E.
    destruct r1 as [u|e|]; [| |done]; cbn in E.
    + injection E as <- <-. destruct Hr as (old & _ & Hr). intros _ o Ho. case_decide.
      * rewrite Hr, lookup_delete_eq in Ho. done.
      * destruct Hr as [now Hr]. rewrite Hr, lookup_insert_eq in Ho. injection Ho as <-.
        unfold mark_deleted, is_deleting. rewrite obj_set_meta_meta. cbn. by destruct (DeletionTimestamp _).
    + destruct Hr as [Hs Hr]. destruct (IsNotFound e); injection E as <- <-; [|done].
      intros _ o Ho. rewrite Hs in Ho. by pose proof (eq_trans (eq_sym Ho) Hr).
Qed.

(** The last step: the finalizer goes, and maybe the cluster with it. *)
Lemma unfinalize_run cluster w r w' :
  let n := key_of (cl_Meta cluster) in
  Cluster.clusterFinalizerName ∈ Finalizers (cl_Meta cluster) →
  (Update c (set_Meta (RemoveFinalizer (cl_Meta cluster) Cluster.clusterFinalizerName).1 cluster) ;; mret tt) w
    = (r, w') →
  (∀ i, i ≠ ("Cluster", n) → store w' !! i = store w !! i) ∧
  match r with
  | Ok _ => ∀ o, store w' !! (("Cluster", n) : ObjKey) = Some o →
                 Cluster.clusterFinalizerName ∉ Finalizers (obj_meta o)
  | _ => store w' = store w
  end.
Proof.
  intros n Hfin E. rewrite RemoveFinalizer_law, decide_True in E by done. cbn [fst] in E.
  set (m := set_Finalizers _ _) in E. assert (key_of m = n) as Hn by done.
  unfold mbind, M_bind in E. destruct (Update c _ w) as [r1 w1] eqn:EU.
  apply (Update_run c) in EU as (_ & Hr).
  assert (obj_key (inj (set_Meta m cluster)) = ("Cluster", n)) as Hk by done.
  destruct r1 as [y|e|]; [| |done]; cbn in E; injection E as <- <-; [|by rewrite Hr].
  destruct Hr as (_ & _ & Hf & Hs & _). rewrite Hk in Hs.
  assert (Cluster.clusterFinalizerName ∉ Finalizers (meta y)) as Hy.
  { rewrite Hf. cbn. unfold slices_DeleteFunc. rewrite list_elem_of_In, List.filter_In.
    intros [_ Hx]. by rewrite bool_decide_true in Hx. }
  destruct (_ && _); rewrite Hs; (split; [intros i Hi|]).
  - by rewrite lookup_delete_ne.
  - intros o. by rewrite lookup_delete_eq.
  - by rewrite lookup_insert_ne.
  - intros o. rewrite lookup_insert_eq. intros [= <-]. exact Hy.
Qed.

(** The port of a cluster that mirrors the nodes is given back. *)
Lemma release_port_run cluster K s r s' :
  Ports.Inv c K s → Ports.Live c K s →
  (if decide (Mode (cl_Spec cluster) = SharedClusterMode) then
     if MirrorHostNodes (cl_Spec cluster) then
       Ports.DeallocateKubeletPort c (Name (cl_Meta cluster)) (Namespace (cl_Meta cluster))
         (st_KubeletPort (cl_Status cluster))
     else mret tt
   else mret tt) s = (r, s') →
  (∀ i, i ≠ ("ConfigMap", K) → store s'.2 !! i = store s.2 !! i) ∧
  (r = Ok tt → Mode (cl_Spec cluster) = SharedClusterMode → MirrorHostNodes (cl_Spec cluster) = true →
   Ports.stored c K s' ∧
   Ports.unrecorded s'.1 (Ports.cluster_key (Name (cl_Meta cluster)) (Namespace (cl_Meta cluster)))).
Proof.
  intros HI HL E. case_decide; [destruct (MirrorHostNodes _)|].
  - apply (deallocate_run K) in E as [Hf Hr]; [|done..]. by split; [|intros ? _ _; apply Hr].
  - by injection E as <- <-.
  - by injection E as <- <-.
Qed.

(** C6: Finalization lets a cluster go last: while a step fails the stored cluster
    stays, with its finalizer.  When it ends well, the cluster is a subject of no
    binding, the lease is gone or going, the port of a cluster that mirrors the
    nodes of the host is recorded no more, and the finalizer is off. *)
Theorem finalizeCluster_releases cluster K cm w r cm' w' :
  let n := key_of (cl_Meta cluster) in
  Ports.Inv c K (cm, w) → Ports.Live c K (cm, w) →
  store w !! (("Cluster", n) : ObjKey) = Some (OCluster cluster) →
  Cluster.clusterFinalizerName ∈ Finalizers (cl_Meta cluster) →
  Cluster.finalizeCluster c cluster (cm, w) = (r, (cm', w')) →
  match r with
  | Ok res =>
      res = None ∧
      (∀ role b, role ∈ Cluster.clusterRoles → store w' !! role_key role = Some (OClusterRoleBinding b) →
                 Cluster.clusterSubject cluster ∉ crb_Subjects b) ∧
      (∀ o, store w' !! (("Lease", n) : ObjKey) = Some o → is_deleting (obj_meta o) = true) ∧
      (Mode (cl_Spec cluster) = SharedClusterMode → MirrorHostNodes (cl_Spec cluster) = true →
       Ports.stored c K (cm', w') ∧
       Ports.unrecorded cm' (Ports.cluster_key (Name (cl_Meta cluster)) (Namespace (cl_Meta cluster)))) ∧
      (∀ o, store w' !! (("Cluster", n) : ObjKey) = Some o →
            Cluster.clusterFinalizerName ∉ Finalizers (obj_meta o))
  | _ => store w' !! (("Cluster", n) : ObjKey) = Some (OCluster cluster)
  end.
Proof.
  intros n HI HL Hst Hfin E. unfold Cluster.finalizeCluster in E.
  set (cl := Cluster.set_phase _ _ cluster) in E.
  unfold mbind at 1, M_bind at 1 in E. destruct (Cluster.world _ (cm, w)) as [r1 [cm1 w1]] eqn:E1.
  apply world_run in E1 as [E1 Hc1]. cbn [fst snd] in E1, Hc1. subst cm1.
  apply (roles_run c) in E1 as [Hf1 Hr1].
  assert (store w1 !! (("Cluster", n) : ObjKey) = Some (OCluster cluster)) as Hst1.
  { rewrite Hf1; [done|]. apply Forall_forall. intros. by apply roles_not_of. }
  destruct r1 as [u1|e|]; [|by injection E as <- <- <-|done].
  assert (Ports.Inv c K (cm, w1) ∧ Ports.Live c K (cm, w1)) as [HI1 HL1].
  { eapply ports_frame; [|exact HI|exact HL]. apply Hf1, Forall_forall. intros. by apply roles_not_of. }
  unfold mbind at 1, M_bind at 1 in E.
  match type of E with context [(if decide ?P then ?a else ?b) ?s] =>
    destruct ((if decide P then a else b) s) as [r2 [cm2 w2]] eqn:E2 end.
  apply (release_port_run cluster K) in E2 as [Hf2 Hr2]; [|done..]. cbn [fst snd] in Hf2, Hr2.
  assert (store w2 !! (("Cluster", n) : ObjKey) = Some (OCluster cluster)) as Hst2 by (by rewrite Hf2).
  destruct r2 as [[]|e|]; [|by injection E as <- <- <-..].
  unfold mbind at 1, M_bind at 1 in E. destruct (Cluster.world _ (cm2, w2)) as [r3 [cm3 w3]] eqn:E3.
  apply world_run in E3 as [E3 Hc3]. cbn [fst snd] in E3, Hc3. subst cm3. apply lease_run in E3 as [Hf3 Hr3].
  change (key_of (cl_Meta cl)) with n in *.
  assert (store w3 !! (("Cluster", n) : ObjKey) = Some (OCluster cluster)) as Hst3 by (by rewrite Hf3).
  destruct r3 as [[]|e|]; [|by injection E as <- <- <-..].
  pose proof (unfinalize_run cl w3) as Hun. rewrite RemoveFinalizer_law, decide_True in E, Hun by done.
  cbn [fst] in Hun. cbv zeta iota beta in E. unfold mbind at 1, M_bind at 1 in E.
  destruct (Cluster.world _ (cm2, w3)) as [r4 [cm4 w4]] eqn:E4.
  apply world_run in E4 as [E4 Hc4]. cbn [fst snd] in E4, Hc4. subst cm4.
  apply Hun in E4 as [Hf4 Hr4]; [|done]. change (key_of (cl_Meta cl)) with n in *.
  destruct r4 as [[]|e|]; injection E as <- <- <-; [|by rewrite Hr4..].
  split_and!; [done| | | |exact Hr4].
  - intros role b Hrole Hb. rewrite Hf4, Hf3, Hf2 in Hb by (apply not_eq_sym, roles_not_of; done).
    eapply Forall_forall in Hr1 as (b0 & _ & Hs & _); [|exact Hrole].
    destruct (Hs _ Hb) as (b' & [= <-] & ->). rewrite total_unbind. unfold slices_DeleteFunc.
    rewrite list_elem_of_In, List.filter_In. intros [_ Hx]. by rewrite bool_decide_true in Hx.
  - intros o Ho. rewrite Hf4 in Ho by done. by apply Hr3.
  - intros Hm Hmi. destruct (Hr2 eq_refl Hm Hmi) as [Hs2 Hu2]. split; [|done].
    unfold Ports.stored in *. cbn [fst snd] in *. by rewrite Hf4, Hf3.
Qed.
End Finalize.

(** ** Concrete runs *)
#[local] Existing Instances Ports.toy_ports Ports.toy_ports_laws Ports.mem_keeps_config_maps.

Definition other : Subject := {| sub_Kind := "ServiceAccount"; sub_Name := "x"; sub_Namespace := "y" |}.
Definition bound (role : string) : Obj :=
  OClusterRoleBinding (Cluster.set_Subjects [Cluster.clusterSubject Lab.tenant; other]
    {| crb_Meta := meta_of "" role; crb_Subjects := [] |}).

Lemma bindClusterRoles_spec_witness :
  let w := Lab.objects [Lab.binding "k3k-kubelet-node"; bound "k3k-priorityclass"] in
  ∃ w', Cluster.bindClusterRoles mem_client Lab.tenant w = (Ok tt, w') ∧
    Forall (rebound mem_client (λ l, if decide (Cluster.clusterSubject Lab.tenant ∈ l) then l
                                     else (l ++ [Cluster.clusterSubject Lab.tenant])%list) w w')
      Cluster.clusterRoles.
Proof.
  intros w. exists (Cluster.bindClusterRoles mem_client Lab.tenant w).2.
  assert (Cluster.bindClusterRoles mem_client Lab.tenant w =
          (Ok tt, (Cluster.bindClusterRoles mem_client Lab.tenant w).2)) as E by (vm_compute; reflexivity).
  split; [exact E|]. exact (proj2 (proj2 (bindClusterRoles_spec mem_client _ _ _ _ E)) eq_refl).
Defined.

(** The tenant when it is deleted. *)
Definition leaving : Cluster :=
  set_Meta {| Name := "dev"; Namespace := "team"; Labels := None; Annotations := None; OwnerReferences := [];
              Finalizers := ["cluster.k3k.io/finalizer"; "other"]; ResourceVersion := ""; UID := "";
              DeletionTimestamp := Some "now" |} Lab.tenant.

Definition leaving_start : ConfigMap * mem :=
  (Lab.ports, Lab.objects [OCluster leaving; bound "k3k-kubelet-node"; bound "k3k-priorityclass";
                           OLease {| lease_Meta := meta_of "team" "dev" |}]).

Lemma finalizeCluster_releases_witness :
  ∃ s', Cluster.finalizeCluster mem_client leaving leaving_start = (Ok None, s') ∧
    (∀ role b, role ∈ Cluster.clusterRoles →
       mem_objects s'.2 !! role_key role = Some (OClusterRoleBinding b) →
       Cluster.clusterSubject leaving ∉ crb_Subjects b) ∧
    Ports.unrecorded s'.1 "team/dev" ∧
    (∀ o, mem_objects s'.2 !! ("Cluster", key_of (cl_Meta leaving)) = Some o →
          Cluster.clusterFinalizerName ∉ Finalizers (obj_meta o)).
Proof.
  destruct (Cluster.finalizeCluster mem_client leaving leaving_start) as [r [cm' w']] eqn:E.
  assert (r = Ok None) as ->.
  { change r with (r, (cm', w')).1. rewrite <- E. vm_compute. reflexivity. }
  exists (cm', w'). split; [reflexivity|].
  opose proof (finalizeCluster_releases mem_client leaving (key_of (cm_Meta Lab.ports)) Lab.ports
                leaving_start.2 (Ok None) cm' w' _ _ _ _ E) as (_ & H1 & _ & H2 & H3).
  - split; [reflexivity|]. intros o Ho. vm_compute in Ho. discriminate.
  - split; [reflexivity|]. intros o Ho. vm_compute in Ho. discriminate.
  - vm_compute. reflexivity.
  - apply (bool_decide_unpack _). vm_compute. exact I.
  - split; [exact H1|]. split; [exact (proj2 (H2 eq_refl eq_refl))|exact H3].
Defined.
End Release.
