(* ===== verification/StatefulSets.v ===== *)
(** * The StatefulSet controller (pkg/controller/cluster/statefulset.go)

    The reconciler that keeps the etcd membership of a cluster in step with its
    server pods: a finalizer on every server pod, taken off once the pod is no
    member any more.  The etcd client, the TLS key pairs and the hostname of a
    parsed URL are parameters ([EtcdLib]), and so is the retry loop of
    client-go. *)

From S2P Require Import Prelude GoStd GoNet K8s Types Kube Effects Names Translate K3s Expose Access Lab Cluster.

Local Open Scope string_scope.

Module StatefulSets.

(** The fields the source reads of an etcd member. *)
Record Member : Type := { ID : Z; MemberName : string; PeerURLs : list string }.
#[export] Instance Member_eq_dec : EqDecision Member.
Proof. solve_decision. Defined.

(** [tls.Config] *)
Record TLSConfig (Cert KeyPair : Type) : Type := { RootCAs : list Cert; Certificates : list KeyPair }.
Arguments RootCAs {_ _}.
Arguments Certificates {_ _}.

Class EtcdLib (W Cert : Type) := {
  KeyPair : Type;
  tls_X509KeyPair : string → string → outcome KeyPair;
  EtcdClient : Type;
  (** [clientv3.New] of the endpoints and the TLS configuration *)
  clientv3_New : list string → TLSConfig Cert KeyPair → outcome EtcdClient;
  MemberList : EtcdClient → M W (list Member);
  MemberRemove : EtcdClient → Z → M W unit;
  (** [url.Parse], then [Hostname] *)
  url_Hostname : string → outcome string;
}.

Definition ErrGRPCMemberNotFound : string := "ErrGRPCMemberNotFound".

(** [controller.Backoff.Steps] *)
Definition Backoff_Steps : nat := 5.

Section StatefulSet.
Context {W : Type} (c : Client W) `{KubeUtil} `{K3s.Transport W} `{K3s.Codec}.
Context {Cert Key : Type} `{Kubeconfig.CertUtil W Cert Key} `{EtcdLib W Cert}.
(** [metav1.LabelSelectorAsSelector] *)
Context (LabelSelectorAsSelector : option LabelSelector → outcome (list requirement)).
(** [retry.OnError] of client-go, for the number of steps of a backoff, when
    every error is retried. *)
Context (retry_OnError : ∀ A, nat → M W A → M W A).

Definition set_pod_Meta (m : ObjectMeta) (pod : Pod) : Pod :=
  {| pod_Meta := m; pod_Spec := pod_Spec pod; pod_PodIP := pod_PodIP pod; pod_Phase := pod_Phase pod |}.

Definition listPods (sts : StatefulSet) : M W (option (list Pod)) :=
  selector ← lift (match LabelSelectorAsSelector (sts_Selector sts) with
                   | Err err => Err (EFmt [EText "failed to create selector from statefulset: "; err])
                   | o => o
                   end);
  let listOpts := {| lo_Namespace := Namespace (sts_Meta sts); lo_Selector := selector; lo_Fields := [] |} in
  r ← attempt (List_ c Pod listOpts);
  match r with
  | inl podList => mret (Some podList)
  | inr err => if IsNotFound err then mret None else fail err
  end.

(** Take the finalizer off a pod, and store the pod if it had it. *)
Definition release_pod (pod : Pod) : M W unit :=
  let '(m, removed) := RemoveFinalizer (pod_Meta pod) Cluster.etcdPodFinalizerName in
  if removed : bool then Update c (set_pod_Meta m pod) ;; mret tt else mret tt.

Definition handleDeletion (sts : StatefulSet) : M W unit :=
  podList ← listPods sts;
  podList ← lift (deref podList);
  for_each podList release_pod ;;
  let '(m, removed) := RemoveFinalizer (sts_Meta sts) Cluster.etcdPodFinalizerName in
  if removed : bool then Update c (with_meta m sts) ;; mret tt else mret tt.

(** The loops of [removePeer] over the URLs of a member and over the members:
    [Some r] is the return from the function. *)
Fixpoint peer_urls (client : EtcdClient) (address : string) (member : Member) (urls : list string)
  : M W (option unit) :=
  match urls with
  | [] => mret None
  | peerURL :: urls' =>
      hostname ← lift (url_Hostname peerURL);
      if decide (hostname = address) then
        r ← attempt (MemberRemove client (ID member));
        match r with
        | inl _ => mret (Some tt)
        | inr err => if errors_is ErrGRPCMemberNotFound err then mret (Some tt) else fail err
        end
      else peer_urls client address member urls'
  end.

Fixpoint remove_from (client : EtcdClient) (name address : string) (members : list Member) : M W unit :=
  match members with
  | [] => mret tt
  | member :: members' =>
      if negb (strings_Contains (MemberName member) name) then remove_from client name address members'
      else
        r ← peer_urls client address member (PeerURLs member);
        match r with
        | Some _ => mret tt
        | None => remove_from client name address members'
        end
  end.

Definition removePeer (client : EtcdClient) (name address : string) : M W unit :=
  members ← MemberList client;
  remove_from client name address members.

Definition getETCDTLS (cluster : Cluster) : M W (TLSConfig Cert KeyPair) :=
  b ← retry_OnError _ Backoff_Steps (Bootstrap.LoadFromSecret c cluster);
  '(etcdCert, etcdKey) ← Kubeconfig.CreateClientCertKey "etcd-client" [] None
     [Kubeconfig.ExtKeyUsageClientAuth] 0 (K3s.Content (K3s.ETCDServerCA b))
     (K3s.Content (K3s.ETCDServerCAKey b));
  clientCert ← lift (tls_X509KeyPair etcdCert etcdKey);
  cert ← lift (Kubeconfig.ParseCertsPEM (K3s.Content (K3s.ETCDServerCA b)));
  root ← lift (deref (head cert));
  mret {| RootCAs := [root]; Certificates := [clientCert] |}.

Definition handleServerPod (cluster : Cluster) (pod : Pod) : M W unit :=
  if negb (is_deleting (pod_Meta pod)) then
    let '(m, added) := AddFinalizer (pod_Meta pod) Cluster.etcdPodFinalizerName in
    if added : bool then Update c (set_pod_Meta m pod) ;; mret tt else mret tt
  else if decide (Name (cl_Meta cluster) = "") then release_pod pod
  else
    tlsConfig ← getETCDTLS cluster;
    client ← lift (clientv3_New
      ["https://" +:+ Expose.ServiceName (Name (cl_Meta cluster)) +:+ "." +:+ Namespace (pod_Meta pod)
       +:+ ":2379"] tlsConfig);
    removePeer client (Name (pod_Meta pod)) (pod_PodIP pod) ;;
    release_pod pod.

(** The rest of the reconciliation, when etcd is in use. *)
Definition reconcile_pods (cluster : Cluster) (podList : list Pod) : M W unit :=
  clusterToken ← Token.GetClusterToken c cluster;
  let k3sClient := K3s.New (K3s.server_config
    (Expose.ServiceName (Name (cl_Meta cluster)) +:+ "." +:+ Namespace (cl_Meta cluster)) clusterToken) in
  config ← K3s.GetServerConfig k3sClient;
  config ← lift (deref config);
  if negb (K3s.ClusterInit config) then mret tt
  else for_each podList (handleServerPod cluster).

Definition Reconcile (req : NamespacedName) : M W unit :=
  r ← attempt (Get c StatefulSet req);
  match r with
  | inr err => if IsNotFound err then mret tt else fail err
  | inl sts =>
      r ← attempt (Get c Cluster (Virtual.clusterNamespacedName (sts_Meta sts)));
      cluster ← (match r with
                 | inl cluster => mret cluster
                 | inr err => if negb (IsNotFound err) then fail err else mret zero_Cluster
                 end);
      if is_deleting (sts_Meta sts) then handleDeletion sts
      else
        podList ← listPods sts;
        podList ← lift (deref podList);
        match podList with
        | [serverPod] =>
            if is_deleting (pod_Meta serverPod) then release_pod serverPod
            else reconcile_pods cluster podList
        | _ => reconcile_pods cluster podList
        end
  end.
End StatefulSet.

(** ** The membership of etcd

    The members as etcd keeps them: listing tells them, a removal that succeeds
    takes one away, and one that fails may have been carried out all the same.
    What the reconciler does elsewhere leaves them alone. *)
Definition without (id : Z) (l : list Member) : list Member :=
  List.filter (λ m, negb (bool_decide (ID m = id))) l.

Class Membership {W Cert} (c : Client W) `{!ClientLaws c} `{EtcdLib W Cert} := {
  members : W → list Member;
  MemberList_law ec w r w' :
    MemberList ec w = (r, w') →
    store w' = store w ∧ members w' = members w ∧ match r with Ok l => l = members w | _ => True end;
  MemberRemove_law ec id w r w' :
    MemberRemove ec id w = (r, w') →
    store w' = store w ∧
    match r with
    | Ok _ => members w' = without id (members w)
    | Err e => if errors_is ErrGRPCMemberNotFound e
               then members w' = members w ∧ without id (members w) = members w
               else members w' = members w ∨ members w' = without id (members w)
    | Panic => members w' = members w
    end;
  Get_members k n w : members (client_Get c k n w).2 = members w;
  List_members k o w : members (client_List c k o w).2 = members w;
  Update_members o w : members (client_Update c o w).2 = members w;
}.

Section Members.
Context {W : Type} (c : Client W) `{!ClientLaws c}.
Context {Cert : Type} `{EtcdLib W Cert} `{!Membership c}.

(** The members that [removePeer] looks for. *)
Definition matches (name address : string) (m : Member) : Prop :=
  strings_Contains (MemberName m) name = true ∧ ∃ u, u ∈ PeerURLs m ∧ url_Hostname u = Ok address.

Lemma without_in id m l : m ∈ without id l ↔ m ∈ l ∧ ID m ≠ id.
Proof. unfold without. rewrite !list_elem_of_In, List.filter_In, negb_true_iff, bool_decide_eq_false. done. Qed.

Lemma without_same id l m : without id l = l → m ∈ l → ID m ≠ id.
Proof. intros E Hm. rewrite <- E in Hm. by apply without_in in Hm as [_ ?]. Qed.

(** What a removal of the member [m] may leave. *)
Definition one_less (m : Member) (w w' : W) : Prop :=
  members w' = members w ∨ members w' = without (ID m) (members w).

Lemma peer_urls_run ec address m urls w r w' :
  peer_urls ec address m urls w = (r, w') →
  store w' = store w ∧ one_less m w w' ∧
  match r with
  | Ok None => members w' = members w ∧ ∀ u, u ∈ urls → url_Hostname u ≠ Ok address
  | Ok (Some _) => (∃ u, u ∈ urls ∧ url_Hostname u = Ok address) ∧ ∀ m', m' ∈ members w' → ID m' ≠ ID m
  | _ => members w' ≠ members w → ∃ u, u ∈ urls ∧ url_Hostname u = Ok address
  end.
Proof.
  unfold one_less. induction urls as [|u urls IH]; intros E; cbn in E.
  { injection E as <- <-. split_and!; [done|by left|done|]. intros u Hu. by apply elem_of_nil in Hu. }
  unfold mbind at 1, M_bind at 1, lift in E. destruct (url_Hostname u) as [host|e|] eqn:Eu.
  2,3: injection E as <- <-; split_and!; [done|by left|done].
  case_decide as Hh; [subst host|].
  - unfold mbind, M_bind, attempt in E. destruct (MemberRemove ec (ID m) w) as [r1 w1] eqn:E1.
    apply MemberRemove_law in E1 as [Hs Hr1].
    assert (∃ u', u' ∈ u :: urls ∧ url_Hostname u' = Ok address) as Hex by (exists u; split; [left|done]).
    destruct r1 as [[]|e|].
    + injection E as <- <-. split_and!; [done|by right|done|]. intros m'. rewrite Hr1, without_in. tauto.
    + destruct (errors_is _ e); injection E as <- <-; [|split_and!; [done|exact Hr1|intros _; exact Hex]].
      destruct Hr1 as [Hm Hw]. split_and!; [done|by left|done|]. intros m'. rewrite Hm. by apply without_same.
    + injection E as <- <-. split_and!; [done|by left|done].
  - apply IH in E as (Hs & Hl & Hr). split_and!; [done..|].
    destruct r as [[[]|]|e|].
    + destruct Hr as [(u' & Hu & ?) ?]. split; [|done]. exists u'. split; [by right|done].
    + destruct Hr as [? Hno]. split; [done|]. intros u' [->|Hu]%elem_of_cons; [congruence|by apply Hno].
    + intros Hne. destruct (Hr Hne) as (u' & Hu & ?). exists u'. split; [by right|done].
    + intros Hne. destruct (Hr Hne) as (u' & Hu & ?). exists u'. split; [by right|done].
Qed.

Lemma remove_from_run ec name address l w r w' :
  remove_from ec name address l w = (r, w') →
  store w' = store w ∧
  (members w' = members w ∨
   ∃ m, m ∈ l ∧ matches name address m ∧ members w' = without (ID m) (members w)) ∧
  (r = Ok tt → ∀ m0, m0 ∈ l → matches name address m0 →
     ∃ m, m ∈ l ∧ matches name address m ∧ ∀ m', m' ∈ members w' → ID m' ≠ ID m).
Proof.
  induction l as [|m l IH] in w |- *; intros E; cbn in E.
  { injection E as <- <-. split_and!; [done|by left|]. intros _ m0 Hm. by apply elem_of_nil in Hm. }
  assert (∀ P : Member → Prop, (∃ m', m' ∈ l ∧ P m') → ∃ m', m' ∈ m :: l ∧ P m') as Hcons.
  { intros P (m' & ? & ?). exists m'. split; [by right|done]. }
  destruct (strings_Contains (MemberName m) name) eqn:Ec; cbn [negb] in E.
  2:{ apply IH in E as (Hs & Hl & Hr). split_and!; [done|naive_solver|]. intros Hok m0 [->|Hm]%elem_of_cons Hm0.
      - destruct Hm0. congruence.
      - by apply Hcons, (Hr Hok m0). }
  unfold mbind, M_bind in E. destruct (peer_urls ec address m (PeerURLs m) w) as [r1 w1] eqn:E1.
  apply peer_urls_run in E1 as (Hs1 & Hl1 & Hr1).
  assert ((∃ u, u ∈ PeerURLs m ∧ url_Hostname u = Ok address) → matches name address m) as Hmatch by done.
  assert (r1 ≠ Ok None → r1 ≠ Ok None ∧ (members w1 = members w ∨
            ∃ m', m' ∈ m :: l ∧ matches name address m' ∧ members w1 = without (ID m') (members w))) as Hcase.
  { intros Hne. split; [done|]. destruct (decide (members w1 = members w)) as [|Hd]; [by left|]. right.
    exists m. split; [left|]. destruct Hl1 as [|Hl1]; [done|]. split; [|done]. apply Hmatch.
    destruct r1 as [[[]|]|e|]; [apply Hr1|done|by apply Hr1..]. }
  destruct r1 as [[[]|]|e|].
  - injection E as <- <-. destruct Hcase as [_ Hl]; [done|]. split_and!; [done..|]. intros _ m0 _ _.
    exists m. split; [left|]. destruct Hr1. auto.
  - destruct Hr1 as [Hm1 Hno]. apply IH in E as (Hs & Hl & Hr). rewrite Hs, Hs1. rewrite Hm1 in Hl.
    split_and!; [done|naive_solver|]. intros Hok m0 [->|Hm]%elem_of_cons Hm0.
    + destruct Hm0 as (_ & u & Hu & Hu'). by destruct (Hno u Hu).
    + by apply Hcons, (Hr Hok m0).
  - injection E as <- <-. destruct Hcase as [_ Hl]; [done|]. by split_and!.
  - injection E as <- <-. destruct Hcase as [_ Hl]; [done|]. by split_and!.
Qed.

(** A server leaves etcd under its own name and address: at most one member is
    removed, one whose name contains the name of the pod and that listens on its
    address, and the others stay.  When the call succeeds and there is such a
    member, one of them is gone. *)
Theorem removePeer_spec ec name address w r w' :
  removePeer ec name address w = (r, w') →
  store w' = store w ∧
  (members w' = members w ∨
   ∃ m, m ∈ members w ∧ matches name address m ∧ members w' = without (ID m) (members w)) ∧
  (r = Ok tt → ∀ m0, m0 ∈ members w → matches name address m0 →
     ∃ m, m ∈ members w ∧ matches name address m ∧ ∀ m', m' ∈ members w' → ID m' ≠ ID m).
Proof.
  intros E. unfold removePeer, mbind, M_bind in E. destruct (MemberList ec w) as [r1 w1] eqn:E1.
  apply MemberList_law in E1 as (Hs & Hm & Hr1). destruct r1 as [l|e|].
  2,3: injection E as <- <-; split_and!; [done|by left|done].
  subst l. apply remove_from_run in E. by rewrite Hs, Hm in E.
Qed.
End Members.

(** ** A server leaves etcd before it leaves the cluster *)
Section Departure.
Context {W : Type} (c : Client W) `{!ClientLaws c} `{KubeUtilLaws} `{K3s.Transport W} `{K3s.Codec}.
Context {Cert Key : Type} `{Kubeconfig.CertUtil W Cert Key} `{EtcdLib W Cert} `{!Membership c}.
Context (LabelSelectorAsSelector : option LabelSelector → outcome (list requirement)).
Context (retry_OnError : ∀ A, nat → M W A → M W A).

(** Neither the stored objects nor the members change. *)
Definition same_world (w w' : W) : Prop := store w' = store w ∧ members w' = members w.
#[local] Instance same_world_preorder : PreOrder same_world.
Proof using. split; [by intros w|]. intros w1 w2 w3 [] []. split; congruence. Qed.
Abbreviation calm := (stable same_world).

Context (Htransport : ∀ req, calm (K3s.httpClient_Do req)).
Context (Hmakekey : calm Kubeconfig.MakeEllipticPrivateKeyPEM).
Context (Hsign : ∀ cn org dns u ips e k ca cak, calm (Kubeconfig.NewSignedCert cn org dns u ips e k ca cak)).
Context (Hretry : ∀ A n (m : M W A), calm m → calm (retry_OnError A n m)).

Lemma calm_Get T `{Resource T} n : calm (Get c T n).
Proof.
  intros w r w' E. pose proof E as Hs. apply (Get_run c) in Hs as [Hs _]. split; [done|].
  unfold Get, mbind, M_bind in E. pose proof (Get_members (c:=c) (kind T) n w) as Hm.
  destruct (client_Get c (kind T) n w) as [[o|e|] w1]; cbn in Hm; [|by injection E as _ <-..].
  unfold as_typed in E. destruct (prj o); by injection E as _ <-.
Qed.

Lemma calm_List T `{Resource T} opts : lo_Fields opts = [] → calm (List_ c T opts).
Proof.
  intros Hf w r w' E. pose proof E as Hs. apply (List_run c) in Hs as [Hs _]; [|done]. split; [done|].
  unfold List_, mbind, M_bind in E. pose proof (List_members (c:=c) (kind T) opts w) as Hm.
  destruct (client_List c (kind T) opts w) as [[o|e|] w1]; by injection E as _ <-.
Qed.

Lemma calm_LoadFromSecret cluster : calm (Bootstrap.LoadFromSecret c cluster).
Proof. unfold Bootstrap.LoadFromSecret. walk. exact (calm_Get Secret _). Qed.

Lemma calm_GetClusterToken cluster : calm (Token.GetClusterToken c cluster).
Proof. unfold Token.GetClusterToken. walk; exact (calm_Get Secret _). Qed.

Lemma calm_GetServerConfig k : calm (K3s.GetServerConfig k).
Proof. unfold K3s.GetServerConfig, K3s.do_, K3s.do_request. walk. apply Htransport. Qed.

Lemma calm_getETCDTLS cluster : calm (getETCDTLS c retry_OnError cluster).
Proof.
  unfold getETCDTLS, Kubeconfig.CreateClientCertKey, Kubeconfig.generateKey. walk; try done.
  apply Hretry, calm_LoadFromSecret.
Qed.

Lemma calm_listPods sts : calm (listPods c LabelSelectorAsSelector sts).
Proof. unfold listPods. walk. by apply calm_List. Qed.

(** The pods that [listPods] finds. *)
Lemma listPods_run sts w l w' :
  listPods c LabelSelectorAsSelector sts w = (Ok (Some l), w') →
  ∃ reqs, LabelSelectorAsSelector (sts_Selector sts) = Ok reqs ∧
    ∀ p, p ∈ l ↔ store w !! obj_key (inj p) = Some (OPod p) ∧
         selected {| lo_Namespace := Namespace (sts_Meta sts); lo_Selector := reqs; lo_Fields := [] |}
           (OPod p) = true.
Proof.
  unfold listPods. intros E. apply bind_inv_ok in E as (reqs & w1 & E1 & E).
  destruct (LabelSelectorAsSelector _) as [reqs'|e|]; [|done..]. injection E1 as -> ->.
  apply bind_inv_ok in E as (r & w2 & E2 & E). apply attempt_inv in E2.
  destruct r as [l'|e]; [|by destruct (IsNotFound e)]. injection E as -> ->.
  apply (List_run c) in E2 as (_ & _ & _ & Hl); [|done]. exists reqs. split; [done|]. apply Hl.
Qed.

(** *** One pod *)
Context (pod : Pod) (Hdeleting : is_deleting (pod_Meta pod) = true).
Context (M0 : list Member).
Context (Hone : ∀ m1 m2, m1 ∈ M0 → m2 ∈ M0 → matches (Name (pod_Meta pod)) (pod_PodIP pod) m1 →
                  matches (Name (pod_Meta pod)) (pod_PodIP pod) m2 → ID m1 = ID m2).

(** No member is left that belongs to the pod. *)
Definition departed (w : W) : Prop :=
  ∀ m, m ∈ members w → ¬ matches (Name (pod_Meta pod)) (pod_PodIP pod) m.

(** The pod is as it was, or it has left etcd. *)
Definition safe (w : W) : Prop :=
  members w ⊆ M0 ∧ (store w !! obj_key (OPod pod) = Some (OPod pod) ∨ departed w).

Lemma safe_calm {A} (m : M W A) : calm m → hoare safe m (λ _, safe) (λ _, safe).
Proof.
  intros Hm. apply hoare_of_run. intros w r w' Hw E. destruct (Hm _ _ _ E) as [Hs He].
  assert (safe w'); [|by split; destruct r]. unfold safe, departed in *. by rewrite Hs, He.
Qed.

Lemma Update_calm_members {T} `{Resource T} (x : T) w r w' : Update c x w = (r, w') → members w' = members w.
Proof.
  unfold Update, mbind, M_bind. pose proof (Update_members (c:=c) (inj x) w) as Hm.
  destruct (client_Update c (inj x) w) as [[o|e|] w1]; cbn in Hm; [|by intros [= _ <-]..].
  unfold as_typed. destruct (prj o); by intros [= _ <-].
Qed.

(** An update of another object, or of the pod once it has left. *)
Lemma safe_Update {T} `{Resource T} (x : T) :
  obj_key (inj x) ≠ obj_key (OPod pod) → hoare safe (Update c x) (λ _, safe) (λ _, safe).
Proof.
  intros Hk. apply hoare_of_run. intros w r w' [Hm Hor] E. pose proof (Update_calm_members _ _ _ _ E) as He.
  assert (store w' !! obj_key (OPod pod) = store w !! obj_key (OPod pod)) as Hs.
  { eapply (confined_frame c (λ i, i = obj_key (inj x))); [|exact E|congruence]. by apply confined_Update. }
  assert (safe w'); [|by split; destruct r]. unfold safe, departed in *. by rewrite He, Hs.
Qed.

Lemma departed_Update {T} `{Resource T} (x : T) :
  hoare (λ w, members w ⊆ M0 ∧ departed w) (Update c x) (λ _, safe) (λ _, safe).
Proof.
  apply hoare_of_run. intros w r w' [Hm Hd] E. pose proof (Update_calm_members _ _ _ _ E) as He.
  assert (safe w'); [|by split; destruct r]. unfold safe, departed in *. rewrite He. auto.
Qed.

Lemma without_subset id l : without id l ⊆ l.
Proof using. intros m [? _]%without_in. done. Qed.

(** Removing the peer of another pod is safe. *)
Lemma safe_removePeer ec name address : hoare safe (removePeer ec name address) (λ _, safe) (λ _, safe).
Proof.
  apply hoare_of_run. intros w r w' [Hm Hor] E.
  unfold removePeer, mbind, M_bind in E. destruct (MemberList ec w) as [r1 w1] eqn:E1.
  apply (MemberList_law (c:=c)) in E1 as (Hs & He & Hr1).
  assert (store w' = store w ∧ members w' ⊆ members w) as [Hs' Hsub].
  { destruct r1 as [l|e|]; [|by injection E as <- <-; rewrite He..].
    apply (remove_from_run c) in E as (Hs2 & Hl & _). rewrite Hs2, Hs. split; [done|]. rewrite <- He.
    destruct Hl as [->|(m & _ & _ & ->)]; [done|apply without_subset]. }
  assert (safe w'); [|by split; destruct r]. split; [by etrans|]. rewrite Hs'.
  destruct Hor as [|Hd]; [by left|right]. intros m Hin. by apply Hd, Hsub.
Qed.

(** Removing its own peer lets the pod go. *)
Lemma departed_removePeer ec :
  hoare safe (removePeer ec (Name (pod_Meta pod)) (pod_PodIP pod))
    (λ _ w, members w ⊆ M0 ∧ departed w) (λ _, safe).
Proof.
  intros w Hw. pose proof (safe_removePeer ec (Name (pod_Meta pod)) (pod_PodIP pod) w Hw) as Hsafe.
  destruct (removePeer ec _ _ w) as [r w'] eqn:E. destruct r as [[]|e|]; [|exact Hsafe..].
  destruct Hsafe as [Hm _]. split; [done|]. destruct Hw as [Hm0 _].
  unfold removePeer, mbind, M_bind in E. destruct (MemberList ec w) as [r1 w1] eqn:E1.
  apply (MemberList_law (c:=c)) in E1 as (_ & He & Hr1). destruct r1 as [l|e|]; [|done..]. subst l.
  apply (remove_from_run c) in E as (_ & Hl & Hgone). rewrite He in Hl. intros m Hin Hmatch.
  assert (members w' ⊆ members w) as Hsub by (destruct Hl as [->|(? & _ & _ & ->)]; [done|apply without_subset]).
  destruct (Hgone eq_refl m (Hsub _ Hin) Hmatch) as (m1 & Hin1 & Hmatch1 & Hno).
  apply (Hno m Hin). apply Hone; auto.
Qed.

Lemma safe_release p :
  obj_key (OPod p) ≠ obj_key (OPod pod) → hoare safe (release_pod c p) (λ _, safe) (λ _, safe).
Proof.
  intros Hk. unfold release_pod. rewrite RemoveFinalizer_law. case_decide; [|by apply hoare_ret].
  eapply hoare_bind; [by apply (safe_Update (T:=Pod))|]. intros. by apply hoare_ret.
Qed.

Lemma departed_release p :
  hoare (λ w, members w ⊆ M0 ∧ departed w) (release_pod c p) (λ _, safe) (λ _, safe).
Proof.
  unfold release_pod. destruct (RemoveFinalizer _ _) as [m []].
  - eapply hoare_bind; [by apply departed_Update|]. intros. by apply hoare_ret.
  - apply hoare_ret. intros w [? ?]. split; [done|by right].
Qed.

Lemma safe_handleServerPod cluster p :
  Name (cl_Meta cluster) ≠ "" → (obj_key (OPod p) = obj_key (OPod pod) → p = pod) →
  hoare safe (handleServerPod c retry_OnError cluster p) (λ _, safe) (λ _, safe).
Proof.
  intros Hn Hp. unfold handleServerPod. destruct (is_deleting (pod_Meta p)) eqn:Hd; cbn [negb].
  - rewrite decide_False by done. eapply hoare_bind; [apply safe_calm, calm_getETCDTLS|]. intros tls; cbn beta.
    apply hoare_lift_bind; [done|]. intros ec _.
    destruct (decide (obj_key (OPod p) = obj_key (OPod pod))) as [Hk|Hk].
    + rewrite (Hp Hk). eapply hoare_bind; [apply departed_removePeer|]. intros []. apply departed_release.
    + eapply hoare_bind; [apply safe_removePeer|]. intros []. by apply safe_release.
  - assert (obj_key (OPod p) ≠ obj_key (OPod pod)) as Hk by (intros Hk; rewrite (Hp Hk) in Hd; congruence).
    rewrite AddFinalizer_law. case_decide; [by apply hoare_ret|].
    eapply hoare_bind; [by apply (safe_Update (T:=Pod))|]. intros. by apply hoare_ret.
Qed.

Lemma safe_reconcile_pods cluster l :
  Name (cl_Meta cluster) ≠ "" → (∀ p, p ∈ l → obj_key (OPod p) = obj_key (OPod pod) → p = pod) →
  hoare safe (reconcile_pods c retry_OnError cluster l) (λ _, safe) (λ _, safe).
Proof.
  intros Hn Hl. unfold reconcile_pods.
  eapply hoare_bind; [apply safe_calm, calm_GetClusterToken|]. intros token; cbn beta.
  eapply hoare_bind; [apply safe_calm, calm_GetServerConfig|]. intros config; cbn beta.
  apply hoare_lift_bind; [done|]. intros cfg _. destruct (negb _); [by apply hoare_ret|].
  apply hoare_for_each. intros p Hp. apply safe_handleServerPod; auto.
Qed.

(** The part of the reconciliation that follows the reads. *)
Lemma safe_rest w sts cluster pod2 reqs :
  Name (cl_Meta cluster) ≠ "" → M0 = members w →
  store w !! obj_key (OPod pod) = Some (OPod pod) →
  store w !! obj_key (OPod pod2) = Some (OPod pod2) → pod2 ≠ pod →
  LabelSelectorAsSelector (sts_Selector sts) = Ok reqs →
  selected {| lo_Namespace := Namespace (sts_Meta sts); lo_Selector := reqs; lo_Fields := [] |} (OPod pod2)
    = true →
  hoare (same_world w)
    (podList ← listPods c LabelSelectorAsSelector sts;
     podList ← lift (deref podList);
     match podList with
     | [serverPod] =>
         if is_deleting (pod_Meta serverPod) then release_pod c serverPod
         else reconcile_pods c retry_OnError cluster podList
     | _ => reconcile_pods c retry_OnError cluster podList
     end) (λ _, safe) (λ _, safe).
Proof.
  intros Hn HM Hpod Hpod2 Hne Hreqs Hsel.
  assert (∀ w1, same_world w w1 → safe w1) as Hcalm.
  { intros w1 [Hs Hm]. unfold safe. rewrite Hs, Hm, HM. auto. }
  intros w1 Hw1. unfold mbind at 1, M_bind at 1.
  destruct (listPods _ _ sts w1) as [r w2] eqn:E. pose proof (calm_listPods _ _ _ _ E) as Hw2.
  assert (same_world w w2) as Hw by (by etrans). destruct r as [l|e|]; [|by apply Hcalm..].
  destruct l as [l|]; [|by apply Hcalm]. apply listPods_run in E as (reqs' & Hr & Hl).
  assert (reqs' = reqs) as -> by congruence. destruct Hw1 as [Hs1 _]. rewrite Hs1 in Hl.
  assert (∀ p, p ∈ l → obj_key (OPod p) = obj_key (OPod pod) → p = pod) as Hsame.
  { intros p [Hp _]%Hl Hk. change (inj p) with (OPod p) in Hp. rewrite Hk, Hpod in Hp. congruence. }
  assert (pod2 ∈ l) as Hin2 by (by apply Hl).
  assert (obj_key (OPod pod2) ≠ obj_key (OPod pod)) as Hk2 by (intros Hk; by apply Hne, Hsame).
  enough (hoare safe (match l with
     | [serverPod] =>
         if is_deleting (pod_Meta serverPod) then release_pod c serverPod
         else reconcile_pods c retry_OnError cluster l
     | _ => reconcile_pods c retry_OnError cluster l
     end) (λ _, safe) (λ _, safe)) as Hh by exact (Hh w2 (Hcalm _ Hw)).
  destruct l as [|p [|p' l]]; try by apply safe_reconcile_pods.
  destruct (is_deleting (pod_Meta p)); [|by apply safe_reconcile_pods].
  apply list_elem_of_singleton in Hin2 as <-. by apply safe_release.
Qed.

(** C9: While the StatefulSet has another server, and the cluster is there, a server
    pod that is deleted is not touched before it has left etcd: as soon as the
    stored pod differs, whatever the run ended with, no member of etcd has its
    name and its address.  (The members that do are supposed to be one.) *)
Theorem Reconcile_leaves_etcd_first req w r w' sts cluster pod2 reqs :
  store w !! (("StatefulSet", req) : ObjKey) = Some (OStatefulSet sts) →
  is_deleting (sts_Meta sts) = false →
  store w !! (("Cluster", Virtual.clusterNamespacedName (sts_Meta sts)) : ObjKey) = Some (OCluster cluster) →
  Name (cl_Meta cluster) ≠ "" → M0 = members w →
  store w !! obj_key (OPod pod) = Some (OPod pod) →
  store w !! obj_key (OPod pod2) = Some (OPod pod2) → pod2 ≠ pod →
  LabelSelectorAsSelector (sts_Selector sts) = Ok reqs →
  selected {| lo_Namespace := Namespace (sts_Meta sts); lo_Selector := reqs; lo_Fields := [] |} (OPod pod2)
    = true →
  Reconcile c LabelSelectorAsSelector retry_OnError req w = (r, w') →
  store w' !! obj_key (OPod pod) ≠ Some (OPod pod) → departed w'.
Proof.
  intros Hsts Hd Hcl Hn HM Hpod Hpod2 Hne Hreqs Hsel E Hch.
  assert (safe w') as [_ Hsafe]; [|by destruct Hsafe]. clear Hch.
  assert (∀ w1, same_world w w1 → safe w1) as Hcalm.
  { intros w1 [Hs Hm]. unfold safe. rewrite Hs, Hm, HM. auto. }
  unfold Reconcile, mbind at 1, M_bind at 1, attempt in E.
  destruct (Get c StatefulSet req w) as [r1 w1] eqn:E1. pose proof (calm_Get _ _ _ _ _ E1) as Hw1.
  apply (Get_run c) in E1 as (_ & _ & Hr1). destruct r1 as [sts'|e|]; [| |done].
  2:{ destruct (IsNotFound e); by injection E as _ <-; apply Hcalm. }
  destruct Hr1 as [Hr1 _]. assert (sts' = sts) as -> by (pose proof (eq_trans (eq_sym Hr1) Hsts) as Hx; by injection Hx).
  clear Hr1. cbn in E. unfold mbind at 1, M_bind at 1, attempt in E.
  destruct (Get c Cluster _ w1) as [r2 w2] eqn:E2. pose proof (calm_Get _ _ _ _ _ E2) as Hw2.
  assert (same_world w w2) as Hw12 by (by etrans). apply (Get_run c) in E2 as (_ & _ & Hr2).
  rewrite (proj1 Hw1) in Hr2. destruct r2 as [cluster'|e|]; [| |done].
  2:{ destruct (IsNotFound e) eqn:He; [by pose proof (eq_trans (eq_sym Hr2) Hcl)|].
      cbn in E. injection E as _ <-. by apply Hcalm. }
  destruct Hr2 as [Hr2 _].
  assert (cluster' = cluster) as -> by (pose proof (eq_trans (eq_sym Hr2) Hcl) as Hx; by injection Hx).
  cbn in E. rewrite Hd in E.
  pose proof (safe_rest w sts cluster pod2 reqs Hn HM Hpod Hpod2 Hne Hreqs Hsel w2 Hw12) as Hrest.
  rewrite bind_ret in E. rewrite E in Hrest. by destruct r.
Qed.
End Departure.

(** ** A concrete run

    The host and the virtual cluster of the laboratory next to the members of an
    etcd. *)
Definition world : Type := Lab.world * list Member.
Definition host : Client world := Lab.fst_client Lab.host.

#[local] Existing Instances Lab.lab_codec Lab.fst_laws.
#[local] Instance demo_transport : K3s.Transport world := {
  K3s.NewRequest _ _ := None;
  K3s.httpClient_Do req := Lab.on_fst (K3s.httpClient_Do (Transport:=Lab.lab_transport) req) }.
#[local] Instance demo_certs : Kubeconfig.CertUtil world string string := {
  Kubeconfig.ParsePrivateKeyPEM s := Ok s;
  Kubeconfig.ParseCertsPEM s := Ok [s];
  Kubeconfig.MakeEllipticPrivateKeyPEM := mret "key";
  Kubeconfig.NewSignedCert cn _ _ _ _ _ _ ca _ := mret (cn +:+ " signed by " +:+ ca);
  Kubeconfig.EncodeCertPEM s := s;
}.
(** A peer URL is a bare host. *)
#[local] Instance demo_etcd : EtcdLib world string := {
  KeyPair := string * string;
  tls_X509KeyPair c k := Ok (c, k);
  EtcdClient := unit;
  clientv3_New _ _ := Ok tt;
  MemberList _ := λ w, (Ok w.2, w);
  MemberRemove _ id := λ w, (Ok tt, (w.1, without id w.2));
  url_Hostname s := Ok s;
}.
#[local] Program Instance demo_membership : Membership host := {| members w := w.2 |}.
Next Obligation. intros ec w r w' [= <- <-]. done. Qed.
Next Obligation. intros ec id w r w' [= <- <-]. done. Qed.
Next Obligation. intros k n w. cbn. unfold Lab.on_fst. by destruct (mem_get k n w.1.1). Qed.
Next Obligation. intros k o w. cbn. unfold Lab.on_fst. by destruct (mem_list k o w.1.1). Qed.
Next Obligation. intros o w. cbn. unfold Lab.on_fst. by destruct (mem_update o w.1.1). Qed.

(** The selector keeps its equalities; every retry succeeds at once or not. *)
Definition demo_selector (s : option LabelSelector) : outcome (list requirement) :=
  Ok [ReqEquals "role" "server"].
Definition demo_retry A (_ : nat) (m : M world A) : M world A := m.

Definition demo_meta (n : string) (gone : option string) : ObjectMeta := {|
  Name := n; Namespace := "team"; Labels := map_lit [("role", "server"); (Translate.ClusterNameLabel, "dev")];
  Annotations := None; OwnerReferences := []; Finalizers := [Cluster.etcdPodFinalizerName];
  ResourceVersion := ""; UID := ""; DeletionTimestamp := gone |}.
Definition demo_pod (n ip : string) (gone : option string) : Pod := {|
  pod_Meta := demo_meta n gone;
  pod_Spec := {| ps_Affinity := None; ps_NodeSelector := None; ps_PriorityClassName := ""; ps_HostNetwork := false;
                 ps_DNSPolicy := ""; ps_ServiceAccountName := ""; ps_Volumes := []; ps_Containers := [];
                 ps_SecurityContext := None; ps_RuntimeClassName := None; ps_HostUsers := None;
                 ps_Resources := None; ps_ImagePullSecrets := []; ps_NodeName := ""; ps_Extra := no_extra |};
  pod_PodIP := ip; pod_Phase := "" |}.
Definition leaving : Pod := demo_pod "server-0" "10.0.0.1" (Some "now").
Definition staying : Pod := demo_pod "server-1" "10.0.0.2" None.
Definition demo_sts : StatefulSet := {|
  sts_Meta := demo_meta "server" None; sts_Replicas := None; sts_ServiceName := ""; sts_Selector := None;
  sts_PodManagementPolicy := ""; sts_Template := {| tpl_Labels := None; tpl_Annotations := None;
    tpl_Spec := pod_Spec staying |}; sts_VolumeClaimTemplates := [] |}.
Definition demo_member (id : Z) (n ip : string) : Member := {| ID := id; MemberName := n; PeerURLs := [ip] |}.
Definition demo_start : world :=
  ((Lab.objects [OStatefulSet demo_sts; OCluster Lab.tenant; OPod leaving; OPod staying;
                 OSecret (Token.TokenSecretObj "secret" "dev" "team");
                 OSecret {| sec_Meta := meta_of "team" (nn_Name (Bootstrap.bootstrap_key Lab.tenant)); sec_Type := "Opaque";
                            sec_Data := map_lit [("bootstrap", "a,b,c,d,e,f")] |}], Lab.objects []),
   [demo_member 1 "server-0-abc" "10.0.0.1"; demo_member 2 "server-1-def" "10.0.0.2"]).
Definition demo_req : NamespacedName := {| nn_Namespace := "team"; nn_Name := "server" |}.

Lemma removePeer_spec_witness :
  ∃ w', removePeer (H3:=demo_etcd) tt "server-0" "10.0.0.1" demo_start = (Ok tt, w') ∧
    ∀ m, m ∈ members (c:=host) w' → ID m ≠ 1%Z.
Proof.
  destruct (removePeer (H3:=demo_etcd) tt "server-0" "10.0.0.1" demo_start) as [r w'] eqn:E.
  assert (r = Ok tt) as ->. { change r with (r, w').1. rewrite <- E. vm_compute. reflexivity. }
  exists w'. split; [reflexivity|].
  destruct (removePeer_spec host (H:=demo_etcd) tt _ _ _ _ _ E) as (_ & _ & Hgone).
  destruct (Hgone eq_refl (demo_member 1 "server-0-abc" "10.0.0.1")) as (m & Hm & Hmatch & Hno).
  - left.
  - split; [vm_compute; reflexivity|]. exists "10.0.0.1". split; [left|reflexivity].
  - assert (ID m = 1%Z) as <-; [|exact Hno]. destruct Hmatch as (_ & u & Hu & Hip).
    cbn in Hm. apply elem_of_cons in Hm as [->|Hm]; [reflexivity|].
    apply list_elem_of_singleton in Hm as ->. apply list_elem_of_singleton in Hu as ->. discriminate Hip.
Defined.

Lemma demo_same_world (w w' : world) : w' = (w.1, w.2) → same_world host w w'.
Proof. intros ->. split; reflexivity. Qed.
Lemma demo_transport_calm req : stable (same_world host) (K3s.httpClient_Do (W:=world) req).
Proof. intros w r w' E. apply demo_same_world. cbn in E. unfold Lab.on_fst in E. cbn in E. by injection E as _ <-. Qed.
Lemma demo_mret_calm {A} (a : A) : stable (same_world host) (mret a).
Proof. intros w r w' E. apply demo_same_world. injection E as _ <-. by destruct w. Qed.

Lemma Reconcile_leaves_etcd_first_witness :
  ∃ w', Reconcile host demo_selector demo_retry demo_req demo_start = (Ok tt, w') ∧
    mem_objects w'.1.1 !! obj_key (OPod leaving) ≠ Some (OPod leaving) ∧
    departed host leaving w'.
Proof.
  destruct (Reconcile host demo_selector demo_retry demo_req demo_start) as [r w'] eqn:E.
  assert (r = Ok tt) as ->. { change r with (r, w').1. rewrite <- E. vm_compute. reflexivity. }
  assert (mem_objects w'.1.1 !! obj_key (OPod leaving) ≠ Some (OPod leaving)) as Hch.
  { change w' with (Ok tt, w').2. rewrite <- E. vm_compute. discriminate. }
  exists w'. split; [reflexivity|]. split; [exact Hch|].
  refine (Reconcile_leaves_etcd_first host demo_selector demo_retry _ _ _ _ leaving eq_refl
            (members (c:=host) demo_start) _ demo_req demo_start (Ok tt) w' demo_sts Lab.tenant staying
            [ReqEquals "role" "server"] _ _ _ _ eq_refl _ _ _ _ _ E Hch).
  1: exact demo_transport_calm.
  1: apply demo_mret_calm.
  1: intros; apply demo_mret_calm.
  1: intros A n m Hm; exact Hm.
  2-10: vm_compute; first [reflexivity|discriminate].
  intros m1 m2 Hm1 Hm2 (_ & u1 & Hu1 & Hip1) (_ & u2 & Hu2 & Hip2).
  apply elem_of_cons in Hm1 as [->|Hm1]; [|apply list_elem_of_singleton in Hm1 as ->];
    (apply elem_of_cons in Hm2 as [->|Hm2]; [|apply list_elem_of_singleton in Hm2 as ->]);
    try reflexivity; apply list_elem_of_singleton in Hu1 as ->; apply list_elem_of_singleton in Hu2 as ->;
    first [discriminate Hip1|discriminate Hip2].
Defined.
End StatefulSets.
