(* ===== verification/Snapshot.v ===== *)
(** * The snapshot controller (pkg/controller/snapshot)

    snapshot.go and s3.go: the reconciler that asks the k3s server of a cluster
    to save and to delete its etcd snapshots.  The code passes one
    [*EtcdSnapshot] to every step, and the writes overwrite it with the answer of
    the server, so the computations carry it as a state next to the world.  The
    recorder of the events is a parameter. *)

From S2P Require Import Prelude GoStd Base64 GoTime K8s Types Kube Effects Names K3s Expose Access Lab Cluster.

Local Open Scope string_scope.

Module Snapshot.

Definition snapshotFinalizerName : string := "snapshot.k3k.io/finalizer".
Definition ConditionReady : string := "Ready".
Definition FailedCreateSnapshotReason : string := "FailedCreate".
Definition SuccessfulCreateSnapshotReason : string := "SuccessfulCreate".
Definition FailedDeleteSnapshotReason : string := "FailedDelete".
Definition SuccessfulDeleteSnapshotReason : string := "SuccessfulDelete".

Definition errClusterNotReady : error := ESentinel "errClusterNotReady" "cluster is not ready".

Section Snapshot.
Context {W : Type} (c : Client W) `{KubeUtil} `{K3s.Transport W} `{K3s.Codec}.
(** The order in which a loop visits a map. *)
Context (map_range : gmap string string → list (string * string)).
(** [EventRecorder.Eventf]: the object, and the event. *)
Context (Eventf : EtcdSnapshot → Cluster.Event → M W unit).

(** ** s3.go *)
Definition caBundles (s3Secret : Secret) : M W (list string) :=
  let data := sec_Data s3Secret in
  let inline := map_str data "etcd-s3-endpoint-ca" in
  let bundles := if decide (inline = "") then [] else [Base64.EncodeToString inline] in
  let caConfigMapName := map_str data "etcd-s3-endpoint-ca-name" in
  if decide (caConfigMapName ≠ "") then
    r ← attempt (Get c ConfigMap {| nn_Namespace := Namespace (sec_Meta s3Secret); nn_Name := caConfigMapName |});
    match r with
    | inr err =>
        fail (EFmt [EText ("failed to get ConfigMap " +:+ caConfigMapName
                           +:+ " for etcd-s3-endpoint-ca-name value from S3 config secret "
                           +:+ Name (sec_Meta s3Secret) +:+ ": "); err])
    | inl configMap =>
        let values m := map (λ p, Base64.EncodeToString p.2) (map_range (default ∅ m)) in
        mret (bundles ++ values (cm_Data configMap) ++ values (cm_BinaryData configMap))%list
    end
  else mret bundles.

(** [if v, ok := s3Secret.Data[key]; ok { parse }], the error of the parser
    wrapped. *)
Definition parsed {A} (data : gomap string) (key : string) (parse : string → outcome A) (dflt : A) : outcome A :=
  match map_get data key with
  | None => Ok dflt
  | Some v =>
      match parse v with
      | Err err => Err (EFmt [EText ("failed to parse " +:+ key +:+ " value from S3 config secret: "); err])
      | o => o
      end
  end.

(** [strconv.Atoi]: the digits that do not fit are out of range, anything else
    that does not parse is invalid. *)
Definition atoi (s : string) : outcome Z :=
  match strconv_Atoi s with
  | Some z => Ok z
  | None =>
      let digits := match s with String "+" s' | String "-" s' => s' | _ => s end in
      Err (GoTime.NumError "Atoi" s
             (if decide (digits ≠ "" ∧ is_Some (digits_value digits 0)) then "value out of range"
              else "invalid syntax"))
  end.

Definition parseBool (s : string) : outcome bool :=
  match GoTime.ParseBool s with
  | Some b => Ok b
  | None => Err (GoTime.NumError "ParseBool" s "invalid syntax")
  end.

Definition getS3ConfigFromSecret (snapshot : EtcdSnapshot) : M W K3s.EtcdS3 :=
  ref ← lift (deref (snap_S3ConfigSecretRef (snap_Spec snapshot)));
  s3Secret ← Get c Secret {| nn_Namespace := Namespace (snap_Meta snapshot); nn_Name := nn_Name ref |};
  let data := sec_Data s3Secret in
  timeout ← lift (parsed data "etcd-s3-timeout" GoTime.ParseDuration (K3s.Timeout K3s.DefaultEtcdS3));
  retention ← lift (parsed data "etcd-s3-retention" atoi (K3s.Retention K3s.DefaultEtcdS3));
  skipSSLVerify ← lift (parsed data "etcd-s3-skip-ssl-verify" parseBool false);
  insecure ← lift (parsed data "etcd-s3-insecure" parseBool false);
  caBundles ← caBundles s3Secret;
  mret {|
    K3s.AccessKey := map_str data "etcd-s3-access-key";
    K3s.Bucket := map_str data "etcd-s3-bucket";
    K3s.BucketLookup := map_str data "etcd-s3-bucket-lookup-type";
    K3s.Endpoint := default (K3s.Endpoint K3s.DefaultEtcdS3) (map_get data "etcd-s3-endpoint");
    K3s.EndpointCA := strings_Join caBundles " ";
    K3s.Folder := map_str data "etcd-s3-folder";
    K3s.Proxy := map_str data "etcd-s3-proxy";
    K3s.Region := default (K3s.Region K3s.DefaultEtcdS3) (map_get data "etcd-s3-region");
    K3s.SecretKey := map_str data "etcd-s3-secret-key";
    K3s.SessionToken := map_str data "etcd-s3-session-token";
    K3s.Insecure := insecure;
    K3s.SkipSSLVerify := skipSSLVerify;
    K3s.Retention := retention;
    K3s.Timeout := timeout |}.

(** ** The state: the snapshot in memory and the world *)
Definition SM (A : Type) : Type := M (EtcdSnapshot * W) A.
Definition api {A} (m : M W A) : SM A := λ s, let '(r, w) := m s.2 in (r, (s.1, w)).
Definition get_snapshot : SM EtcdSnapshot := λ s, (Ok s.1, s).
Definition put_snapshot (x : EtcdSnapshot) : SM unit := λ s, (Ok tt, (x, s.2)).

(** [r.Update(ctx, snapshot)] and [r.Status().Update(ctx, snapshot)]: the answer
    of the server overwrites the snapshot. *)
Definition update : SM unit := x ← get_snapshot; y ← api (Update c x); put_snapshot y.
Definition status_update : SM unit := x ← get_snapshot; y ← api (StatusUpdate c x); put_snapshot y.

Definition set_snap_Meta (m : ObjectMeta) (x : EtcdSnapshot) : EtcdSnapshot :=
  {| snap_Meta := m; snap_Spec := snap_Spec x; snap_Status := snap_Status x |}.
Definition set_snap_Status (s : EtcdSnapshotStatus) (x : EtcdSnapshot) : EtcdSnapshot :=
  {| snap_Meta := snap_Meta x; snap_Spec := snap_Spec x; snap_Status := s |}.

(** The client of the first server of the cluster, and the S3 configuration. *)
Definition server_client (cluster : Cluster) (snapshot : EtcdSnapshot) : M W K3s.Client :=
  token ← Token.GetClusterToken c cluster;
  let initServerPodName := Names.SafeConcatNameWithPrefix [Name (cl_Meta cluster); "server-0"] in
  mret (K3s.New (K3s.server_config
    (initServerPodName +:+ "." +:+ Expose.HeadlessServiceName (Name (cl_Meta cluster)) +:+ "."
     +:+ Namespace (snap_Meta snapshot) +:+ ":6443") token)).

Definition s3_config (snapshot : EtcdSnapshot) : M W (option K3s.EtcdS3) :=
  match snap_S3ConfigSecretRef (snap_Spec snapshot) with
  | Some _ => s ← getS3ConfigFromSecret snapshot; mret (Some s)
  | None => mret None
  end.

Definition cluster_key (snapshot : EtcdSnapshot) : NamespacedName :=
  {| nn_Namespace := Namespace (snap_Meta snapshot); nn_Name := snap_ClusterRef (snap_Spec snapshot) |}.

(** The file that is looked for: with S3, one that is not on the disk. *)
Definition is_file (snapshotName : string) (s3Config : option K3s.EtcdS3) (file : K3s.ETCDSnapshotFile) : bool :=
  bool_decide (K3s.SnapshotName file = snapshotName) &&
  negb (bool_decide (s3Config ≠ None) && strings_HasPrefix (K3s.Location file) "file://").

Definition backpopulateSnapshotStatus (snapshotName : string) (k3sClient : K3s.Client)
    (s3Config : option K3s.EtcdS3) : SM unit :=
  snapshotFileList ← api (K3s.ListSnapshots k3sClient s3Config);
  snapshotFileList ← lift (deref snapshotFileList);
  match List.find (is_file snapshotName s3Config) snapshotFileList with
  | None => fail (EText ("snapshot file " +:+ snapshotName +:+ " not found in virtual cluster"))
  | Some snapshotFile =>
      snapshot ← get_snapshot;
      put_snapshot (set_snap_Status
        {| snap_Filename := K3s.SnapshotName snapshotFile; snap_Conditions := [] |} snapshot) ;;
      status_update
  end.

Definition reconcileSnapshot : SM unit :=
  snapshot ← get_snapshot;
  cluster ← api (Get c Cluster (cluster_key snapshot));
  if decide (st_Phase (cl_Status cluster) ≠ ClusterReady) then fail errClusterNotReady
  else
    let '(m, added) := AddFinalizer (snap_Meta snapshot) snapshotFinalizerName in
    if added : bool then put_snapshot (set_snap_Meta m snapshot) ;; update
    else
      k3sClient ← api (server_client cluster snapshot);
      s3Config ← api (s3_config snapshot);
      r ← attempt (api (K3s.SaveSnapshot k3sClient snapshot s3Config));
      match r with
      | inr err =>
          fail (EFmt [EText ("failed to save snapshot for cluster " +:+ Name (cl_Meta cluster) +:+ ": "); err])
      | inl snapshotResp =>
          snapshotResp ← lift (deref snapshotResp);
          match K3s.Created snapshotResp with
          | [] => fail (EText "no snapshot found")
          | name :: _ => backpopulateSnapshotStatus name k3sClient s3Config
          end
      end.

Definition deleteSnapshot (snapshot : EtcdSnapshot) : M W unit :=
  if decide (snap_Filename (snap_Status snapshot) = "") then mret tt
  else
    r ← attempt (Get c Cluster (cluster_key snapshot));
    match r with
    | inr err => if IsNotFound err then mret tt else fail err
    | inl cluster =>
        if is_deleting (cl_Meta cluster) then mret tt
        else
          k3sClient ← server_client cluster snapshot;
          s3Config ← s3_config snapshot;
          r ← attempt (K3s.DeleteSnapshot k3sClient snapshot s3Config);
          match r with
          | inl _ => mret tt
          | inr err => if errors_is "ErrSnapshotNotFound" err then mret tt else fail err
          end
    end.

Definition finalizeSnapshot : SM unit :=
  snapshot ← get_snapshot;
  api (deleteSnapshot snapshot) ;;
  let '(m, removed) := RemoveFinalizer (snap_Meta snapshot) snapshotFinalizerName in
  if removed : bool then put_snapshot (set_snap_Meta m snapshot) ;; update else mret tt.

Definition updateSnapshotStatus (status reason msg : string) : SM unit :=
  orig ← get_snapshot;
  let snapshot := set_snap_Status
    {| snap_Filename := snap_Filename (snap_Status orig);
       snap_Conditions := SetStatusCondition (snap_Conditions (snap_Status orig))
         {| cond_Type := ConditionReady; cond_Status := status; cond_Reason := reason; cond_Message := msg |} |}
    orig in
  put_snapshot snapshot ;;
  if negb (Semantic_DeepEqual (snap_Status orig) (snap_Status snapshot)) then status_update else mret tt.

Definition event (e : Cluster.Event) : SM unit := x ← get_snapshot; api (Eventf x e).

(** The reconciliation of the snapshot that was read. *)
Definition reconcile_found : SM (option Z) :=
  snapshot ← get_snapshot;
  if is_deleting (snap_Meta snapshot) then
    r ← attempt finalizeSnapshot;
    match r with
    | inr err =>
        updateSnapshotStatus ConditionFalse FailedDeleteSnapshotReason (error_text err) ;;
        event (Cluster.Warning FailedDeleteSnapshotReason (error_text err)) ;;
        fail err
    | inl _ => event (Cluster.Normal SuccessfulDeleteSnapshotReason "Snapshot was deleted") ;; mret None
    end
  else if decide (snap_Filename (snap_Status snapshot) ≠ "") then mret None
  else
    r ← attempt reconcileSnapshot;
    match r with
    | inr err =>
        updateSnapshotStatus ConditionFalse FailedCreateSnapshotReason (error_text err) ;;
        if errors_is "errClusterNotReady" err then mret (Some 10%Z)
        else event (Cluster.Warning FailedCreateSnapshotReason (error_text err)) ;; fail err
    | inl _ =>
        snapshot ← get_snapshot;
        if decide (snap_Filename (snap_Status snapshot) ≠ "") then
          updateSnapshotStatus ConditionTrue SuccessfulCreateSnapshotReason "Snapshot was created" ;;
          event (Cluster.Normal SuccessfulCreateSnapshotReason "Snapshot was created") ;;
          mret None
        else mret None
    end.

Definition run_found (snapshot : EtcdSnapshot) : M W (option Z) := λ w,
  let '(r, (_, w')) := reconcile_found (snapshot, w) in (r, w').

Definition Reconcile (req : NamespacedName) : M W (option Z) :=
  r ← attempt (Get c EtcdSnapshot req);
  match r with
  | inr err => if IsNotFound err then mret None else fail err
  | inl snapshot => run_found snapshot
  end.
End Snapshot.

#[local] Set Default Proof Using "Type*".

Section Laws.
Context {W : Type} (c : Client W) `{!ClientLaws c} `{KubeUtilLaws} `{K3s.Transport W} `{K3s.Codec}.
Context (map_range : gmap string string → list (string * string)).
Context (Eventf : EtcdSnapshot → Cluster.Event → M W unit).
Context (Htransport : ∀ req, silent c (K3s.httpClient_Do req)).
Context (Hevent : ∀ x e, silent c (Eventf x e)).

Definition snap_key (x : EtcdSnapshot) : ObjKey := ("EtcdSnapshot", key_of (snap_Meta x)).

(** *** What does not write *)
Lemma silent_do_request k e u m r : silent c (K3s.do_request k e u m r).
Proof. apply silent_eq. unfold K3s.do_request. evolve. by apply silent_eq. Qed.

Lemma silent_do {T} (f : string → outcome T) k e u m b : silent c (K3s.do_ f k e u m b).
Proof. apply silent_eq. unfold K3s.do_. evolve. apply silent_eq, silent_do_request. Qed.

Lemma silent_wrapped {A} e (m : M W A) : silent c m → silent c (K3s.wrapped e m).
Proof. intros Hm. apply silent_eq. unfold K3s.wrapped. evolve. by apply silent_eq. Qed.

Lemma silent_SaveSnapshot k x s : silent c (K3s.SaveSnapshot k x s).
Proof. apply silent_wrapped, silent_do. Qed.
Lemma silent_ListSnapshots k s : silent c (K3s.ListSnapshots k s).
Proof. apply silent_wrapped, silent_do. Qed.
Lemma silent_DeleteSnapshot k x s : silent c (K3s.DeleteSnapshot k x s).
Proof.
  apply silent_eq. unfold K3s.DeleteSnapshot. evolve. apply silent_eq, silent_wrapped, silent_do.
Qed.

Lemma silent_server_client cluster x : silent c (server_client c cluster x).
Proof. apply silent_eq. unfold server_client, Token.GetClusterToken. evolve. Qed.

Lemma silent_s3_config x : silent c (s3_config c map_range x).
Proof. apply silent_eq. unfold s3_config, getS3ConfigFromSecret, caBundles. evolve. Qed.

Lemma silent_deleteSnapshot x : silent c (deleteSnapshot c map_range x).
Proof.
  apply silent_eq. unfold deleteSnapshot. evolve; apply silent_eq;
    first [apply silent_server_client|apply silent_s3_config|apply silent_DeleteSnapshot].
Qed.

(** *** What the writes leave *)
Lemma update_run x w r x' w' :
  is_deleting (snap_Meta x) = false ∨ Finalizers (snap_Meta x) ≠ [] →
  update c (x, w) = (r, (x', w')) →
  match r with
  | Ok _ => store w' = <[snap_key x := OEtcdSnapshot x']> (store w) ∧
            Finalizers (snap_Meta x') = Finalizers (snap_Meta x)
  | _ => store w' = store w ∧ x' = x
  end.
Proof.
  intros Hd E. unfold update, get_snapshot, put_snapshot, api, mbind, M_bind in E. cbn [fst snd] in E.
  destruct (Update c x w) as [r1 w1] eqn:EU. apply (Update_run c) in EU as (_ & Hr).
  destruct r1 as [y|e|]; [|by injection E as <- <- <-|done]. injection E as <- <- <-.
  destruct Hr as (_ & _ & Hf & Hs & _). split; [|done].
  change (meta x) with (snap_Meta x) in Hs.
  destruct (is_deleting (snap_Meta x)) eqn:Hdel; cbn [andb] in Hs; [|done].
  case_bool_decide as Hfin; [|done]. by destruct Hd.
Qed.

Lemma status_update_run x w r x' w' old :
  store w !! snap_key x = Some (OEtcdSnapshot old) → status_update c (x, w) = (r, (x', w')) →
  match r with
  | Ok _ => x' = set_snap_Status (snap_Status x) old ∧
            store w' = <[snap_key x := OEtcdSnapshot x']> (store w)
  | Err _ => store w' = store w ∧ x' = x
  | Panic => False
  end.
Proof.
  intros Hold E. unfold status_update, get_snapshot, put_snapshot, api, mbind, M_bind in E. cbn [fst snd] in E.
  destruct (StatusUpdate c x w) as [r1 w1] eqn:EU. apply (StatusUpdate_run c) in EU as (_ & Hr).
  destruct r1 as [y|e|]; [|by injection E as <- <- <-|done]. injection E as <- <- <-.
  destruct Hr as (old' & Hold' & Hy & Hs). pose proof (eq_trans (eq_sym Hold') Hold) as Ho.
  injection Ho as ->. cbn in Hy. injection Hy as ->. done.
Qed.

(** Statuses that are semantically equal have the same conditions. *)
Context (Hequal : ∀ st st' : EtcdSnapshotStatus, Semantic_DeepEqual st st' = true →
  ∀ t, find_condition (snap_Conditions st) t = find_condition (snap_Conditions st') t).

Definition ready (x : EtcdSnapshot) (status reason msg : string) : Prop :=
  find_condition (snap_Conditions (snap_Status x)) "Ready" =
  Some {| cond_Type := "Ready"; cond_Status := status; cond_Reason := reason; cond_Message := msg |}.

(** The snapshot in memory is the stored one, but for a status without
    conditions. *)
Definition tracks (y old : EtcdSnapshot) : Prop :=
  snap_Meta y = snap_Meta old ∧ snap_Spec y = snap_Spec old ∧
  (snap_Status y = snap_Status old ∨ snap_Conditions (snap_Status y) = []).

Lemma updateSnapshotStatus_run status reason msg y w r y' w' old :
  store w !! snap_key y = Some (OEtcdSnapshot old) → tracks y old →
  updateSnapshotStatus c status reason msg (y, w) = (r, (y', w')) →
  snap_key y' = snap_key y ∧
  match r with
  | Ok _ => ∃ st, store w' !! snap_key y = Some (OEtcdSnapshot st) ∧ ready st status reason msg ∧
              snap_Filename (snap_Status st) = snap_Filename (snap_Status y) ∧
              snap_Spec st = snap_Spec old ∧ snap_Meta st = snap_Meta old
  | Err _ => store w' = store w
  | Panic => False
  end.
Proof.
  intros Hold (Hm & Hsp & Hst) E. unfold updateSnapshotStatus, get_snapshot, put_snapshot in E.
  unfold mbind, M_bind in E. cbn [fst snd] in E. change ConditionReady with "Ready" in E.
  set (cond := {| cond_Type := "Ready" |}) in E. set (new := {| snap_Filename := _ |}) in E.
  assert (find_condition (snap_Conditions new) "Ready" = Some cond) as Hnew
    by apply (SetStatusCondition_same _ cond).
  destruct (Semantic_DeepEqual _ _) eqn:Heq; cbn [negb] in E.
  - injection E as <- <- <-. split; [done|]. exists old. split; [done|].
    assert (find_condition (snap_Conditions (snap_Status y)) "Ready" = Some cond) as Hf
      by (rewrite <- Hnew; exact (Hequal _ _ Heq "Ready")).
    destruct Hst as [Hst|Hst]; [|by rewrite Hst in Hf]. unfold ready. rewrite <- Hst. auto.
  - change (snap_key y) with (snap_key (set_snap_Status new y)) in Hold.
    pose proof (status_update_run _ _ _ _ _ _ Hold E) as Hr.
    destruct r as [[]|e|]; [|by destruct Hr as [? ->]|done]. destruct Hr as [-> Hs].
    split; [unfold snap_key; cbn; by rewrite Hm|].
    exists (set_snap_Status new old). rewrite Hs. split; [apply lookup_insert_eq|]. done.
Qed.

Lemma api_run {A} (m : M W A) s r s' : api m s = (r, s') → m s.2 = (r, s'.2) ∧ s'.1 = s.1.
Proof using. unfold api. destruct (m s.2). by intros [= <- <-]. Qed.

(** The file [name] is listed by the server. *)
Definition listed_from (k : K3s.Client) (s3 : option K3s.EtcdS3) (name : string) (w : W) : Prop :=
  ∃ files w' file, K3s.ListSnapshots k s3 w = (Ok (Some files), w') ∧ file ∈ files ∧ is_file name s3 file = true.

(** The calls made from [w], in their order: the cluster is read and is ready, the
    client and the S3 configuration are made, the server saves the snapshot, says
    that it created [name], and lists that file. *)
Definition saved_from (x : EtcdSnapshot) (name : string) (w : W) : Prop :=
  ∃ cluster w1 k w2 s3 w3 resp w4,
    Get c Cluster (cluster_key x) w = (Ok cluster, w1) ∧ st_Phase (cl_Status cluster) = ClusterReady ∧
    server_client c cluster x w1 = (Ok k, w2) ∧ s3_config c map_range x w2 = (Ok s3, w3) ∧
    K3s.SaveSnapshot k x s3 w3 = (Ok (Some resp), w4) ∧ head (K3s.Created resp) = Some name ∧
    listed_from k s3 name w4.

Lemma backpopulate_run name k s3 x w r y w' :
  store w !! snap_key x = Some (OEtcdSnapshot x) →
  backpopulateSnapshotStatus c name k s3 (x, w) = (r, (y, w')) →
  match r with
  | Ok _ => y = set_snap_Status {| snap_Filename := name; snap_Conditions := [] |} x ∧
            store w' = <[snap_key x := OEtcdSnapshot y]> (store w) ∧ listed_from k s3 name w
  | _ => store w' = store w ∧ tracks y x
  end.
Proof.
  intros Hx E. unfold backpopulateSnapshotStatus in E. unfold mbind at 1, M_bind at 1 in E.
  destruct (api _ (x, w)) as [r1 [x1 w1]] eqn:E1. apply api_run in E1 as [E1 Hx1]. cbn in E1, Hx1. subst x1.
  pose proof E1 as Hlist. apply silent_ListSnapshots in E1. assert (tracks x x) as Hxx by (split_and!; auto).
  destruct r1 as [l|e|]; [|by injection E as <- <- <-..]. destruct l as [l|]; [|by injection E as <- <- <-].
  unfold mbind at 1, M_bind at 1, lift in E. cbn [deref] in E.
  destruct (List.find (is_file name s3) l) as [file|] eqn:Ef; [|by injection E as <- <- <-].
  apply List.find_some in Ef as [Hin Hfile].
  assert (listed_from k s3 name w) as Hl by (exists l, w1, file; by rewrite list_elem_of_In).
  unfold is_file in Hfile.
  apply andb_true_iff in Hfile as [Hn%bool_decide_eq_true _].
  rewrite Hn in E.
  unfold mbind, M_bind, get_snapshot, put_snapshot in E. cbn [fst snd] in E. rewrite <- E1 in Hx.
  apply (status_update_run (set_snap_Status _ x) _ _ _ _ x) in E; [|done]. rewrite <- E1.
  destruct r as [[]|e|]; [destruct E as [-> ->]; done| |done]. destruct E as [-> ->]. split; [done|].
  split_and!; [done..|]. by right.
Qed.

Lemma reconcileSnapshot_run x w r y w' :
  store w !! snap_key x = Some (OEtcdSnapshot x) →
  snapshotFinalizerName ∈ Finalizers (snap_Meta x) →
  reconcileSnapshot c map_range (x, w) = (r, (y, w')) →
  match r with
  | Ok _ => ∃ name, saved_from x name w ∧
              y = set_snap_Status {| snap_Filename := name; snap_Conditions := [] |} x ∧
              store w' = <[snap_key x := OEtcdSnapshot y]> (store w)
  | _ => store w' = store w ∧ tracks y x
  end.
Proof.
  intros Hx Hfin E. assert (tracks x x) as Hxx by (split_and!; auto).
  unfold reconcileSnapshot, get_snapshot in E. unfold mbind at 1, M_bind at 1 in E. cbn [fst snd] in E.
  unfold mbind at 1, M_bind at 1 in E. destruct (api _ (x, w)) as [r1 [x1 w1]] eqn:E1.
  apply api_run in E1 as [E1 Hx1]. cbn [fst snd] in E1, Hx1. subst x1.
  pose proof E1 as (Hs1 & _ & _)%(Get_run c). destruct r1 as [cluster|e|]; [|by injection E as <- <- <-..].
  case_decide as Hp; [by injection E as <- <- <-|].
  rewrite AddFinalizer_law, decide_True in E by done.
  unfold mbind at 1, M_bind at 1 in E. destruct (api _ (x, w1)) as [r2 [x2 w2]] eqn:E2.
  apply api_run in E2 as [E2 Hx2]. cbn [fst snd] in E2, Hx2. subst x2. pose proof (silent_server_client _ _ _ _ _ E2) as Hs12.
  assert (store w2 = store w) as Hs2 by congruence.
  destruct r2 as [k|e|]; [|by injection E as <- <- <-..].
  unfold mbind at 1, M_bind at 1 in E. destruct (api _ (x, w2)) as [r3 [x3 w3]] eqn:E3.
  apply api_run in E3 as [E3 Hx3]. cbn [fst snd] in E3, Hx3. subst x3. pose proof (silent_s3_config _ _ _ _ E3) as Hs23.
  assert (store w3 = store w) as Hs3 by congruence.
  destruct r3 as [s3|e|]; [|by injection E as <- <- <-..].
  unfold mbind at 1, M_bind at 1, attempt in E. destruct (api _ (x, w3)) as [r4 [x4 w4]] eqn:E4.
  apply api_run in E4 as [E4 Hx4]. cbn [fst snd] in E4, Hx4. subst x4. pose proof (silent_SaveSnapshot _ _ _ _ _ _ E4) as Hs4.
  assert (store w4 = store w) as Hs4' by congruence.
  destruct r4 as [resp|e|]; [|by injection E as <- <- <-..].
  unfold mbind at 1, M_bind at 1, lift in E.
  destruct resp as [resp|]; cbn [deref] in E; [|by injection E as <- <- <-].
  destruct (K3s.Created resp) as [|name names] eqn:Ec; [by injection E as <- <- <-|].
  apply backpopulate_run in E; [|by rewrite Hs4']. rewrite Hs4' in E.
  destruct r as [[]|e|]; [|exact E..]. destruct E as (-> & E & Hl). exists name. split; [|done].
  exists cluster, w1, k, w2, s3, w3, resp, w4. split_and!; try done. by rewrite Ec.
Qed.

Lemma event_run e x w r y w' : event Eventf e (x, w) = (r, (y, w')) → y = x ∧ store w' = store w.
Proof.
  intros E. unfold event, mbind, M_bind, get_snapshot in E. apply api_run in E as [E Hy]. cbn in E, Hy.
  apply Hevent in E. done.
Qed.

(** C10: A run that ends without an error on a snapshot that has no file yet, is
    protected by its finalizer and is not being deleted, leaves it taken or
    waiting.  Taken: this run found the cluster ready, had its server save the
    snapshot, and the stored status names the file that the server said it created
    and then listed; the condition is true, unless that name is empty.  Waiting:
    the condition is false with the error that says that the cluster is not ready,
    and the run is repeated in ten seconds.  The metadata and the specification
    stay. *)
Theorem snapshot_reported req w r w' x :
  store w !! (("EtcdSnapshot", req) : ObjKey) = Some (OEtcdSnapshot x) →
  is_deleting (snap_Meta x) = false → snap_Filename (snap_Status x) = "" →
  snapshotFinalizerName ∈ Finalizers (snap_Meta x) →
  Reconcile c map_range Eventf req w = (Ok r, w') →
  ∃ x', store w' !! (("EtcdSnapshot", req) : ObjKey) = Some (OEtcdSnapshot x') ∧
    snap_Meta x' = snap_Meta x ∧ snap_Spec x' = snap_Spec x ∧
    match r with
    | None => ∃ name w0, Get c EtcdSnapshot req w = (Ok x, w0) ∧ saved_from x name w0 ∧ snap_Filename (snap_Status x') = name ∧
                (name ≠ "" → ready x' "True" "SuccessfulCreate" "Snapshot was created")
    | Some d => d = 10%Z ∧ ∃ err, errors_is "errClusterNotReady" err = true ∧
                  ready x' "False" "FailedCreate" (error_text err)
    end.
Proof.
  intros Hst Hd Hfile Hfin E. unfold Reconcile in E. apply bind_inv_ok in E as (r1 & w1 & E1 & E).
  apply attempt_inv in E1. pose proof E1 as HG. destruct r1 as [x1|e]; apply (Get_run c) in E1 as (Hs1 & _ & Hr).
  2:{ destruct (IsNotFound e); [by pose proof (eq_trans (eq_sym Hr) Hst)|done]. }
  destruct Hr as [Hr Hk]. assert (x1 = x) as ->.
  { pose proof (eq_trans (eq_sym Hr) Hst) as Hx. by injection Hx. }
  change (key_of (snap_Meta x) = req) in Hk. clear Hr. unfold run_found in E.
  destruct (reconcile_found _ _ _ (x, w1)) as [r2 [y w2]] eqn:E2. injection E as -> ->.
  assert (store w1 !! snap_key x = Some (OEtcdSnapshot x)) as Hx by (unfold snap_key; by rewrite Hk, Hs1).
  unfold reconcile_found in E2. apply bind_inv_ok in E2 as (x' & [xx ww] & [= <- <- <-] & E2).
  cbn [fst] in E2. rewrite Hd, decide_False in E2 by (rewrite Hfile; auto).
  apply bind_inv_ok in E2 as (r2 & [y1 w3] & E3 & E2). apply attempt_inv in E3.
  assert (snap_key x = ("EtcdSnapshot", req)) as Hkey by (unfold snap_key; by rewrite Hk).
  destruct r2 as [[]|e]; apply reconcileSnapshot_run in E3; try done.
  - destruct E3 as (name & Hsaved & Hy1 & Hs3). apply bind_inv_ok in E2 as (yy & [? ?] & [= <- <- <-] & E2).
    cbn [fst] in E2. assert (snap_key y1 = snap_key x) as Hk1 by (by rewrite Hy1).
    assert (store w3 !! snap_key y1 = Some (OEtcdSnapshot y1)) as Hy.
    { rewrite Hk1, Hs3. apply lookup_insert_eq. }
    assert (snap_Filename (snap_Status y1) = name) as Hn by (by rewrite Hy1).
    rewrite Hn in E2. case_decide as Hne.
    + apply bind_inv_ok in E2 as ([] & [y2 w4] & E4 & E2).
      pose proof (updateSnapshotStatus_run _ _ _ _ _ _ _ _ y1 Hy ltac:(split_and!; auto) E4) as
        (Hk2 & st & Hst' & Hready & Hfn & Hsp & Hm).
      apply bind_inv_ok in E2 as ([] & [y3 w5] & E5 & E2). apply event_run in E5 as [_ Hs5].
      injection E2 as <- <- <-. exists st. rewrite Hs5, <- Hkey, <- Hk1. split; [exact Hst'|].
      rewrite Hm, Hsp, Hy1. split_and!; [done..|]. exists name, w1. rewrite Hfn, Hn. auto.
    + injection E2 as <- <- <-. exists y1. rewrite <- Hkey, <- Hk1. split; [exact Hy|].
      rewrite Hy1. split_and!; [done..|]. exists name, w1. split_and!; [done..|]. intros Hx'. by destruct Hne.
  - destruct E3 as [Hs3 Htr]. apply bind_inv_ok in E2 as ([] & [y2 w4] & E4 & E2).
    assert (snap_key y1 = snap_key x) as Hk1 by (unfold snap_key; by rewrite (proj1 Htr)).
    rewrite <- Hs3, <- Hk1 in Hx.
    pose proof (updateSnapshotStatus_run _ _ _ _ _ _ _ _ x Hx Htr E4) as (Hk2 & st & Hst' & Hready & Hfn & Hsp & Hm).
    destruct (errors_is _ e) eqn:He.
    + injection E2 as <- <- <-. exists st. rewrite <- Hkey, <- Hk1. split; [exact Hst'|]. eauto 10.
    + by apply bind_inv_ok in E2 as (? & ? & _ & E2).
Qed.

(** A snapshot whose file is known is left alone: the run reads it, and that is
    all that it does. *)
Theorem snapshot_taken_once req w r w' x :
  store w !! (("EtcdSnapshot", req) : ObjKey) = Some (OEtcdSnapshot x) →
  is_deleting (snap_Meta x) = false → snap_Filename (snap_Status x) ≠ "" →
  Reconcile c map_range Eventf req w = (r, w') →
  w' = (Get c EtcdSnapshot req w).2 ∧ store w' = store w ∧ (∀ o, r = Ok o → o = None).
Proof using ClientLaws0.
  intros Hst Hd Hf E. unfold Reconcile, mbind, M_bind, attempt in E.
  destruct (Get c EtcdSnapshot req w) as [r1 w1] eqn:E1. apply (Get_run c) in E1 as (Hs1 & _ & Hr).
  destruct r1 as [x1|e|]; [| |done].
  - destruct Hr as [Hr _]. assert (x1 = x) as ->.
    { pose proof (eq_trans (eq_sym Hr) Hst) as Hx. by injection Hx. }
    unfold run_found, reconcile_found, mbind, M_bind, get_snapshot in E. cbn [fst] in E.
    rewrite Hd, decide_True in E by done. injection E as <- <-. split_and!; [done..|]. by intros o [= <-].
  - destruct (IsNotFound e); injection E as <- <-; (split_and!; [done..|]); [by intros o [= <-]|done].
Qed.

(** The server confirmed that the file is gone, or that it has none of the
    name. *)
Definition confirmed (x : EtcdSnapshot) : Prop :=
  ∃ k s3 w1 r w2, K3s.DeleteSnapshot k x s3 w1 = (r, w2) ∧
    match r with
    | Ok resp => snap_Filename (snap_Status x) ∈ K3s.Deleted resp
    | Err e => errors_is "ErrSnapshotNotFound" e = true
    | Panic => False
    end.

(** There is no file to delete: none was recorded, or the cluster is gone or
    going. *)
Definition nothing_to_delete (x : EtcdSnapshot) (w : W) : Prop :=
  snap_Filename (snap_Status x) = "" ∨
  store w !! (("Cluster", cluster_key x) : ObjKey) = None ∨
  ∃ cl, store w !! (("Cluster", cluster_key x) : ObjKey) = Some (OCluster cl) ∧
        is_deleting (cl_Meta cl) = true.

Lemma deleteSnapshot_run x w w' :
  deleteSnapshot c map_range x w = (Ok tt, w') → nothing_to_delete x w ∨ confirmed x.
Proof.
  unfold deleteSnapshot, nothing_to_delete. case_decide as Hf; [by left; left|]. intros E.
  apply bind_inv_ok in E as (r1 & w1 & E1 & E). apply attempt_inv in E1.
  destruct r1 as [cl|e]; apply (Get_run c) in E1 as (_ & _ & Hr).
  2:{ destruct (IsNotFound e); [|done]. left. right. by left. }
  destruct (is_deleting (cl_Meta cl)) eqn:Hd.
  { left. right. right. exists cl. by destruct Hr. }
  right. apply bind_inv_ok in E as (k & w2 & _ & E). apply bind_inv_ok in E as (s3 & w3 & _ & E).
  apply bind_inv_ok in E as (r2 & w4 & E2 & E). apply attempt_inv in E2. exists k, s3, w3.
  destruct r2 as [resp|e].
  - exists (Ok resp), w4. split; [done|]. unfold K3s.DeleteSnapshot in E2.
    apply bind_inv_ok in E2 as (o & w5 & _ & E2). apply bind_inv_ok in E2 as (resp' & w6 & _ & E2).
    unfold slices_Contains in E2. case_bool_decide; [|done]. by injection E2 as <- <-.
  - exists (Err e), w4. split; [done|]. by destruct (errors_is _ e).
Qed.

Lemma finalizeSnapshot_run x w r y w' :
  store w !! snap_key x = Some (OEtcdSnapshot x) → snapshotFinalizerName ∈ Finalizers (snap_Meta x) →
  finalizeSnapshot c map_range (x, w) = (r, (y, w')) →
  match r with
  | Ok _ => (nothing_to_delete x w ∨ confirmed x) ∧
            ∀ obj, store w' !! snap_key x = Some obj → snapshotFinalizerName ∉ Finalizers (obj_meta obj)
  | _ => nothing_to_delete x w ∨ confirmed x ∨ (store w' = store w ∧ y = x)
  end.
Proof.
  intros Hx Hfin E. unfold finalizeSnapshot, get_snapshot in E. unfold mbind at 1, M_bind at 1 in E.
  cbn [fst snd] in E. unfold mbind at 1, M_bind at 1 in E. destruct (api _ (x, w)) as [r1 [x1 w1]] eqn:E1.
  apply api_run in E1 as [E1 Hx1]. cbn [fst snd] in E1, Hx1. subst x1.
  pose proof (silent_deleteSnapshot _ _ _ _ E1) as Hs1.
  destruct r1 as [[]|e|]; [|injection E as <- <- <-; auto..]. apply deleteSnapshot_run in E1.
  assert (∀ P, nothing_to_delete x w ∨ confirmed x ∨ P) as Hdone by (intros P; destruct E1; auto).
  rewrite RemoveFinalizer_law, decide_True in E by done. set (m := set_Finalizers _ _) in E.
  unfold put_snapshot, update, get_snapshot, api, mbind, M_bind in E. cbn [fst snd] in E.
  destruct (Update c _ w1) as [r2 w2] eqn:EU. apply (Update_run c) in EU as (_ & Hr).
  destruct r2 as [z|e|]; [|by injection E as <- <- <-|done]. injection E as <- <- <-. split; [done|].
  destruct Hr as (_ & _ & Hf & Hs & _). intros obj Hobj.
  change (obj_key (inj (set_snap_Meta m x))) with (snap_key x) in Hs.
  destruct (_ && _); rewrite Hs in Hobj; [by rewrite lookup_delete_eq in Hobj|].
  rewrite lookup_insert_eq in Hobj. injection Hobj as <-. change (snapshotFinalizerName ∉ Finalizers (meta z)).
  rewrite Hf. cbn. unfold slices_DeleteFunc. rewrite list_elem_of_In, List.filter_In.
  intros [_ Hn]. by rewrite bool_decide_true in Hn.
Qed.

(** C11: A snapshot that is deleted keeps its finalizer until its file is gone, or
    there is no file to delete; and a run that ends well takes the finalizer
    off. *)
Theorem snapshot_finalized req w r w' x :
  store w !! (("EtcdSnapshot", req) : ObjKey) = Some (OEtcdSnapshot x) →
  is_deleting (snap_Meta x) = true → snapshotFinalizerName ∈ Finalizers (snap_Meta x) →
  Reconcile c map_range Eventf req w = (r, w') →
  (nothing_to_delete x w ∨ confirmed x ∨
   ∃ x', store w' !! (("EtcdSnapshot", req) : ObjKey) = Some (OEtcdSnapshot x') ∧ snap_Meta x' = snap_Meta x) ∧
  (∀ o, r = Ok o → o = None ∧ ∀ obj, store w' !! (("EtcdSnapshot", req) : ObjKey) = Some obj →
     snapshotFinalizerName ∉ Finalizers (obj_meta obj)).
Proof.
  intros Hst Hd Hfin E. unfold Reconcile, mbind, M_bind, attempt in E.
  destruct (Get c EtcdSnapshot req w) as [r1 w1] eqn:E1. apply (Get_run c) in E1 as (Hs1 & _ & Hr).
  destruct r1 as [x1|e|]; [| |done].
  2:{ destruct (IsNotFound e); injection E as <- <-; [by pose proof (eq_trans (eq_sym Hr) Hst)|].
      rewrite Hs1. split; [|done]. right. right. eauto. }
  destruct Hr as [Hr Hk]. assert (x1 = x) as ->.
  { pose proof (eq_trans (eq_sym Hr) Hst) as Hx. by injection Hx. }
  change (key_of (snap_Meta x) = req) in Hk. assert (snap_key x = ("EtcdSnapshot", req)) as Hkey
    by (unfold snap_key; by rewrite Hk). rewrite <- Hkey in *. rewrite <- Hs1 in Hst. clear Hr.
  unfold run_found in E. destruct (reconcile_found _ _ _ (x, w1)) as [r2 [y w2]] eqn:E2. injection E as -> ->.
  assert (nothing_to_delete x w1 → nothing_to_delete x w) as Hn by (unfold nothing_to_delete; by rewrite Hs1).
  unfold reconcile_found, get_snapshot in E2. unfold mbind at 1, M_bind at 1 in E2. cbn [fst] in E2.
  rewrite Hd in E2. unfold mbind at 1, M_bind at 1, attempt in E2.
  destruct (finalizeSnapshot c map_range (x, w1)) as [r1 [y1 w2]] eqn:EF.
  apply finalizeSnapshot_run in EF; [|done..]. destruct r1 as [[]|e|].
  - destruct EF as [Hor Hgone]. split; [destruct Hor; auto|]. intros o ->.
    apply bind_inv_ok in E2 as ([] & [y2 w3] & E3 & E2). apply event_run in E3 as [_ Hs3].
    injection E2 as <- _ <-. rewrite Hs3. auto.
  - split.
    2:{ intros o ->. apply bind_inv_ok in E2 as (? & ? & _ & E2). by apply bind_inv_ok in E2 as (? & ? & _ & E2). }
    destruct EF as [|[|[Hs2 ->]]]; [auto..|]. right. right. rewrite <- Hs2 in Hst.
    unfold mbind at 1, M_bind at 1 in E2.
    destruct (updateSnapshotStatus c _ _ _ (x, w2)) as [r3 [y3 w3]] eqn:E3.
    apply (updateSnapshotStatus_run _ _ _ _ _ _ _ _ x Hst ltac:(split_and!; auto)) in E3 as [_ E3].
    destruct r3 as [[]|e3|]; [| |done].
    + destruct E3 as (st & Hst3 & _ & _ & _ & Hm). exists st. split; [|done]. rewrite <- Hst3.
      unfold mbind, M_bind in E2. destruct (event _ _ _) as [r4 [y4 w4]] eqn:E4. apply event_run in E4 as [_ Hs4].
      destruct r4; injection E2 as _ _ <-; by rewrite Hs4.
    + injection E2 as _ _ <-. exists x. by rewrite E3.
  - injection E2 as <- _ <-. split; [|done]. destruct EF as [|[|[Hs2 _]]]; [auto..|]. right. right. exists x.
    by rewrite Hs2.
Qed.
End Laws.

(** ** Concrete runs

    A k3s server that creates the file [dev-1], lists it, and deletes it. *)
#[local] Instance demo_transport : K3s.Transport mem := {
  K3s.NewRequest _ _ := None;
  K3s.httpClient_Do _ := mret {| K3s.StatusCode := 200; K3s.Body := Ok "{}" |} }.
#[local] Instance demo_codec : K3s.Codec := {
  K3s.Unmarshal_Status _ := Err (EText "EOF");
  K3s.Unmarshal_Config _ := Ok None;
  K3s.Unmarshal_Bootstrap _ := Ok None;
  K3s.Unmarshal_Snapshot _ := Ok (Some {| K3s.Created := ["dev-1"]; K3s.Deleted := ["dev-1"] |});
  K3s.Unmarshal_SnapshotFiles _ :=
    Ok (Some [{| K3s.SnapshotName := "other"; K3s.Location := "file:///other" |};
              {| K3s.SnapshotName := "dev-1"; K3s.Location := "file:///dev-1" |}]);
  K3s.Marshal_Bootstrap _ := Ok "";
  K3s.Marshal_Snapshot _ := Ok "{}";
}.
Definition demo_range (g : gmap string string) : list (string * string) := map_to_list g.
Definition demo_Eventf (_ : EtcdSnapshot) (_ : Cluster.Event) : M mem unit := mret tt.

Definition demo_snapshot (file : string) (gone : option string) : EtcdSnapshot := {|
  snap_Meta := {| Name := "snap"; Namespace := "team"; Labels := None; Annotations := None; OwnerReferences := [];
                  Finalizers := [snapshotFinalizerName]; ResourceVersion := ""; UID := "";
                  DeletionTimestamp := gone |};
  snap_Spec := {| snap_ClusterRef := "dev"; snap_S3ConfigSecretRef := None; snap_Compress := false |};
  snap_Status := {| snap_Filename := file; snap_Conditions := [] |} |}.
Definition demo_cluster : Cluster :=
  set_Status (st_set_Phase ClusterReady [] (cl_Status Lab.tenant)) Lab.tenant.
Definition demo_world (x : EtcdSnapshot) : mem :=
  Lab.objects [OEtcdSnapshot x; OCluster demo_cluster; OSecret (Token.TokenSecretObj "secret" "dev" "team")].
Definition demo_req : NamespacedName := {| nn_Namespace := "team"; nn_Name := "snap" |}.

Lemma demo_transport_silent req : silent mem_client (K3s.httpClient_Do (W:=mem) req).
Proof. by intros w r w' [= _ <-]. Qed.
Lemma demo_Eventf_silent x e : silent mem_client (demo_Eventf x e).
Proof. by intros w r w' [= _ <-]. Qed.
Lemma std_equal_snapshots (st st' : EtcdSnapshotStatus) :
  Semantic_DeepEqual st st' = true →
  ∀ t, find_condition (snap_Conditions st) t = find_condition (snap_Conditions st') t.
Proof. by intros ->%bool_decide_eq_true. Qed.

Lemma snapshot_reported_witness :
  ∃ w' x', Reconcile mem_client demo_range demo_Eventf demo_req (demo_world (demo_snapshot "" None)) = (Ok None, w') ∧
    mem_objects w' !! ("EtcdSnapshot", demo_req) = Some (OEtcdSnapshot x') ∧
    ∃ name w0, saved_from mem_client demo_range (demo_snapshot "" None) name w0 ∧
      snap_Filename (snap_Status x') = name.
Proof.
  destruct (Reconcile mem_client demo_range demo_Eventf demo_req (demo_world (demo_snapshot "" None)))
    as [r w'] eqn:E.
  assert (r = Ok None) as ->. { change r with (r, w').1. rewrite <- E. vm_compute. reflexivity. }
  opose proof (snapshot_reported mem_client demo_range demo_Eventf demo_transport_silent demo_Eventf_silent
    std_equal_snapshots demo_req (demo_world (demo_snapshot "" None)) None w' (demo_snapshot "" None) _ _ _ _ E)
    as (x' & Hx & _ & _ & name & w0 & _ & Hs & Hn & _).
  - vm_compute. reflexivity.
  - reflexivity.
  - reflexivity.
  - left.
  - exists w', x'. split; [reflexivity|]. split; [exact Hx|]. exists name, w0. split; [exact Hs|exact Hn].
Defined.

Lemma snapshot_taken_once_witness :
  Reconcile mem_client demo_range demo_Eventf demo_req (demo_world (demo_snapshot "dev-1" None)) =
    (Ok None, demo_world (demo_snapshot "dev-1" None)) ∧
  (Get mem_client EtcdSnapshot demo_req (demo_world (demo_snapshot "dev-1" None))).2 =
    demo_world (demo_snapshot "dev-1" None).
Proof.
  destruct (Reconcile mem_client demo_range demo_Eventf demo_req (demo_world (demo_snapshot "dev-1" None)))
    as [r w'] eqn:E.
  assert (r = Ok None) as ->. { change r with (r, w').1. rewrite <- E. vm_compute. reflexivity. }
  opose proof (snapshot_taken_once mem_client demo_range demo_Eventf demo_req _ (Ok None) w'
    (demo_snapshot "dev-1" None) _ _ _ E) as (-> & _ & _).
  - vm_compute. reflexivity.
  - reflexivity.
  - discriminate.
  - split; [f_equal|]; vm_compute; reflexivity.
Defined.

Lemma snapshot_finalized_witness :
  ∃ w', Reconcile mem_client demo_range demo_Eventf demo_req (demo_world (demo_snapshot "dev-1" (Some "now"))) =
      (Ok None, w') ∧
    ∀ obj, mem_objects w' !! ("EtcdSnapshot", demo_req) = Some obj →
           snapshotFinalizerName ∉ Finalizers (obj_meta obj).
Proof.
  destruct (Reconcile mem_client demo_range demo_Eventf demo_req (demo_world (demo_snapshot "dev-1" (Some "now"))))
    as [r w'] eqn:E.
  assert (r = Ok None) as ->. { change r with (r, w').1. rewrite <- E. vm_compute. reflexivity. }
  opose proof (snapshot_finalized mem_client demo_range demo_Eventf demo_transport_silent demo_Eventf_silent
    std_equal_snapshots demo_req _ (Ok None) w' (demo_snapshot "dev-1" (Some "now")) _ _ _ E) as (_ & Hgone).
  - vm_compute. reflexivity.
  - reflexivity.
  - left.
  - exists w'. split; [reflexivity|]. exact (proj2 (Hgone None eq_refl)).
Defined.
End Snapshot.
