(* ===== verification/Syncers.v ===== *)
(** * The resource syncers of the virtual kubelet (k3k-kubelet/controller/syncer)

    Controllers that copy the objects the pods of a virtual cluster depend on
    to the host namespace of the cluster, under translated names, and the events
    of the host pods back.  A syncer holds a client of each side; the status
    patch of the virtual client and the recorder of events are parameters. *)

From S2P Require Import Prelude GoStd K8s Types Kube Effects Names Translate Lab.

Local Open Scope string_scope.

Module Syncers.
Import Translate.

Definition configMapFinalizerName : string := "configmap.k3k.io/finalizer".
Definition secretFinalizerName : string := "secret.k3k.io/finalizer".
Definition serviceFinalizerName : string := "service.k3k.io/finalizer".
Definition ingressFinalizerName : string := "ingress.k3k.io/finalizer".
Definition pvcFinalizerName : string := "pvc.k3k.io/finalizer".
Definition priorityClassFinalizerName : string := "priorityclass.k3k.io/finalizer".
Definition pseudoPVLabel : string := "pod.k3k.io/pseudoPV".
Definition PriorityClassGlobalDefaultAnnotation : string := "priorityclass.k3k.io/globalDefault".

(** Constants of other packages. *)
Definition SecretTypeServiceAccountToken : string := "kubernetes.io/service-account-token".
Definition SecretTypeOpaque : string := "Opaque".
Definition AnnBoundByController : string := "pv.kubernetes.io/bound-by-controller".
Definition AnnBindCompleted : string := "pv.kubernetes.io/bind-completed".
Definition AnnDynamicallyProvisioned : string := "pv.kubernetes.io/provisioned-by".

(** ** A status patch

    [Status().Patch(ctx, obj, client.MergeFrom(orig))]: the fields of the status
    in which the object differs from the original replace those of the stored
    object. *)
Definition merged {A} `{EqDecision A} (orig new stored : A) : A :=
  if decide (new = orig) then stored else new.

Definition merge_status (orig new stored : Obj) : Obj :=
  match orig, new, stored with
  | OIngress o, OIngress n, OIngress s =>
      OIngress {| ing_Meta := ing_Meta s; ing_Spec := ing_Spec s;
                  ing_LoadBalancer := merged (ing_LoadBalancer o) (ing_LoadBalancer n) (ing_LoadBalancer s) |}
  | OPersistentVolume o, OPersistentVolume n, OPersistentVolume s =>
      OPersistentVolume (set_pv_Phase (merged (pv_Phase o) (pv_Phase n) (pv_Phase s)) s)
  | _, _, _ => stored
  end.

Lemma merge_status_key o n s : obj_key (merge_status o n s) = obj_key s.
Proof. by destruct o, n, s. Qed.

(** A client that patches, and what the documentation promises of it. *)
Class StatusPatcher {W} (c : Client W) := {
  StatusPatch_ : Obj → Obj → M W Obj;
}.

Definition StatusPatch {W} (c : Client W) `{!StatusPatcher c} {T} `{Resource T} (new orig : T) : M W T :=
  o ← StatusPatch_ (inj new) (inj orig); as_typed o.

Class StatusPatchLaw {W} (c : Client W) `{!ClientLaws c} `{!StatusPatcher c} : Prop :=
  status_patch_spec new orig w :
    ∃ r w', StatusPatch_ (c:=c) new orig w = (r, w') ∧ (up w ↔ up w') ∧
      match r with
      | Ok o' => ∃ old, store w !! obj_key new = Some old ∧ o' = merge_status orig new old
                        ∧ store w' = <[obj_key new := o']> (store w)
      | Err e => store w' = store w
      | Panic => False
      end.

(** ** The objects of a kind that has no namespace

    The client of controller-runtime leaves the namespace of such an object
    out of the request, and the server stores none. *)
Definition set_Namespace (ns : string) (m : ObjectMeta) : ObjectMeta :=
  set_NamespacedName ns (Name m) m.

Definition unscoped_key (n : NamespacedName) : NamespacedName :=
  {| nn_Namespace := ""; nn_Name := nn_Name n |}.
Definition unscoped_obj (o : Obj) : Obj := obj_set_meta (set_Namespace "" (obj_meta o)) o.

Definition unscoped {W} (c : Client W) : Client W := {|
  client_Get k n := client_Get c k (unscoped_key n);
  client_List k opts := client_List c k {| lo_Namespace := ""; lo_Selector := lo_Selector opts;
                                           lo_Fields := lo_Fields opts |};
  client_Create o := client_Create c (unscoped_obj o);
  client_Update o := client_Update c (unscoped_obj o);
  client_StatusUpdate o := client_StatusUpdate c (unscoped_obj o);
  client_Delete k n := client_Delete c k (unscoped_key n);
  client_DeleteAllOf k opts := client_DeleteAllOf c k {| lo_Namespace := "";
    lo_Selector := lo_Selector opts; lo_Fields := lo_Fields opts |};
|}.

(** ** syncer.go *)
Record Context_ (W : Type) : Type := {
  sx_ClusterName : string;
  sx_ClusterNamespace : string;
  VirtualClient : Client W;
  HostClient : Client W;
  Translator : ToHostTranslator;
}.
Arguments sx_ClusterName {W}.
Arguments sx_ClusterNamespace {W}.
Arguments VirtualClient {W}.
Arguments HostClient {W}.
Arguments Translator {W}.

(** The context every [Add...Syncer] makes. *)
Definition new_context {W} (virt host : Client W) (clusterName clusterNamespace : string) : Context_ W := {|
  VirtualClient := virt; HostClient := host;
  Translator := {| ClusterName := clusterName; ClusterNamespace := clusterNamespace |};
  sx_ClusterName := clusterName; sx_ClusterNamespace := clusterNamespace |}.

Section Syncers.
Context {W : Type} `{KubeUtil} (x : Context_ W).

Definition cluster_key : NamespacedName :=
  {| nn_Namespace := sx_ClusterNamespace x; nn_Name := sx_ClusterName x |}.

(** *** The filters

    The seven [filterResources] differ in the part of the configuration that
    they read: whether it is enabled, and its selector. *)
Definition selector_Empty (s : gomap string) : bool := bool_decide (default ∅ s = ∅).

Definition filter_resources (config : SyncConfig → bool * gomap string) (object : ObjectMeta) : M W bool :=
  r ← attempt (Get (HostClient x) Cluster cluster_key);
  match r with
  | inr _ => mret false
  | inl cluster =>
      sync ← lift (deref (Sync (cl_Spec cluster)));
      let '(enabled, selector) := config sync in
      if negb enabled then mret (is_deleting object)
      else if selector_Empty selector then mret true
      else mret (selector_matches selector (Labels object))
  end.

Definition of_resource (f : SyncConfig → ResourceSyncConfig) (s : SyncConfig) : bool * gomap string :=
  (sync_Enabled (f s), sync_Selector (f s)).

Definition ConfigMapSyncer_filterResources : ObjectMeta → M W bool :=
  filter_resources (of_resource sync_ConfigMaps).
Definition SecretSyncer_filterResources : ObjectMeta → M W bool :=
  filter_resources (of_resource sync_Secrets).
Definition ServiceReconciler_filterResources : ObjectMeta → M W bool :=
  filter_resources (of_resource sync_Services).
Definition IngressReconciler_filterResources : ObjectMeta → M W bool :=
  filter_resources (λ s, (isync_Enabled (sync_Ingresses s), isync_Selector (sync_Ingresses s))).
Definition PVCReconciler_filterResources : ObjectMeta → M W bool :=
  filter_resources (of_resource sync_PersistentVolumeClaims).
Definition PriorityClassSyncer_filterResources : ObjectMeta → M W bool :=
  filter_resources (of_resource sync_PriorityClasses).

(** The predicate on the name of a priority class, the same for every event. *)
Definition ignoreSystemPrefixPredicate (object : ObjectMeta) : bool :=
  negb (strings_HasPrefix (Name object) "system-").

(** The host ingresses whose changes are followed, and the virtual ingress they
    come from. *)
Definition filterHostIngress (object : ObjectMeta) : M W bool :=
  if decide (map_str (Labels object) ClusterNameLabel ≠ sx_ClusterName x) then mret false
  else IngressReconciler_filterResources object.

Definition virtualIngressRequest (object : ObjectMeta) : list NamespacedName :=
  let name := map_str (Annotations object) ResourceNameAnnotation in
  let namespace := map_str (Annotations object) ResourceNamespaceAnnotation in
  if decide (name = "" ∨ namespace = "") then []
  else [{| nn_Namespace := namespace; nn_Name := name |}].

(** *** The steps the reconcilers share *)
Section Steps.
Context (host : Client W) {T : Type} `{SetMeta T} (finalizer : string).

(** The deletion of the host copy, then of the finalizer. *)
Definition delete_copy (synced : T) : M W unit := ignore_not_found (Delete host synced).

Definition drop_finalizer (virt : T) : M W unit :=
  let '(m, removed) := RemoveFinalizer (meta virt) finalizer in
  if removed : bool then Update (VirtualClient x) (with_meta m virt) ;; mret tt else mret tt.

Definition add_finalizer (virt : T) : M W T :=
  let '(m, added) := AddFinalizer (meta virt) finalizer in
  if added : bool then Update (VirtualClient x) (with_meta m virt) else mret virt.

(** The host copy is created, or replaced. *)
Definition create_or_replace (synced : T) : M W unit :=
  r ← attempt (Get host T (key_of (meta synced)));
  match r with
  | inr err => if IsNotFound err then Create host synced ;; mret tt else fail err
  | inl _ => Update host synced ;; mret tt
  end.

(** The part of a [Reconcile] up to the handling of the deletion: [k] gets the
    virtual object and its copy, owned by the cluster. *)
Definition with_copy (translate : T → T) (req : NamespacedName) (k : T → T → M W unit) : M W unit :=
  cluster ← Get (HostClient x) Cluster cluster_key;
  r ← attempt (Get (VirtualClient x) T req);
  match r with
  | inr err => if IsNotFound err then mret tt else fail err
  | inl virt =>
      let synced := translate virt in
      m ← lift (SetOwnerReference (cluster_owner cluster) (meta synced));
      k virt (with_meta m synced)
  end.

(** [Reconcile] of the config maps, the secrets and the services. *)
Definition sync_object (translate : T → T) (req : NamespacedName) : M W unit :=
  with_copy translate req (λ virt synced,
    if is_deleting (meta virt) then delete_copy synced ;; drop_finalizer virt
    else add_finalizer virt ;; create_or_replace synced).
End Steps.

Definition translate_meta {T} `{SetMeta T} (obj : T) : T :=
  with_meta (TranslateTo (Translator x) (meta obj)) obj.

(** *** configmap.go *)
Definition translateConfigMap (configMap : ConfigMap) : ConfigMap := translate_meta configMap.

Definition ConfigMapSyncer_Reconcile : NamespacedName → M W unit :=
  sync_object (HostClient x) configMapFinalizerName translateConfigMap.

(** *** secret.go *)
Definition translateSecret (secret : Secret) : Secret :=
  let hostSecret :=
    if decide (sec_Type secret = SecretTypeServiceAccountToken) then
      {| sec_Meta := sec_Meta secret; sec_Type := SecretTypeOpaque; sec_Data := sec_Data secret |}
    else secret in
  translate_meta hostSecret.

Definition SecretSyncer_Reconcile : NamespacedName → M W unit :=
  sync_object (HostClient x) secretFinalizerName translateSecret.

(** *** service.go *)
Definition service (obj : Service) : Service := translate_meta obj.

Definition ServiceReconciler_Reconcile (req : NamespacedName) : M W unit :=
  if decide (nn_Name req = "kubernetes" ∨ nn_Name req = "kube-dns") then mret tt
  else sync_object (HostClient x) serviceFinalizerName service req.

(** *** ingress.go *)
Definition translate_backend (namespace : string) (b : IngressBackend) : IngressBackend :=
  match ib_Service b with
  | Some s => {| ib_Service := Some {| isb_Name := TranslateName (Translator x) namespace (isb_Name s);
                                       isb_PortName := isb_PortName s; isb_PortNumber := isb_PortNumber s |};
                 ib_Resource := ib_Resource b |}
  | None => b
  end.

Definition translate_rule (namespace : string) (rule : IngressRule) : IngressRule :=
  match ir_HTTP rule with
  | Some paths =>
      {| ir_Host := ir_Host rule;
         ir_HTTP := Some (map (λ path, {| hip_Path := hip_Path path; hip_PathType := hip_PathType path;
                                          hip_Backend := translate_backend namespace (hip_Backend path) |})
                            paths) |}
  | None => rule
  end.

Definition translate_tls (namespace : string) (tls : IngressTLS) : IngressTLS :=
  if decide (itls_SecretName tls ≠ "") then
    {| itls_Hosts := itls_Hosts tls;
       itls_SecretName := TranslateName (Translator x) namespace (itls_SecretName tls) |}
  else tls.

Definition ingress (obj : Ingress) (disableTLSSecretTranslation : bool) : Ingress :=
  let hostIngress := translate_meta obj in
  let spec := ing_Spec obj in
  let namespace := Namespace (ing_Meta obj) in
  {| ing_Meta := ing_Meta hostIngress;
     ing_Spec := {|
       ing_IngressClassName := ing_IngressClassName spec;
       ing_DefaultBackend := ing_DefaultBackend spec;
       ing_TLS := if disableTLSSecretTranslation then ing_TLS spec
                  else map (translate_tls namespace) (ing_TLS spec);
       ing_Rules := map (translate_rule namespace) (ing_Rules spec) |};
     ing_LoadBalancer := ing_LoadBalancer obj |}.

Section Ingress.
Context `{!StatusPatcher (VirtualClient x)}.

Definition syncStatus (virtIngress hostIngress : Ingress) : M W unit :=
  if Semantic_DeepEqual (ing_LoadBalancer virtIngress) (ing_LoadBalancer hostIngress) then mret tt
  else
    StatusPatch (VirtualClient x)
      {| ing_Meta := ing_Meta virtIngress; ing_Spec := ing_Spec virtIngress;
         ing_LoadBalancer := ing_LoadBalancer hostIngress |} virtIngress ;;
    mret tt.

(** The configuration of the policy, if there is one, comes before the one of
    the cluster. *)
Definition appliedSync (cluster : Cluster) : option SyncConfig :=
  match st_Policy (cl_Status cluster) with
  | Some {| ap_Sync := Some sync |} => Some sync
  | _ => Sync (cl_Spec cluster)
  end.

(** The end of [Reconcile], once the finalizer is there. *)
Definition store_ingress (syncedIngress virtIngress : Ingress) : M W unit :=
  r ← attempt (Get (HostClient x) Ingress
        {| nn_Namespace := sx_ClusterNamespace x; nn_Name := Name (ing_Meta syncedIngress) |});
  match r with
  | inr err => if IsNotFound err then Create (HostClient x) syncedIngress ;; mret tt else fail err
  | inl hostIngress => Update (HostClient x) syncedIngress ;; syncStatus virtIngress hostIngress
  end.

Definition IngressReconciler_Reconcile (req : NamespacedName) : M W unit :=
  cluster ← Get (HostClient x) Cluster cluster_key;
  applied ← lift (deref (appliedSync cluster));
  let syncConfig := sync_Ingresses applied in
  r ← attempt (Get (VirtualClient x) Ingress req);
  match r with
  | inr err => if IsNotFound err then mret tt else fail err
  | inl virtIngress =>
      let syncedIngress := ingress virtIngress (isync_DisableTLSSecretTranslation syncConfig) in
      m ← lift (SetOwnerReference (cluster_owner cluster) (ing_Meta syncedIngress));
      let syncedIngress := with_meta m syncedIngress in
      if is_deleting (ing_Meta virtIngress) then
        delete_copy (HostClient x) syncedIngress ;; drop_finalizer ingressFinalizerName virtIngress
      else
        virtIngress ← add_finalizer ingressFinalizerName virtIngress;
        store_ingress syncedIngress virtIngress
  end.
End Ingress.

(** *** priorityclass.go *)
Definition translatePriorityClass (priorityClass : PriorityClassObj) : PriorityClassObj :=
  let m := TranslateTo (Translator x) (pc_Meta priorityClass) in
  let annotations := default ∅ (Annotations m) in
  let annotations := if pc_GlobalDefault priorityClass
                     then <[PriorityClassGlobalDefaultAnnotation := "true"]> annotations else annotations in
  {| pc_Meta := set_Annotations (Some annotations) m; pc_Value := pc_Value priorityClass;
     pc_GlobalDefault := false; pc_Description := pc_Description priorityClass;
     pc_PreemptionPolicy := pc_PreemptionPolicy priorityClass |}.

Definition set_ResourceVersion (v : string) (m : ObjectMeta) : ObjectMeta := {|
  Name := Name m; Namespace := Namespace m; Labels := Labels m; Annotations := Annotations m;
  OwnerReferences := OwnerReferences m; Finalizers := Finalizers m; ResourceVersion := v; UID := UID m;
  DeletionTimestamp := DeletionTimestamp m |}.

(** The end of [Reconcile], once the finalizer is there. *)
Definition store_priorityclass (hostPriorityClass : PriorityClassObj) : M W unit :=
  let host := unscoped (HostClient x) in
  r ← attempt (Get host PriorityClassObj (key_of (pc_Meta hostPriorityClass)));
  match r with
  | inr err => if negb (IsNotFound err) then fail err else Create host hostPriorityClass ;; mret tt
  | inl existingPriorityClass =>
      let hostPriorityClass :=
        with_meta (set_ResourceVersion (ResourceVersion (pc_Meta existingPriorityClass))
                     (pc_Meta hostPriorityClass)) hostPriorityClass in
      r ← attempt (Update host hostPriorityClass);
      match r with
      | inr err => fail (EFmt [EText "updating priorityclass in host: "; err])
      | inl _ => mret tt
      end
  end.

Definition PriorityClassSyncer_Reconcile (req : NamespacedName) : M W unit :=
  let host := unscoped (HostClient x) in
  with_copy translatePriorityClass req (λ priorityClass hostPriorityClass,
    if is_deleting (pc_Meta priorityClass) then
      delete_copy host hostPriorityClass ;; drop_finalizer priorityClassFinalizerName priorityClass
    else
      add_finalizer priorityClassFinalizerName priorityClass ;;
      store_priorityclass hostPriorityClass).

(** *** persistentvolumeclaims.go *)
Definition pvc (obj : PersistentVolumeClaim) : PersistentVolumeClaim := translate_meta obj.

(** The type of a claim that a typed client has read is not set. *)
Definition newPersistentVolume (obj : PersistentVolumeClaim) : PersistentVolume := {|
  pv_Meta := set_Annotations (map_lit [(AnnBoundByController, "true"); (AnnDynamicallyProvisioned, "k3k-kubelet")])
               (set_Labels (map_lit [(pseudoPVLabel, "true")]) (meta_of "" (Name (pvc_Meta obj))));
  pv_FlexDriver := "pseudopv";
  pv_StorageClassName := default "" (pvc_StorageClassName obj);
  pv_VolumeMode := pvc_VolumeMode obj;
  pv_ReclaimPolicy := "Delete";
  pv_AccessModes := pvc_AccessModes obj;
  pv_Capacity := pvc_Requests obj;
  pv_ClaimRef := Some {|
    oref_APIVersion := ""; oref_Kind := ""; oref_Namespace := Namespace (pvc_Meta obj);
    oref_Name := Name (pvc_Meta obj); oref_UID := UID (pvc_Meta obj);
    oref_ResourceVersion := ResourceVersion (pvc_Meta obj) |};
  pv_Phase := "" |}.

(** The claim bound to a volume. *)
Definition bound_claim (volume : string) (p : PersistentVolumeClaim) : PersistentVolumeClaim := {|
  pvc_Meta := set_Annotations (Some (<[AnnBindCompleted := "yes"]>
                (<[AnnBoundByController := "yes"]> (default ∅ (Annotations (pvc_Meta p)))))) (pvc_Meta p);
  pvc_AccessModes := pvc_AccessModes p; pvc_StorageClassName := pvc_StorageClassName p;
  pvc_Requests := pvc_Requests p; pvc_VolumeName := volume; pvc_VolumeMode := pvc_VolumeMode p;
  pvc_Status := pvc_Status p |}.

Section Claims.
Context `{!StatusPatcher (VirtualClient x)}.

Definition createVirtualPersistentVolume (claim : PersistentVolumeClaim) : M W unit :=
  let pv := newPersistentVolume claim in
  r ← attempt (Create (VirtualClient x) pv);
  pv ← (match r with
        | inl pv' => mret pv'
        | inr err => if IsAlreadyExists err then mret pv else fail err
        end);
  pv ← StatusPatch (VirtualClient x) (set_pv_Phase "Bound" pv) pv;
  pvcPatch ← Update (VirtualClient x) (bound_claim (Name (pv_Meta pv)) claim);
  StatusUpdate (VirtualClient x)
    (set_pvc_Status {| pvcs_Phase := "Bound"; pvcs_AccessModes := pvc_AccessModes pvcPatch |} pvcPatch) ;;
  mret tt.

Definition PVCReconciler_Reconcile (req : NamespacedName) : M W unit :=
  with_copy pvc req (λ virtPVC syncedPVC,
    if is_deleting (pvc_Meta virtPVC) then
      delete_copy (HostClient x) syncedPVC ;;
      ignore_not_found (Delete (VirtualClient x) (newPersistentVolume virtPVC)) ;;
      drop_finalizer pvcFinalizerName virtPVC
    else
      virtPVC ← add_finalizer pvcFinalizerName virtPVC;
      r ← attempt (Get (HostClient x) PersistentVolumeClaim (key_of (pvc_Meta syncedPVC)));
      match r with
      | inl _ => mret tt
      | inr err =>
          if negb (IsNotFound err) then fail err
          else
            r ← attempt (Create (HostClient x) syncedPVC);
            match r with
            | inr err => if IsAlreadyExists err then createVirtualPersistentVolume virtPVC else fail err
            | inl _ => createVirtualPersistentVolume virtPVC
            end
      end).
End Claims.

(** *** events.go *)
Definition translateEventMessage (message hostName hostNamespace virtualName virtualNamespace : string) : string :=
  let message := if decide (hostNamespace ≠ "" ∧ virtualNamespace ≠ "")
                 then strings_ReplaceAll message (hostNamespace +:+ "/" +:+ hostName)
                        (virtualNamespace +:+ "/" +:+ virtualName)
                 else message in
  strings_ReplaceAll message hostName virtualName.

(** [record.EventRecorder.Event(object, eventtype, reason, message)] *)
Context (virtEventRecorder_Event : Pod → string → string → string → M W unit).

Definition EventSyncer_Reconcile (req : NamespacedName) : M W unit :=
  r ← attempt (Get (HostClient x) EventObj req);
  match r with
  | inr err =>
      let err := EFmt [EText "could not load event: "; err] in
      if IsNotFound err then mret tt else fail err
  | inl event =>
      let involved := ev_InvolvedObject event in
      if decide (oref_Kind involved ≠ "Pod") then mret tt
      else
        r ← attempt (Get (HostClient x) Pod
              {| nn_Namespace := oref_Namespace involved; nn_Name := oref_Name involved |});
        match r with
        | inr err => if negb (IsNotFound err) then fail (EFmt [EText "could not load host object: "; err])
                     else mret tt
        | inl hostPod =>
            let hostMeta := TranslateFrom (pod_Meta hostPod) in
            if decide (Name hostMeta = "") then mret tt
            else
              r ← attempt (Get (VirtualClient x) Pod (key_of hostMeta));
              match r with
              | inr err => if negb (IsNotFound err) then fail (EFmt [EText "could not load virtual object: "; err])
                           else mret tt
              | inl virtPod =>
                  virtEventRecorder_Event virtPod (ev_Type event) (ev_Reason event)
                    (translateEventMessage (ev_Message event) (oref_Name involved) (oref_Namespace involved)
                       (Name hostMeta) (Namespace hostMeta))
              end
        end
  end.
End Syncers.

#[local] Set Default Proof Using "Type*".

(** ** What the steps do

    [hstore] and [vstore] are the objects of the host and of the virtual
    cluster; neither client changes what the other one stores. *)
Section Laws.
Context {W : Type} (x : Context_ W) `{KL : KubeUtilLaws}.
Context `{HL : !ClientLaws (HostClient x)} `{VL : !ClientLaws (VirtualClient x)}.
Context `{!Foreign (HostClient x) (VirtualClient x)} `{!Foreign (VirtualClient x) (HostClient x)}.

Definition hstore : W → gmap ObjKey Obj := store (ClientLaws := HL).
Definition vstore : W → gmap ObjKey Obj := store (ClientLaws := VL).
Definition same (w w' : W) : Prop := hstore w' = hstore w ∧ vstore w' = vstore w.

Lemma same_trans w1 w2 w3 : same w1 w2 → same w2 w3 → same w1 w3.
Proof using. intros [H1 H2] [H3 H4]. split; congruence. Qed.

Section Typed.
Context {T : Type} `{Resource T}.

Lemma host_Get n w r w' :
  Get (HostClient x) T n w = (r, w') → same w w' ∧
  match r with
  | Ok y => hstore w !! (kind T, n) = Some (inj y) ∧ key_of (meta y) = n
  | Err e => IsNotFound e = true → hstore w !! (kind T, n) = None
  | Panic => False
  end.
Proof using HL VL Foreign1.
  intros E. split; [split|].
  - by apply (Get_run (HostClient x)) in E as [? _].
  - by apply (silent_Get (VirtualClient x) (HostClient x)) in E.
  - apply (Get_run (HostClient x)) in E as (_ & _ & Hr). destruct r as [y|e|]; [done| |done].
    intros He. by rewrite He in Hr.
Qed.

Lemma virtual_Get n w r w' :
  Get (VirtualClient x) T n w = (r, w') → same w w' ∧
  match r with
  | Ok y => vstore w !! (kind T, n) = Some (inj y) ∧ key_of (meta y) = n
  | Err e => IsNotFound e = true → vstore w !! (kind T, n) = None
  | Panic => False
  end.
Proof using HL VL Foreign0.
  intros E. split; [split|].
  - by apply (silent_Get (HostClient x) (VirtualClient x)) in E.
  - by apply (Get_run (VirtualClient x)) in E as [? _].
  - apply (Get_run (VirtualClient x)) in E as (_ & _ & Hr). destruct r as [y|e|]; [done| |done].
    intros He. by rewrite He in Hr.
Qed.

Lemma inj_typed_inj (y z : T) : inj y = inj z → y = z.
Proof using. intros E. apply (f_equal (prj (T:=T))) in E. rewrite !prj_inj in E. congruence. Qed.

Lemma typed_key (y : T) : obj_key (inj y) = (kind T, key_of (meta y)).
Proof using. unfold obj_key. by rewrite inj_kind, inj_meta. Qed.

End Typed.

Section Copies.
Context {T : Type} `{SetMeta T}.

(** A run stops before the copy is made, with both sides as they were, or goes
    on with the copy. *)
Lemma with_copy_run translate req k w r w' :
  with_copy x translate req k w = (r, w') →
  (same w w' ∧ (r = Ok tt → vstore w !! (kind T, req) = None)) ∨
  ∃ cluster (virt : T) m w1, same w w1 ∧
    hstore w !! (("Cluster", cluster_key x) : ObjKey) = Some (OCluster cluster) ∧
    vstore w !! (kind T, req) = Some (inj virt) ∧ key_of (meta virt) = req ∧
    SetOwnerReference (cluster_owner cluster) (meta (translate virt)) = Ok m ∧
    k virt (with_meta m (translate virt)) w1 = (r, w').
Proof.
  unfold with_copy. unfold mbind at 1, M_bind at 1. destruct (Get _ Cluster _ w) as [r1 w1] eqn:E1.
  apply host_Get in E1 as [Hs1 Hr1].
  destruct r1 as [cluster|e|]; [|intros [= <- <-]; by left|done]. destruct Hr1 as [Hcl _].
  unfold mbind at 1, M_bind at 1, attempt. destruct (Get _ T req w1) as [r2 w2] eqn:E2.
  apply virtual_Get in E2 as [Hs2 Hr2]. pose proof (same_trans _ _ _ Hs1 Hs2) as Hs.
  destruct Hs1 as [_ Hv1]. rewrite Hv1 in Hr2. destruct r2 as [virt|e|]; [| |done].
  - destruct Hr2 as [Hv Hk]. unfold mbind, M_bind, lift.
    destruct (SetOwnerReference _ _) as [m|e|] eqn:Em; [|intros [= <- <-]; by left..].
    intros E. right. by exists cluster, virt, m, w2.
  - destruct (IsNotFound e); intros [= <- <-]; left; (split; [done|]); [auto|done].
Qed.

(** The finalizer is added to the stored object. *)
Lemma add_finalizer_run fin (virt : T) w r w' :
  vstore w !! obj_key (inj virt) = Some (inj virt) →
  add_finalizer x fin virt w = (r, w') →
  hstore w' = hstore w ∧
  match r with
  | Ok v => key_of (meta v) = key_of (meta virt) ∧ fin ∈ Finalizers (meta v) ∧
            vstore w' = <[obj_key (inj virt) := inj v]> (vstore w) ∧
            (v = virt ∨ ∃ w1, client_Update (VirtualClient x) (inj (with_meta
               (set_Finalizers (Finalizers (meta virt) ++ [fin]) (meta virt)) virt)) w1 = (Ok (inj v), w'))
  | Err e => vstore w' = vstore w
  | Panic => False
  end.
Proof.
  intros Hv. unfold add_finalizer. rewrite AddFinalizer_law. case_decide as Hf.
  { intros [= <- <-]. split_and!; [done..| |by left]. by rewrite insert_id. }
  intros E. split; [by apply (silent_Update (HostClient x) (VirtualClient x)) in E|].
  apply (Update_run (VirtualClient x)) in E as [_ Hr]. destruct r as [v|e|]; [|done..].
  set (m := set_Finalizers _ _) in *.
  destruct Hr as (_ & Hk & Hfin & Hs & E). rewrite !with_meta_inj in *.
  assert (meta (with_meta m virt) = m) as Hm by (by rewrite <- inj_meta, with_meta_inj, obj_set_meta_meta).
  assert (obj_key (obj_set_meta m (inj virt)) = obj_key (inj virt)) as Hkey.
  { unfold obj_key. rewrite obj_set_meta_kind, obj_set_meta_meta, inj_meta. done. }
  rewrite Hm in Hfin, Hs. rewrite bool_decide_false, andb_false_r, Hkey in Hs
    by (by destruct (Finalizers (meta virt))).
  split_and!.
  - rewrite Hkey, !typed_key in Hk. by apply (f_equal snd) in Hk.
  - rewrite Hfin. cbn. set_solver.
  - exact Hs.
  - right. by exists w.
Qed.

(** The finalizer is taken from the stored object, which goes away with its
    last one. *)
Lemma drop_finalizer_run fin (virt : T) w r w' :
  vstore w !! obj_key (inj virt) = Some (inj virt) →
  drop_finalizer x fin virt w = (r, w') →
  hstore w' = hstore w ∧ (∀ i, i ≠ obj_key (inj virt) → vstore w' !! i = vstore w !! i) ∧
  match r with
  | Ok _ => ∀ o, vstore w' !! obj_key (inj virt) = Some o → fin ∉ Finalizers (obj_meta o)
  | Err e => vstore w' = vstore w
  | Panic => False
  end.
Proof.
  intros Hv. unfold drop_finalizer. rewrite RemoveFinalizer_law. case_decide as Hf.
  2:{ intros [= <- <-]. split_and!; [done..|]. intros o. rewrite Hv. intros [= <-]. by rewrite inj_meta. }
  set (m := set_Finalizers _ _).
  assert (meta (with_meta m virt) = m) as Hm by (by rewrite <- inj_meta, with_meta_inj, obj_set_meta_meta).
  assert (obj_key (inj (with_meta m virt)) = obj_key (inj virt)) as Hkey.
  { rewrite with_meta_inj. unfold obj_key. rewrite obj_set_meta_kind, obj_set_meta_meta, inj_meta. done. }
  unfold mbind, M_bind. destruct (Update _ _ w) as [r1 w1] eqn:E.
  pose proof (silent_Update (HostClient x) (VirtualClient x) _ _ _ _ E) as Hh.
  apply (Update_run (VirtualClient x)) in E as [_ Hr]. change store with vstore in Hr. rewrite Hm, Hkey in Hr.
  destruct r1 as [v|e|]; [|by intros [= <- <-]; rewrite Hr|done].
  destruct Hr as (_ & Hk & Hfin & Hs & _). intros [= <- <-]. split; [exact Hh|].
  assert (fin ∉ Finalizers (meta v)) as Hno.
  { rewrite Hfin. cbn. unfold slices_DeleteFunc. rewrite list_elem_of_In, List.filter_In.
    intros [_ Hn]. by rewrite bool_decide_true in Hn. }
  split.
  - intros i Hi. destruct (_ && _); rewrite Hs; [by rewrite lookup_delete_ne|by rewrite lookup_insert_ne].
  - intros o. destruct (_ && _); rewrite Hs; [by rewrite lookup_delete_eq|].
    rewrite lookup_insert_eq. intros [= <-]. by rewrite inj_meta.
Qed.

(** The host copy is gone, or on its way out: its deletion was accepted. *)
Definition leaving (v : option Obj) : Prop :=
  match v with None => True | Some o => is_deleting (obj_meta o) = true end.

Lemma delete_copy_run (synced : T) w r w' :
  delete_copy (HostClient x) synced w = (r, w') →
  vstore w' = vstore w ∧ (∀ i, i ≠ obj_key (inj synced) → hstore w' !! i = hstore w !! i) ∧
  match r with
  | Ok _ => leaving (hstore w' !! obj_key (inj synced))
  | Err e => hstore w' = hstore w
  | Panic => False
  end.
Proof.
  unfold delete_copy, ignore_not_found, mbind, M_bind, attempt, Delete.
  destruct (delete_spec (ClientLaws := HL) (kind T) (key_of (meta synced)) w) as (r1 & w1 & E1 & _ & Hr).
  pose proof (foreign_Delete (c:=VirtualClient x) _ _ _ _ _ E1) as Hv. change (vstore w1 = vstore w) in Hv.
  change store with hstore in Hr. rewrite E1. rewrite typed_key.
  destruct r1 as [u|e|]; [| |done].
  - destruct Hr as (old & Hold & Hs). intros [= <- <-]. split; [exact Hv|].
    case_decide; [|destruct Hs as [now Hs]]; rewrite Hs; split.
    + intros i Hi. by rewrite lookup_delete_ne.
    + by rewrite lookup_delete_eq.
    + intros i Hi. by rewrite lookup_insert_ne.
    + rewrite lookup_insert_eq. cbn. unfold mark_deleted. rewrite obj_set_meta_meta.
      unfold is_deleting. cbn. by destruct (DeletionTimestamp _).
  - destruct Hr as [Hs Hr]. destruct (IsNotFound e); intros [= <- <-]; rewrite Hs; [|done].
    split_and!; [exact Hv|done|]. assert (∀ v, v = None → leaving v) as Hl by (by intros ? ->). apply Hl, Hr.
Qed.

(** The host copy is stored, whatever was there. *)
Lemma create_or_replace_run {A} (content : T → A) `{!Keeps (HostClient x) content} (synced : T) w r w' :
  is_deleting (meta synced) = false →
  create_or_replace (HostClient x) synced w = (r, w') →
  vstore w' = vstore w ∧
  match r with
  | Ok _ => ∃ y, hstore w' = <[obj_key (inj synced) := inj y]> (hstore w) ∧ content y = content synced
  | Err e => hstore w' = hstore w
  | Panic => False
  end.
Proof.
  intros Hd. unfold create_or_replace. unfold mbind at 1, M_bind at 1, attempt.
  destruct (Get _ T _ w) as [r1 w1] eqn:E1. apply host_Get in E1 as [[Hh1 Hv1] Hr1].
  destruct r1 as [cur|e|]; [| |done].
  - unfold mbind, M_bind. destruct (Update _ _ w1) as [r2 w2] eqn:E2.
    pose proof (silent_Update (VirtualClient x) (HostClient x) _ _ _ _ E2) as Hv2.
    change (vstore w2 = vstore w1) in Hv2. rewrite Hv1 in Hv2.
    apply (Update_run (HostClient x)) in E2 as [_ Hr2]. rewrite Hd in Hr2. cbn [andb] in Hr2.
    change store with hstore in Hr2. rewrite Hh1 in Hr2.
    destruct r2 as [y|e|]; [|by intros [= <- <-]|done]. intros [= <- <-].
    destruct Hr2 as (_ & _ & _ & Hs & E2). split; [done|]. exists y. split; [done|]. exact (update_keeps _ _ _ _ E2).
  - destruct (IsNotFound e); [|by intros [= <- <-]].
    unfold mbind, M_bind. destruct (Create _ _ w1) as [r2 w2] eqn:E2.
    pose proof (silent_Create (VirtualClient x) (HostClient x) _ _ _ _ E2) as Hv2.
    change (vstore w2 = vstore w1) in Hv2. rewrite Hv1 in Hv2.
    apply (Create_run (HostClient x)) in E2 as [_ Hr2]. change store with hstore in Hr2. rewrite Hh1 in Hr2.
    destruct r2 as [y|e'|]; [|by intros [= <- <-]|done]. intros [= <- <-].
    destruct Hr2 as (_ & _ & Hs & E2). split; [done|]. exists y. split; [done|]. exact (create_keeps _ _ _ _ E2).
Qed.

(** *** The host copy of an object *)
Definition host_name (req : NamespacedName) : NamespacedName :=
  {| nn_Namespace := ClusterNamespace (Translator x);
     nn_Name := TranslateName (Translator x) (nn_Namespace req) (nn_Name req) |}.
Definition host_key (req : NamespacedName) : ObjKey := (kind T, host_name req).
Definition virtual_key (req : NamespacedName) : ObjKey := (kind T, req).

(** The translation of a kind keeps to the metadata of the translator. *)
Definition translates (translate : T → T) : Prop :=
  ∀ v, meta (translate v) = TranslateTo (Translator x) (meta v).

Lemma meta_with_meta m (v : T) : meta (with_meta m v) = m.
Proof using. by rewrite <- inj_meta, with_meta_inj, obj_set_meta_meta. Qed.

Lemma SetOwnerReference_meta r m m' :
  SetOwnerReference r m = Ok m' → ∃ rs, m' = set_OwnerReferences rs m.
Proof using KL. intros (rs & -> & _)%SetOwnerReference_ok. by exists rs. Qed.

(** The copy that is written: its key, and that it is not being deleted unless
    the object is. *)
Lemma copy_meta translate owner req (virt : T) m :
  translates translate → key_of (meta virt) = req →
  SetOwnerReference owner (meta (translate virt)) = Ok m →
  obj_key (inj (with_meta m (translate virt))) = host_key req ∧
  is_deleting (meta (with_meta m (translate virt))) = is_deleting (meta virt) ∧
  Labels m = Labels (TranslateTo (Translator x) (meta virt)).
Proof using KL.
  intros Ht <- Hm. rewrite Ht in Hm. apply SetOwnerReference_meta in Hm as [rs ->].
  rewrite typed_key, meta_with_meta. by split_and!.
Qed.

(** What a run of the shared reconciliation does, in each case. *)
Lemma sync_object_run {A} (content : T → A) `{!Keeps (HostClient x) content} fin translate req w r w' :
  translates translate → sync_object x (HostClient x) fin translate req w = (r, w') →
  (∀ i, i ≠ host_key req → hstore w' !! i = hstore w !! i) ∧
  (∀ i, i ≠ virtual_key req → vstore w' !! i = vstore w !! i) ∧
  (r = Ok tt → ∀ virt : T, vstore w !! virtual_key req = Some (inj virt) →
     if is_deleting (meta virt) then
       leaving (hstore w' !! host_key req) ∧
       ∀ o, vstore w' !! virtual_key req = Some o → fin ∉ Finalizers (obj_meta o)
     else
       ∃ cluster m (copy v : T),
         hstore w !! (("Cluster", cluster_key x) : ObjKey) = Some (OCluster cluster) ∧
         SetOwnerReference (cluster_owner cluster) (meta (translate virt)) = Ok m ∧
         hstore w' !! host_key req = Some (inj copy) ∧ content copy = content (with_meta m (translate virt)) ∧
         vstore w' !! virtual_key req = Some (inj v) ∧ fin ∈ Finalizers (meta v)).
Proof.
  intros Ht E. unfold sync_object in E. apply with_copy_run in E.
  destruct E as [[[Hh Hv] Hr]|(cluster & virt & m & w1 & [Hh Hv] & Hcl & Hvirt & Hkey & Hm & E)].
  { rewrite Hh, Hv. split_and!; [done..|]. intros Hok virt Hvirt. by pose proof (eq_trans (eq_sym (Hr Hok)) Hvirt). }
  pose proof (copy_meta _ _ _ _ _ Ht Hkey Hm) as (Hck & Hcd & _).
  assert (obj_key (inj virt) = virtual_key req) as Hvk by (by rewrite typed_key, Hkey).
  set (synced := with_meta m (translate virt)) in *.
  assert (∀ u : T, vstore w !! virtual_key req = Some (inj u) → u = virt) as Hsame.
  { intros u Hu. pose proof (eq_trans (eq_sym Hu) Hvirt) as Hi. injection Hi as Hi. by apply inj_typed_inj. }
  change (kind T, req) with (virtual_key req) in Hvirt. rewrite <- Hh, <- Hv in *. clear Hh Hv w.
  destruct (is_deleting (meta virt)) eqn:Hd.
  - unfold mbind, M_bind in E. destruct (delete_copy _ _ w1) as [r1 w2] eqn:E1.
    apply delete_copy_run in E1 as (Hv & Hh & Hr1). rewrite Hck in *. rewrite <- Hv in *.
    destruct r1 as [[]|e|]; [|injection E as <- <-; split_and!; done|done].
    apply drop_finalizer_run in E as (Hh2 & Hv2 & Hr2); [|by rewrite Hvk].
    rewrite Hvk in *. rewrite Hh2. split_and!; [done..|]. intros -> u ->%Hsame. rewrite Hd. auto.
  - unfold mbind, M_bind in E. destruct (add_finalizer _ _ _ w1) as [r1 w2] eqn:E1.
    apply add_finalizer_run in E1 as [Hh Hr1]; [|by rewrite Hvk]. rewrite Hvk in Hr1. rewrite <- Hh in *.
    destruct r1 as [v|e|]; [|injection E as <- <-; rewrite Hr1; by split_and!|done].
    destruct Hr1 as (_ & Hfin & Hv2 & _).
    apply (create_or_replace_run content) in E as [Hv3 Hr2]; [|by rewrite Hcd]. rewrite Hv3, Hv2.
    split_and!.
    + intros i Hi. destruct r as [[]|e|]; [|by rewrite Hr2|done]. destruct Hr2 as (y & -> & _).
      rewrite Hck. by rewrite lookup_insert_ne.
    + intros i Hi. by rewrite lookup_insert_ne.
    + intros -> u ->%Hsame. rewrite Hd. destruct Hr2 as (y & -> & Hy).
      exists cluster, m, y, v. rewrite Hck, !lookup_insert_eq. by split_and!.
Qed.
End Copies.
Arguments host_key T {_} req.
Arguments virtual_key T {_} req.

(** ** Properties *)

Lemma translate_meta_translates T `{SetMeta T} : translates (translate_meta x : T → T).
Proof using. intros v. apply meta_with_meta. Qed.

Lemma translateSecret_translates : translates (translateSecret x).
Proof using. intros v. unfold translateSecret. by case_decide. Qed.

(** C23: The copy of a secret: a run that ends well on a secret that is not being
    deleted leaves, under the translated name in the namespace of the cluster, a
    secret with the same data, of the same type (an ordinary one when it is the
    token of a service account) and with the label of the cluster; the secret
    has the finalizer; nothing else changes on either side. *)
Theorem secret_synced `{!Keeps (HostClient x) (λ s : Secret, (sec_Type s, sec_Data s, Labels (sec_Meta s)))}
    req w w' virt :
  vstore w !! virtual_key Secret req = Some (OSecret virt) → is_deleting (sec_Meta virt) = false →
  SecretSyncer_Reconcile x req w = (Ok tt, w') →
  (∃ copy, hstore w' !! host_key Secret req = Some (OSecret copy) ∧ sec_Data copy = sec_Data virt ∧
     sec_Type copy = (if decide (sec_Type virt = SecretTypeServiceAccountToken)
                      then SecretTypeOpaque else sec_Type virt) ∧
     map_get (Labels (sec_Meta copy)) ClusterNameLabel = Some (ClusterName (Translator x))) ∧
  (∃ v, vstore w' !! virtual_key Secret req = Some (OSecret v) ∧
        secretFinalizerName ∈ Finalizers (sec_Meta v)) ∧
  (∀ i, i ≠ host_key Secret req → hstore w' !! i = hstore w !! i) ∧
  (∀ i, i ≠ virtual_key Secret req → vstore w' !! i = vstore w !! i).
Proof.
  intros Hv Hd E. unfold SecretSyncer_Reconcile in E.
  apply (sync_object_run (λ s : Secret, (sec_Type s, sec_Data s, Labels (sec_Meta s)))) in E as (Hh & Hv' & Hr);
    [|apply translateSecret_translates].
  specialize (Hr eq_refl virt Hv). cbn [meta Secret_resource] in Hr. rewrite Hd in Hr.
  destruct Hr as (cluster & m & copy & v & _ & Hm & Hcopy & Heq & Hst & Hfin).
  apply SetOwnerReference_meta in Hm as [rs Hm]. rewrite translateSecret_translates in Hm.
  split_and!; [|by exists v|done..]. exists copy. split; [exact Hcopy|].
  injection Heq as -> -> ->. rewrite Hm. split_and!.
  - unfold translateSecret. by case_decide.
  - unfold translateSecret. by case_decide.
  - cbn. apply lookup_insert_eq.
Qed.

(** C24: An object that is being deleted keeps its finalizer until its host copy is
    gone or its deletion was accepted; a run that ends well takes the finalizer
    off. *)
Theorem copy_deleted_first {T} `{SetMeta T} fin (translate : T → T) req w r w' (virt : T) :
  translates translate → vstore w !! virtual_key T req = Some (inj virt) → is_deleting (meta virt) = true →
  sync_object x (HostClient x) fin translate req w = (r, w') →
  (vstore w' !! virtual_key T req = Some (inj virt) ∨ leaving (hstore w' !! host_key T req)) ∧
  (r = Ok tt → leaving (hstore w' !! host_key T req) ∧
     ∀ o, vstore w' !! virtual_key T req = Some o → fin ∉ Finalizers (obj_meta o)).
Proof.
  intros Ht Hv Hd E. split.
  2:{ intros Hok. assert (Keeps (HostClient x) (λ _ : T, tt)) as Hk by by split.
      pose proof (sync_object_run _ _ _ _ _ _ _ Ht E) as (_ & _ & Hr). specialize (Hr Hok virt Hv).
      by rewrite Hd in Hr. }
  unfold sync_object in E. apply with_copy_run in E.
  destruct E as [[[_ Hs] _]|(cluster & virt' & m & w1 & [_ Hs] & _ & Hvirt & Hkey & Hm & E)].
  { left. by rewrite Hs. }
  assert (virt' = virt) as ->.
  { pose proof (eq_trans (eq_sym Hvirt) Hv) as Hi. injection Hi as Hi. by apply inj_typed_inj. }
  pose proof (copy_meta _ _ _ _ _ Ht Hkey Hm) as (Hck & _). rewrite Hd, <- Hs in *.
  unfold mbind, M_bind in E. destruct (delete_copy _ _ w1) as [r1 w2] eqn:E1.
  apply delete_copy_run in E1 as (Hv2 & _ & Hr1). rewrite Hck in Hr1.
  destruct r1 as [[]|e|]; [|injection E as <- <-; left; by rewrite Hv2|done]. right.
  apply drop_finalizer_run in E as (-> & _); [done|].
  rewrite Hv2, typed_key, Hkey. exact Hv.
Qed.

(** Two objects of a kind do not disturb each other: a run for one, whatever it
    ends with, leaves the other one and its host copy alone, unless both host
    names were shortened and their digests agree on 20 bits. *)
Theorem syncs_do_not_interfere {T} `{SetMeta T} fin (translate : T → T) req req' w r w' :
  translates translate → req ≠ req' →
  plain (nn_Name req) → plain (nn_Name req') → plain (nn_Namespace req) → plain (nn_Namespace req') →
  plain (ClusterName (Translator x)) →
  sync_object x (HostClient x) fin translate req w = (r, w') →
  vstore w' !! virtual_key T req' = vstore w !! virtual_key T req' ∧
  (hstore w' !! host_key T req' = hstore w !! host_key T req' ∨
   let path req := host_path (Translator x) (nn_Namespace req) (nn_Name req) in
   (64 ≤ String.length (path req))%nat ∧ (64 ≤ String.length (path req'))%nat ∧
   str_take 5 (hex_encode (Sha256.sha256_Sum256 (path req)))
   = str_take 5 (hex_encode (Sha256.sha256_Sum256 (path req')))).
Proof.
  intros Ht Hne Hn Hn' Hs Hs' Hc E. assert (Keeps (HostClient x) (λ _ : T, tt)) as Hk by by split.
  pose proof (sync_object_run _ _ _ _ _ _ _ Ht E) as (Hh & Hv & _). split.
  { apply Hv. unfold virtual_key. congruence. }
  destruct (decide (host_key T req' = host_key T req)) as [Heq|Hd]; [right|left; by apply Hh].
  unfold host_key, host_name in Heq. injection Heq as Heq. symmetry in Heq.
  apply translate_inj in Heq as [[Hq1 Hq2]|Hq]; [|exact Hq|auto..].
  destruct Hne. destruct req, req'; cbn in *; congruence.
Qed.

(** *** Ingresses *)
Section Patches.
Context `{!StatusPatcher (VirtualClient x)} `{!StatusPatchLaw (VirtualClient x)}.
Context (Hpatch : ∀ new orig, silent (HostClient x) (StatusPatch_ (c:=VirtualClient x) new orig)).

Lemma StatusPatch_run {T} `{Resource T} (new orig : T) w r w' :
  StatusPatch (VirtualClient x) new orig w = (r, w') →
  hstore w' = hstore w ∧
  match r with
  | Ok y => ∃ old, vstore w !! obj_key (inj new) = Some old ∧ inj y = merge_status (inj orig) (inj new) old ∧
                   vstore w' = <[obj_key (inj new) := inj y]> (vstore w)
  | Err e => vstore w' = vstore w
  | Panic => False
  end.
Proof using Hpatch StatusPatchLaw0.
  intros E. split; [by apply (silent_typed (T:=T) (HostClient x) _ (Hpatch (inj new) (inj orig))) in E|].
  unfold StatusPatch, mbind, M_bind in E.
  destruct (status_patch_spec (inj new) (inj orig) w) as (r1 & w1 & E1 & _ & Hr). rewrite E1 in E.
  destruct r1 as [o|e|]; [|by injection E as <- <-|done]. destruct Hr as (old & Hold & -> & Hs).
  unfold as_typed in E. pose proof (store_keys _ _ _ Hold) as Hk.
  destruct (prj_kind (T:=T) (merge_status (inj orig) (inj new) old)) as [y Hy].
  { apply (f_equal fst) in Hk. rewrite <- (inj_kind new). cbn in Hk. rewrite <- Hk.
    pose proof (merge_status_key (inj orig) (inj new) old) as Hm. by injection Hm. }
  rewrite Hy in E. injection E as <- <-. apply inj_prj in Hy as Hy'. exists old. rewrite <- Hy'. auto.
Qed.

Definition ingress_services (s : IngressSpec) : list string :=
  flat_map (λ rule, flat_map (λ path, match ib_Service (hip_Backend path) with
                                      | Some b => [isb_Name b]
                                      | None => []
                                      end) (default [] (ir_HTTP rule))) (ing_Rules s).

Lemma flat_map_map {A B C} (f : B → list C) (g : A → B) l : flat_map f (map g l) = flat_map (f ∘ g) l.
Proof using. induction l as [|a l IH]; cbn; by rewrite ?IH. Qed.
Lemma map_flat_map {A B C} (h : B → C) (f : A → list B) l : map h (flat_map f l) = flat_map (map h ∘ f) l.
Proof using. induction l as [|a l IH]; cbn; by rewrite ?map_app, ?IH. Qed.
Lemma flat_map_same {A B} (f g : A → list B) l : (∀ a, f a = g a) → flat_map f l = flat_map g l.
Proof using. intros Hf. induction l as [|a l IH]; cbn; by rewrite ?Hf, ?IH. Qed.

Lemma ingress_services_spec obj b :
  ingress_services (ing_Spec (ingress x obj b)) =
  map (TranslateName (Translator x) (Namespace (ing_Meta obj))) (ingress_services (ing_Spec obj)).
Proof using.
  unfold ingress_services. cbn. rewrite flat_map_map, map_flat_map. apply flat_map_same. intros rule.
  unfold translate_rule. cbn. destruct (ir_HTTP rule) as [paths|] eqn:E; cbn; [|by rewrite E].
  rewrite flat_map_map, map_flat_map. apply flat_map_same. intros path. cbn.
  unfold translate_backend. by destruct (ib_Service (hip_Backend path)) eqn:Es; cbn; rewrite ?Es.
Qed.

Lemma ingress_meta obj b : meta (ingress x obj b) = TranslateTo (Translator x) (ing_Meta obj).
Proof using. done. Qed.

Lemma syncStatus_run virt host w r w' :
  vstore w !! obj_key (OIngress virt) = Some (OIngress virt) →
  syncStatus x virt host w = (r, w') →
  hstore w' = hstore w ∧ (∀ i, i ≠ obj_key (OIngress virt) → vstore w' !! i = vstore w !! i) ∧
  (r = Ok tt → ∃ v, vstore w' !! obj_key (OIngress virt) = Some (OIngress v) ∧
     ing_Meta v = ing_Meta virt ∧ Semantic_DeepEqual (ing_LoadBalancer v) (ing_LoadBalancer host) = true).
Proof using Hpatch StatusPatchLaw0 KL.
  intros Hv. unfold syncStatus. destruct (Semantic_DeepEqual _ _) eqn:He.
  { intros [= <- <-]. split_and!; [done..|]. eauto. }
  set (new := {| ing_Meta := ing_Meta virt; ing_Spec := ing_Spec virt; ing_LoadBalancer := ing_LoadBalancer host |}).
  unfold mbind, M_bind. destruct (StatusPatch _ new virt w) as [r1 w1] eqn:E.
  apply StatusPatch_run in E as [Hh Hr].
  change (obj_key (inj new)) with (obj_key (OIngress virt)) in Hr.
  destruct r1 as [y|e|]; [|intros [= <- <-]; by rewrite Hr|done].
  destruct Hr as (old & Hold & Hy & Hs). intros [= <- <-]. rewrite Hs. split_and!; [done| |].
  - intros i Hi. by rewrite lookup_insert_ne.
  - intros _. pose proof (eq_trans (eq_sym Hold) Hv) as Ho. injection Ho as ->.
    injection Hy as Hy. exists y. rewrite lookup_insert_eq. split; [done|]. rewrite Hy. split; [done|]. cbn.
    unfold merged. case_decide as Hd; [|apply Semantic_DeepEqual_refl].
    rewrite <- Hd. apply Semantic_DeepEqual_refl.
Qed.

Lemma ingress_tls_spec obj b :
  map itls_SecretName (ing_TLS (ing_Spec (ingress x obj b))) =
  map (λ n, if decide (n = "") then "" else if b : bool then n
            else TranslateName (Translator x) (Namespace (ing_Meta obj)) n)
    (map itls_SecretName (ing_TLS (ing_Spec obj))).
Proof using.
  rewrite map_map. cbn. destruct b; [apply map_ext|rewrite map_map; apply map_ext]; intros tls; cbn.
  - case_decide; congruence.
  - unfold translate_tls. repeat case_decide; cbn; congruence.
Qed.

Lemma store_ingress_run `{!Keeps (HostClient x) ing_Spec} synced v w w' :
  Namespace (ing_Meta synced) = sx_ClusterNamespace x → is_deleting (ing_Meta synced) = false →
  vstore w !! obj_key (OIngress v) = Some (OIngress v) →
  store_ingress x synced v w = (Ok tt, w') →
  (∃ copy, hstore w' !! obj_key (OIngress synced) = Some (OIngress copy) ∧ ing_Spec copy = ing_Spec synced) ∧
  ∃ v', vstore w' !! obj_key (OIngress v) = Some (OIngress v') ∧ ing_Meta v' = ing_Meta v ∧
    ∀ cur, hstore w !! obj_key (OIngress synced) = Some (OIngress cur) →
      Semantic_DeepEqual (ing_LoadBalancer v') (ing_LoadBalancer cur) = true.
Proof.
  intros Hns Hd Hv E. unfold store_ingress in E. rewrite <- Hns in E.
  apply bind_inv_ok in E as (r & w1 & E1 & E). apply attempt_inv in E1.
  destruct r as [cur|e]; apply host_Get in E1 as [[Hh1 Hv1] Hr].
  - destruct Hr as [Hcur _]. apply bind_inv_ok in E as (copy & w2 & E2 & E).
    pose proof (silent_Update (VirtualClient x) (HostClient x) _ _ _ _ E2) as Hv2. change (vstore w2 = vstore w1) in Hv2.
    apply (Update_run (HostClient x)) in E2 as (_ & _ & _ & _ & Hs & Ek). apply update_keeps in Ek.
    change (is_deleting (meta synced)) with (is_deleting (ing_Meta synced)) in Hs. rewrite Hd in Hs.
    cbn [andb] in Hs. change store with hstore in Hs.
    apply syncStatus_run in E as (Hh3 & _ & Hr); [|by rewrite Hv2, Hv1].
    destruct (Hr eq_refl) as (v' & Hv3 & Hm & Hlb). rewrite Hh3, Hs. split.
    + exists copy. split; [apply lookup_insert_eq|done].
    + exists v'. split_and!; [done..|]. intros cur' Hc.
      pose proof (eq_trans (eq_sym Hc) Hcur) as Hi. by injection Hi as ->.
  - destruct (IsNotFound e); [|done]. specialize (Hr eq_refl).
    apply bind_inv_ok in E as (copy & w2 & E2 & E). injection E as <-.
    pose proof (silent_Create (VirtualClient x) (HostClient x) _ _ _ _ E2) as Hv2. change (vstore w2 = vstore w1) in Hv2.
    apply (Create_run (HostClient x)) in E2 as (_ & _ & _ & Hs & Ek).
    apply create_keeps in Ek. change store with hstore in Hs. rewrite Hs. split.
    + exists copy. split; [apply lookup_insert_eq|done].
    + exists v. rewrite Hv2, Hv1. split_and!; [done..|]. intros cur Hc. by pose proof (eq_trans (eq_sym Hc) Hr).
Qed.

(** The copy of an ingress: a run that ends well on an ingress that is not being
    deleted leaves a host ingress whose rules lead to the host copies of the
    services they named, and whose TLS entries name the host copies of their
    secrets, unless the configuration in force says that they are host names
    already; and when the copy was there, the load balancer that the host gave
    it is the one of the virtual ingress. *)
Theorem ingress_synced `{!Keeps (HostClient x) ing_Spec} req w w' virt :
  ClusterNamespace (Translator x) = sx_ClusterNamespace x →
  vstore w !! virtual_key Ingress req = Some (OIngress virt) → is_deleting (ing_Meta virt) = false →
  IngressReconciler_Reconcile x req w = (Ok tt, w') →
  let host n := nn_Name (host_name {| nn_Namespace := nn_Namespace req; nn_Name := n |}) in
  ∃ cluster sync copy v,
    hstore w !! (("Cluster", cluster_key x) : ObjKey) = Some (OCluster cluster) ∧
    appliedSync cluster = Some sync ∧
    hstore w' !! host_key Ingress req = Some (OIngress copy) ∧
    ingress_services (ing_Spec copy) = map host (ingress_services (ing_Spec virt)) ∧
    map itls_SecretName (ing_TLS (ing_Spec copy)) =
      map (λ n, if decide (n = "") then ""
                else if isync_DisableTLSSecretTranslation (sync_Ingresses sync) then n else host n)
        (map itls_SecretName (ing_TLS (ing_Spec virt))) ∧
    vstore w' !! virtual_key Ingress req = Some (OIngress v) ∧
    ingressFinalizerName ∈ Finalizers (ing_Meta v) ∧
    ∀ cur, hstore w !! host_key Ingress req = Some (OIngress cur) →
      Semantic_DeepEqual (ing_LoadBalancer v) (ing_LoadBalancer cur) = true.
Proof.
  intros Hns Hv Hd E host. unfold IngressReconciler_Reconcile in E.
  apply bind_inv_ok in E as (cluster & w1 & E1 & E). apply host_Get in E1 as [[Hh1 Hv1] [Hcl _]].
  apply bind_inv_ok in E as (sync & w2 & E2 & E). injection E2 as Hsync <-.
  destruct (appliedSync cluster) as [sync'|] eqn:Hs; [|done]. injection Hsync as ->.
  apply bind_inv_ok in E as (r & w2 & E2 & E). apply attempt_inv in E2.
  destruct r as [virt'|e]; apply virtual_Get in E2 as [[Hh2 Hv2] Hr].
  2:{ destruct (IsNotFound e); [|done]. rewrite Hv1 in Hr. by pose proof (eq_trans (eq_sym (Hr eq_refl)) Hv). }
  rewrite Hv1 in Hr. destruct Hr as [Hr Hkey]. assert (virt' = virt) as ->.
  { pose proof (eq_trans (eq_sym Hr) Hv) as Hi. by injection Hi. }
  clear Hr. change (key_of (ing_Meta virt) = req) in Hkey.
  apply bind_inv_ok in E as (m & w3 & E3 & E). injection E3 as Hm <-.
  pose proof (SetOwnerReference_meta _ _ _ Hm) as [rs ->]. rewrite Hd in E.
  set (b := isync_DisableTLSSecretTranslation _) in *.
  set (synced := with_meta (set_OwnerReferences rs _) (ingress x virt b)) in E.
  assert (obj_key (OIngress synced) = host_key Ingress req) as Hck by (by rewrite <- Hkey).
  assert (obj_key (OIngress virt) = virtual_key Ingress req) as Hvk by (by rewrite <- Hkey).
  assert (hstore w2 = hstore w) as Hh by congruence. assert (vstore w2 = vstore w) as Hvv by congruence.
  apply bind_inv_ok in E as (v & w3 & E3 & E).
  apply add_finalizer_run in E3; [|change (inj virt) with (OIngress virt); by rewrite Hvk, Hvv].
  destruct E3 as (Hh3 & Hvkey & Hfin & Hv3 & _). change (inj virt) with (OIngress virt) in Hv3.
  assert (obj_key (OIngress v) = obj_key (OIngress virt)) as Hvk'.
  { unfold obj_key. cbn. f_equal. exact Hvkey. }
  apply store_ingress_run in E as ((copy & Hcopy & Hspec) & v' & Hv' & Hm' & Hlb);
    [|exact Hns|exact Hd|rewrite Hv3, Hvk'; apply lookup_insert_eq].
  rewrite Hck, Hh3, Hh in Hlb. rewrite Hck in Hcopy. rewrite Hvk', Hvk in Hv'.
  exists cluster, sync, copy, v'. rewrite Hspec, Hm'. split_and!; try done.
  - change (ing_Spec synced) with (ing_Spec (ingress x virt b)). rewrite ingress_services_spec.
    unfold host, host_name. by rewrite <- Hkey.
  - change (ing_Spec synced) with (ing_Spec (ingress x virt b)). rewrite ingress_tls_spec.
    unfold host, host_name. by rewrite <- Hkey.
Qed.

(** *** Volume claims *)
Definition pv_key (claim : PersistentVolumeClaim) : ObjKey :=
  ("PersistentVolume", {| nn_Namespace := ""; nn_Name := Name (pvc_Meta claim) |}).

Definition bound_volume (s : gmap ObjKey Obj) (claim : PersistentVolumeClaim) : Prop :=
  ∃ pv, s !! pv_key claim = Some (OPersistentVolume pv) ∧ pv_Phase pv = "Bound".

(** The specification of a claim, and what else of it is stored as it is given. *)
Definition claim_spec (c : PersistentVolumeClaim) :=
  (pvc_AccessModes c, pvc_StorageClassName c, pvc_Requests c, pvc_VolumeName c, pvc_VolumeMode c).
Definition claim_content (c : PersistentVolumeClaim) :=
  (claim_spec c, Labels (pvc_Meta c), Annotations (pvc_Meta c)).

(** A stored claim with the finalizer and the content of another one. *)
Definition stored_claim (s : gmap ObjKey Obj) (i : ObjKey) (content claim : PersistentVolumeClaim) : Prop :=
  s !! i = Some (OPersistentVolumeClaim claim) ∧ pvcFinalizerName ∈ Finalizers (pvc_Meta claim) ∧
  claim_content claim = claim_content content.

(** A claim that was [claim], bound to the volume: its status says so. *)
Definition bound (s : gmap ObjKey Obj) (i : ObjKey) (volume : string) (claim : PersistentVolumeClaim) : Prop :=
  ∃ c, stored_claim s i (bound_claim volume claim) c ∧
       pvc_Status c = {| pvcs_Phase := "Bound"; pvcs_AccessModes := pvc_AccessModes claim |}.

Lemma bound_claim_content volume c c' :
  claim_content c = claim_content c' → claim_content (bound_claim volume c) = claim_content (bound_claim volume c').
Proof. unfold claim_content, claim_spec. cbn. by intros [= -> -> -> _ -> -> ->]. Qed.

(** The pseudo volume of a claim: made, or found there. *)
Lemma ensure_volume_run claim w w' pv :
  (r ← attempt (Create (VirtualClient x) (newPersistentVolume claim));
   pv ← (match r with
         | inl pv' => mret pv'
         | inr err => if IsAlreadyExists err then mret (newPersistentVolume claim) else fail err
         end);
   StatusPatch (VirtualClient x) (set_pv_Phase "Bound" pv) pv) w = (Ok pv, w') →
  Name (pv_Meta pv) = Name (pvc_Meta claim) ∧ hstore w' = hstore w ∧ bound_volume (vstore w') claim ∧
  ∀ i, i ≠ pv_key claim → vstore w' !! i = vstore w !! i.
Proof.
  intros E. apply bind_inv_ok in E as (r & w1 & E1 & E). apply attempt_inv in E1.
  apply bind_inv_ok in E as (pv1 & w2 & E2 & E).
  assert (w2 = w1 ∧ hstore w1 = hstore w ∧ obj_key (OPersistentVolume pv1) = pv_key claim ∧
          (∀ i, i ≠ pv_key claim → vstore w1 !! i = vstore w !! i) ∧
          (pv_Phase pv1 = "Bound" → vstore w1 !! pv_key claim = Some (OPersistentVolume pv1)))
    as (-> & Hh & Hk & Hv & Hph).
  { destruct r as [pv'|e].
    - injection E2 as <- <-. split; [done|].
      split; [by apply (silent_Create (HostClient x) (VirtualClient x)) in E1|].
      apply (Create_run (VirtualClient x)) in E1 as (_ & _ & Hk & Hs & _). change store with vstore in Hs.
      change (obj_key (inj (newPersistentVolume claim))) with (pv_key claim) in *. rewrite Hs.
      split_and!; [exact Hk| |intros _; apply lookup_insert_eq].
      intros i Hi. by rewrite lookup_insert_ne.
    - destruct (IsAlreadyExists e); [|done]. injection E2 as <- <-.
      split; [done|]. split; [by apply (silent_Create (HostClient x) (VirtualClient x)) in E1|].
      apply (Create_run (VirtualClient x)) in E1 as (_ & Hs). change store with vstore in Hs. by rewrite Hs. }
  apply StatusPatch_run in E as (Hh2 & old & Hold & Hy & Hs).
  change (obj_key (inj (set_pv_Phase "Bound" pv1))) with (obj_key (OPersistentVolume pv1)) in *.
  assert (obj_key (OPersistentVolume pv) = pv_key claim) as Hkey.
  { change (OPersistentVolume pv) with (inj pv). rewrite Hy, merge_status_key. rewrite (store_keys _ _ _ Hold). exact Hk. }
  rewrite Hk in *. split_and!.
  - unfold obj_key, pv_key in Hkey. by injection Hkey.
  - congruence.
  - exists pv. rewrite Hs, lookup_insert_eq. split; [done|].
    destruct old; try discriminate Hy. injection Hy as ->. cbn. unfold merged.
    case_decide as Hd; [|done]. specialize (Hph (eq_sym Hd)). change store with vstore in Hold.
    pose proof (eq_trans (eq_sym Hph) Hold) as Ho. injection Ho as <-. done.
  - intros i Hi. rewrite Hs, lookup_insert_ne by done. by apply Hv.
Qed.

Lemma createVirtualPersistentVolume_run `{!Keeps (VirtualClient x) claim_content} claim w w' :
  pvcFinalizerName ∈ Finalizers (pvc_Meta claim) →
  createVirtualPersistentVolume x claim w = (Ok tt, w') →
  hstore w' = hstore w ∧ bound_volume (vstore w') claim ∧
  bound (vstore w') (obj_key (OPersistentVolumeClaim claim)) (Name (pvc_Meta claim)) claim ∧
  ∀ i, i ≠ pv_key claim → i ≠ obj_key (OPersistentVolumeClaim claim) → vstore w' !! i = vstore w !! i.
Proof.
  intros Hfin E. assert (Finalizers (pvc_Meta claim) ≠ []) as Hne
    by (intros Hn; rewrite Hn in Hfin; by apply elem_of_nil in Hfin). unfold createVirtualPersistentVolume in E.
  apply bind_inv_ok in E as (r & w1 & E1 & E). apply bind_inv_ok in E as (pv1 & w2 & E2 & E).
  apply bind_inv_ok in E as (pv & w3 & E3 & E).
  destruct (ensure_volume_run claim w w3 pv) as (Hn & Hh & (pv' & Hpv & Hphase) & Hframe).
  { unfold mbind, M_bind. rewrite E1, E2. exact E3. }
  rewrite Hn in E. apply bind_inv_ok in E as (p & w4 & E4 & E).
  pose proof (silent_Update (HostClient x) (VirtualClient x) _ _ _ _ E4) as Hh4. change (hstore w4 = hstore w3) in Hh4.
  apply (Update_run (VirtualClient x)) in E4 as (_ & _ & Hkp & Hfp & Hs4 & Ek). apply update_keeps in Ek.
  cbn [meta PersistentVolumeClaim_resource] in Hs4, Hfp.
  rewrite bool_decide_false, andb_false_r in Hs4 by exact Hne. change store with vstore in Hs4.
  change (obj_key (inj (bound_claim (Name (pvc_Meta claim)) claim)))
    with (obj_key (OPersistentVolumeClaim claim)) in *.
  apply bind_inv_ok in E as (p' & w5 & E5 & E). injection E as <-.
  pose proof (silent_StatusUpdate (HostClient x) (VirtualClient x) _ _ _ _ E5) as Hh5. change (hstore w5 = hstore w4) in Hh5.
  apply (StatusUpdate_run (VirtualClient x)) in E5 as (_ & old & Hold & Hy & Hs5). change store with vstore in *.
  set (status := {| pvcs_Phase := _; pvcs_AccessModes := _ |}) in *.
  change (obj_key (inj (set_pvc_Status status p))) with (obj_key (OPersistentVolumeClaim p)) in *.
  change (obj_key (OPersistentVolumeClaim p) = obj_key (OPersistentVolumeClaim claim)) in Hkp.
  rewrite Hkp in *. rewrite Hs4, lookup_insert_eq in Hold. injection Hold as <-. injection Hy as ->.
  rewrite Hs5, Hs4. split_and!; [congruence| | |].
  - exists pv'. by rewrite !lookup_insert_ne by done.
  - eexists. unfold stored_claim. rewrite lookup_insert_eq. split; [split; [done|]|].
    + split; [|exact Ek]. change (pvcFinalizerName ∈ Finalizers (pvc_Meta p)). by rewrite Hfp.
    + subst status. cbn. f_equal. unfold claim_content, claim_spec in Ek. by injection Ek.
  - intros i Hi1 Hi2. rewrite !lookup_insert_ne by done. by apply Hframe.
Qed.

(** A server does not say of an object that it has not that it is there. *)
Lemma Create_absent {T} `{Resource T} (y : T) w e w' :
  hstore w !! obj_key (inj y) = None → Create (HostClient x) y w = (Err e, w') → IsAlreadyExists e = false.
Proof using HL.
  intros Hn. destruct (create_spec (ClientLaws := HL) (inj y) w) as (r & w1 & E & _ & Hr).
  unfold Create, mbind, M_bind. rewrite E. destruct r as [o|e0|]; [unfold as_typed; by destruct (prj o)| |done].
  intros [= <- <-]. destruct Hr as [_ Hr]. destruct (IsAlreadyExists e0); [|done].
  destruct Hr as [o Ho]. by pose proof (eq_trans (eq_sym Ho) Hn).
Qed.

(** C25: A run that ends well on a claim that is not being deleted leaves the claim
    with the finalizer.  When the host copy was there, this is all it does: the
    labels, the annotations and the specification of the claim are those it had,
    and nothing else changes on either side.  Otherwise it made the copy, with the
    specification of the claim, and the claim is bound to the pseudo volume of its
    name, in its specification, its annotations and its status; nothing but the
    claim, the copy and the volume changes. *)
Theorem claim_bound `{!Keeps (VirtualClient x) claim_content} `{!Keeps (HostClient x) claim_spec} req w w' virt :
  vstore w !! virtual_key PersistentVolumeClaim req = Some (OPersistentVolumeClaim virt) →
  is_deleting (pvc_Meta virt) = false → PVCReconciler_Reconcile x req w = (Ok tt, w') →
  let claim_key := virtual_key PersistentVolumeClaim req in
  let copy_key := host_key PersistentVolumeClaim req in
  if decide (hstore w !! copy_key = None) then
    (∃ copy, hstore w' !! copy_key = Some (OPersistentVolumeClaim copy) ∧ claim_spec copy = claim_spec virt) ∧
    bound_volume (vstore w') virt ∧ bound (vstore w') claim_key (nn_Name req) virt ∧
    (∀ i, i ≠ copy_key → hstore w' !! i = hstore w !! i) ∧
    (∀ i, i ≠ pv_key virt → i ≠ claim_key → vstore w' !! i = vstore w !! i)
  else
    hstore w' = hstore w ∧ (∃ claim, stored_claim (vstore w') claim_key virt claim) ∧
    (∀ i, i ≠ claim_key → vstore w' !! i = vstore w !! i).
Proof.
  intros Hv Hd E claim_key copy_key. subst claim_key copy_key. unfold PVCReconciler_Reconcile in E. apply with_copy_run in E.
  destruct E as [[_ Hr]|(cluster & virt' & m & w1 & [Hh Hvv] & _ & Hvirt & Hkey & Hm & E)].
  { by pose proof (eq_trans (eq_sym (Hr eq_refl)) Hv). }
  assert (virt' = virt) as ->.
  { pose proof (eq_trans (eq_sym Hvirt) Hv) as Hi. by injection Hi. }
  change (key_of (pvc_Meta virt) = req) in Hkey.
  pose proof (copy_meta (pvc x) _ req virt m (translate_meta_translates _) Hkey Hm) as (Hck & Hcd & _).
  rewrite Hd in E. set (synced := with_meta m (pvc x virt)) in *.
  assert (claim_spec synced = claim_spec virt) as Hspec by done. clearbody synced. clear Hm m Hvirt.
  assert (obj_key (inj virt) = virtual_key PersistentVolumeClaim req) as Hvk by (by rewrite <- Hkey).
  apply bind_inv_ok in E as (v & w2 & E2 & E).
  apply add_finalizer_run in E2; [|rewrite Hvk, Hvv; exact Hv].
  destruct E2 as (Hh2 & Hvkey & Hfin & Hv2 & Hor).
  assert (claim_content v = claim_content virt) as Hcont
    by (destruct Hor as [->|(w0 & Hup)]; [done|]; by apply update_keeps in Hup).
  change (pvcFinalizerName ∈ Finalizers (pvc_Meta v)) in Hfin. rewrite Hvk in Hv2. rewrite Hvv in Hv2. rewrite Hh in Hh2.
  apply bind_inv_ok in E as (r & w3 & E3 & E). apply attempt_inv in E3.
  change (pvc_Meta synced) with (meta synced) in E3.
  destruct r as [cur|e]; apply host_Get in E3 as [[Hh3 Hv3] Hr]; rewrite Hh2 in Hr.
  - destruct Hr as [Hcur _]. rewrite <- typed_key, Hck in Hcur. rewrite decide_False by (intros Hn; by pose proof (eq_trans (eq_sym Hcur) Hn)).
    injection E as <-. rewrite Hh3, Hv3, Hv2. split; [done|]. split.
    + exists v. split; [apply lookup_insert_eq|]. by split.
    + intros i Hi. by rewrite lookup_insert_ne.
  - destruct (IsNotFound e); [|done]. specialize (Hr eq_refl). rewrite <- typed_key, Hck in Hr.
    rewrite decide_True by exact Hr. cbn [negb] in E.
    apply bind_inv_ok in E as (r & w4 & E4 & E). apply attempt_inv in E4.
    change (key_of (pvc_Meta v) = key_of (pvc_Meta virt)) in Hvkey.
    assert (pv_key v = pv_key virt) as Hpk by (unfold pv_key; injection Hvkey; congruence).
    assert (Name (pvc_Meta v) = nn_Name req) as Hname by (rewrite <- Hkey, <- Hvkey; done).
    assert (obj_key (OPersistentVolumeClaim v) = virtual_key PersistentVolumeClaim req) as Hvk'.
    { unfold obj_key. cbn. by rewrite Hvkey, Hkey. }
    pose proof E4 as E4'. destruct r as [y|e'].
    + apply (Create_run (HostClient x)) in E4 as (_ & _ & _ & Hs & Ek). change store with hstore in Hs. rewrite Hck in Hs.
      apply create_keeps in Ek. pose proof (silent_Create (VirtualClient x) (HostClient x) _ _ _ _ E4') as Hv4.
      apply createVirtualPersistentVolume_run in E as (Hh5 & Hb & (c & (Hc1 & Hc2 & Hc3) & Hc4) & Hframe); [|done].
      rewrite Hvk', Hname in *. unfold bound_volume in Hb. rewrite Hpk in *. rewrite Hh5, Hs.
      split_and!; [|exact Hb| | |].
      * exists y. rewrite lookup_insert_eq. by rewrite Ek.
      * exists c. split; [split_and!; [exact Hc1|exact Hc2|]|].
        -- rewrite Hc3. by apply bound_claim_content.
        -- rewrite Hc4. unfold claim_content, claim_spec in Hcont. by injection Hcont as ->.
      * intros i Hi. rewrite lookup_insert_ne by done. by rewrite Hh3, Hh2.
      * intros i Hi1 Hi2. rewrite Hframe by done. change (vstore w4 = vstore w3) in Hv4.
        by rewrite Hv4, Hv3, Hv2, lookup_insert_ne by done.
    + apply Create_absent in E4; [by rewrite E4 in E|]. by rewrite Hck, Hh3, Hh2.
Qed.
End Patches.

(** *** Events *)

(** C26: The recorder is called for one pod at most: the pod of the virtual cluster
    whose name and namespace the involved host pod carries in its annotations;
    nothing is stored before.  (The label of the host pod with the name of its
    cluster is not looked at.) *)
Theorem event_goes_home rec req w r w' :
  EventSyncer_Reconcile x rec req w = (r, w') →
  same w w' ∨
  ∃ ev hostPod virtPod w1, same w w1 ∧
    hstore w !! (("Event", req) : ObjKey) = Some (OEvent ev) ∧
    let involved := ev_InvolvedObject ev in
    oref_Kind involved = "Pod" ∧
    hstore w !! (("Pod", {| nn_Namespace := oref_Namespace involved; nn_Name := oref_Name involved |}) : ObjKey)
      = Some (OPod hostPod) ∧
    let name := map_str (Annotations (pod_Meta hostPod)) ResourceNameAnnotation in
    let namespace := map_str (Annotations (pod_Meta hostPod)) ResourceNamespaceAnnotation in
    name ≠ "" ∧
    vstore w !! (("Pod", {| nn_Namespace := namespace; nn_Name := name |}) : ObjKey) = Some (OPod virtPod) ∧
    rec virtPod (ev_Type ev) (ev_Reason ev)
      (translateEventMessage (ev_Message ev) (oref_Name involved) (oref_Namespace involved) name namespace) w1
    = (r, w').
Proof.
  unfold EventSyncer_Reconcile. unfold mbind at 1, M_bind at 1, attempt at 1.
  destruct (Get _ EventObj req w) as [r1 w1] eqn:E1. apply host_Get in E1 as [Hs1 Hr1].
  destruct r1 as [ev|e|]; [|cbv zeta; destruct (IsNotFound (EFmt _)); intros [= _ <-]; by left|done].
  destruct Hr1 as [Hev _].
  case_decide as Hkind; [intros [= _ <-]; by left|].
  unfold mbind at 1, M_bind at 1, attempt at 1.
  destruct (Get _ Pod _ w1) as [r2 w2] eqn:E2. apply host_Get in E2 as [Hs2 Hr2].
  pose proof (same_trans _ _ _ Hs1 Hs2) as Hs. destruct Hs1 as [Hh1 Hv1]. rewrite Hh1 in Hr2.
  destruct r2 as [hostPod|e|]; [|destruct (IsNotFound e); intros [= _ <-]; by left|done]. destruct Hr2 as [Hpod _].
  cbv zeta. case_decide as Hname; [intros [= _ <-]; by left|].
  unfold mbind at 1, M_bind at 1, attempt at 1.
  destruct (Get _ Pod _ w2) as [r3 w3] eqn:E3. apply virtual_Get in E3 as [Hs3 Hr3].
  pose proof (same_trans _ _ _ Hs Hs3) as Hs'. destruct Hs as [_ Hv2]. rewrite Hv2 in Hr3.
  destruct r3 as [virtPod|e|]; [|destruct (IsNotFound e); intros [= _ <-]; by left|done]. destruct Hr3 as [Hvp _].
  intros E. right. exists ev, hostPod, virtPod, w3. by split_and!.
Qed.

(** *** Priority classes *)
Lemma unscoped_inj {T} `{SetMeta T} (y : T) :
  unscoped_obj (inj y) = inj (with_meta (set_Namespace "" (meta y)) y).
Proof using. unfold unscoped_obj. by rewrite with_meta_inj, inj_meta. Qed.

Definition scopeless {T} `{SetMeta T} (y : T) : T := with_meta (set_Namespace "" (meta y)) y.

Lemma unscoped_Create {T} `{SetMeta T} (y : T) :
  Create (unscoped (HostClient x)) y = Create (HostClient x) (scopeless y).
Proof using. unfold Create, scopeless. cbn. by rewrite unscoped_inj. Qed.
Lemma unscoped_Update {T} `{SetMeta T} (y : T) :
  Update (unscoped (HostClient x)) y = Update (HostClient x) (scopeless y).
Proof using. unfold Update, scopeless. cbn. by rewrite unscoped_inj. Qed.
Lemma unscoped_Get {T} `{Resource T} n :
  Get (unscoped (HostClient x)) T n = Get (HostClient x) T (unscoped_key n).
Proof using. done. Qed.

Lemma store_priorityclass_run
    `{!Keeps (HostClient x) (λ p, (pc_Value p, pc_GlobalDefault p, Annotations (pc_Meta p)))} synced w w' :
  is_deleting (pc_Meta synced) = false → store_priorityclass x synced w = (Ok tt, w') →
  vstore w' = vstore w ∧
  ∃ copy, hstore w' !! obj_key (OPriorityClass (scopeless synced)) = Some (OPriorityClass copy) ∧
    (pc_Value copy, pc_GlobalDefault copy, Annotations (pc_Meta copy))
    = (pc_Value synced, pc_GlobalDefault synced, Annotations (pc_Meta synced)).
Proof.
  intros Hd E. unfold store_priorityclass in E. set (key := obj_key (OPriorityClass _)).
  apply bind_inv_ok in E as (r & w1 & E1 & E). apply attempt_inv in E1. rewrite unscoped_Get in E1.
  destruct r as [cur|e]; apply host_Get in E1 as [[_ Hv1] _].
  - apply bind_inv_ok in E as (r & w2 & E2 & E). apply attempt_inv in E2. rewrite unscoped_Update in E2.
    destruct r as [copy|e]; [|done]. injection E as <-.
    pose proof (silent_Update (VirtualClient x) (HostClient x) _ _ _ _ E2) as Hv2. change (vstore w2 = vstore w1) in Hv2.
    apply (Update_run (HostClient x)) in E2 as (_ & _ & _ & _ & Hs & Ek). change store with hstore in Hs.
    change (is_deleting (meta (scopeless _))) with (is_deleting (pc_Meta synced)) in Hs. rewrite Hd in Hs.
    apply update_keeps in Ek. split; [congruence|]. exists copy. split; [|exact Ek].
    assert (hstore w2 = <[key := OPriorityClass copy]> (hstore w1)) as -> by exact Hs. apply lookup_insert_eq.
  - destruct (IsNotFound e); [|done]. apply bind_inv_ok in E as (copy & w2 & E2 & E). injection E as <-.
    rewrite unscoped_Create in E2.
    pose proof (silent_Create (VirtualClient x) (HostClient x) _ _ _ _ E2) as Hv2. change (vstore w2 = vstore w1) in Hv2.
    apply (Create_run (HostClient x)) in E2 as (_ & _ & _ & Hs & Ek). change store with hstore in Hs.
    apply create_keeps in Ek. split; [congruence|]. exists copy. split; [|exact Ek].
    assert (hstore w2 = <[key := OPriorityClass copy]> (hstore w1)) as -> by exact Hs. apply lookup_insert_eq.
Qed.

(** The copy of a priority class has the same value and is never the default
    of the host; that it was the default of the virtual cluster is kept in an
    annotation.  The name of the copy does not depend on the namespace of the
    cluster. *)
Theorem priorityclass_synced
    `{!Keeps (HostClient x) (λ p, (pc_Value p, pc_GlobalDefault p, Annotations (pc_Meta p)))} req w w' virt :
  vstore w !! virtual_key PriorityClassObj req = Some (OPriorityClass virt) →
  is_deleting (pc_Meta virt) = false → PriorityClassSyncer_Reconcile x req w = (Ok tt, w') →
  ∃ copy v,
    hstore w' !! (("PriorityClass", unscoped_key (host_name req)) : ObjKey) = Some (OPriorityClass copy) ∧
    pc_Value copy = pc_Value virt ∧ pc_GlobalDefault copy = false ∧
    (pc_GlobalDefault virt = true →
     map_get (Annotations (pc_Meta copy)) PriorityClassGlobalDefaultAnnotation = Some "true") ∧
    vstore w' !! virtual_key PriorityClassObj req = Some (OPriorityClass v) ∧
    priorityClassFinalizerName ∈ Finalizers (pc_Meta v).
Proof.
  intros Hv Hd E. unfold PriorityClassSyncer_Reconcile in E. apply with_copy_run in E.
  destruct E as [[_ Hr]|(cluster & virt' & m & w1 & [Hh Hvv] & _ & Hvirt & Hkey & Hm & E)].
  { by pose proof (eq_trans (eq_sym (Hr eq_refl)) Hv). }
  assert (virt' = virt) as ->.
  { pose proof (eq_trans (eq_sym Hvirt) Hv) as Hi. by injection Hi. }
  change (key_of (pc_Meta virt) = req) in Hkey. apply SetOwnerReference_meta in Hm as [rs ->]. rewrite Hd in E.
  set (synced := with_meta _ (translatePriorityClass x virt)) in E.
  assert (obj_key (inj virt) = virtual_key PriorityClassObj req) as Hvk by (by rewrite <- Hkey).
  apply bind_inv_ok in E as (v & w2 & E2 & E). apply add_finalizer_run in E2; [|rewrite Hvk, Hvv; exact Hv].
  destruct E2 as (Hh2 & _ & Hfin & Hv2 & _). rewrite Hvk in Hv2.
  apply store_priorityclass_run in E as (Hv3 & copy & Hcopy & Heq); [|exact Hd].
  injection Heq as Hq1 Hq2 Hq3. exists copy, v. rewrite Hq1, Hq2, Hq3, Hv3, Hv2, lookup_insert_eq.
  split_and!; try done; [by rewrite <- Hkey|]. intros Hg. cbn. rewrite Hg. apply lookup_insert_eq.
Qed.
End Laws.
Arguments host_key {W} x T {H0} req.
Arguments virtual_key T {H0} req.

(** ** Concrete runs *)
Definition mem_status_patch (new orig : Obj) : M mem Obj := mem_guard (λ w,
  match mem_objects w !! obj_key new with
  | None => (Err not_found, w)
  | Some old => (Ok (merge_status orig new old), mem_put (obj_key new) (merge_status orig new old) w)
  end).

Definition demo : Context_ Lab.world := new_context Lab.virtual Lab.host "dev" "team".
#[local] Instance demo_host_laws : ClientLaws (HostClient demo) := Lab.fst_laws mem_client.
#[local] Instance demo_virtual_laws : ClientLaws (VirtualClient demo) := Lab.snd_laws mem_client.
#[local] Instance demo_foreign : Foreign (HostClient demo) (VirtualClient demo) := Lab.snd_foreign mem_client mem_client.
#[local] Instance demo_foreign' : Foreign (VirtualClient demo) (HostClient demo) := Lab.fst_foreign mem_client mem_client.
#[local] Instance demo_patcher : StatusPatcher (VirtualClient demo) := {
  StatusPatch_ new orig := Lab.on_snd (mem_status_patch new orig) }.
#[local] Instance demo_host_keeps {T} `{Resource T} {A} (f : T → A) : Keeps (HostClient demo) f :=
  Lab.fst_keeps mem_client f (mem_keeps f).

#[local] Instance demo_virtual_keeps {T} `{Resource T} {A} (f : T → A) : Keeps (VirtualClient demo) f.
Proof.
  split; intros y w z w'; cbn; unfold Lab.on_snd.
  - destruct (mem_create (inj y) w.2) as [r w2] eqn:E. intros [= -> _]. exact (create_keeps (c:=mem_client) _ _ _ _ E).
  - destruct (mem_update (inj y) w.2) as [r w2] eqn:E. intros [= -> _]. exact (update_keeps (c:=mem_client) _ _ _ _ E).
Qed.

#[local] Instance demo_patch_law : StatusPatchLaw (VirtualClient demo).
Proof.
  intros new orig [u v]. cbn. unfold Lab.on_snd, mem_status_patch, mem_guard. cbn.
  destruct (mem_up v) eqn:E; cbn; [|mem_done].
  destruct (mem_objects v !! obj_key new) as [old|] eqn:Ho; mem_done.
  exists old. split_and!; try done. apply mem_objects_put.
  rewrite merge_status_key. by apply mem_objects_lookup in Ho as [_ ?].
Qed.

Lemma demo_patch_silent new orig : silent (HostClient demo) (StatusPatch_ (c:=VirtualClient demo) new orig).
Proof. exact (Lab.silent_on_snd mem_client (mem_status_patch new orig)). Qed.

Definition demo_req : NamespacedName := {| nn_Namespace := "default"; nn_Name := "web" |}.
Definition demo_meta (gone : option string) (finalizers : list string) : ObjectMeta := {|
  Name := "web"; Namespace := "default"; Labels := None; Annotations := None; OwnerReferences := [];
  Finalizers := finalizers; ResourceVersion := "7"; UID := "u"; DeletionTimestamp := gone |}.
Definition demo_sync : SyncConfig :=
  let on := {| sync_Enabled := true; sync_Selector := None |} in
  {| sync_Services := on; sync_ConfigMaps := on; sync_Secrets := on;
     sync_Ingresses := {| isync_Enabled := true; isync_Selector := None;
                          isync_DisableTLSSecretTranslation := false |};
     sync_PersistentVolumeClaims := on; sync_PriorityClasses := on; sync_StorageClasses := on |}.
Definition demo_spec : ClusterSpec := let s := cl_Spec Lab.tenant in {|
  Version := Version s; Mode := Mode s; Servers := Servers s; Agents := Agents s;
  ClusterCIDR := ClusterCIDR s; ServiceCIDR := ServiceCIDR s; ClusterDNS := ClusterDNS s;
  Persistence := Persistence s; Expose := Expose s; NodeSelector := NodeSelector s;
  PriorityClass := PriorityClass s; TokenSecretRef := TokenSecretRef s; TLSSANs := TLSSANs s;
  ServerArgs := ServerArgs s; AgentArgs := AgentArgs s; ServerEnvs := ServerEnvs s;
  AgentEnvs := AgentEnvs s; Addons := Addons s; ServerLimit := ServerLimit s;
  WorkerLimit := WorkerLimit s; ServerResources := ServerResources s;
  WorkerResources := WorkerResources s; ServerAffinity := ServerAffinity s;
  AgentAffinity := AgentAffinity s; MirrorHostNodes := MirrorHostNodes s; CustomCAs_ := CustomCAs_ s;
  Sync := Some demo_sync; SecretMounts := SecretMounts s; PodSecurityContext := PodSecurityContext s;
  SecurityContext_ := SecurityContext_ s; RuntimeClassName := RuntimeClassName s;
  HostUsers := HostUsers s; AllowedHostSchedulers := AllowedHostSchedulers s |}.
Definition demo_cluster : Cluster := {|
  cl_Meta := cl_Meta Lab.tenant; cl_Spec := demo_spec;
  cl_Status := cl_Status Lab.tenant |}.
Definition demo_world (host virt : list Obj) : Lab.world :=
  (Lab.objects (OCluster demo_cluster :: host), Lab.objects virt).

Definition demo_secret : Secret := {|
  sec_Meta := demo_meta None []; sec_Type := SecretTypeServiceAccountToken;
  sec_Data := map_lit [("token", "t")] |}.

Lemma secret_synced_witness :
  ∃ w' copy, SecretSyncer_Reconcile demo demo_req (demo_world [] [OSecret demo_secret]) = (Ok tt, w') ∧
    hstore demo w' !! host_key demo Secret demo_req = Some (OSecret copy) ∧
    sec_Data copy = sec_Data demo_secret ∧ sec_Type copy = SecretTypeOpaque.
Proof.
  destruct (SecretSyncer_Reconcile demo demo_req (demo_world [] [OSecret demo_secret])) as [r w'] eqn:E.
  assert (r = Ok tt) as ->. { change r with (r, w').1. rewrite <- E. vm_compute. reflexivity. }
  opose proof (secret_synced demo demo_req (demo_world [] [OSecret demo_secret]) w' demo_secret _ _ E)
    as ((copy & Hc & Hd & Ht & _) & _).
  - vm_compute. reflexivity.
  - reflexivity.
  - exists w', copy. split; [reflexivity|]. split; [exact Hc|]. split; [exact Hd|exact Ht].
Defined.

Definition demo_gone : ConfigMap := {|
  cm_Meta := demo_meta (Some "now") [configMapFinalizerName]; cm_Data := None; cm_BinaryData := None |}.
Definition demo_copy : ConfigMap := translateConfigMap demo demo_gone.

Lemma copy_deleted_first_witness :
  ∃ w', ConfigMapSyncer_Reconcile demo demo_req (demo_world [OConfigMap demo_copy] [OConfigMap demo_gone]) = (Ok tt, w') ∧
    leaving (hstore demo w' !! host_key demo ConfigMap demo_req) ∧
    ∀ o, vstore demo w' !! virtual_key ConfigMap demo_req = Some o → configMapFinalizerName ∉ Finalizers (obj_meta o).
Proof.
  destruct (ConfigMapSyncer_Reconcile demo demo_req (demo_world [OConfigMap demo_copy] [OConfigMap demo_gone]))
    as [r w'] eqn:E.
  assert (r = Ok tt) as ->. { change r with (r, w').1. rewrite <- E. vm_compute. reflexivity. }
  opose proof (copy_deleted_first demo configMapFinalizerName (translateConfigMap demo) demo_req
    (demo_world [OConfigMap demo_copy] [OConfigMap demo_gone]) (Ok tt) w' demo_gone _ _ _ E) as (_ & Hok).
  - apply translate_meta_translates.
  - vm_compute. reflexivity.
  - reflexivity.
  - exists w'. split; [reflexivity|]. exact (Hok eq_refl).
Defined.

Lemma demo_plain s :
  bool_decide (s ≠ "" ∧ "+"%char ∉ String.list_ascii_of_string s) = true → plain s.
Proof. by intros Hs%bool_decide_eq_true. Qed.

Definition demo_other : NamespacedName := {| nn_Namespace := "default"; nn_Name := "db" |}.

Lemma syncs_do_not_interfere_witness :
  let w := demo_world [OConfigMap demo_copy] [OConfigMap demo_gone] in
  ∃ r w', sync_object demo (HostClient demo) configMapFinalizerName (translateConfigMap demo) demo_req w = (r, w') ∧
    vstore demo w' !! virtual_key ConfigMap demo_other = vstore demo w !! virtual_key ConfigMap demo_other.
Proof.
  intros w.
  destruct (sync_object demo (HostClient demo) configMapFinalizerName (translateConfigMap demo) demo_req w)
    as [r w'] eqn:E.
  opose proof (syncs_do_not_interfere demo configMapFinalizerName (translateConfigMap demo) demo_req demo_other
    w r w' _ _ _ _ _ _ _ E) as [Hv _].
  - apply translate_meta_translates.
  - discriminate.
  - apply demo_plain. vm_compute. reflexivity.
  - apply demo_plain. vm_compute. reflexivity.
  - apply demo_plain. vm_compute. reflexivity.
  - apply demo_plain. vm_compute. reflexivity.
  - apply demo_plain. vm_compute. reflexivity.
  - exists r, w'. split; [reflexivity|exact Hv].
Defined.

Definition demo_ingress : Ingress := {|
  ing_Meta := demo_meta None [];
  ing_Spec := {| ing_IngressClassName := None; ing_DefaultBackend := None;
                 ing_TLS := [{| itls_Hosts := ["web.example.com"]; itls_SecretName := "tls" |}];
                 ing_Rules := [{| ir_Host := "web.example.com";
                   ir_HTTP := Some [{| hip_Path := "/"; hip_PathType := None;
                     hip_Backend := {| ib_Service := Some {| isb_Name := "web"; isb_PortName := ""; isb_PortNumber := 80 |};
                                       ib_Resource := None |} |}] |}] |};
  ing_LoadBalancer := [] |}.

Lemma ingress_synced_witness :
  ∃ w' copy, IngressReconciler_Reconcile demo demo_req (demo_world [] [OIngress demo_ingress]) = (Ok tt, w') ∧
    hstore demo w' !! host_key demo Ingress demo_req = Some (OIngress copy) ∧
    ingress_services (ing_Spec copy) = [nn_Name (host_name demo demo_req)].
Proof.
  destruct (IngressReconciler_Reconcile demo demo_req (demo_world [] [OIngress demo_ingress])) as [r w'] eqn:E.
  assert (r = Ok tt) as ->. { change r with (r, w').1. rewrite <- E. vm_compute. reflexivity. }
  opose proof (ingress_synced demo demo_patch_silent demo_req (demo_world [] [OIngress demo_ingress]) w'
    demo_ingress _ _ _ E) as (cluster & sync & copy & v & _ & _ & Hc & Hs & _).
  - reflexivity.
  - vm_compute. reflexivity.
  - reflexivity.
  - exists w', copy. split; [reflexivity|]. split; [exact Hc|exact Hs].
Defined.

Definition demo_claim : PersistentVolumeClaim := {|
  pvc_Meta := demo_meta None []; pvc_AccessModes := ["ReadWriteOnce"]; pvc_StorageClassName := None;
  pvc_Requests := None; pvc_VolumeName := ""; pvc_VolumeMode := None;
  pvc_Status := {| pvcs_Phase := "Pending"; pvcs_AccessModes := [] |} |}.

Lemma claim_bound_witness :
  ∃ w', PVCReconciler_Reconcile demo demo_req (demo_world [] [OPersistentVolumeClaim demo_claim]) = (Ok tt, w') ∧
    bound_volume (vstore demo w') demo_claim ∧
    bound (vstore demo w') (virtual_key PersistentVolumeClaim demo_req) "web" demo_claim.
Proof.
  destruct (PVCReconciler_Reconcile demo demo_req (demo_world [] [OPersistentVolumeClaim demo_claim])) as [r w'] eqn:E.
  assert (r = Ok tt) as ->. { change r with (r, w').1. rewrite <- E. vm_compute. reflexivity. }
  opose proof (claim_bound demo demo_patch_silent demo_req (demo_world [] [OPersistentVolumeClaim demo_claim]) w'
    demo_claim _ _ E) as Hb.
  - vm_compute. reflexivity.
  - reflexivity.
  - rewrite decide_True in Hb by (vm_compute; reflexivity). exists w'. split; [reflexivity|exact (conj (proj1 (proj2 Hb)) (proj1 (proj2 (proj2 Hb))))].
Defined.

Definition demo_class : PriorityClassObj := {|
  pc_Meta := {| Name := "high"; Namespace := ""; Labels := None; Annotations := None; OwnerReferences := [];
                Finalizers := []; ResourceVersion := ""; UID := ""; DeletionTimestamp := None |};
  pc_Value := 1000; pc_GlobalDefault := true; pc_Description := ""; pc_PreemptionPolicy := None |}.
Definition class_req : NamespacedName := {| nn_Namespace := ""; nn_Name := "high" |}.

Lemma priorityclass_synced_witness :
  ∃ w' copy, PriorityClassSyncer_Reconcile demo class_req (demo_world [] [OPriorityClass demo_class]) = (Ok tt, w') ∧
    hstore demo w' !! (("PriorityClass", unscoped_key (host_name demo class_req)) : ObjKey)
      = Some (OPriorityClass copy) ∧
    pc_Value copy = 1000%Z ∧ pc_GlobalDefault copy = false.
Proof.
  destruct (PriorityClassSyncer_Reconcile demo class_req (demo_world [] [OPriorityClass demo_class])) as [r w'] eqn:E.
  assert (r = Ok tt) as ->. { change r with (r, w').1. rewrite <- E. vm_compute. reflexivity. }
  opose proof (priorityclass_synced demo class_req (demo_world [] [OPriorityClass demo_class]) w' demo_class _ _ E)
    as (copy & v & Hc & Hval & Hg & _).
  - vm_compute. reflexivity.
  - reflexivity.
  - exists w', copy. split; [reflexivity|]. split; [exact Hc|]. split; [exact Hval|exact Hg].
Defined.

(** The pod of the host is one of another cluster of the same namespace, with a
    pod of the same name: its event is recorded as well. *)
Definition demo_pod (m : ObjectMeta) : Pod := {|
  pod_Meta := m;
  pod_Spec := {| ps_Affinity := None; ps_NodeSelector := None; ps_PriorityClassName := "";
                 ps_HostNetwork := false; ps_DNSPolicy := ""; ps_ServiceAccountName := "";
                 ps_Volumes := []; ps_Containers := []; ps_SecurityContext := None;
                 ps_RuntimeClassName := None; ps_HostUsers := None; ps_Resources := None;
                 ps_ImagePullSecrets := []; ps_NodeName := ""; ps_Extra := no_extra |};
  pod_PodIP := ""; pod_Phase := "" |}.
Definition foreign_pod : Pod :=
  demo_pod (TranslateTo {| ClusterName := "other"; ClusterNamespace := "team" |} (demo_meta None [])).
Definition demo_event : EventObj := {|
  ev_Meta := meta_of "team" "web.1";
  ev_InvolvedObject := {| oref_APIVersion := "v1"; oref_Kind := "Pod"; oref_Namespace := "team";
                          oref_Name := Name (pod_Meta foreign_pod); oref_UID := ""; oref_ResourceVersion := "" |};
  ev_Type := "Normal"; ev_Reason := "Pulled";
  ev_Message := "pulled for " +:+ Name (pod_Meta foreign_pod) |}.
Definition demo_recorder (_ : Pod) (_ _ message : string) : M Lab.world unit := fail (EText message).
Definition event_req : NamespacedName := {| nn_Namespace := "team"; nn_Name := "web.1" |}.
Definition event_world : Lab.world :=
  demo_world [OEvent demo_event; OPod foreign_pod] [OPod (demo_pod (demo_meta None []))].

Lemma event_goes_home_witness :
  (EventSyncer_Reconcile demo demo_recorder event_req event_world).1 = Err (EText "pulled for web") ∧
  ∃ w', same demo event_world w' ∨ ∃ hostPod virtPod,
    hstore demo event_world !! obj_key (OPod foreign_pod) = Some (OPod hostPod) ∧
    vstore demo event_world !! (("Pod", demo_req) : ObjKey) = Some (OPod virtPod) ∧
    ∃ w1, demo_recorder virtPod "Normal" "Pulled" "pulled for web" w1 = (Err (EText "pulled for web"), w').
Proof.
  destruct (EventSyncer_Reconcile demo demo_recorder event_req event_world) as [r w'] eqn:E.
  assert (r = Err (EText "pulled for web")) as ->.
  { change r with (r, w').1. rewrite <- E. vm_compute. reflexivity. }
  split; [reflexivity|]. exists w'.
  destruct (event_goes_home demo demo_recorder event_req event_world _ w' E)
    as [Hs|(ev & hp & vp & w1 & _ & Hev & _ & Hhp & _ & Hvp & Hrec)]; [left; exact Hs|right].
  assert (ev = demo_event) as ->.
  { assert (Some (OEvent ev) = Some (OEvent demo_event)) as Hi; [|congruence].
    rewrite <- Hev. vm_compute. reflexivity. }
  assert (hp = foreign_pod) as ->.
  { assert (Some (OPod hp) = Some (OPod foreign_pod)) as Hi; [|congruence].
    rewrite <- Hhp. vm_compute. reflexivity. }
  exists foreign_pod, vp. split; [exact Hhp|]. split; [exact Hvp|]. exists w1.
  unfold demo_recorder, fail in *. apply (f_equal snd) in Hrec. cbn [snd] in Hrec. by rewrite Hrec.
Defined.
End Syncers.
