(* ===== verification/Tokens.v ===== *)
(** * The service account tokens of the pods (k3k-kubelet/provider/token.go)

    The pods of a virtual cluster run on the host with tokens of the virtual
    cluster: the provider requests them, stores them in secrets of the host
    namespace, mounts those in the host pod, and refreshes them.  The request
    for a token, the clock and the patch of the owners are parameters. *)

From S2P Require Import Prelude GoStd Sha256 GoDate K8s Types Kube Effects Names Translate Lab.

Local Open Scope string_scope.
Local Open Scope Z_scope.

Module Tokens.
Import Names Translate GoDate.

Definition kubeAPIAccessPrefix : string := "kube-api-access".
Definition serviceAccountTokenMountPath : string := "/var/run/secrets/kubernetes.io/serviceaccount".
Definition kubeAccessTokenExpirationSeconds : Z := 3607.
Definition tokenRefreshAfterAnnotation : string := MetadataPrefix +:+ "token-refresh-after".
Definition tokenRefreshInterval : Duration := 30 * Second.
Definition maxTokenRefreshPeriod : Duration := 24 * Hour.

(** Constants of other packages. *)
Definition RootCACertConfigMapName : string := "kube-root-ca.crt".
Definition ServiceAccountRootCAKey : string := "ca.crt".
Definition ServiceAccountTokenKey : string := "token".
Definition ServiceAccountNamespaceKey : string := "namespace".
Definition PodSucceeded : string := "Succeeded".
Definition PodFailed : string := "Failed".

(** ** The provider

    [Provider] of provider.go: a client of each cluster, and what identifies
    the cluster and this agent. *)
Record Provider (W : Type) : Type := {
  p_host : Client W;
  p_virtual : Client W;
  translator : ToHostTranslator;
  clusterNamespace : string;
  clusterName : string;
  serverIP : string;
  dnsIP : string;
  agentHostname : string;
}.
Arguments p_host {W}.
Arguments p_virtual {W}.
Arguments translator {W}.
Arguments clusterNamespace {W}.
Arguments clusterName {W}.
Arguments serverIP {W}.
Arguments dnsIP {W}.
Arguments agentHostname {W}.

(** [provider.Config] and [New]. *)
Record Config : Type := {
  pc_ClusterNamespace : string;
  pc_ClusterName : string;
  pc_ServerIP : string;
  pc_DNSIP : string;
  pc_AgentHostname : string;
}.

Definition New {W} (host virt : Client W) (config : Config) : Provider W := {|
  p_host := host; p_virtual := virt;
  translator := {| ClusterName := pc_ClusterName config; ClusterNamespace := pc_ClusterNamespace config |};
  clusterNamespace := pc_ClusterNamespace config;
  clusterName := pc_ClusterName config;
  serverIP := pc_ServerIP config;
  dnsIP := pc_DNSIP config;
  agentHostname := pc_AgentHostname config |}.

(** ** The names of the secrets *)
Definition kubeAccessTokenSecretName (podName : string) : string :=
  SafeConcatNameWithPrefix [podName; kubeAPIAccessPrefix].

(** [strings.ToLower]: the letters of ASCII, and the two other characters whose
    lower case is one of them (U+0130 and U+212A in UTF-8). *)
Definition lower (c : ascii) : ascii :=
  let n := nat_of_ascii c in
  if decide (65 ≤ n ∧ n ≤ 90)%nat then ascii_of_nat (n + 32) else c.

Definition dotted_I : string := String (ascii_of_nat 196) (String (ascii_of_nat 176) "").
Definition kelvin : string := String (ascii_of_nat 226) (String (ascii_of_nat 132) (String (ascii_of_nat 170) "")).

Fixpoint lower_bytes (s : string) : string :=
  match s with
  | "" => ""
  | String c s' => String (lower c) (lower_bytes s')
  end.

Definition strings_ToLower (s : string) : string :=
  lower_bytes (strings_ReplaceAll (strings_ReplaceAll s dotted_I "i") kelvin "k").

(** The characters that [invalidNameChars] spares. *)
Definition name_char (c : ascii) : bool :=
  let n := nat_of_ascii c in
  bool_decide (97 ≤ n ∧ n ≤ 122)%nat || is_digit c || bool_decide (c = "."%char ∨ c = "-"%char).

(** Each maximal run of other characters becomes one hyphen: [in_run] tells
    that the last character belonged to one. *)
Fixpoint replace_runs (in_run : bool) (s : string) : string :=
  match s with
  | "" => ""
  | String c s' =>
      if name_char c then String c (replace_runs false s')
      else if in_run then replace_runs true s'
      else String "-" (replace_runs true s')
  end.

(** [strings.Trim(s, "-.")] *)
Fixpoint trim_left_cutset (s : string) : string :=
  match s with
  | String c s' => if decide (c = "."%char ∨ c = "-"%char) then trim_left_cutset s' else s
  | "" => ""
  end.
Definition strings_Trim_name (s : string) : string :=
  str_rev (trim_left_cutset (str_rev (trim_left_cutset s))).

Definition sanitizeNameComponent (s : string) : string :=
  strings_Trim_name (replace_runs false (strings_ToLower s)).

(** The attributes of a token, and the digits of their digest. *)
Definition expiration_text (t : ServiceAccountTokenProjection) : string :=
  match satp_ExpirationSeconds t with Some e => strconv_Itoa e | None => "" end.

Definition token_attributes (podName : string) (t : ServiceAccountTokenProjection) : string :=
  fmt_q podName +:+ "/" +:+ fmt_q (satp_Audience t) +:+ "/" +:+ fmt_q (expiration_text t)
    +:+ "/" +:+ fmt_q (satp_Path t).

Definition token_digest (podName : string) (t : ServiceAccountTokenProjection) : string :=
  str_take 6 (hex_encode (sha256_Sum256 (token_attributes podName t))).

Definition token_components (podName : string) (t : ServiceAccountTokenProjection) : list string :=
  [podName]
  ++ (if decide (satp_Audience t ≠ "") then [sanitizeNameComponent (satp_Audience t)] else [])
  ++ (match satp_ExpirationSeconds t with Some _ => [expiration_text t] | None => [] end)
  ++ (if decide (satp_Path t ≠ "") then [sanitizeNameComponent (satp_Path t)] else []).

Definition generateTokenSecretName (podName : string) (t : ServiceAccountTokenProjection) : string :=
  SafeConcatNameWithPrefix (token_components podName t ++ [token_digest podName t]).

(** ** When a token is refreshed *)
Record BoundObjectReference : Type := {
  bor_Kind : string;
  bor_APIVersion : string;
  bor_Name : string;
  bor_UID : string;
}.

(** [authv1.TokenRequest]: what is asked for, and the answer. *)
Record TokenRequest : Type := {
  tr_Name : string;
  tr_Namespace : string;
  tr_Audiences : list string;
  tr_ExpirationSeconds : option Z;
  tr_BoundObjectRef : BoundObjectReference;
}.
Record TokenRequestStatus : Type := { tr_Token : string; tr_ExpirationTimestamp : Time }.

Definition tokenRefreshAfter (now expiration : Time) : Time :=
  let refreshPeriod := Z.min (quot64 (mul64 (Sub expiration now) 8) 10) maxTokenRefreshPeriod in
  Add now refreshPeriod.

Definition tokenSecretAnnotations (tokenResp : TokenRequestStatus) (now : Time) : gomap string :=
  map_lit [(tokenRefreshAfterAnnotation,
            Format_RFC3339 (tokenRefreshAfter now (tr_ExpirationTimestamp tokenResp)))].

Definition tokenRefreshDue (hostSecret : Secret) (now : Time) : bool :=
  match Parse_RFC3339 (map_str (Annotations (sec_Meta hostSecret)) tokenRefreshAfterAnnotation) with
  | None => true
  | Some refreshAfter => negb (Before now refreshAfter)
  end.

(** ** Volumes and mounts *)
Definition is_kube_access (name : string) : bool := strings_HasPrefix name kubeAPIAccessPrefix.

Definition hasKubeAccessVolume (pod : Pod) : bool :=
  existsb (λ v, is_kube_access (vol_Name v)) (ps_Volumes (pod_Spec pod)).

(** A loop that removes the first match and stops. *)
Fixpoint remove_first {A} (f : A → bool) (l : list A) : list A :=
  match l with
  | [] => []
  | x :: l' => if f x then l' else x :: remove_first f l'
  end.

Definition set_pod_Spec (s : PodSpec) (pod : Pod) : Pod := {|
  pod_Meta := pod_Meta pod; pod_Spec := s; pod_PodIP := pod_PodIP pod; pod_Phase := pod_Phase pod |}.

(** The volumes of a specification, and a change to each container of its three
    lists. *)
Definition set_ps_Volumes (vs : list Volume) (s : PodSpec) : PodSpec :=
  set_Volumes_Containers vs (ps_Containers s) s.

Definition map_extra_containers (f : Container → Container) (e : PodSpecExtra) : PodSpecExtra := {|
  ps_InitContainers := map f (ps_InitContainers e);
  ps_EphemeralContainers := map f (ps_EphemeralContainers e);
  ps_Hostname := ps_Hostname e; ps_SchedulerName := ps_SchedulerName e; ps_Priority := ps_Priority e;
  ps_HostAliases := ps_HostAliases e; ps_DNSConfig := ps_DNSConfig e; ps_Tolerations := ps_Tolerations e;
  ps_ActiveDeadlineSeconds := ps_ActiveDeadlineSeconds e;
  ps_AutomountServiceAccountToken := ps_AutomountServiceAccountToken e;
  ps_DeprecatedServiceAccount := ps_DeprecatedServiceAccount e |}.

Definition map_containers (f : Container → Container) (s : PodSpec) : PodSpec := {|
  ps_Affinity := ps_Affinity s; ps_NodeSelector := ps_NodeSelector s;
  ps_PriorityClassName := ps_PriorityClassName s; ps_HostNetwork := ps_HostNetwork s;
  ps_DNSPolicy := ps_DNSPolicy s; ps_ServiceAccountName := ps_ServiceAccountName s;
  ps_Volumes := ps_Volumes s; ps_Containers := map f (ps_Containers s);
  ps_SecurityContext := ps_SecurityContext s; ps_RuntimeClassName := ps_RuntimeClassName s;
  ps_HostUsers := ps_HostUsers s; ps_Resources := ps_Resources s;
  ps_ImagePullSecrets := ps_ImagePullSecrets s; ps_NodeName := ps_NodeName s;
  ps_Extra := map_extra_containers f (ps_Extra s) |}.

Definition removeKubeAccessVolume (pod : Pod) : Pod :=
  let spec := pod_Spec pod in
  let spec := set_ps_Volumes (remove_first (λ v, is_kube_access (vol_Name v)) (ps_Volumes spec)) spec in
  set_pod_Spec (map_containers (λ c, set_VolumeMounts
      (remove_first (λ m, is_kube_access (vm_Name m)) (ct_VolumeMounts c)) c) spec) pod.

Definition tokenVolumeName : string := SafeConcatNameWithPrefix [kubeAPIAccessPrefix].

Definition addKubeAccessVolume (pod : Pod) (hostSecretName : string) : Pod :=
  let spec := pod_Spec pod in
  let volume := {| vol_Name := tokenVolumeName;
                   vol_Source := SecretSource {| svs_SecretName := hostSecretName; svs_Items := [];
                                                 svs_Optional := None |} |} in
  let mount := {| vm_Name := tokenVolumeName; vm_MountPath := serviceAccountTokenMountPath;
                  vm_SubPath := ""; vm_ReadOnly := false |} in
  set_pod_Spec (map_containers (λ c, set_VolumeMounts (ct_VolumeMounts c ++ [mount]) c)
                  (set_ps_Volumes (ps_Volumes spec ++ [volume]) spec)) pod.

(** The first assignments of [transformTokens]: the host pod has no service
    account of its own. *)
Definition clear_service_account (s : PodSpec) : PodSpec := {|
  ps_Affinity := ps_Affinity s; ps_NodeSelector := ps_NodeSelector s;
  ps_PriorityClassName := ps_PriorityClassName s; ps_HostNetwork := ps_HostNetwork s;
  ps_DNSPolicy := ps_DNSPolicy s; ps_ServiceAccountName := "";
  ps_Volumes := ps_Volumes s; ps_Containers := ps_Containers s;
  ps_SecurityContext := ps_SecurityContext s; ps_RuntimeClassName := ps_RuntimeClassName s;
  ps_HostUsers := ps_HostUsers s; ps_Resources := ps_Resources s;
  ps_ImagePullSecrets := ps_ImagePullSecrets s; ps_NodeName := ps_NodeName s;
  ps_Extra := let e := ps_Extra s in {|
    ps_InitContainers := ps_InitContainers e; ps_EphemeralContainers := ps_EphemeralContainers e;
    ps_Hostname := ps_Hostname e; ps_SchedulerName := ps_SchedulerName e; ps_Priority := ps_Priority e;
    ps_HostAliases := ps_HostAliases e; ps_DNSConfig := ps_DNSConfig e; ps_Tolerations := ps_Tolerations e;
    ps_ActiveDeadlineSeconds := ps_ActiveDeadlineSeconds e;
    ps_AutomountServiceAccountToken := Some false; ps_DeprecatedServiceAccount := "" |} |}.

(** ** The parameters *)

(** [CoreClient.ServiceAccounts(namespace).CreateToken(name, request)] of the
    virtual cluster, and [time.Now]. *)
Class TokenAPI (W : Type) := {
  CreateToken : string → string → TokenRequest → M W TokenRequestStatus;
  time_Now : M W Time;
}.

(** [Patch(ctx, obj, client.StrategicMergeFrom(orig))]: the new object and the
    original one. *)
Class OwnerPatcher {W} (c : Client W) := {
  StrategicPatch : Obj → Obj → M W unit;
}.

Section Provider.
Context {W : Type} `{KubeUtil} (p : Provider W) `{TA : TokenAPI W} `{OP : !OwnerPatcher (p_host p)}.

(** ** Requests *)
Definition requestToken (virtualPod : Pod) (audience : string) (expirationSeconds : option Z)
  : M W TokenRequestStatus :=
  let namespace := Namespace (pod_Meta virtualPod) in
  let serviceAccountName := ps_ServiceAccountName (pod_Spec virtualPod) in
  CreateToken namespace serviceAccountName {|
    tr_Name := serviceAccountName; tr_Namespace := namespace;
    tr_Audiences := if decide (audience ≠ "") then [audience] else [];
    tr_ExpirationSeconds := expirationSeconds;
    tr_BoundObjectRef := {| bor_Kind := "Pod"; bor_APIVersion := "v1";
                            bor_Name := Name (pod_Meta virtualPod); bor_UID := UID (pod_Meta virtualPod) |} |}.

(** The secret literal that both kinds of token are returned in. *)
Definition token_secret (virtualPod : Pod) (name : string) (tokenResp : TokenRequestStatus) (now : Time)
    (data : list (string * string)) : Secret := {|
  sec_Meta := set_Annotations (tokenSecretAnnotations tokenResp now)
                (meta_of (Namespace (pod_Meta virtualPod)) name);
  sec_Type := ""; sec_Data := map_lit data |}.

Definition kubeAccessTokenSecret (virtualPod : Pod) : M W Secret :=
  let namespace := Namespace (pod_Meta virtualPod) in
  rootCA ← Get (p_virtual p) ConfigMap {| nn_Name := RootCACertConfigMapName; nn_Namespace := namespace |};
  match map_get (cm_Data rootCA) ServiceAccountRootCAKey with
  | None => fail (EText ("configmap " +:+ Namespace (cm_Meta rootCA) +:+ "/" +:+ Name (cm_Meta rootCA)
                         +:+ " has no " +:+ ServiceAccountRootCAKey))
  | Some caCert =>
      tokenResp ← requestToken virtualPod "" (Some kubeAccessTokenExpirationSeconds);
      now ← time_Now;
      mret (token_secret virtualPod (kubeAccessTokenSecretName (Name (pod_Meta virtualPod))) tokenResp now
              [(ServiceAccountTokenKey, tr_Token tokenResp);
               (ServiceAccountRootCAKey, caCert);
               (ServiceAccountNamespaceKey, namespace)])
  end.

Definition projectedTokenSecret (token : ServiceAccountTokenProjection) (virtualPod : Pod) : M W Secret :=
  tokenResp ← requestToken virtualPod (satp_Audience token) (satp_ExpirationSeconds token);
  now ← time_Now;
  mret (token_secret virtualPod (generateTokenSecretName (Name (pod_Meta virtualPod)) token) tokenResp now
          [(satp_Path token, tr_Token tokenResp)]).

(** ** The secrets of the host *)

(** The virtual secret as it is created on the host. *)
Definition host_token_secret (virtualSecret : Secret) : Secret := {|
  sec_Meta := TranslateTo (translator p) (sec_Meta virtualSecret); sec_Type := "";
  sec_Data := sec_Data virtualSecret |}.

(** The [mutate] closure: the data is replaced, the annotations are added. *)
Definition refresh_secret (new cur : Secret) : Secret := {|
  sec_Meta := set_Annotations (Some (default ∅ (Annotations (sec_Meta new)) ∪
                                     default ∅ (Annotations (sec_Meta cur)))) (sec_Meta cur);
  sec_Type := sec_Type cur; sec_Data := sec_Data new |}.

Definition translateAndCreateHostTokenSecret (virtualSecret : Secret) : M W Secret :=
  let hostSecret := host_token_secret virtualSecret in
  r ← CreateOrUpdate (p_host p) hostSecret (λ cur, Ok (refresh_secret hostSecret cur));
  mret r.2.

Definition pod_owner (hostPod : Pod) : OwnerReference := {|
  or_APIVersion := "v1"; or_Kind := "Pod"; or_Name := Name (pod_Meta hostPod);
  or_UID := UID (pod_Meta hostPod); or_Controller := None |}.

Definition setTokenSecretOwner (hostPod : Pod) (name : string) : M W unit :=
  let hostSecret := {| sec_Meta := meta_of (Namespace (pod_Meta hostPod)) name; sec_Type := "";
                       sec_Data := None |} in
  m ← lift (SetOwnerReference (pod_owner hostPod) (sec_Meta hostSecret));
  StrategicPatch (OSecret (with_meta m hostSecret)) (OSecret hostSecret).

Definition setTokenSecretsOwner (hostPod : Pod) (hostSecretNames : list string) : M W unit :=
  errs ← join_all (map (setTokenSecretOwner hostPod) hostSecretNames);
  ret_err (errors_join errs).

(** ** The pod *)
Fixpoint transform_sources (virtualPod : Pod) (sources : list VolumeProjection)
  : M W (list string * list VolumeProjection) :=
  match sources with
  | [] => mret ([], [])
  | TokenProjection token :: rest =>
      projectedSecret ← projectedTokenSecret token virtualPod;
      hostSecret ← translateAndCreateHostTokenSecret projectedSecret;
      let name := Name (sec_Meta hostSecret) in
      '(names, rest) ← transform_sources virtualPod rest;
      mret (name :: names,
            SecretProjection {| svs_SecretName := name; svs_Items := []; svs_Optional := None |} :: rest)
  | source :: rest =>
      '(names, rest) ← transform_sources virtualPod rest;
      mret (names, source :: rest)
  end.

Definition transform_token_volume (virtualPod : Pod) (volume : Volume) : M W (list string * Volume) :=
  if is_kube_access (vol_Name volume) then mret ([], volume)
  else match vol_Source volume with
       | ProjectedSource sources =>
           '(names, sources) ← transform_sources virtualPod sources;
           mret (names, {| vol_Name := vol_Name volume; vol_Source := ProjectedSource sources |})
       | _ => mret ([], volume)
       end.

Fixpoint transform_token_volumes (virtualPod : Pod) (volumes : list Volume)
  : M W (list string * list Volume) :=
  match volumes with
  | [] => mret ([], [])
  | volume :: rest =>
      v ← transform_token_volume virtualPod volume;
      vs ← transform_token_volumes virtualPod rest;
      mret ((v.1 ++ vs.1)%list, v.2 :: vs.2)
  end.

Definition transformProjectedTokens (virtualPod hostPod : Pod) : M W (list string * Pod) :=
  '(names, volumes) ← transform_token_volumes virtualPod (ps_Volumes (pod_Spec hostPod));
  mret (names, set_pod_Spec (set_ps_Volumes volumes (pod_Spec hostPod)) hostPod).

(** The name is [""] when there is no token to mount. *)
Definition transformKubeAccessToken (virtualPod hostPod : Pod) : M W (string * Pod) :=
  if negb (hasKubeAccessVolume virtualPod) then mret ("", hostPod)
  else
    virtualSecret ← kubeAccessTokenSecret virtualPod;
    hostSecret ← translateAndCreateHostTokenSecret virtualSecret;
    let hostSecretName := Name (sec_Meta hostSecret) in
    mret (hostSecretName, addKubeAccessVolume (removeKubeAccessVolume hostPod) hostSecretName).

(** The names of the secrets, and the host pod after the call. *)
Definition transformTokens (virtualPod hostPod : Pod) : M W (list string * Pod) :=
  let hostPod := set_pod_Spec (clear_service_account (pod_Spec hostPod)) hostPod in
  '(hostSecretNames, hostPod) ← transformProjectedTokens virtualPod hostPod;
  '(hostSecretName, hostPod) ← transformKubeAccessToken virtualPod hostPod;
  mret (if decide (hostSecretName ≠ "") then (hostSecretNames ++ [hostSecretName])%list else hostSecretNames, hostPod).

(** ** The refresher *)
Definition owned_by (hostPod : Pod) (hostSecret : Secret) : bool :=
  existsb (λ ref, bool_decide (or_UID ref = UID (pod_Meta hostPod))) (OwnerReferences (sec_Meta hostSecret)).

Definition refreshToken (hostPod : Pod) (namespace name : string) (tokenSecret : M W Secret) : M W unit :=
  let key := {| nn_Name := TranslateName (translator p) namespace name; nn_Namespace := clusterNamespace p |} in
  r ← attempt (Get (p_host p) Secret key);
  match r with
  | inr err => if IsNotFound err then mret tt else fail err
  | inl hostSecret =>
      errs ← join_all (if owned_by hostPod hostSecret then []
                       else [setTokenSecretOwner hostPod (Name (sec_Meta hostSecret))]);
      now ← time_Now;
      if negb (tokenRefreshDue hostSecret now) then ret_err (errors_join errs)
      else
        r ← attempt tokenSecret;
        match r with
        | inr err => ret_err (errors_join (errs ++ [Some err]))
        | inl virtualSecret =>
            r ← attempt (translateAndCreateHostTokenSecret virtualSecret);
            match r with
            | inr err => ret_err (errors_join (errs ++ [Some err]))
            | inl _ => ret_err (errors_join errs)
            end
        end
  end.

(** The tokens of the projected volumes of a pod, in order. *)
Definition projected_tokens (pod : Pod) : list ServiceAccountTokenProjection :=
  v ← ps_Volumes (pod_Spec pod);
  if is_kube_access (vol_Name v) then []
  else match vol_Source v with
       | ProjectedSource sources =>
           omap (λ s, match s with TokenProjection t => Some t | _ => None end) sources
       | _ => []
       end.

Definition refreshPodTokens (virtualPod hostPod : Pod) : M W unit :=
  let namespace := Namespace (pod_Meta virtualPod) in
  let podName := Name (pod_Meta virtualPod) in
  errs ← join_all (
    (if hasKubeAccessVolume virtualPod
     then [refreshToken hostPod namespace (kubeAccessTokenSecretName podName) (kubeAccessTokenSecret virtualPod)]
     else []) ++
    map (λ token, refreshToken hostPod namespace (generateTokenSecretName podName token)
                    (projectedTokenSecret token virtualPod)) (projected_tokens virtualPod));
  ret_err (errors_join errs).

(** [listHostPods] of provider.go. *)
Definition host_pods_options : ListOptions := {|
  lo_Namespace := clusterNamespace p;
  lo_Selector := [ReqEquals ClusterNameLabel (clusterName p); ReqEquals AgentNameLabel (agentHostname p)];
  lo_Fields := [] |}.
Definition listHostPods : M W (list Pod) := List_ (p_host p) Pod host_pods_options.

Definition refresh_host_pod (hostPod : Pod) : M W unit :=
  if is_deleting (pod_Meta hostPod) || bool_decide (pod_Phase hostPod = PodSucceeded)
     || bool_decide (pod_Phase hostPod = PodFailed) then mret tt
  else
    r ← attempt (Get (p_virtual p) Pod (key_of (TranslateFrom (pod_Meta hostPod))));
    match r with
    | inr _ => mret tt
    | inl virtualPod =>
        if is_deleting (pod_Meta virtualPod) then mret tt
        else attempt (refreshPodTokens virtualPod hostPod) ;; mret tt
    end.

Definition refreshTokens : M W unit :=
  r ← attempt listHostPods;
  match r with
  | inr _ => mret tt
  | inl hostPods => for_each hostPods refresh_host_pod
  end.

(** [wait.UntilWithContext]: one round at once and one after each interval, until
    the context is done. *)
Fixpoint tokenRefresher_Start (rounds : nat) : M W unit :=
  match rounds with
  | O => mret tt
  | S rounds => refreshTokens ;; tokenRefresher_Start rounds
  end.
End Provider.

(** ** Lemmas on the names *)
Definition token_path (podName : string) (t : ServiceAccountTokenProjection) : string :=
  full_path (namePrefix :: token_components podName t ++ [token_digest podName t]).

Lemma full_path_snoc l h :
  h ≠ "" → (∃ x, x ∈ l ∧ x ≠ "") → ∃ q, full_path (l ++ [h]) = q +:+ String "-" h.
Proof.
  intros Hh Hl. unfold full_path, slices_DeleteFunc. rewrite List.filter_app. cbn [List.filter].
  rewrite (bool_decide_false (h = "")) by done. cbn [negb].
  assert (List.filter (λ s, negb (bool_decide (s = ""))) l ≠ []) as Hne.
  { destruct Hl as (x & Hx & Hx'). intros E. apply (elem_of_nil x). rewrite <- E.
    apply list_elem_of_In, List.filter_In. split; [by apply list_elem_of_In|]. by rewrite bool_decide_false. }
  revert Hne. generalize (List.filter (λ s, negb (bool_decide (s = ""))) l). clear. intros l Hl.
  induction l as [|x l IH]; [done|]. destruct l as [|y l].
  - by exists x.
  - destruct IH as [q E]; [done|]. exists (x +:+ "-" +:+ q).
    change ((x :: y :: l) ++ [h])%list with (x :: y :: (l ++ [h]))%list. rewrite join_cons.
    change (y :: (l ++ [h]))%list with ((y :: l) ++ [h])%list. rewrite E. by rewrite !str_app_assoc.
Qed.

Lemma token_digest_chars podName t : str_forall is_hex (token_digest podName t).
Proof. apply str_forall_take, hex_encode_chars. Qed.

Lemma token_digest_length podName t : String.length (token_digest podName t) = 6%nat.
Proof. unfold token_digest. by rewrite str_take_length, digest_hex_length. Qed.

Lemma token_path_snoc podName t : ∃ q, token_path podName t = q +:+ String "-" (token_digest podName t).
Proof.
  unfold token_path. change (namePrefix :: ?l ++ ?r)%list with ((namePrefix :: l) ++ r)%list.
  apply full_path_snoc.
  - intros E. pose proof (token_digest_length podName t) as Hl. by rewrite E in Hl.
  - exists namePrefix. split; [left|done].
Qed.

Lemma hex_text_no_hyphen s : str_forall is_hex s → ¬ str_elem "-" s.
Proof. unfold str_forall. rewrite Forall_forall. intros Hs Hin. by apply Hs, hyphen_not_hex in Hin. Qed.

(** The name of the secret of a projected token ends with hexadecimal digits. *)
Lemma generate_ends_hex podName t :
  ∃ q h, generateTokenSecretName podName t = q +:+ String "-" h ∧ str_forall is_hex h.
Proof.
  unfold generateTokenSecretName, SafeConcatNameWithPrefix.
  destruct (SafeConcatName_cases (namePrefix :: token_components podName t ++ [token_digest podName t]))
    as [[_ ->]|(_ & n & c & _ & _ & ->)].
  - fold (token_path podName t). destruct (token_path_snoc podName t) as [q E]. rewrite E.
    exists q, (token_digest podName t). split; [done|apply token_digest_chars].
  - eexists _, _. split; [done|]. apply str_forall_take, hex_encode_chars.
Qed.

Lemma kube_access_name podName :
  podName ≠ "" → (String.length podName ≤ 43)%nat →
  kubeAccessTokenSecretName podName = ("k3k-" +:+ podName +:+ "-kube-api") +:+ String "-" "access".
Proof.
  intros Hp Hl. unfold kubeAccessTokenSecretName, SafeConcatNameWithPrefix.
  assert (full_path [namePrefix; podName; kubeAPIAccessPrefix]
          = ("k3k-" +:+ podName +:+ "-kube-api") +:+ String "-" "access") as E.
  { unfold full_path, slices_DeleteFunc. cbn [List.filter]. rewrite (bool_decide_false (podName = "")) by done.
    cbn [bool_decide negb]. rewrite !str_app_assoc. reflexivity. }
  destruct (SafeConcatName_cases [namePrefix; podName; kubeAPIAccessPrefix]) as [[_ ->]|[H _]]; [done|].
  rewrite E in H. rewrite !str_app_length in H. cbn [String.length] in H. lia.
Qed.

Lemma pretty_N_go_nonempty x s : s ≠ "" → pretty_N_go x s ≠ "".
Proof.
  revert s. induction (N.lt_wf_0 x) as [x _ IH]; intros s Hs.
  destruct (decide (x = 0%N)) as [->|Hx]; [done|].
  rewrite pretty_N_go_step by lia. apply IH; [|done]. apply N.div_lt; lia.
Qed.

Lemma pretty_Z_nonempty (z : Z) : pretty z ≠ "".
Proof.
  assert (∀ n : N, pretty n ≠ "") as HN.
  { intros n. unfold pretty, pretty_N. destruct (decide (n = 0%N)); [done|].
    rewrite pretty_N_go_step by lia. by apply pretty_N_go_nonempty. }
  unfold pretty, pretty_Z. destruct z; [done|apply HN|done].
Qed.

Lemma expiration_text_inj t t' :
  expiration_text t = expiration_text t' → satp_ExpirationSeconds t = satp_ExpirationSeconds t'.
Proof.
  unfold expiration_text, strconv_Itoa.
  pose proof pretty_Z_nonempty as Hne.
  destruct (satp_ExpirationSeconds t), (satp_ExpirationSeconds t'); intros E; try done.
  - f_equal. by apply (base.inj pretty).
  - by apply Hne in E.
  - symmetry in E. by apply Hne in E.
Qed.

(** The quoted attributes tell the pod and the token. *)
Lemma token_attributes_inj podName t podName' t' :
  token_attributes podName t = token_attributes podName' t' → podName = podName' ∧ t = t'.
Proof.
  unfold token_attributes. intros E. apply fmt_q_inj in E as [-> E]. cbn [String.append] in E.
  apply String_eq_inv in E as [_ E]. apply fmt_q_inj in E as [Ha E]. cbn [String.append] in E.
  apply String_eq_inv in E as [_ E]. apply fmt_q_inj in E as [He E]. cbn [String.append] in E.
  apply String_eq_inv in E as [_ E]. rewrite <- (str_app_nil_r (fmt_q _)) in E.
  rewrite <- (str_app_nil_r (fmt_q (satp_Path t'))) in E. apply fmt_q_inj in E as [Hp _].
  apply expiration_text_inj in He. destruct t, t'; cbn in *. by subst.
Qed.

(** ** Lemmas on the times *)
Lemma refresh_after_short now expiration :
  0 < expiration - now → 8 * (expiration - now) ≤ int64_max →
  tokenRefreshAfter now expiration = now + Z.min (8 * (expiration - now) / 10) maxTokenRefreshPeriod.
Proof.
  intros Hl Ho. unfold tokenRefreshAfter, Add, quot64, mul64, Sub.
  set (l := expiration - now) in *.
  assert (Z.max int64_min (Z.min int64_max l) = l) as -> by (unfold int64_min, int64_max in *; lia).
  rewrite (int64_id (l * 8)) by (unfold int64_min, int64_max in *; lia).
  rewrite Z.quot_div_nonneg by lia. rewrite (Z.mul_comm l 8).
  rewrite int64_id; [done|]. unfold int64_min, int64_max in *. divlia.
Qed.

Lemma refresh_due_parsed secret resp now now' :
  map_str (Annotations (sec_Meta secret)) tokenRefreshAfterAnnotation
  = map_str (tokenSecretAnnotations resp now) tokenRefreshAfterAnnotation →
  let t := tokenRefreshAfter now (tr_ExpirationTimestamp resp) in
  0 ≤ Year (date_of_days (t / nano / seconds_per_day)) < 10000 →
  tokenRefreshDue secret now' = bool_decide (t / nano * nano ≤ now').
Proof.
  intros Ha t Hy. unfold tokenRefreshDue. rewrite Ha.
  change (map_str (tokenSecretAnnotations resp now) tokenRefreshAfterAnnotation) with (Format_RFC3339 t).
  rewrite Parse_Format by done. unfold Before.
  case_bool_decide; destruct (Z.ltb_spec now' (t / nano * nano)); cbn; (done || lia).
Qed.

(** Without its first match, a list with at most one match has none. *)
Lemma remove_first_rest {A} (k : A → bool) (Q : A → Prop) l :
  (∀ x, k x = false → Q x) → (length (List.filter k l) ≤ 1)%nat → existsb k l = true → Forall Q (remove_first k l).
Proof.
  intros HQ. induction l as [|x l IH]; [done|]. cbn. destruct (k x) eqn:Hx; cbn; intros Hl He.
  - assert (List.filter k l = []) as Hnil by (destruct (List.filter k l); [done|cbn in Hl; lia]).
    clear IH Hl He. induction l as [|y l IH]; [constructor|]. cbn in Hnil.
    destruct (k y) eqn:Hy; [done|]. constructor; [by apply HQ|by apply IH].
  - constructor; [by apply HQ|by apply IH].
Qed.

Lemma no_match_all {A} (k : A → bool) (Q : A → Prop) l :
  (∀ x, k x = false → Q x) → existsb k l = false → Forall Q l.
Proof.
  intros HQ. induction l as [|x l IH]; [constructor|]. cbn. intros [Hx He]%orb_false_iff.
  constructor; [by apply HQ|by apply IH].
Qed.

Lemma existsb_map {A B} (f : A → B) (k : B → bool) l : existsb k (map f l) = existsb (λ x, k (f x)) l.
Proof. induction l as [|x l IH]; [done|]. cbn. by rewrite IH. Qed.

Lemma filter_map_length {A B} (f : A → B) (k : B → bool) l :
  length (List.filter k (map f l)) = length (List.filter (λ x, k (f x)) l).
Proof. induction l as [|x l IH]; [done|]. cbn. destruct (k (f x)); cbn; by rewrite IH. Qed.

Lemma existsb_ext {A} (f g : A → bool) l : (∀ x, f x = g x) → existsb f l = existsb g l.
Proof. intros H. induction l as [|x l IH]; [done|]. cbn. by rewrite H, IH. Qed.

(** ** What the transformation of the tokens makes of a pod *)
Definition is_token (s : VolumeProjection) : bool :=
  match s with TokenProjection _ => true | _ => false end.
Definition has_token (v : Volume) : bool :=
  match vol_Source v with ProjectedSource sources => existsb is_token sources | _ => false end.

Lemma concat_nonempty l : SafeConcatNameWithPrefix l ≠ "".
Proof.
  intros E. unfold SafeConcatNameWithPrefix in E.
  destruct (SafeConcatName_cases (namePrefix :: l)) as [[_ E']|(_ & k & c & _ & _ & E')]; rewrite E' in E;
    apply (f_equal String.length) in E.
  - unfold full_path, slices_DeleteFunc in E. cbn [List.filter] in E. rewrite bool_decide_false in E by done.
    cbn [negb] in E. destruct (List.filter _ l); [done|]. rewrite join_cons, !str_app_length in E. cbn in E. lia.
  - rewrite str_app_length in E. cbn in E. lia.
Qed.

(** A translated name is never empty. *)
Lemma translated_nonempty t ns n : n ≠ "" → TranslateName t ns n ≠ "".
Proof.
  intros Hn E. pose proof (TranslateName_path t ns n Hn) as Hp. unfold TranslateName in E.
  fold (name_key t ns n) in E.
  destruct (SafeConcatName_cases [strings_Join (name_parts t ns n) "-"; hex_encode (name_key t ns n)])
    as [[_ E']|(_ & k & c & _ & _ & E')]; rewrite E', ?Hp in E;
    by apply (f_equal String.length) in E; rewrite str_app_length in E; cbn in E; lia.
Qed.

Section Mounted.
Context {W : Type} `{KL : KubeUtilLaws} (p : Provider W) `{TA : TokenAPI W} `{OP : !OwnerPatcher (p_host p)}.
Context `{HL : !ClientLaws (p_host p)}.

(** The name on the host of a token secret of a pod. *)
Definition host_secret_name (virtualPod : Pod) (name : string) : string :=
  TranslateName (translator p) (Namespace (pod_Meta virtualPod)) name.
Definition host_token_name (virtualPod : Pod) (t : ServiceAccountTokenProjection) : string :=
  host_secret_name virtualPod (generateTokenSecretName (Name (pod_Meta virtualPod)) t).

Definition mount_source (virtualPod : Pod) (s : VolumeProjection) : VolumeProjection :=
  match s with
  | TokenProjection t =>
      SecretProjection {| svs_SecretName := host_token_name virtualPod t; svs_Items := []; svs_Optional := None |}
  | _ => s
  end.
Definition mount_volume (virtualPod : Pod) (v : Volume) : Volume :=
  if is_kube_access (vol_Name v) then v
  else match vol_Source v with
       | ProjectedSource sources =>
           {| vol_Name := vol_Name v; vol_Source := ProjectedSource (map (mount_source virtualPod) sources) |}
       | _ => v
       end.

(** The pod with its tokens in secrets of the host. *)
Definition mounted_pod (virtualPod hostPod : Pod) : Pod :=
  let spec := clear_service_account (pod_Spec hostPod) in
  let pod := set_pod_Spec (set_ps_Volumes (map (mount_volume virtualPod) (ps_Volumes spec)) spec) hostPod in
  if hasKubeAccessVolume virtualPod
  then addKubeAccessVolume (removeKubeAccessVolume pod)
         (host_secret_name virtualPod (kubeAccessTokenSecretName (Name (pod_Meta virtualPod))))
  else pod.

Definition mounted_names (virtualPod hostPod : Pod) : list string :=
  map (host_token_name virtualPod) (projected_tokens hostPod) ++
  (if hasKubeAccessVolume virtualPod
   then [host_secret_name virtualPod (kubeAccessTokenSecretName (Name (pod_Meta virtualPod)))] else []).

Lemma mount_volume_name vpod v : vol_Name (mount_volume vpod v) = vol_Name v.
Proof using. unfold mount_volume. destruct (is_kube_access _); [done|]. by destruct (vol_Source v). Qed.

Lemma mounted_access vpod vs :
  existsb (λ v, is_kube_access (vol_Name v)) (map (mount_volume vpod) vs)
  = existsb (λ v, is_kube_access (vol_Name v)) vs.
Proof using. rewrite existsb_map. apply existsb_ext. intros v. by rewrite mount_volume_name. Qed.

(** The volumes of the pod satisfy what those without the prefix do, when at
    most one has it. *)
Lemma mounted_volumes (Q : Volume → Prop) vpod hpod :
  map vol_Name (ps_Volumes (pod_Spec vpod)) = map vol_Name (ps_Volumes (pod_Spec hpod)) →
  (length (List.filter (λ v, is_kube_access (vol_Name v)) (ps_Volumes (pod_Spec hpod))) ≤ 1)%nat →
  (∀ v, v ∈ ps_Volumes (pod_Spec hpod) → is_kube_access (vol_Name v) = false → Q (mount_volume vpod v)) →
  (∀ n, Q {| vol_Name := tokenVolumeName; vol_Source := SecretSource {|
             svs_SecretName := host_secret_name vpod n; svs_Items := []; svs_Optional := None |} |}) →
  Forall Q (ps_Volumes (pod_Spec (mounted_pod vpod hpod))).
Proof using.
  intros Hnames Hone HQ Hn.
  assert (hasKubeAccessVolume vpod = existsb (λ v, is_kube_access (vol_Name v)) (ps_Volumes (pod_Spec hpod))) as Hhas.
  { unfold hasKubeAccessVolume. rewrite <- !(existsb_map vol_Name). by rewrite Hnames. }
  unfold mounted_pod. rewrite Hhas. clear Hhas Hnames. revert Hone HQ.
  cbn [pod_Spec clear_service_account ps_Volumes]. generalize (ps_Volumes (pod_Spec hpod)). intros vs Hone HQ.
  set (Q' := λ v : Volume, v ∈ map (mount_volume vpod) vs → Q v).
  assert (∀ l, (∀ v, v ∈ l → v ∈ map (mount_volume vpod) vs) → Forall Q' l → Forall Q l) as Hall.
  { intros l Hl HF. rewrite Forall_forall in HF |- *. intros v Hv. by apply HF, Hl. }
  assert (∀ v, is_kube_access (vol_Name v) = false → Q' v) as HQ'.
  { intros v Hv Hin. apply list_elem_of_fmap in Hin as (u & -> & Hu). rewrite mount_volume_name in Hv. by apply HQ. }
  assert (∀ (k : Volume → bool) l v, v ∈ remove_first k l → v ∈ l) as Hrem.
  { intros k l v. induction l as [|x l IH]; [done|]. cbn. destruct (k x); [by right|].
    intros [->|Hv]%elem_of_cons; [by left|right; auto]. }
  destruct (existsb _ vs) eqn:Hk; cbn.
  - apply Forall_app_2; [|by apply Forall_singleton]. apply Hall; [intros v; apply Hrem|].
    apply remove_first_rest; [exact HQ'| |by rewrite mounted_access].
    rewrite filter_map_length. erewrite (filter_ext _ (λ v, is_kube_access (vol_Name v))); [done|].
    intros v. by rewrite mount_volume_name.
  - apply Hall; [done|]. apply (no_match_all (λ v, is_kube_access (vol_Name v))); [exact HQ'|by rewrite mounted_access].
Qed.

Lemma create_token_secret_name s w y w' :
  translateAndCreateHostTokenSecret p s w = (Ok y, w') →
  Name (sec_Meta y) = TranslateName (translator p) (Namespace (sec_Meta s)) (Name (sec_Meta s)).
Proof using KL HL.
  unfold translateAndCreateHostTokenSecret, mbind, M_bind.
  destruct (CreateOrUpdate _ _ _ w) as [[[res z]|e|] w1] eqn:E; [|done..]. cbn. intros [= <- <-].
  apply (CreateOrUpdate_run (p_host p)) in E as [Hk _]. by injection Hk as _ ?.
Qed.

Lemma projected_secret_meta t vpod w s w' :
  projectedTokenSecret t vpod w = (Ok s, w') →
  Namespace (sec_Meta s) = Namespace (pod_Meta vpod) ∧
  Name (sec_Meta s) = generateTokenSecretName (Name (pod_Meta vpod)) t.
Proof using.
  unfold projectedTokenSecret. intros (resp & w1 & _ & (now & w2 & _ & [= <- _])%bind_inv_ok)%bind_inv_ok. done.
Qed.

Lemma access_secret_meta vpod w s w' :
  kubeAccessTokenSecret p vpod w = (Ok s, w') →
  Namespace (sec_Meta s) = Namespace (pod_Meta vpod) ∧
  Name (sec_Meta s) = kubeAccessTokenSecretName (Name (pod_Meta vpod)).
Proof using.
  unfold kubeAccessTokenSecret. intros (rootCA & w1 & _ & E)%bind_inv_ok.
  destruct (map_get _ _) as [caCert|]; [|done].
  apply bind_inv_ok in E as (resp & w2 & _ & (now & w3 & _ & [= <- _])%bind_inv_ok). done.
Qed.

Lemma transform_sources_run vpod sources w names sources' w' :
  transform_sources p vpod sources w = (Ok (names, sources'), w') →
  sources' = map (mount_source vpod) sources ∧
  names = map (host_token_name vpod)
            (omap (λ s, match s with TokenProjection t => Some t | _ => None end) sources).
Proof using KL HL.
  revert w names sources' w'. induction sources as [|s sources IH]; intros w names sources' w'.
  { by intros [= <- <- _]. }
  assert (∀ w, (x ← transform_sources p vpod sources; mret (x.1, s :: x.2)) w = (Ok (names, sources'), w') →
    ∃ sources1, sources' = s :: sources1 ∧ sources1 = map (mount_source vpod) sources ∧
      names = map (host_token_name vpod)
            (omap (λ s, match s with TokenProjection t => Some t | _ => None end) sources)) as Hplain.
  { intros w1. unfold mbind, M_bind. destruct (transform_sources p vpod sources w1) as [[[ns ss]|e|] w2] eqn:E;
      [|done..]. cbn. intros [= <- <- _]. exists ss. split; [done|]. by eapply IH. }
  destruct s as [s|n j|t|j]; cbn [transform_sources].
  3:{ unfold mbind at 1, M_bind at 1. destruct (projectedTokenSecret t vpod w) as [[s|e|] w1] eqn:E1; [|done..].
      apply projected_secret_meta in E1 as [Hns Hn].
      unfold mbind at 1, M_bind at 1. destruct (translateAndCreateHostTokenSecret p s w1) as [[y|e|] w2] eqn:E2; [|done..].
      apply create_token_secret_name in E2. rewrite Hns, Hn in E2.
      unfold mbind, M_bind. destruct (transform_sources p vpod sources w2) as [[[ns ss]|e|] w3] eqn:E3; [|done..].
      apply IH in E3 as [-> ->]. intros [= <- <- _]. cbn. rewrite E2. done. }
  all: intros E; destruct (Hplain w) as (ss & -> & -> & ->);
    [revert E; unfold mbind, M_bind; by destruct (transform_sources p vpod sources w) as [[[]|?|] ?]|done].
Qed.

Lemma transform_volumes_run vpod vs w names vs' w' :
  transform_token_volumes p vpod vs w = (Ok (names, vs'), w') →
  vs' = map (mount_volume vpod) vs ∧
  names = map (host_token_name vpod) (v ← vs;
    if is_kube_access (vol_Name v) then []
    else match vol_Source v with
         | ProjectedSource sources =>
             omap (λ s, match s with TokenProjection t => Some t | _ => None end) sources
         | _ => []
         end).
Proof using KL HL.
  revert w names vs' w'. induction vs as [|v vs IH]; intros w names vs' w'.
  { by intros [= <- <- _]. }
  cbn [transform_token_volumes map]. unfold mbind at 1, M_bind at 1.
  destruct (transform_token_volume p vpod v w) as [[[ns v1]|e|] w1] eqn:E1; [|done..].
  unfold mbind at 1, M_bind at 1.
  destruct (transform_token_volumes p vpod vs w1) as [[[ns2 vs2]|e|] w2] eqn:E2; [|done..].
  apply IH in E2 as [-> ->]. intros [= <- <- _].
  cbn [fst snd mbind list_bind]. rewrite map_app. unfold transform_token_volume, mount_volume in *.
  destruct (is_kube_access (vol_Name v)); [by injection E1 as <- <- _|].
  destruct (vol_Source v) eqn:Hv; try by injection E1 as <- <- _.
  unfold mbind at 1, M_bind at 1 in E1.
  destruct (transform_sources p vpod sources w) as [[[ns3 ss]|e|] w3] eqn:E3; [|done..].
  injection E1 as <- <- _. apply transform_sources_run in E3 as [-> ->]. done.
Qed.

Lemma transformTokens_run vpod hpod w names hpod' w' :
  transformTokens p vpod hpod w = (Ok (names, hpod'), w') →
  names = mounted_names vpod hpod ∧ hpod' = mounted_pod vpod hpod.
Proof using KL HL.
  unfold transformTokens. intros ([ns pod1] & w1 & E1 & E)%bind_inv_ok. cbv beta iota in E.
  unfold transformProjectedTokens in E1. apply bind_inv_ok in E1 as ([ns1 vs] & w2 & E1 & [= <- <- _]).
  apply transform_volumes_run in E1 as [-> ->].
  apply bind_inv_ok in E as ([n1 pod2] & w3 & E2 & E). cbv beta iota in E.
  unfold transformKubeAccessToken in E2. unfold mounted_names, mounted_pod.
  destruct (hasKubeAccessVolume vpod); cbn [negb] in E2.
  - apply bind_inv_ok in E2 as (s & w4 & E2 & (y & w5 & E3 & [= <- <- _])%bind_inv_ok).
    apply access_secret_meta in E2 as [Hns Hn]. apply create_token_secret_name in E3.
    rewrite Hns, Hn in E3. rewrite E3 in E. rewrite decide_True in E.
    + by injection E as <- <- _.
    + apply translated_nonempty, concat_nonempty.
  - injection E2 as <- <- _. rewrite decide_False in E by auto. injection E as <- <- _.
    by rewrite app_nil_r.
Qed.
End Mounted.

(** ** Writing and refreshing a secret *)

(** What the documentation promises of the patch of the owners: only the
    metadata of the stored object changes, and it has the owners that were
    added. *)
Class OwnerPatchLaw {W} (c : Client W) `{!ClientLaws c} `{!OwnerPatcher c} : Prop :=
  owner_patch_spec new orig w :
    ∃ r w', StrategicPatch (c:=c) new orig w = (r, w') ∧
      match r with
      | Ok _ => ∃ old o', store w !! obj_key new = Some old ∧ obj_key o' = obj_key new ∧
                  o' = obj_set_meta (obj_meta o') old ∧
                  is_deleting (obj_meta o') = is_deleting (obj_meta old) ∧
                  Annotations (obj_meta o') = Annotations (obj_meta old) ∧
                  (∀ ref, ref ∈ OwnerReferences (obj_meta new) →
                     ∃ ref', ref' ∈ OwnerReferences (obj_meta o') ∧ or_UID ref' = or_UID ref) ∧
                  store w' = <[obj_key new := o']> (store w)
      | Err e => store w' = store w
      | Panic => False
      end.

(** The part of a secret that the server stores as it receives it. *)
Definition secret_content (s : Secret) : gomap string * gomap string * list OwnerReference :=
  (sec_Data s, Annotations (sec_Meta s), OwnerReferences (sec_Meta s)).

Section Written.
Context {W : Type} `{KL : KubeUtilLaws} (p : Provider W) `{TA : TokenAPI W} `{OP : !OwnerPatcher (p_host p)}.
Context `{HL : !ClientLaws (p_host p)} `{KP : !Keeps (p_host p) secret_content}.

Definition secret_key (m : ObjectMeta) : ObjKey := ("Secret", NamespacedName_of (translator p) m).

Lemma create_token_secret_run s w y w' :
  translateAndCreateHostTokenSecret p s w = (Ok y, w') →
  (∀ o, store w !! secret_key (sec_Meta s) = Some o → is_deleting (obj_meta o) = false) →
  is_deleting (sec_Meta s) = false →
  store w' = <[secret_key (sec_Meta s) := OSecret y]> (store w) ∧
  sec_Data y = sec_Data s ∧
  (∀ k v, map_get (Annotations (sec_Meta s)) k = Some v →
     k ≠ ResourceNameAnnotation → k ≠ ResourceNamespaceAnnotation → map_get (Annotations (sec_Meta y)) k = Some v) ∧
  OwnerReferences (sec_Meta y) =
    match store w !! secret_key (sec_Meta s) with
    | Some (OSecret cur) => OwnerReferences (sec_Meta cur)
    | _ => []
    end.
Proof using KL HL KP.
  unfold translateAndCreateHostTokenSecret. intros ([res y'] & w1 & E & [= <- <-])%bind_inv_ok Hlive Hs.
  apply (CreateOrUpdate_run (p_host p)) in E as [Hk E].
  set (h := host_token_secret p s) in *. unfold upserted in E. change (obj_key (inj h)) with (secret_key (sec_Meta s)) in E.
  assert (∀ cur k v, map_get (Annotations (sec_Meta s)) k = Some v →
     k ≠ ResourceNameAnnotation → k ≠ ResourceNamespaceAnnotation →
     map_get (Annotations (sec_Meta (refresh_secret h cur))) k = Some v) as Hann.
  { intros cur k v Hv Hk1 Hk2.
    change ((default ∅ (Annotations (TranslateTo (translator p) (sec_Meta s)))
             ∪ default ∅ (Annotations (sec_Meta cur))) !! k = Some v).
    apply lookup_union_Some_l. unfold TranslateTo. cbn [Annotations default from_option id].
    rewrite !lookup_insert_ne by congruence.
    unfold map_get in Hv. by destruct (Annotations (sec_Meta s)). }
  destruct E as [(Hn & z & w1' & [= <-] & E & Hst)|(cur & z & Hcur & [= <-] & E)].
  - apply (create_keeps (f:=secret_content)) in E as [= Hd Ha Ho]. rewrite Hn. split_and!; [done|done| |done].
    intros k v Hv Hk1 Hk2. cbn [snd]. rewrite Ha. exact (Hann h k v Hv Hk1 Hk2).
  - specialize (Hlive _ Hcur). cbn in Hlive.
    assert (store w1 = <[secret_key (sec_Meta s) := OSecret y']> (store w) ∧
            secret_content y' = secret_content (refresh_secret h cur)) as [Hst [= Hd Ha Ho]].
    { destruct E as [(Hz & -> & Hst)|(w1' & E & Hst)].
      - split; [|by rewrite Hz]. rewrite insert_id by exact Hcur. exact Hst.
      - split; [|by apply (update_keeps (f:=secret_content)) in E]. cbn in Hst. unfold is_deleting in Hst, Hlive.
        cbn in Hst. rewrite Hlive in Hst. exact Hst. }
    rewrite Hcur. split_and!; [done|done| |done].
    intros k v Hv Hk1 Hk2. cbn [snd]. rewrite Ha. exact (Hann cur k v Hv Hk1 Hk2).
Qed.

Context `{OL : !OwnerPatchLaw (p_host p)}.

Definition host_key (name : string) : ObjKey :=
  ("Secret", {| nn_Namespace := clusterNamespace p; nn_Name := name |}).

(** The owner is set on the stored secret. *)
Lemma set_owner_run hostPod name s w w' :
  Namespace (pod_Meta hostPod) = clusterNamespace p →
  store w !! host_key name = Some (OSecret s) →
  setTokenSecretOwner p hostPod name w = (Ok tt, w') →
  ∃ s', store w' = <[host_key name := OSecret s']> (store w) ∧ owned_by hostPod s' = true ∧
    sec_Data s' = sec_Data s ∧ is_deleting (sec_Meta s') = is_deleting (sec_Meta s) ∧
    Annotations (sec_Meta s') = Annotations (sec_Meta s).
Proof using KL HL OL.
  intros Hns Hs E. unfold setTokenSecretOwner in E. apply bind_inv_ok in E as (m & w1 & Em & E).
  injection Em as Em <-. apply SetOwnerReference_ok in Em as (rs & -> & ref & Href & Huid & _).
  pose proof (owner_patch_spec (c:=p_host p) (OSecret (with_meta (set_OwnerReferences rs
    (meta_of (Namespace (pod_Meta hostPod)) name)) {| sec_Meta := meta_of (Namespace (pod_Meta hostPod)) name;
    sec_Type := ""; sec_Data := None |})) (OSecret {| sec_Meta := meta_of (Namespace (pod_Meta hostPod)) name;
    sec_Type := ""; sec_Data := None |}) w) as (r & w2 & E2 & Hr).
  pose proof (eq_trans (eq_sym E2) E) as [= -> ->]. clear E E2.
  destruct Hr as (old & o' & Hold & Hk & Ho & Hd & Ha & Hown & Hst).
  change (obj_key _) with (("Secret", {| nn_Namespace := Namespace (pod_Meta hostPod); nn_Name := name |}) : ObjKey)
    in Hold, Hst. rewrite Hns in Hold, Hst.
  pose proof (eq_trans (eq_sym Hold) Hs) as [= ->]. cbn in Ho.
  destruct (Hown ref Href) as (ref' & Href' & Huid').
  exists {| sec_Meta := obj_meta o'; sec_Type := sec_Type s; sec_Data := sec_Data s |}. cbn [sec_Meta sec_Data].
  split; [by rewrite Hst, Ho at 1|]. split_and!; [|done..].
  apply existsb_true_iff. exists ref'. split; [done|]. rewrite bool_decide_eq_true. rewrite Huid', Huid. done.
Qed.

Lemma ensure_owner_run hostPod s w r w' :
  Namespace (pod_Meta hostPod) = clusterNamespace p →
  store w !! host_key (Name (sec_Meta s)) = Some (OSecret s) →
  join_all (if owned_by hostPod s then [] else [setTokenSecretOwner p hostPod (Name (sec_Meta s))]) w = (r, w') →
  ∀ errs, r = Ok errs → errors_join errs = None →
  ∃ s', store w' = <[host_key (Name (sec_Meta s)) := OSecret s']> (store w) ∧ owned_by hostPod s' = true ∧
    sec_Data s' = sec_Data s ∧ is_deleting (sec_Meta s') = is_deleting (sec_Meta s) ∧
    Annotations (sec_Meta s') = Annotations (sec_Meta s).
Proof using KL HL OL.
  intros Hns Hs E errs -> Hj. destruct (owned_by hostPod s) eqn:Ho.
  { injection E as <- <-. exists s. by rewrite insert_id. }
  cbn [join_all] in E. apply bind_inv_ok in E as (res & w1 & E1 & (es & w2 & [= <- <-] & [= <- <-])%bind_inv_ok).
  apply attempt_inv in E1. destruct res as [[]|e]; [|done]. by eapply set_owner_run.
Qed.

Lemma ret_err_join_ok (es : list (option error)) (w : W) u w' :
  ret_err (errors_join es) w = (Ok u, w') → errors_join es = None ∧ w' = w.
Proof using. destruct (errors_join es); [done|]. by intros [= _ <-]. Qed.

Lemma errors_join_snoc es e : errors_join (es ++ [Some e]) ≠ None.
Proof using. rewrite errors_join_None, Forall_app, Forall_singleton. naive_solver. Qed.
End Written.

(** ** A concrete environment *)
Import Lab.

Definition mem_owner_patch (new orig : Obj) : M mem unit := mem_guard (λ w,
  match mem_objects w !! obj_key new with
  | None => (Err not_found, w)
  | Some old =>
      let added := OwnerReferences (obj_meta new) in
      let kept := slices_DeleteFunc (OwnerReferences (obj_meta old))
                    (λ r, existsb (λ r', bool_decide (or_UID r' = or_UID r)) added) in
      (Ok tt, mem_put (obj_key new) (obj_set_meta (set_OwnerReferences (kept ++ added) (obj_meta old)) old) w)
  end).

#[export] Instance mem_owner_patcher : OwnerPatcher mem_client := { StrategicPatch := mem_owner_patch }.

#[export] Instance mem_owner_patch_law : OwnerPatchLaw mem_client.
Proof.
  intros new orig w. cbn. unfold mem_owner_patch, mem_guard. destruct (mem_up w); [|by eexists _, _].
  destruct (mem_objects w !! obj_key new) as [old|] eqn:Ho; [|by eexists _, _].
  eexists _, _. split; [reflexivity|].
  set (m := set_OwnerReferences _ _). exists old, (obj_set_meta m old).
  assert (obj_key (obj_set_meta m old) = obj_key new) as Hk.
  { apply mem_objects_lookup in Ho as [_ <-]. unfold obj_key. by rewrite obj_set_meta_kind, obj_set_meta_meta. }
  rewrite obj_set_meta_meta. split_and!; try done; [|by apply mem_objects_put].
  intros ref Hr. exists ref. split; [|done]. subst m. cbn. apply elem_of_app. by right.
Qed.

#[export] Instance fst_owner_patcher {W V} (c : Client W) `{!OwnerPatcher c}
  : OwnerPatcher (fst_client c : Client (W * V)) := { StrategicPatch n o := on_fst (StrategicPatch (c:=c) n o) }.
#[export] Instance fst_owner_patch_law {W V} (c : Client W) `{!ClientLaws c} `{!OwnerPatcher c} :
  OwnerPatchLaw c → OwnerPatchLaw (fst_client c : Client (W * V)).
Proof.
  intros L new orig w. destruct (L new orig w.1) as (r & w1 & E & Hr). exists r, (w1, w.2). split; [|exact Hr].
  cbn. unfold on_fst. by rewrite E.
Qed.

(** A clock that stands still, and tokens that live for an hour. *)
Definition lab_now : Time := Date 2026 1 2 3 4 5 0.
#[export] Instance lab_tokens : TokenAPI world := {
  CreateToken ns sa req := mret {| tr_Token := ns +:+ "/" +:+ sa; tr_ExpirationTimestamp := lab_now + Hour |};
  time_Now := mret lab_now;
}.

Definition lab_provider : Provider world := New host virtual {|
  pc_ClusterNamespace := "team"; pc_ClusterName := "dev"; pc_ServerIP := "10.43.0.1"; pc_DNSIP := "10.43.0.10";
  pc_AgentHostname := "node-1" |}.

Definition plain_container (mounts : list VolumeMount) : Container := {|
  ct_Name := "app"; ct_Image := "nginx"; ct_ImagePullPolicy := ""; ct_Command := []; ct_Args := []; ct_Env := [];
  ct_EnvFrom := []; ct_VolumeMounts := mounts; ct_Ports := []; ct_ReadinessProbe := None;
  ct_LivenessProbe := None; ct_SecurityContext := None; ct_Resources := no_resources |}.

Definition pod_with (volumes : list Volume) : Pod := {|
  pod_Meta := meta_of "default" "web";
  pod_Spec := {| ps_Affinity := None; ps_NodeSelector := None; ps_PriorityClassName := ""; ps_HostNetwork := false;
    ps_DNSPolicy := ""; ps_ServiceAccountName := "default"; ps_Volumes := volumes;
    ps_Containers := [plain_container [{| vm_Name := "kube-api-access-x"; vm_MountPath := serviceAccountTokenMountPath;
                                          vm_SubPath := ""; vm_ReadOnly := true |}]];
    ps_SecurityContext := None; ps_RuntimeClassName := None; ps_HostUsers := None; ps_Resources := None;
    ps_ImagePullSecrets := []; ps_NodeName := ""; ps_Extra := no_extra |};
  pod_PodIP := ""; pod_Phase := "" |}.

Definition vault_token : ServiceAccountTokenProjection :=
  {| satp_Audience := "vault"; satp_ExpirationSeconds := Some 7200; satp_Path := "vault-token" |}.
Definition access_volume (name : string) : Volume := {|
  vol_Name := name;
  vol_Source := ProjectedSource [TokenProjection {| satp_Audience := ""; satp_ExpirationSeconds := Some 3607;
                                                    satp_Path := "token" |}] |}.
Definition vault_volume : Volume := {| vol_Name := "vault"; vol_Source := ProjectedSource [TokenProjection vault_token] |}.
Definition web_pod : Pod := pod_with [access_volume "kube-api-access-x"; vault_volume].

Definition root_ca : Obj := OConfigMap {|
  cm_Meta := meta_of "default" RootCACertConfigMapName; cm_Data := map_lit [(ServiceAccountRootCAKey, "CA")];
  cm_BinaryData := None |}.
Definition token_world : world := (objects [OCluster tenant], objects [root_ca; OPod web_pod]).

(** ** Properties *)
Section Properties.
Context {W : Type} `{KL : KubeUtilLaws} (p : Provider W) `{TA : TokenAPI W} `{OP : !OwnerPatcher (p_host p)}.
Context `{HL : !ClientLaws (p_host p)}.

(** C7: when the tokens of a pod have been transformed, the host pod has no
    service account of the host, mounts no token of it, and its projected and
    access volumes hold the secrets whose names are returned, provided that at
    most one volume of the pod carries the name prefix of the access volume. *)
Theorem transformTokens_no_host_token vpod hpod w names hpod' w' :
  map vol_Name (ps_Volumes (pod_Spec vpod)) = map vol_Name (ps_Volumes (pod_Spec hpod)) →
  (length (List.filter (λ v, is_kube_access (vol_Name v)) (ps_Volumes (pod_Spec hpod))) ≤ 1)%nat →
  transformTokens p vpod hpod w = (Ok (names, hpod'), w') →
  Forall (λ v, has_token v = false) (ps_Volumes (pod_Spec hpod')) ∧
  ps_ServiceAccountName (pod_Spec hpod') = "" ∧
  ps_AutomountServiceAccountToken (ps_Extra (pod_Spec hpod')) = Some false ∧
  names = mounted_names p vpod hpod ∧ hpod' = mounted_pod p vpod hpod.
Proof using KL HL.
  intros Hnames Hone E. apply (transformTokens_run p) in E as [-> ->].
  split; [|unfold mounted_pod; by destruct (hasKubeAccessVolume vpod)].
  apply mounted_volumes; [done|done| |done]. intros v _ Hv. unfold mount_volume, has_token. rewrite Hv.
  destruct (vol_Source v) eqn:Hs; rewrite ?Hs; try done. cbn. clear Hs.
  induction sources as [|[] l IH]; cbn; [done|..]; exact IH.
Qed.

(** C8: refreshing the secret of a token leaves it owned by the host pod, and
    holding either a token that is not due or the one that was requested. *)
Theorem refreshToken_fresh `{KP : !Keeps (p_host p) secret_content} `{OL : !OwnerPatchLaw (p_host p)}
    hostPod namespace name (tokenSecret : M W Secret) s w w' :
  silent (p_host p) time_Now → silent (p_host p) tokenSecret →
  (∀ w vs w', tokenSecret w = (Ok vs, w') →
     key_of (sec_Meta vs) = {| nn_Namespace := namespace; nn_Name := name |} ∧ is_deleting (sec_Meta vs) = false) →
  Namespace (pod_Meta hostPod) = clusterNamespace p → clusterNamespace p = ClusterNamespace (translator p) →
  let key := host_key p (TranslateName (translator p) namespace name) in
  store w !! key = Some (OSecret s) → is_deleting (sec_Meta s) = false →
  refreshToken p hostPod namespace name tokenSecret w = (Ok tt, w') →
  ∃ s' now w1 w2, time_Now w1 = (Ok now, w2) ∧ store w' = <[key := OSecret s']> (store w) ∧
    owned_by hostPod s' = true ∧
    if tokenRefreshDue s now
    then ∃ vs w3 w4, tokenSecret w3 = (Ok vs, w4) ∧ sec_Data s' = sec_Data vs ∧
           ∀ t, map_get (Annotations (sec_Meta vs)) tokenRefreshAfterAnnotation = Some t →
                map_get (Annotations (sec_Meta s')) tokenRefreshAfterAnnotation = Some t
    else sec_Data s' = sec_Data s ∧ Annotations (sec_Meta s') = Annotations (sec_Meta s).
Proof using KL HL.
  intros Hnow Htok Hvs Hns Hcns key Hs Hd E. unfold refreshToken in E.
  apply bind_inv_ok in E as (r & w1 & E1 & E). apply attempt_inv in E1.
  destruct r as [s0|e]; apply (Get_run (p_host p)) in E1 as (Hst1 & _ & Hr1).
  2:{ exfalso. destruct (IsNotFound e); [|done]. by pose proof (eq_trans (eq_sym Hs) Hr1). }
  destruct Hr1 as [Hs0 Hk0]. pose proof (eq_trans (eq_sym Hs) Hs0) as [= <-].
  assert (Name (sec_Meta s) = TranslateName (translator p) namespace name) as Hname by (by injection Hk0).
  apply bind_inv_ok in E as (errs & w2 & E2 & E).
  apply bind_inv_ok in E as (now & w3 & E3 & E). pose proof (Hnow _ _ _ E3) as Hst3.
  assert (store w1 !! host_key p (Name (sec_Meta s)) = Some (OSecret s)) as Hs1 by (by rewrite Hst1, Hname).
  pose proof (ensure_owner_run p hostPod s _ _ _ Hns Hs1 E2 errs eq_refl) as Hown.
  rewrite Hst1, Hname in Hown. fold key in Hown.
  destruct (tokenRefreshDue s now) eqn:Hdue; cbn [negb] in E.
  - apply bind_inv_ok in E as (rv & w4 & E4 & E). apply attempt_inv in E4.
    destruct rv as [vs|e]; [|apply ret_err_join_ok in E as [E _]; by apply errors_join_snoc in E].
    pose proof (Htok _ _ _ E4) as Hst4. destruct (Hvs _ _ _ E4) as [Hkv Hdv].
    apply bind_inv_ok in E as (ry & w5 & E5 & E). apply attempt_inv in E5.
    destruct ry as [y|e]; [|apply ret_err_join_ok in E as [E _]; by apply errors_join_snoc in E].
    apply ret_err_join_ok in E as [Hj ->]. destruct (Hown Hj) as (s1 & Hst2 & Ho1 & Hd1 & Hl1 & Ha1).
    assert (secret_key p (sec_Meta vs) = key) as Hkey.
    { unfold secret_key, NamespacedName_of, key, host_key. rewrite Hcns.
      assert (Name (sec_Meta vs) = name) as -> by (by apply (f_equal nn_Name) in Hkv).
      assert (Namespace (sec_Meta vs) = namespace) as -> by (by apply (f_equal nn_Namespace) in Hkv). done. }
    assert (store w4 = <[key := OSecret s1]> (store w)) as Hst by congruence.
    apply (create_token_secret_run p) in E5 as (Hst5 & Hdy & Hay & Hoy); [|rewrite Hkey, Hst, lookup_insert_eq; by intros o [= <-]; cbn; rewrite Hl1|done].
    rewrite Hkey, Hst in Hst5, Hoy. rewrite lookup_insert_eq in Hoy. rewrite insert_insert_eq in Hst5.
    exists y, now, w2, w3. rewrite Hdue. split_and!; [done|done|by unfold owned_by; rewrite Hoy|].
    exists vs, w3, w4. split_and!; [done..|]. intros t Ht. by apply Hay.
  - apply ret_err_join_ok in E as [Hj ->]. destruct (Hown Hj) as (s1 & Hst2 & Ho1 & Hd1 & _ & Ha1).
    exists s1, now, w2, w3. rewrite Hdue. split_and!; [done|congruence|done..].
Qed.
End Properties.

Lemma transformTokens_no_host_token_witness :
  let names := mounted_names lab_provider web_pod web_pod in
  let pod := mounted_pod lab_provider web_pod web_pod in
  ∃ w', transformTokens lab_provider web_pod web_pod token_world = (Ok (names, pod), w') ∧
  Forall (λ v, has_token v = false) (ps_Volumes (pod_Spec pod)) ∧
  ps_ServiceAccountName (pod_Spec pod) = "" ∧
  ps_AutomountServiceAccountToken (ps_Extra (pod_Spec pod)) = Some false ∧ names = names ∧ pod = pod.
Proof.
  intros names pod. destruct (transformTokens lab_provider web_pod web_pod token_world) as [r w'] eqn:E.
  assert (r = Ok (names, pod)) as ->. { change r with (r, w').1. rewrite <- E. vm_compute. reflexivity. }
  exists w'. split; [done|]. apply (transformTokens_no_host_token lab_provider web_pod web_pod token_world names pod w' eq_refl); [|exact E].
  vm_compute. lia.
Defined.

(** C19: the scheme of refresh: a token is due from the time recorded in its secret
    on (to the second, and as long as that time is in the years 0 to 9999, which
    RFC 3339 can write), which is never later than 24 hours after the token was
    issued.  When the lifetime is positive and eight times its nanoseconds fit in
    64 bits (up to about 36.5 years), that time is 80 percent of the lifetime after
    the token was issued, or 24 hours after if that is earlier, and it is before
    the token expires.  (For a longer lifetime the product wraps around, and the
    token may be due at once.) *)
Theorem token_refresh_schedule secret resp now now' :
  let expiration := tr_ExpirationTimestamp resp in
  let refreshAfter := tokenRefreshAfter now expiration in
  0 ≤ Year (date_of_days (refreshAfter / nano / seconds_per_day)) < 10000 →
  map_str (Annotations (sec_Meta secret)) tokenRefreshAfterAnnotation
  = map_str (tokenSecretAnnotations resp now) tokenRefreshAfterAnnotation →
  (tokenRefreshDue secret now' = true ↔ refreshAfter / nano * nano ≤ now') ∧
  refreshAfter ≤ now + 24 * Hour ∧
  (0 < expiration - now → 8 * (expiration - now) ≤ int64_max →
   refreshAfter = now + Z.min (8 * (expiration - now) / 10) (24 * Hour) ∧ now ≤ refreshAfter < expiration).
Proof.
  intros expiration refreshAfter Hy Ha. rewrite (refresh_due_parsed secret resp now now' Ha) by done.
  rewrite bool_decide_eq_true. split_and!; [done| |].
  - subst refreshAfter. unfold tokenRefreshAfter, Add. change maxTokenRefreshPeriod with (24 * Hour). lia.
  - intros Hl Ho. assert (refreshAfter = now + Z.min (8 * (expiration - now) / 10) (24 * Hour)) as ->
      by (by apply refresh_after_short). split; [done|]. subst expiration. unfold Hour, nano. divlia.
Qed.

Definition lab_secret : Secret := token_secret web_pod "token"
  {| tr_Token := "t"; tr_ExpirationTimestamp := lab_now + Hour |} lab_now [].

Lemma token_refresh_schedule_witness :
  (tokenRefreshDue lab_secret (lab_now + 48 * 60 * nano) = true ↔
   (lab_now + 48 * 60 * nano) / nano * nano ≤ lab_now + 48 * 60 * nano) ∧
  lab_now ≤ lab_now + 48 * 60 * nano < lab_now + Hour.
Proof.
  destruct (token_refresh_schedule lab_secret {| tr_Token := "t"; tr_ExpirationTimestamp := lab_now + Hour |} lab_now
    (lab_now + 48 * 60 * nano)) as (H1 & _ & H2); [vm_compute; by split|reflexivity|].
  destruct H2 as [_ H2]; [reflexivity|vm_compute; discriminate|]. split; [exact H1|exact H2].
Defined.

(** a token that is to live for 2^31 seconds, which the API accepts, is due for
    refresh as soon as it is stored, and at every check from then on: eight times
    its lifetime does not fit in a duration. *)
Theorem long_token_always_due secret resp now now' :
  tr_ExpirationTimestamp resp = now + 2 ^ 31 * Second →
  map_str (Annotations (sec_Meta secret)) tokenRefreshAfterAnnotation
  = map_str (tokenSecretAnnotations resp now) tokenRefreshAfterAnnotation →
  0 ≤ Year (date_of_days (tokenRefreshAfter now (tr_ExpirationTimestamp resp) / nano / seconds_per_day)) < 10000 →
  now ≤ now' → tokenRefreshDue secret now' = true.
Proof.
  intros He Ha Hy Hn. rewrite (refresh_due_parsed secret resp now now' Ha Hy). apply bool_decide_eq_true.
  assert (tokenRefreshAfter now (tr_ExpirationTimestamp resp)
          = now + quot64 (mul64 (2 ^ 31 * Second) 8) 10) as ->.
  { unfold tokenRefreshAfter, Add, Sub. rewrite He. replace (now + 2 ^ 31 * Second - now) with (2 ^ 31 * Second) by lia.
    done. }
  change (quot64 (mul64 (2 ^ 31 * Second) 8) 10) with (-126687488970955161).
  unfold nano. divlia.
Qed.

Definition long_secret : Secret := token_secret web_pod "token"
  {| tr_Token := "t"; tr_ExpirationTimestamp := lab_now + 2 ^ 31 * Second |} lab_now [].

Lemma long_token_always_due_witness : tokenRefreshDue long_secret lab_now = true.
Proof.
  apply (long_token_always_due long_secret
    {| tr_Token := "t"; tr_ExpirationTimestamp := lab_now + 2 ^ 31 * Second |} lab_now);
    [done|done|vm_compute; by split|done].
Defined.

(** the names of the token secrets of a namespace keep apart: the name for a
    projected token is never that of an access token (of a pod whose name has up
    to 43 characters), and two projected tokens share a name only if they are
    the same token of the same pod, if 24 bits of their digests collide, or if a
    name was too long to be kept whole. *)
Theorem token_names_apart podName t podName' t' :
  (podName' ≠ "" → (String.length podName' ≤ 43)%nat →
   generateTokenSecretName podName t ≠ kubeAccessTokenSecretName podName') ∧
  (generateTokenSecretName podName t = generateTokenSecretName podName' t' →
   (podName = podName' ∧ t = t') ∨
   (token_attributes podName t ≠ token_attributes podName' t' ∧ token_digest podName t = token_digest podName' t') ∨
   (64 ≤ String.length (token_path podName t) `max` String.length (token_path podName' t'))%nat).
Proof.
  split.
  - intros Hne Hl. rewrite kube_access_name by done.
    destruct (generate_ends_hex podName t) as (q & h & -> & Hh). intros E.
    apply last_segment_inj in E; [|by apply hex_text_no_hyphen|].
    + subst h. unfold str_forall in Hh. rewrite Forall_forall in Hh.
      assert (is_hex "s") as Hx by (apply Hh; vm_compute; do 4 right; left).
      revert Hx. unfold is_hex. change (nat_of_ascii "s") with 115%nat. lia.
    + unfold str_elem. eapply bool_decide_eq_false_1. by vm_compute.
  - intros E. destruct (decide (token_attributes podName t = token_attributes podName' t')) as [Ha|Ha].
    { left. by apply token_attributes_inj in Ha. }
    right. destruct (concat_collision _ _ E) as [P|[L _]]; [left|right; exact L].
    split; [done|]. fold (token_path podName t) (token_path podName' t') in P.
    destruct (token_path_snoc podName t) as [q Eq]. destruct (token_path_snoc podName' t') as [q' Eq'].
    rewrite Eq, Eq' in P. apply last_segment_inj in P; [done|apply hex_text_no_hyphen, token_digest_chars..].
Qed.

Lemma token_names_apart_witness :
  generateTokenSecretName "app" vault_token ≠ kubeAccessTokenSecretName "app" ∧
  (("app" = "app" ∧ vault_token = vault_token) ∨
   (token_attributes "app" vault_token ≠ token_attributes "app" vault_token ∧
    token_digest "app" vault_token = token_digest "app" vault_token) ∨
   (64 ≤ String.length (token_path "app" vault_token) `max` String.length (token_path "app" vault_token))%nat).
Proof.
  pose proof (token_names_apart "app" vault_token "app" vault_token) as [H1 H2].
  split; [apply H1; [done|cbn; lia]|apply H2; reflexivity].
Defined.

(** *** The refresher and the other objects of the host *)
Section Confined.
Context {W : Type} `{KL : KubeUtilLaws} (p : Provider W) `{TA : TokenAPI W} `{OP : !OwnerPatcher (p_host p)}.
Context `{HL : !ClientLaws (p_host p)} `{OL : !OwnerPatchLaw (p_host p)} `{FV : !Foreign (p_host p) (p_virtual p)}.
Context (HC : ∀ ns n req, silent (p_host p) (CreateToken ns n req)) (HT : silent (p_host p) time_Now).
Context (Hns : clusterNamespace p = ClusterNamespace (translator p)) (Hne : clusterNamespace p ≠ "").

Definition cluster_secrets (i : ObjKey) : Prop := i.1 = "Secret" ∧ nn_Namespace i.2 = clusterNamespace p.
#[local] Abbreviation R := (per_key (only cluster_secrets)).
#[local] Abbreviation C m := (confined (p_host p) cluster_secrets m).

Lemma silent_token_secret t vpod : silent (p_host p) (projectedTokenSecret t vpod).
Proof using HC HT. repeat (apply silent_bind; [first [exact HT|unfold requestToken; apply HC]|intros ?]). by intros w r w' [= _ <-]. Qed.

Lemma silent_access_secret vpod : silent (p_host p) (kubeAccessTokenSecret p vpod).
Proof using HC HT FV.
  apply silent_bind; [apply silent_Get, _|]. intros cm. destruct (map_get _ _); [|by intros w r w' [= _ <-]].
  repeat (apply silent_bind; [first [exact HT|unfold requestToken; apply HC]|intros ?]). by intros w r w' [= _ <-].
Qed.

Lemma confined_create_token s : C (translateAndCreateHostTokenSecret p s).
Proof using KL HL Hns.
  apply evolves_bind; [exact _| |intros; apply evolves_mret; exact _].
  apply confined_CreateOrUpdate; [exact KL|].
  split; [done|]. cbn. by rewrite Hns.
Qed.

Lemma confined_set_owner hostPod name :
  Namespace (pod_Meta hostPod) = clusterNamespace p → C (setTokenSecretOwner p hostPod name).
Proof using KL HL OL.
  intros Hp. apply evolves_bind_lift; [exact _|]. intros m (rs & -> & _)%SetOwnerReference_ok w r w' E.
  destruct (owner_patch_spec (c:=p_host p) (OSecret (with_meta (set_OwnerReferences rs
    (meta_of (Namespace (pod_Meta hostPod)) name)) {| sec_Meta := meta_of (Namespace (pod_Meta hostPod)) name;
    sec_Type := ""; sec_Data := None |})) (OSecret {| sec_Meta := meta_of (Namespace (pod_Meta hostPod)) name;
    sec_Type := ""; sec_Data := None |}) w) as (r1 & w1 & E1 & Hr).
  pose proof (eq_trans (eq_sym E1) E) as [= -> ->].
  destruct r as [u|e|]; [|by rewrite Hr|done]. destruct Hr as (old & o' & _ & _ & _ & _ & _ & _ & ->).
  apply per_key_insert; [exact _|]. left. by split.
Qed.

Lemma confined_refresh_token hostPod ns name tokenSecret :
  Namespace (pod_Meta hostPod) = clusterNamespace p → silent (p_host p) tokenSecret →
  C (refreshToken p hostPod ns name tokenSecret).
Proof using KL HL OL HT Hns.
  intros Hp Htok. unfold refreshToken. apply evolves_bind; [exact _|apply evolves_attempt, evolves_Get; exact _|].
  intros [s|e]; [|destruct (IsNotFound e); [apply evolves_mret|apply evolves_fail]; exact _].
  apply evolves_bind; [exact _|apply evolves_join_all; [exact _|]; destruct (owned_by hostPod s);
    [constructor|apply Forall_singleton; by apply confined_set_owner]|]. intros errs.
  apply evolves_bind; [exact _|apply silent_evolves; [exact _|exact HT]|]. intros now.
  destruct (negb _); [apply evolves_ret_err, _|].
  apply evolves_bind; [exact _|apply evolves_attempt, silent_evolves; [exact _|exact Htok]|].
  intros [vs|e]; [|apply evolves_ret_err, _].
  apply evolves_bind; [exact _|apply evolves_attempt, confined_create_token|].
  intros [y|e]; apply evolves_ret_err, _.
Qed.

Lemma confined_refresh_pod hostPod :
  Namespace (pod_Meta hostPod) = clusterNamespace p → C (refresh_host_pod p hostPod).
Proof using KL HL OL FV HC HT Hns.
  intros Hp. unfold refresh_host_pod. destruct (_ || _)%bool; [apply evolves_mret, _|].
  apply evolves_bind; [exact _|apply evolves_attempt, silent_evolves; [exact _|apply silent_Get, _]|].
  intros [vpod|e]; [|apply evolves_mret, _]. destruct (is_deleting _); [apply evolves_mret, _|].
  apply evolves_bind; [exact _| |intros; apply evolves_mret, _]. apply evolves_attempt.
  apply evolves_bind; [exact _| |intros; apply evolves_ret_err, _]. apply evolves_join_all; [exact _|].
  apply Forall_app_2.
  - destruct (hasKubeAccessVolume vpod); [|constructor]. apply Forall_singleton.
    apply confined_refresh_token; [done|apply silent_access_secret].
  - apply Forall_map, Forall_forall. intros t _. apply confined_refresh_token; [done|apply silent_token_secret].
Qed.

(** a round of the token refresher changes nothing on the host but secrets of
    the namespace of its cluster. *)
Theorem refreshTokens_confined : C (refreshTokens p).
Proof using KL HL OL FV HC HT Hns Hne.
  apply evolves_bind_run; [exact _|apply evolves_attempt, evolves_List; [exact _|done]|].
  intros [pods|e] w w' E; [|apply evolves_mret, _]. apply attempt_inv in E.
  apply (List_run (p_host p)) in E as (_ & _ & _ & Hin); [|done].
  assert (Forall (λ pod, Namespace (pod_Meta pod) = clusterNamespace p) pods) as Hpods.
  { apply Forall_forall. intros pod [_ Hsel]%Hin. unfold selected in Hsel. cbn [host_pods_options lo_Namespace] in Hsel.
    rewrite bool_decide_false in Hsel by done. cbn [orb] in Hsel.
    by apply andb_true_iff in Hsel as [?%bool_decide_eq_true _]. }
  clear Hin. induction Hpods as [|pod pods Hp _ IH]; cbn [for_each]; [apply evolves_mret, _|].
  apply evolves_bind; [exact _|by apply confined_refresh_pod|intros []; exact IH].
Qed.

(** However long the refresher runs. *)
Lemma tokenRefresher_confined rounds : C (tokenRefresher_Start p rounds).
Proof using KL HL OL FV HC HT Hns Hne.
  induction rounds as [|rounds IH]; cbn [tokenRefresher_Start]; [apply evolves_mret, _|].
  apply evolves_bind; [exact _|apply refreshTokens_confined|intros []; exact IH].
Qed.
End Confined.

Lemma refreshTokens_confined_witness :
  confined host (cluster_secrets lab_provider) (refreshTokens lab_provider).
Proof.
  apply (refreshTokens_confined lab_provider); try done; intros; by intros w r w' [= _ <-].
Defined.

(** A host pod and the secret of its access token, without an owner and without
    a time. *)
Definition host_web_pod : Pod :=
  let pod := pod_with [] in
  {| pod_Meta := {| Name := "web-host"; Namespace := "team"; Labels := None; Annotations := None;
       OwnerReferences := []; Finalizers := []; ResourceVersion := ""; UID := "pod-uid"; DeletionTimestamp := None |};
     pod_Spec := pod_Spec pod; pod_PodIP := ""; pod_Phase := "Running" |}.
Definition old_secret : Secret := {|
  sec_Meta := meta_of "team" (TranslateName (translator lab_provider) "default" (kubeAccessTokenSecretName "web"));
  sec_Type := "Opaque"; sec_Data := map_lit [("token", "stale")] |}.
Definition refresh_world : world := (objects [OSecret old_secret], objects [root_ca; OPod web_pod]).

Lemma refreshToken_fresh_witness :
  let key := host_key lab_provider (TranslateName (translator lab_provider) "default" (kubeAccessTokenSecretName "web")) in
  ∃ w', refreshToken lab_provider host_web_pod "default" (kubeAccessTokenSecretName "web")
          (kubeAccessTokenSecret lab_provider web_pod) refresh_world = (Ok tt, w') ∧
  ∃ s' now w1 w2, time_Now w1 = (Ok now, w2) ∧ store (c:=host) w' = <[key := OSecret s']> (store (c:=host) refresh_world) ∧
    owned_by host_web_pod s' = true ∧
    if tokenRefreshDue old_secret now
    then ∃ vs w3 w4, kubeAccessTokenSecret lab_provider web_pod w3 = (Ok vs, w4) ∧ sec_Data s' = sec_Data vs ∧
           ∀ t, map_get (Annotations (sec_Meta vs)) tokenRefreshAfterAnnotation = Some t →
                map_get (Annotations (sec_Meta s')) tokenRefreshAfterAnnotation = Some t
    else sec_Data s' = sec_Data old_secret ∧ Annotations (sec_Meta s') = Annotations (sec_Meta old_secret).
Proof.
  intros key.
  destruct (refreshToken lab_provider host_web_pod "default" (kubeAccessTokenSecretName "web")
          (kubeAccessTokenSecret lab_provider web_pod) refresh_world) as [r w'] eqn:E.
  assert (r = Ok tt) as ->. { change r with (r, w').1. rewrite <- E. vm_compute. reflexivity. }
  exists w'. split; [done|].
  refine (refreshToken_fresh lab_provider host_web_pod "default" (kubeAccessTokenSecretName "web")
           (kubeAccessTokenSecret lab_provider web_pod) old_secret refresh_world w'
           _ _ _ eq_refl eq_refl _ eq_refl E).
  - by intros w r w1 [= _ <-].
  - apply (silent_access_secret lab_provider); intros; by intros w r w1 [= _ <-].
  - intros w vs w1 Hvs. pose proof (access_secret_meta lab_provider _ _ _ _ Hvs) as [H1 H2]. split.
    + unfold key_of. rewrite H1, H2. done.
    + unfold kubeAccessTokenSecret in Hvs. apply bind_inv_ok in Hvs as (cm & w2 & _ & Hvs).
      destruct (map_get _ _); [|done]. apply bind_inv_ok in Hvs as (? & ? & _ & (? & ? & _ & [= <- _])%bind_inv_ok). done.
  - vm_compute. reflexivity.
Defined.

End Tokens.
