(* ===== verification/Pods.v ===== *)
(** * The pod provider (k3k-kubelet/provider/provider.go)

    What the virtual kubelet asks of its provider: create, update and delete the
    host pod of a virtual pod, and report the pods of this agent.  The retries,
    the order of the iteration over a map, the update of the ephemeral containers
    and the statistics of the host kubelet are parameters; the streams of a
    container (logs, exec, attach) are in Streams.v, the forwarding of ports in
    Forward.v, the metrics made of the statistics in Metrics.v. *)

From S2P Require Import Prelude GoStd GoDate Waiting K8s Types Kube Effects Names Translate Tokens Lab.

Local Open Scope string_scope.
Local Open Scope Z_scope.

Module Pods.
Import Names Translate GoDate Waiting Tokens.

Definition HostSchedulerNameAnnotation : string := "k3k.io/host-scheduler-name".
Definition nobodyUID : Z := 65534.
Definition ErrRetryTimeout : error := EText "provider timed out".

(** Constants of other packages. *)
Definition DefaultSchedulerName : string := "default-scheduler".
Definition NamespaceSystem : string := "kube-system".
Definition DNSNone : string := "None".

(** ** Changes to a container *)
Definition set_Env (env : list EnvVar) (from : list EnvFromSource) (c : Container) : Container := {|
  ct_Name := ct_Name c; ct_Image := ct_Image c; ct_ImagePullPolicy := ct_ImagePullPolicy c;
  ct_Command := ct_Command c; ct_Args := ct_Args c; ct_Env := env; ct_EnvFrom := from;
  ct_VolumeMounts := ct_VolumeMounts c; ct_Ports := ct_Ports c; ct_ReadinessProbe := ct_ReadinessProbe c;
  ct_LivenessProbe := ct_LivenessProbe c; ct_SecurityContext := ct_SecurityContext c;
  ct_Resources := ct_Resources c |}.

Definition set_Image (image : string) (c : Container) : Container := {|
  ct_Name := ct_Name c; ct_Image := image; ct_ImagePullPolicy := ct_ImagePullPolicy c;
  ct_Command := ct_Command c; ct_Args := ct_Args c; ct_Env := ct_Env c; ct_EnvFrom := ct_EnvFrom c;
  ct_VolumeMounts := ct_VolumeMounts c; ct_Ports := ct_Ports c; ct_ReadinessProbe := ct_ReadinessProbe c;
  ct_LivenessProbe := ct_LivenessProbe c; ct_SecurityContext := ct_SecurityContext c;
  ct_Resources := ct_Resources c |}.

Definition set_SecurityContext (sc : SecurityContext) (c : Container) : Container := {|
  ct_Name := ct_Name c; ct_Image := ct_Image c; ct_ImagePullPolicy := ct_ImagePullPolicy c;
  ct_Command := ct_Command c; ct_Args := ct_Args c; ct_Env := ct_Env c; ct_EnvFrom := ct_EnvFrom c;
  ct_VolumeMounts := ct_VolumeMounts c; ct_Ports := ct_Ports c; ct_ReadinessProbe := ct_ReadinessProbe c;
  ct_LivenessProbe := ct_LivenessProbe c; ct_SecurityContext := Some sc; ct_Resources := ct_Resources c |}.

(** ** The environment of a container *)
Section Configure.
Context (t : ToHostTranslator).

(** The name and the namespace are those of the virtual pod; the names of the
    config maps and of the secrets are translated.  (The code writes the
    translated name through a pointer that the virtual pod shares: it is a copy
    that the caller throws away.) *)
Definition configure_var (virtualPod : Pod) (envVar : EnvVar) : EnvVar :=
  let namespace := Namespace (pod_Meta virtualPod) in
  let with_value v := {| env_Name := env_Name envVar; env_Value := v; env_ValueFrom := None |} in
  let with_from f := {| env_Name := env_Name envVar; env_Value := env_Value envVar; env_ValueFrom := Some f |} in
  match env_ValueFrom envVar with
  | Some (FieldRef _ path) =>
      if decide (path = "metadata.name") then with_value (Name (pod_Meta virtualPod))
      else if decide (path = "metadata.namespace") then with_value namespace
      else envVar
  | Some (ConfigMapKeyRef name key optional) =>
      with_from (ConfigMapKeyRef (TranslateName t namespace name) key optional)
  | Some (SecretKeyRef name key optional) =>
      with_from (SecretKeyRef (TranslateName t namespace name) key optional)
  | _ => envVar
  end.
Definition configureEnv (virtualPod : Pod) (envs : list EnvVar) : list EnvVar :=
  map (configure_var virtualPod) envs.

Definition configureEnvFrom (virtualPod : Pod) (envs : list EnvFromSource) : list EnvFromSource :=
  let translate := TranslateName t (Namespace (pod_Meta virtualPod)) in
  map (λ envVar, {| ef_Prefix := ef_Prefix envVar;
                    ef_ConfigMapRef := translate <$> ef_ConfigMapRef envVar;
                    ef_SecretRef := translate <$> ef_SecretRef envVar |}) envs.

(** The containers of the host pod with the environment of those of the virtual
    pod at the same index (the lists have the same length: one is a copy of the
    other). *)
Definition configure_containers (virtualPod : Pod) (hosts virtuals : list Container) : list Container :=
  zip_with (λ h v, set_Env (configureEnv virtualPod (ct_Env v)) (configureEnvFrom virtualPod (ct_EnvFrom v)) h)
    hosts virtuals.

Definition set_containers (cs inits ephemerals : list Container) (s : PodSpec) : PodSpec := {|
  ps_Affinity := ps_Affinity s; ps_NodeSelector := ps_NodeSelector s;
  ps_PriorityClassName := ps_PriorityClassName s; ps_HostNetwork := ps_HostNetwork s;
  ps_DNSPolicy := ps_DNSPolicy s; ps_ServiceAccountName := ps_ServiceAccountName s;
  ps_Volumes := ps_Volumes s; ps_Containers := cs;
  ps_SecurityContext := ps_SecurityContext s; ps_RuntimeClassName := ps_RuntimeClassName s;
  ps_HostUsers := ps_HostUsers s; ps_Resources := ps_Resources s;
  ps_ImagePullSecrets := ps_ImagePullSecrets s; ps_NodeName := ps_NodeName s;
  ps_Extra := let e := ps_Extra s in {|
    ps_InitContainers := inits; ps_EphemeralContainers := ephemerals;
    ps_Hostname := ps_Hostname e; ps_SchedulerName := ps_SchedulerName e; ps_Priority := ps_Priority e;
    ps_HostAliases := ps_HostAliases e; ps_DNSConfig := ps_DNSConfig e; ps_Tolerations := ps_Tolerations e;
    ps_ActiveDeadlineSeconds := ps_ActiveDeadlineSeconds e;
    ps_AutomountServiceAccountToken := ps_AutomountServiceAccountToken e;
    ps_DeprecatedServiceAccount := ps_DeprecatedServiceAccount e |} |}.

Definition configurePodEnvs (hostPod virtualPod : Pod) : Pod :=
  let h := pod_Spec hostPod in let v := pod_Spec virtualPod in
  let configure := configure_containers virtualPod in
  set_pod_Spec (set_containers (configure (ps_Containers h) (ps_Containers v))
    (configure (ps_InitContainers (ps_Extra h)) (ps_InitContainers (ps_Extra v)))
    (configure (ps_EphemeralContainers (ps_Extra h)) (ps_EphemeralContainers (ps_Extra v))) h) hostPod.

(** ** Volumes *)
Definition annotation_path (annotation : string) : string := "metadata.annotations['" +:+ annotation +:+ "']".

Definition transform_item (item : DownwardAPIVolumeFile) : DownwardAPIVolumeFile := {|
  daf_Path := daf_Path item;
  daf_FieldPath := (λ path, if decide (path = MetadataNameField) then annotation_path ResourceNameAnnotation
                            else if decide (path = MetadataNamespaceField)
                                 then annotation_path ResourceNamespaceAnnotation else path)
                   <$> daf_FieldPath item;
  daf_rest := daf_rest item |}.

Definition set_SecretName (name : string) (s : SecretVolumeSource) : SecretVolumeSource :=
  {| svs_SecretName := name; svs_Items := svs_Items s; svs_Optional := svs_Optional s |}.

Definition transform_projection (podNamespace : string) (source : VolumeProjection) : VolumeProjection :=
  match source with
  | ConfigMapProjection name rest => ConfigMapProjection (TranslateName t podNamespace name) rest
  | SecretProjection s => SecretProjection (set_SecretName (TranslateName t podNamespace (svs_SecretName s)) s)
  | _ => source
  end.

Definition transform_source (podNamespace : string) (source : VolumeSource) : VolumeSource :=
  match source with
  | ConfigMapSource name rest => ConfigMapSource (TranslateName t podNamespace name) rest
  | SecretSource s => SecretSource (set_SecretName (TranslateName t podNamespace (svs_SecretName s)) s)
  | ClaimSource claimName readOnly => ClaimSource (TranslateName t podNamespace claimName) readOnly
  | ProjectedSource sources => ProjectedSource (map (transform_projection podNamespace) sources)
  | DownwardAPISource items => DownwardAPISource (map transform_item items)
  | _ => source
  end.

Definition transformVolumes (podNamespace : string) (volumes : list Volume) : list Volume :=
  map (λ v, if is_kube_access (vol_Name v) then v
            else {| vol_Name := vol_Name v; vol_Source := transform_source podNamespace (vol_Source v) |}) volumes.
End Configure.

(** ** Networking *)

(** The loop over the original variables: those of the map replace the first of
    their name and leave the map. *)
Fixpoint merge_loop (updatedEnvVarMap : gmap string EnvVar) (orig : list EnvVar)
  : list EnvVar * gmap string EnvVar :=
  match orig with
  | [] => ([], updatedEnvVarMap)
  | env :: rest =>
      match updatedEnvVarMap !! env_Name env with
      | Some updatedEnv =>
          let '(rest, m) := merge_loop (delete (env_Name env) updatedEnvVarMap) rest in (updatedEnv :: rest, m)
      | None => let '(rest, m) := merge_loop updatedEnvVarMap rest in (env :: rest, m)
      end
  end.

Definition env_map (updated : list EnvVar) : gmap string EnvVar :=
  fold_left (λ m e, <[env_Name e := e]> m) updated ∅.

Definition mergeEnvVars `{MapRange} (orig updated : list EnvVar) : list EnvVar :=
  match updated with
  | [] => orig
  | _ => let '(envs, m) := merge_loop (env_map updated) orig in envs ++ (range_map m).*2
  end.

Definition isCoreDNSPod (pod : Pod) : bool :=
  bool_decide (Namespace (pod_Meta pod) = NamespaceSystem)
  && bool_decide (map_str (Labels (pod_Meta pod)) "k8s-app" = "kube-dns").

Definition no_SecurityContext : SecurityContext := {|
  sc_Privileged := None; sc_AllowPrivilegeEscalation := None; sc_Capabilities := None; sc_RunAsNonRoot := None;
  sc_RunAsUser := None; sc_RunAsGroup := None; sc_SeccompProfile := None; sc_rest := JObj [] |}.

Definition hardened (sc : SecurityContext) : SecurityContext := {|
  sc_Privileged := sc_Privileged sc;
  sc_AllowPrivilegeEscalation := Some false;
  sc_Capabilities := Some (["NET_BIND_SERVICE"], ["ALL"]);
  sc_RunAsNonRoot := Some true;
  sc_RunAsUser := Some nobodyUID;
  sc_RunAsGroup := Some nobodyUID;
  sc_SeccompProfile := Some "RuntimeDefault";
  sc_rest := sc_rest sc |}.

Definition hardenCoreDNS (pod : Pod) : Pod :=
  let s := pod_Spec pod in
  set_pod_Spec (set_Volumes_Containers (ps_Volumes s)
    (map (λ c, set_SecurityContext (hardened (default no_SecurityContext (ct_SecurityContext c))) c)
       (ps_Containers s)) s) pod.

Definition kubernetes_hostnames : list string :=
  ["kubernetes"; "kubernetes.default"; "kubernetes.default.svc"; "kubernetes.default.svc.cluster";
   "kubernetes.default.svc.cluster.local"].

Definition updated_env_vars (serverIP : string) : list EnvVar :=
  let var name value := {| env_Name := name; env_Value := value; env_ValueFrom := None |} in
  [var "KUBERNETES_SERVICE_HOST" serverIP;
   var "KUBERNETES_PORT" ("tcp://" +:+ serverIP +:+ ":443");
   var "KUBERNETES_PORT_443_TCP" ("tcp://" +:+ serverIP +:+ ":443");
   var "KUBERNETES_PORT_443_TCP_ADDR" serverIP].

(** The aliases of the hosts, and the policy and the configuration of DNS. *)
Definition set_network (aliases : list HostAlias) (dnsPolicy : string) (dns : option PodDNSConfig) (s : PodSpec)
  : PodSpec := {|
  ps_Affinity := ps_Affinity s; ps_NodeSelector := ps_NodeSelector s;
  ps_PriorityClassName := ps_PriorityClassName s; ps_HostNetwork := ps_HostNetwork s;
  ps_DNSPolicy := dnsPolicy; ps_ServiceAccountName := ps_ServiceAccountName s;
  ps_Volumes := ps_Volumes s; ps_Containers := ps_Containers s;
  ps_SecurityContext := ps_SecurityContext s; ps_RuntimeClassName := ps_RuntimeClassName s;
  ps_HostUsers := ps_HostUsers s; ps_Resources := ps_Resources s;
  ps_ImagePullSecrets := ps_ImagePullSecrets s; ps_NodeName := ps_NodeName s;
  ps_Extra := let e := ps_Extra s in {|
    ps_InitContainers := ps_InitContainers e; ps_EphemeralContainers := ps_EphemeralContainers e;
    ps_Hostname := ps_Hostname e; ps_SchedulerName := ps_SchedulerName e; ps_Priority := ps_Priority e;
    ps_HostAliases := aliases; ps_DNSConfig := dns; ps_Tolerations := ps_Tolerations e;
    ps_ActiveDeadlineSeconds := ps_ActiveDeadlineSeconds e;
    ps_AutomountServiceAccountToken := ps_AutomountServiceAccountToken e;
    ps_DeprecatedServiceAccount := ps_DeprecatedServiceAccount e |} |}.

Definition configureNetworking `{MapRange} (hostPod virtualPod : Pod) (serverIP dnsIP : string) : Pod :=
  let s := pod_Spec hostPod in
  let aliases := (ps_HostAliases (ps_Extra s) ++ [{| ha_IP := serverIP; ha_Hostnames := kubernetes_hostnames |}])%list in
  let inject_dns := negb (isCoreDNSPod virtualPod) && negb (bool_decide (is_Some (ps_DNSConfig (ps_Extra s)))) in
  let s := if inject_dns
           then set_network aliases DNSNone (Some {|
                  dns_Nameservers := [dnsIP];
                  dns_Searches := [Namespace (pod_Meta virtualPod) +:+ ".svc.cluster.local"; "svc.cluster.local";
                                   "cluster.local"];
                  dns_Options := [("ndots", Some "5")] |}) s
           else set_network aliases (ps_DNSPolicy s) (ps_DNSConfig (ps_Extra s)) s in
  set_pod_Spec (map_containers (λ c, set_Env (mergeEnvVars (ct_Env c) (updated_env_vars serverIP)) (ct_EnvFrom c) c) s)
    hostPod.

(** ** Placement *)
Definition host_affinity (agentHostname : string) : json :=
  JObj [("nodeAffinity", JObj [("preferredDuringSchedulingIgnoredDuringExecution", JArr [
    JObj [("weight", JNum 100);
          ("preference", JObj [("matchExpressions", JArr [
             JObj [("key", JStr "kubernetes.io/hostname"); ("operator", JStr "In");
                   ("values", JArr [JStr agentHostname])]])])]])])].

(** The class and the priority of the host pod. *)
Definition host_priority (t : ToHostTranslator) (cluster : Cluster) (s : PodSpec) : string * option Z :=
  let class := ps_PriorityClassName s in
  let '(class', priority) :=
    if strings_HasPrefix class "system-" then (class, ps_Priority (ps_Extra s))
    else
      let enforced := default "" (policy_or cluster ap_PriorityClass (Some (PriorityClass (cl_Spec cluster)))) in
      if decide (enforced ≠ "") then (enforced, ps_Priority (ps_Extra s))
      else if decide (class ≠ "") then (TranslateName t "" class, None)
      else (class, ps_Priority (ps_Extra s)) in
  if decide (class' ≠ "") then (class', None) else (class', priority).

(** A policy with a list of schedulers overrides the cluster (a list that is not
    nil has an element: the API leaves empty lists out). *)
Definition allowed_schedulers (cluster : Cluster) : list string :=
  match st_Policy (cl_Status cluster) with
  | Some p => match ap_AllowedHostSchedulers p with [] => AllowedHostSchedulers (cl_Spec cluster) | l => l end
  | None => AllowedHostSchedulers (cl_Spec cluster)
  end.

Definition scheduler_error (name : string) : error :=
  EText ("scheduler " +:+ fmt_q name +:+ " is not allowed for this cluster").

(** The scheduler of the host pod: the one of the annotation, when the cluster
    allows it. *)
Definition host_scheduler (cluster : Cluster) (virtualPod : Pod) : outcome string :=
  let allowed := allowed_schedulers cluster in
  let own := ps_SchedulerName (ps_Extra (pod_Spec virtualPod)) in
  let annotated := map_str (Annotations (pod_Meta virtualPod)) HostSchedulerNameAnnotation in
  name ← (if decide (annotated ≠ "") then
            if slices_Contains allowed annotated then Ok annotated else Err (scheduler_error annotated)
          else Ok own);
  if decide (own ≠ "" ∧ own ≠ DefaultSchedulerName) then
    if slices_Contains allowed own then Ok name else Err (scheduler_error own)
  else Ok name.

Definition placed_spec (t : ToHostTranslator) (agentHostname scheduler : string) (cluster : Cluster) (virtualPod : Pod)
  : PodSpec :=
  let s := pod_Spec virtualPod in let e := ps_Extra s in
  let '(class, priority) := host_priority t cluster s in {|
  ps_Affinity := Some (default (host_affinity agentHostname) (ps_Affinity s));
  ps_NodeSelector := policy_selector cluster;
  ps_PriorityClassName := class; ps_HostNetwork := ps_HostNetwork s;
  ps_DNSPolicy := ps_DNSPolicy s; ps_ServiceAccountName := ps_ServiceAccountName s;
  ps_Volumes := ps_Volumes s; ps_Containers := ps_Containers s;
  ps_SecurityContext := ps_SecurityContext s; ps_RuntimeClassName := ps_RuntimeClassName s;
  ps_HostUsers := ps_HostUsers s; ps_Resources := ps_Resources s;
  ps_ImagePullSecrets := ps_ImagePullSecrets s; ps_NodeName := "";
  ps_Extra := {|
    ps_InitContainers := ps_InitContainers e; ps_EphemeralContainers := ps_EphemeralContainers e;
    ps_Hostname := if decide (ps_Hostname e = "") then SafeConcatName [Name (pod_Meta virtualPod)] else ps_Hostname e;
    ps_SchedulerName := scheduler; ps_Priority := priority; ps_HostAliases := ps_HostAliases e;
    ps_DNSConfig := ps_DNSConfig e; ps_Tolerations := ps_Tolerations e;
    ps_ActiveDeadlineSeconds := ps_ActiveDeadlineSeconds e;
    ps_AutomountServiceAccountToken := ps_AutomountServiceAccountToken e;
    ps_DeprecatedServiceAccount := ps_DeprecatedServiceAccount e |} |}.

(** The metadata of the host pod. *)
Definition host_pod_meta (t : ToHostTranslator) (agentHostname : string) (m : ObjectMeta) : ObjectMeta :=
  let m := TranslateTo t m in
  set_Labels (Some (<[AgentNameLabel := agentHostname]> (default ∅ (Labels m)))) m.

(** The host pod before its tokens: the part of [createPod] that only computes. *)
Definition base_pod (t : ToHostTranslator) (agentHostname : string) (cluster : Cluster) (virtualPod : Pod)
  : outcome Pod :=
  scheduler ← host_scheduler cluster virtualPod;
  let hostPod := {| pod_Meta := host_pod_meta t agentHostname (pod_Meta virtualPod);
                    pod_Spec := placed_spec t agentHostname scheduler cluster virtualPod;
                    pod_PodIP := pod_PodIP virtualPod; pod_Phase := pod_Phase virtualPod |} in
  let hostPod := configurePodEnvs t hostPod virtualPod in
  let s := pod_Spec hostPod in
  mret (set_pod_Spec (set_ps_Volumes (transformVolumes t (Namespace (pod_Meta virtualPod)) (ps_Volumes s)) s) hostPod).

Definition set_ImagePullSecrets (secrets : list string) (s : PodSpec) : PodSpec := {|
  ps_Affinity := ps_Affinity s; ps_NodeSelector := ps_NodeSelector s;
  ps_PriorityClassName := ps_PriorityClassName s; ps_HostNetwork := ps_HostNetwork s;
  ps_DNSPolicy := ps_DNSPolicy s; ps_ServiceAccountName := ps_ServiceAccountName s;
  ps_Volumes := ps_Volumes s; ps_Containers := ps_Containers s;
  ps_SecurityContext := ps_SecurityContext s; ps_RuntimeClassName := ps_RuntimeClassName s;
  ps_HostUsers := ps_HostUsers s; ps_Resources := ps_Resources s;
  ps_ImagePullSecrets := secrets; ps_NodeName := ps_NodeName s; ps_Extra := ps_Extra s |}.

(** The host pod after its tokens, but for its owner. *)
Definition finish_pod `{MapRange} (t : ToHostTranslator) (serverIP dnsIP : string) (virtualPod hostPod : Pod) : Pod :=
  let s := pod_Spec hostPod in
  let secrets := map (TranslateName t (Namespace (pod_Meta virtualPod))) (ps_ImagePullSecrets s) in
  configureNetworking (set_pod_Spec (set_ImagePullSecrets secrets s) hostPod) virtualPod serverIP dnsIP.

(** ** Updating a pod *)
Definition updateContainerImages (dst src : list Container) : list Container :=
  let images : gmap string string := fold_left (λ m c, <[ct_Name c := ct_Image c]> m) src ∅ in
  map (λ c, set_Image (default "" (images !! ct_Name c)) c) dst.

Definition is_managed (key : string) : bool := strings_HasPrefix key MetadataPrefix.

Definition mergeManagedMetadata (dst src : gomap string) : gomap string :=
  Some (filter (λ kv, is_managed kv.1 = true) (default ∅ dst) ∪ default ∅ src).

Definition updateMetadata (dst src : ObjectMeta) : ObjectMeta :=
  set_Annotations (mergeManagedMetadata (Annotations dst) (Annotations src))
    (set_Labels (mergeManagedMetadata (Labels dst) (Labels src)) dst).

Definition set_deadline_tolerations (deadline : option Z) (tolerations : list json) (s : PodSpec) : PodSpec := {|
  ps_Affinity := ps_Affinity s; ps_NodeSelector := ps_NodeSelector s;
  ps_PriorityClassName := ps_PriorityClassName s; ps_HostNetwork := ps_HostNetwork s;
  ps_DNSPolicy := ps_DNSPolicy s; ps_ServiceAccountName := ps_ServiceAccountName s;
  ps_Volumes := ps_Volumes s; ps_Containers := ps_Containers s;
  ps_SecurityContext := ps_SecurityContext s; ps_RuntimeClassName := ps_RuntimeClassName s;
  ps_HostUsers := ps_HostUsers s; ps_Resources := ps_Resources s;
  ps_ImagePullSecrets := ps_ImagePullSecrets s; ps_NodeName := ps_NodeName s;
  ps_Extra := let e := ps_Extra s in {|
    ps_InitContainers := ps_InitContainers e; ps_EphemeralContainers := ps_EphemeralContainers e;
    ps_Hostname := ps_Hostname e; ps_SchedulerName := ps_SchedulerName e; ps_Priority := ps_Priority e;
    ps_HostAliases := ps_HostAliases e; ps_DNSConfig := ps_DNSConfig e; ps_Tolerations := tolerations;
    ps_ActiveDeadlineSeconds := deadline;
    ps_AutomountServiceAccountToken := ps_AutomountServiceAccountToken e;
    ps_DeprecatedServiceAccount := ps_DeprecatedServiceAccount e |} |}.

Definition update_pod (dst src : Pod) : Pod :=
  let s := pod_Spec dst in let v := pod_Spec src in
  {| pod_Meta := updateMetadata (pod_Meta dst) (pod_Meta src);
     pod_Spec := set_deadline_tolerations (ps_ActiveDeadlineSeconds (ps_Extra v)) (ps_Tolerations (ps_Extra v))
       (set_containers (updateContainerImages (ps_Containers s) (ps_Containers v))
          (updateContainerImages (ps_InitContainers (ps_Extra s)) (ps_InitContainers (ps_Extra v)))
          (ps_EphemeralContainers (ps_Extra s)) s);
     pod_PodIP := pod_PodIP dst; pod_Phase := pod_Phase dst |}.

(** ** The parameters *)

(** [CoreClient.Pods(namespace).UpdateEphemeralContainers(name, pod)] of the
    host. *)
Class EphemeralUpdater (W : Type) := {
  UpdateEphemeralContainers : string → string → Pod → M W Pod;
}.

(** The statistics of a node and of its pods. *)
Record PodReference : Type := { ref_Name : string; ref_Namespace : string; ref_UID : string }.
Record CPUStats : Type := { cpu_Time : Time; cpu_UsageCoreNanoSeconds : option Z }.
Record MemoryStats : Type := { mem_Time : Time; mem_WorkingSetBytes : option Z }.
Record ContainerStats : Type := {
  cst_Name : string; cst_StartTime : Time; cst_CPU : option CPUStats; cst_Memory : option MemoryStats;
}.
Record NodeStats : Type := { nst_CPU : option CPUStats; nst_Memory : option MemoryStats; nst_rest : json }.
Record PodStats : Type := {
  pst_PodRef : PodReference; pst_Containers : list ContainerStats;
  pst_CPU : option CPUStats; pst_Memory : option MemoryStats; pst_rest : json;
}.
Record Summary : Type := { sum_Node : NodeStats; sum_Pods : list PodStats }.

Definition set_PodRef (ref : PodReference) (s : PodStats) : PodStats := {|
  pst_PodRef := ref; pst_Containers := pst_Containers s; pst_CPU := pst_CPU s; pst_Memory := pst_Memory s;
  pst_rest := pst_rest s |}.

(** The request for [stats/summary] through the proxy of a node, and
    [json.Unmarshal]. *)
Class StatsAPI (W : Type) := {
  stats_DoRaw : string → M W string;
  Unmarshal_Summary : string → outcome Summary;
}.

Section Provider.
Context {W : Type} `{KubeUtil} (p : Provider W) `{TA : TokenAPI W} `{OP : !OwnerPatcher (p_host p)}.
Context `{MR : MapRange} `{PL : Poller W} `{EU : EphemeralUpdater W} `{SA : StatsAPI W}.

(** ** Retries *)
Definition withRetry (f : Pod → M W unit) (pod : Pod) : M W unit :=
  let retryFn (allErrors : option error) : M W (bool * option error * option error) :=
    r ← attempt (f pod);
    match r with
    | inr lastErr => mret (false, None, errors_join [allErrors; Some lastErr])
    | inl _ => mret (true, None, allErrors)
    end in
  '(err, allErrors) ← PollUntilContextTimeout Second (10 * Second) true retryFn None;
  match err with
  | Some _ => ret_err (errors_join [allErrors; Some ErrRetryTimeout])
  | None => mret tt
  end.

(** ** CreatePod *)
Definition cluster_key : NamespacedName := {| nn_Namespace := clusterNamespace p; nn_Name := clusterName p |}.

Definition createPod (pod : Pod) : M W unit :=
  cluster ← Get (p_host p) Cluster cluster_key;
  virtualPod ← Get (p_virtual p) Pod (key_of (pod_Meta pod));
  hostPod ← lift (base_pod (translator p) (agentHostname p) cluster virtualPod);
  '(tokenSecretNames, hostPod) ← transformTokens p virtualPod hostPod;
  let hostPod := finish_pod (translator p) (serverIP p) (dnsIP p) virtualPod hostPod in
  m ← lift (SetControllerReference (cluster_owner cluster) (pod_Meta hostPod));
  let hostPod := with_meta m hostPod in
  let hostPod := if isCoreDNSPod virtualPod then hardenCoreDNS hostPod else hostPod in
  hostPod ← Create (p_host p) hostPod;
  attempt (setTokenSecretsOwner p hostPod tokenSecretNames) ;;
  mret tt.

Definition CreatePod (pod : Pod) : M W unit := withRetry createPod pod.

(** ** UpdatePod *)
Definition update_ephemeral (name : string) (stored pod : Pod) : M W unit :=
  let ephemerals p := ps_EphemeralContainers (ps_Extra (pod_Spec p)) in
  if decide (ephemerals stored = ephemerals pod) then mret tt
  else
    let s := pod_Spec stored in
    UpdateEphemeralContainers (clusterNamespace p) name
      (set_pod_Spec (set_containers (ps_Containers s) (ps_InitContainers (ps_Extra s)) (ephemerals pod) s) stored) ;;
    mret tt.

Definition updatePod (pod : Pod) : M W unit :=
  let hostPodName := TranslateName (translator p) (Namespace (pod_Meta pod)) (Name (pod_Meta pod)) in
  hostPod ← Get (p_host p) Pod {| nn_Namespace := clusterNamespace p; nn_Name := hostPodName |};
  hostPod ← Update (p_host p) (update_pod hostPod pod);
  update_ephemeral (Name (pod_Meta hostPod)) hostPod pod ;;
  virtualPod ← Get (p_virtual p) Pod (key_of (pod_Meta pod));
  virtualPod ← Update (p_virtual p) (update_pod virtualPod pod);
  update_ephemeral (Name (pod_Meta virtualPod)) virtualPod pod.

Definition UpdatePod (pod : Pod) : M W unit := withRetry updatePod pod.

(** ** DeletePod *)
Definition deletePod (pod : Pod) : M W unit :=
  let hostPodName := TranslateName (translator p) (Namespace (pod_Meta pod)) (Name (pod_Meta pod)) in
  ignore_not_found (client_Delete (p_host p) "Pod" {| nn_Namespace := clusterNamespace p; nn_Name := hostPodName |}).

Definition DeletePod (pod : Pod) : M W unit := withRetry deletePod pod.

(** ** The pods of this agent *)
Definition translate_pod (pod : Pod) : Pod := with_meta (TranslateFrom (pod_Meta pod)) pod.

Definition getPodFromHostCluster (hostPodName : string) : M W Pod :=
  pod ← Get (p_host p) Pod {| nn_Namespace := clusterNamespace p; nn_Name := hostPodName |};
  mret (translate_pod pod).

Definition GetPod (namespace name : string) : M W Pod :=
  getPodFromHostCluster (TranslateName (translator p) namespace name).

(** The status of a pod: its phase and its address. *)
Definition GetPodStatus (namespace name : string) : M W (string * string) :=
  pod ← getPodFromHostCluster (TranslateName (translator p) namespace name);
  mret (pod_Phase pod, pod_PodIP pod).

Definition GetPods : M W (list Pod) :=
  hostPods ← listHostPods p;
  mret (map translate_pod hostPods).

(** ** Statistics *)
Definition pods_by_host_name (pods : list Pod) : gmap string Pod :=
  fold_left (λ m pod, <[TranslateName (translator p) (Namespace (pod_Meta pod)) (Name (pod_Meta pod)) := pod]> m)
    pods ∅.

Definition filter_stats (podsNameMap : gmap string Pod) (podStats : list PodStats) : list PodStats :=
  omap (λ podStat,
    if decide (ref_Namespace (pst_PodRef podStat) ≠ clusterNamespace p) then None
    else pod ← podsNameMap !! ref_Name (pst_PodRef podStat);
         Some (set_PodRef {| ref_Name := Name (pod_Meta pod); ref_Namespace := Namespace (pod_Meta pod);
                             ref_UID := UID (pod_Meta pod) |} podStat)) podStats.

Definition GetStatsSummary : M W Summary :=
  node ← Get (p_host p) Node {| nn_Namespace := ""; nn_Name := agentHostname p |};
  res ← stats_DoRaw (Name (node_Meta node));
  statsSummary ← lift (Unmarshal_Summary res);
  pods ← GetPods;
  mret {| sum_Node := sum_Node statsSummary;
          sum_Pods := filter_stats (pods_by_host_name pods) (sum_Pods statsSummary) |}.
End Provider.

#[local] Set Default Proof Using "Type*".

(** ** Lemmas on the pure part *)
Lemma base_pod_inv t agent cluster vpod base :
  base_pod t agent cluster vpod = Ok base →
  ∃ scheduler, host_scheduler cluster vpod = Ok scheduler ∧
    pod_Meta base = host_pod_meta t agent (pod_Meta vpod) ∧
    ps_SchedulerName (ps_Extra (pod_Spec base)) = scheduler ∧
    ps_NodeName (pod_Spec base) = "" ∧ ps_NodeSelector (pod_Spec base) = policy_selector cluster ∧
    ps_Volumes (pod_Spec base) = transformVolumes t (Namespace (pod_Meta vpod)) (ps_Volumes (pod_Spec vpod)).
Proof.
  unfold base_pod. destruct (host_scheduler cluster vpod) as [scheduler|e|]; [|done..].
  intros [= <-]. exists scheduler. unfold placed_spec. by destruct (host_priority t cluster (pod_Spec vpod)).
Qed.

Lemma host_scheduler_allowed cluster vpod scheduler :
  host_scheduler cluster vpod = Ok scheduler →
  scheduler = "" ∨ scheduler = DefaultSchedulerName ∨ scheduler ∈ allowed_schedulers cluster.
Proof.
  unfold host_scheduler, slices_Contains. set (own := ps_SchedulerName _).
  set (annotated := map_str _ _). destruct (decide (annotated ≠ "")) as [Ha|Ha].
  - destruct (bool_decide_reflect (annotated ∈ allowed_schedulers cluster)) as [Hin|Hin]; cbn; [|done].
    intros E. right; right. repeat case_match; by simplify_eq.
  - cbn. case_decide as Ho; [case_bool_decide as Hin; [|done]|]; intros [= <-]; [by right; right|].
    destruct (decide (own = "")) as [|H1]; [by left|]. destruct (decide (own = DefaultSchedulerName)); [by right; left|].
    by destruct Ho.
Qed.

Section Meta.
Context {W : Type} `{KU : KubeUtil} (p : Provider W) `{MR : MapRange}.

Lemma finish_pod_meta t s d vpod hpod : pod_Meta (finish_pod t s d vpod hpod) = pod_Meta hpod.
Proof using. done. Qed.
Lemma mounted_pod_meta vpod hpod : pod_Meta (mounted_pod p vpod hpod) = pod_Meta hpod.
Proof using. unfold mounted_pod. by destruct (hasKubeAccessVolume vpod). Qed.

(** The host pod that is created, but for its owner. *)
Definition final_pod (vpod base : Pod) : Pod :=
  finish_pod (translator p) (serverIP p) (dnsIP p) vpod (mounted_pod p vpod base).
Definition hardened_pod (vpod pod : Pod) : Pod := if isCoreDNSPod vpod then hardenCoreDNS pod else pod.

Lemma final_pod_meta vpod base : pod_Meta (final_pod vpod base) = pod_Meta base.
Proof using. unfold final_pod. by rewrite finish_pod_meta, mounted_pod_meta. Qed.
Lemma hardened_pod_meta vpod pod : pod_Meta (hardened_pod vpod pod) = pod_Meta pod.
Proof using. unfold hardened_pod. by destruct (isCoreDNSPod vpod). Qed.
End Meta.

(** ** The objects of the host that a pod names *)
Definition projection_refs (s : VolumeProjection) : list string :=
  match s with
  | SecretProjection s => [svs_SecretName s]
  | ConfigMapProjection name _ => [name]
  | _ => []
  end.
(** The fields of the volumes of the other kinds that name a secret or a claim of
    the namespace, in the API of Kubernetes. *)
Definition reference_fields : list (list string) := [
  ["csi"; "nodePublishSecretRef"; "name"]; ["azureFile"; "secretName"]; ["cephfs"; "secretRef"; "name"];
  ["cinder"; "secretRef"; "name"]; ["flexVolume"; "secretRef"; "name"]; ["iscsi"; "secretRef"; "name"];
  ["rbd"; "secretRef"; "name"]; ["scaleIO"; "secretRef"; "name"]; ["storageos"; "secretRef"; "name"];
  ["ephemeral"; "volumeClaimTemplate"; "spec"; "dataSource"; "name"];
  ["ephemeral"; "volumeClaimTemplate"; "spec"; "dataSourceRef"; "name"]].
Definition json_field (k : string) (j : json) : option json :=
  match j with
  | JObj fields => snd <$> List.find (λ f, bool_decide (f.1 = k)) fields
  | _ => None
  end.
Definition json_at (path : list string) (j : json) : option json :=
  fold_left (λ j k, j ≫= json_field k) path (Some j).
Definition other_refs (j : json) : list string :=
  path ← reference_fields; match json_at path j with Some (JStr name) => [name] | _ => [] end.

Definition source_refs (s : VolumeSource) : list string :=
  match s with
  | SecretSource s => [svs_SecretName s]
  | ConfigMapSource name _ => [name]
  | ClaimSource claimName _ => [claimName]
  | ProjectedSource sources => s ← sources; projection_refs s
  | OtherSource j => other_refs j
  | EmptyDirSource | HostPathSource _ | DownwardAPISource _ => []
  end.
Definition env_refs (e : EnvVar) : list string :=
  match env_ValueFrom e with
  | Some (ConfigMapKeyRef name _ _) | Some (SecretKeyRef name _ _) => [name]
  | _ => []
  end.
Definition from_refs (e : EnvFromSource) : list string :=
  option_list (ef_ConfigMapRef e) ++ option_list (ef_SecretRef e).
Definition container_refs (c : Container) : list string :=
  (e ← ct_Env c; env_refs e) ++ (e ← ct_EnvFrom c; from_refs e).

(** The secrets, config maps and claims that the volumes, the environments and
    the pull secrets of a pod name. *)
Definition pod_refs (s : PodSpec) : list string :=
  (v ← ps_Volumes s; source_refs (vol_Source v))
  ++ (c ← ps_Containers s; container_refs c)
  ++ (c ← ps_InitContainers (ps_Extra s); container_refs c)
  ++ (c ← ps_EphemeralContainers (ps_Extra s); container_refs c)
  ++ ps_ImagePullSecrets s.

Section Refs.
Context (P : string → Prop).

Definition refs_ok (s : PodSpec) : Prop :=
  Forall (λ v, Forall P (source_refs (vol_Source v))) (ps_Volumes s) ∧
  Forall (λ c, Forall P (container_refs c)) (ps_Containers s) ∧
  Forall (λ c, Forall P (container_refs c)) (ps_InitContainers (ps_Extra s)) ∧
  Forall (λ c, Forall P (container_refs c)) (ps_EphemeralContainers (ps_Extra s)) ∧
  Forall P (ps_ImagePullSecrets s).

Lemma Forall_pod_refs s : Forall P (pod_refs s) ↔ refs_ok s.
Proof. unfold pod_refs, refs_ok. by rewrite !Forall_app, !Forall_bind. Qed.

Lemma container_refs_ok c :
  Forall P (container_refs c) ↔
  Forall (λ e, Forall P (env_refs e)) (ct_Env c) ∧ Forall (λ e, Forall P (from_refs e)) (ct_EnvFrom c).
Proof. unfold container_refs. by rewrite Forall_app, !Forall_bind. Qed.
End Refs.

(** The variables of a merge are the original and the new ones. *)
Lemma merge_loop_elem m orig envs m' :
  merge_loop m orig = (envs, m') →
  (∀ e, e ∈ envs → e ∈ orig ∨ ∃ k, m !! k = Some e) ∧ m' ⊆ m.
Proof.
  revert m envs m'. induction orig as [|e0 orig IH]; intros m envs m'; cbn.
  { intros [= <- <-]. split; [|done]. intros e He. by apply elem_of_nil in He. }
  destruct (m !! env_Name e0) as [u|] eqn:Hu.
  - destruct (merge_loop (delete (env_Name e0) m) orig) as [rest m1] eqn:E. intros [= <- <-].
    apply IH in E as [H1 H2]. split.
    + intros e [->|He]%elem_of_cons; [right; by eexists|]. apply H1 in He as [He|(k & Hk)].
      * left. by right.
      * right. exists k. by apply lookup_delete_Some in Hk as [_ ?].
    + etrans; [exact H2|]. apply delete_subseteq.
  - destruct (merge_loop m orig) as [rest m1] eqn:E. intros [= <- <-].
    apply IH in E as [H1 H2]. split; [|done].
    intros e [->|He]%elem_of_cons; [left; by left|]. apply H1 in He as [He|He]; [left; by right|by right].
Qed.

(** A map filled by a loop over a list. *)
Section Filled.
Context {A V : Type} (key : A → string) (val : A → V).
Definition filled (l : list A) : gmap string V := fold_left (λ m a, <[key a := val a]> m) l ∅.

Lemma filled_snoc l a : filled (l ++ [a]) = <[key a := val a]> (filled l).
Proof. unfold filled. by rewrite fold_left_app. Qed.

Lemma filled_elem l k v : filled l !! k = Some v → ∃ a, a ∈ l ∧ key a = k ∧ val a = v.
Proof.
  induction l as [|a l IH] using rev_ind; [done|]. rewrite filled_snoc. intros Hk.
  destruct (decide (key a = k)) as [<-|Hne].
  - rewrite lookup_insert_eq in Hk. injection Hk as <-. exists a. split_and!; try done.
    apply elem_of_app. right. by left.
  - rewrite lookup_insert_ne in Hk by done. destruct (IH Hk) as (b & Hb & ?). exists b. split; [|done].
    apply elem_of_app. by left.
Qed.

(** The last element of a key decides. *)
Lemma filled_find l k : filled l !! k = val <$> List.find (λ a, bool_decide (key a = k)) (rev l).
Proof.
  induction l as [|a l IH] using rev_ind; [done|]. rewrite filled_snoc, rev_app_distr. cbn.
  case_bool_decide as Hk; [rewrite Hk; apply lookup_insert_eq|]. by rewrite lookup_insert_ne.
Qed.

Lemma filled_lookup l a : NoDup (map key l) → a ∈ l → filled l !! key a = Some (val a).
Proof.
  induction l as [|b l IH] using rev_ind; [by intros _ ?%elem_of_nil|].
  rewrite filled_snoc, map_app. intros Hnd%NoDup_app Ha. destruct Hnd as (Hl & Hb & _).
  apply elem_of_app in Ha as [Ha| ->%list_elem_of_singleton]; [|apply lookup_insert_eq].
  rewrite lookup_insert_ne; [by apply IH|]. intros E. apply (Hb (key a)); [by apply list_elem_of_fmap_2|].
  rewrite <- E. by left.
Qed.

Lemma filled_none l k : k ∉ map key l → filled l !! k = None.
Proof.
  intros Hk. destruct (filled l !! k) eqn:E; [|done]. apply filled_elem in E as (a & Ha & <- & _).
  exfalso. apply Hk. by apply list_elem_of_fmap_2.
Qed.
End Filled.

Lemma env_map_elem updated k e : env_map updated !! k = Some e → e ∈ updated ∧ env_Name e = k.
Proof. intros (a & Ha & <- & <-)%(filled_elem env_Name id). done. Qed.

Lemma mergeEnvVars_elem `{MapRangeLaw} orig updated e :
  e ∈ mergeEnvVars orig updated → e ∈ orig ∨ e ∈ updated.
Proof.
  unfold mergeEnvVars. destruct updated as [|u updated]; [by left|].
  destruct (merge_loop (env_map (u :: updated)) orig) as [envs m] eqn:E. apply merge_loop_elem in E as [H1 H2].
  intros [He|He]%elem_of_app.
  - apply H1 in He as [?|(k & Hk)]; [by left|right]. by apply env_map_elem in Hk as [? _].
  - right. rewrite range_map_perm in He. apply list_elem_of_fmap in He as ([k e'] & -> & Hin).
    apply elem_of_map_to_list in Hin. eapply lookup_weaken in Hin; [|exact H2]. by apply env_map_elem in Hin as [? _].
Qed.

Section Translated.
Context {W : Type} `{KU : KubeUtil} (p : Provider W) `{ML : MapRangeLaw}.
Context (vpod : Pod).
Let t := translator p.
Let ns := Namespace (pod_Meta vpod).

(** A name that an object of the namespace of the pod gets on the host. *)
Definition translated (t : ToHostTranslator) (ns n : string) : Prop := ∃ m, n = TranslateName t ns m.

(** What the volumes of the other kinds name is not translated. *)
Definition untranslated (pod : Pod) : list string :=
  v ← ps_Volumes (pod_Spec pod); match vol_Source v with OtherSource j => other_refs j | _ => [] end.

Definition host_named (t : ToHostTranslator) (pod : Pod) (n : string) : Prop :=
  translated t (Namespace (pod_Meta pod)) n ∨ n ∈ untranslated pod.
#[local] Abbreviation T := (host_named t vpod).

Lemma translated_name m : T (TranslateName t ns m).
Proof using. left. by exists m. Qed.

#[local] Ltac names := repeat first [apply Forall_nil_2 | apply Forall_cons_2]; try apply translated_name.

Lemma configured_var_refs e : Forall T (env_refs (configure_var t vpod e)).
Proof using.
  unfold configure_var, env_refs.
  destruct (env_ValueFrom e) as [[v path|n k o|n k o|j]|] eqn:E; cbn; rewrite ?E;
    names.
  repeat case_decide; cbn; rewrite ?E; constructor.
Qed.

Lemma configured_containers_refs hosts virtuals :
  Forall (λ c, Forall T (container_refs c)) (configure_containers t vpod hosts virtuals).
Proof using.
  unfold configure_containers. revert virtuals. induction hosts as [|h hosts IH]; intros [|v virtuals];
    cbn; constructor; auto. apply container_refs_ok. cbn. split; apply Forall_map, Forall_forall; intros e _.
  - apply configured_var_refs.
  - unfold from_refs. destruct e as [pre [c|] [s|]]; cbn; names.
Qed.

Lemma transformed_source_refs v :
  v ∈ ps_Volumes (pod_Spec vpod) → Forall T (source_refs (transform_source t ns (vol_Source v))).
Proof using.
  intros Hv. destruct (vol_Source v) as [s| | |sources| | | |j] eqn:Hs; cbn; names.
  - apply Forall_bind, Forall_map, Forall_forall. intros s _. destruct s; cbn; names.
  - apply Forall_forall. intros n Hn. right. apply list_elem_of_bind. exists v. by rewrite Hs.
Qed.

Lemma mounted_volume_refs v :
  Forall T (source_refs (vol_Source v)) → Forall T (source_refs (vol_Source (mount_volume p vpod v))).
Proof using.
  unfold mount_volume. destruct (is_kube_access _); [done|].
  destruct (vol_Source v) as [| | |sources| | | |] eqn:Hs; rewrite ?Hs; try done.
  cbn [vol_Source source_refs]. rewrite !Forall_bind, Forall_map. intros Hf.
  eapply Forall_impl; [exact Hf|]. intros [s|n r|tk|j]; cbn; try done.
  intros _. names.
Qed.

Lemma networked_container_refs serverIP c :
  Forall T (container_refs c) →
  Forall T (container_refs (set_Env (mergeEnvVars (ct_Env c) (updated_env_vars serverIP)) (ct_EnvFrom c) c)).
Proof using ML.
  rewrite !container_refs_ok. intros [H1 H2]. split; [|exact H2]. cbn [ct_Env set_Env].
  apply Forall_forall. intros e [He|He]%mergeEnvVars_elem.
  - rewrite Forall_forall in H1. by apply H1.
  - repeat (apply elem_of_cons in He as [->|He]; [constructor|]). by apply elem_of_nil in He.
Qed.

(** The containers of a pod with its tokens name the same objects. *)
Lemma mounted_pod_containers hpod (Q : Container → Prop) :
  (∀ ms c, Q c → Q (set_VolumeMounts ms c)) →
  let s := pod_Spec hpod in let s' := pod_Spec (mounted_pod p vpod hpod) in
  (Forall Q (ps_Containers s) → Forall Q (ps_Containers s')) ∧
  (Forall Q (ps_InitContainers (ps_Extra s)) → Forall Q (ps_InitContainers (ps_Extra s'))) ∧
  (Forall Q (ps_EphemeralContainers (ps_Extra s)) → Forall Q (ps_EphemeralContainers (ps_Extra s'))) ∧
  ps_ImagePullSecrets s' = ps_ImagePullSecrets s.
Proof using.
  intros HQ s s'. subst s'. unfold mounted_pod. destruct (hasKubeAccessVolume vpod); [|done].
  cbn. rewrite !Forall_map. split_and!; try done; intros Hf; (eapply Forall_impl; [exact Hf|]); intros c Hc; by apply HQ, HQ.
Qed.

Lemma final_refs agent cluster base m :
  base_pod t agent cluster vpod = Ok base →
  (length (List.filter (λ v, is_kube_access (vol_Name v)) (ps_Volumes (pod_Spec vpod))) ≤ 1)%nat →
  Forall T (pod_refs (pod_Spec (hardened_pod vpod (with_meta m (final_pod p vpod base))))).
Proof using ML.
  intros Hb Hone. pose proof (base_pod_inv _ _ _ _ _ Hb) as (scheduler & Hs & _ & _ & _ & _ & Hvol).
  apply Forall_pod_refs.
  assert (refs_ok T (pod_Spec (final_pod p vpod base))) as (H1 & H2 & H3 & H4 & H5).
  { assert (∀ ms c, Forall T (container_refs c) → Forall T (container_refs (set_VolumeMounts ms c))) as HQ by done.
    destruct (mounted_pod_containers base _ HQ) as (C1 & C2 & C3 & C4).
    assert (∀ h v, Forall (λ c, Forall T (container_refs c)) (configure_containers t vpod h v)) as HC
      by (intros; apply configured_containers_refs).
    assert (Forall (λ c, Forall T (container_refs c)) (ps_Containers (pod_Spec base)) ∧
            Forall (λ c, Forall T (container_refs c)) (ps_InitContainers (ps_Extra (pod_Spec base))) ∧
            Forall (λ c, Forall T (container_refs c)) (ps_EphemeralContainers (ps_Extra (pod_Spec base))))
      as (B1 & B2 & B3).
    { unfold base_pod in Hb. rewrite Hs in Hb. injection Hb as <-. cbn. split_and!; apply HC. }
    set (tv := λ v, if is_kube_access (vol_Name v) then v
           else {| vol_Name := vol_Name v; vol_Source := transform_source t ns (vol_Source v) |}) in *.
    assert (∀ v, vol_Name (tv v) = vol_Name v) as Htv by (intros v; unfold tv; by destruct (is_kube_access _)).
    change (ps_Volumes (pod_Spec base) = map tv (ps_Volumes (pod_Spec vpod))) in Hvol.
    assert (map vol_Name (ps_Volumes (pod_Spec vpod)) = map vol_Name (ps_Volumes (pod_Spec base))) as HV1
      by (rewrite Hvol, map_map; apply map_ext; intros v; by rewrite Htv).
    assert (length (List.filter (λ v, is_kube_access (vol_Name v)) (ps_Volumes (pod_Spec base))) ≤ 1)%nat as HV2.
    { rewrite Hvol, filter_map_length. erewrite filter_ext; [exact Hone|]. intros v. cbn. by rewrite Htv. }
    assert (∀ v, v ∈ ps_Volumes (pod_Spec base) → is_kube_access (vol_Name v) = false →
              Forall T (source_refs (vol_Source (mount_volume p vpod v)))) as HV3.
    { rewrite Hvol. intros v (u & -> & Hu)%list_elem_of_fmap Hk. apply mounted_volume_refs. rewrite Htv in Hk.
      unfold tv. rewrite Hk. by apply transformed_source_refs. }
    unfold refs_ok, final_pod, finish_pod, configureNetworking. cbn [pod_Spec set_pod_Spec].
    destruct (negb _ && negb _); cbn; rewrite !Forall_map;
      (split_and!; [|eapply Forall_impl; [by apply C1|apply networked_container_refs]
                    |eapply Forall_impl; [by apply C2|apply networked_container_refs]
                    |eapply Forall_impl; [by apply C3|apply networked_container_refs]
                    |apply Forall_forall; intros x _; apply translated_name]).
    all: apply mounted_volumes; [exact HV1|exact HV2|exact HV3|intros n; names]. }
  unfold hardened_pod. destruct (isCoreDNSPod vpod); [|by split_and!].
  unfold refs_ok, hardenCoreDNS. cbn. rewrite Forall_map. by split_and!.
Qed.
End Translated.

(** ** What the operations do *)

(** The part of a pod that the server stores as it receives it. *)
Definition pod_content (pod : Pod) : PodSpec * gomap string * gomap string :=
  (pod_Spec pod, Labels (pod_Meta pod), Annotations (pod_Meta pod)).

Section Laws.
Context {W : Type} `{KL : KubeUtilLaws} (p : Provider W) `{TA : TokenAPI W} `{OP : !OwnerPatcher (p_host p)}.
Context `{ML : MapRangeLaw}.
Context `{HL : !ClientLaws (p_host p)} `{OL : !OwnerPatchLaw (p_host p)} `{FV : !Foreign (p_host p) (p_virtual p)}.
Context `{KP : !Keeps (p_host p) pod_content}.
Context (HC : ∀ ns n req, silent (p_host p) (CreateToken ns n req)) (HT : silent (p_host p) time_Now).
Context (Hns : clusterNamespace p = ClusterNamespace (translator p)).

#[local] Abbreviation C m := (confined (p_host p) (cluster_secrets p) m).

Lemma confined_transform_sources vpod sources : C (transform_sources p vpod sources).
Proof using KL HL HC HT Hns.
  induction sources as [|s sources IH]; [apply evolves_mret, _|].
  destruct s as [s|n r|t|j]; cbn [transform_sources].
  3:{ apply evolves_bind; [exact _|apply silent_evolves; [exact _|by apply silent_token_secret]|]. intros s.
      apply evolves_bind; [exact _|by apply confined_create_token|]. intros y.
      apply evolves_bind; [exact _|exact IH|]. intros [ns rest]. apply evolves_mret, _. }
  all: apply evolves_bind; [exact _|exact IH|]; intros [ns rest]; apply evolves_mret, _.
Qed.

Lemma confined_transform_tokens vpod hpod : C (transformTokens p vpod hpod).
Proof using KL HL FV HC HT Hns.
  unfold transformTokens. apply evolves_bind; [exact _| |].
  - apply evolves_bind; [exact _| |intros []; apply evolves_mret, _].
    induction (ps_Volumes _) as [|v vs IH]; [apply evolves_mret, _|]. cbn [transform_token_volumes].
    apply evolves_bind; [exact _| |].
    + unfold transform_token_volume. destruct (is_kube_access _); [apply evolves_mret, _|].
      destruct (vol_Source v); try (apply evolves_mret, _).
      apply evolves_bind; [exact _|apply confined_transform_sources|intros []; apply evolves_mret, _].
    + intros. apply evolves_bind; [exact _|exact IH|intros; apply evolves_mret, _].
  - intros [names hpod']. apply evolves_bind; [exact _| |intros []; apply evolves_mret, _].
    unfold transformKubeAccessToken. destruct (negb _); [apply evolves_mret, _|].
    apply evolves_bind; [exact _|apply silent_evolves; [exact _|by apply silent_access_secret]|]. intros s.
    apply evolves_bind; [exact _|by apply confined_create_token|intros; apply evolves_mret, _].
Qed.

(** A successful creation, step by step. *)
Lemma createPod_run pod w w' :
  createPod p pod w = (Ok tt, w') →
  ∃ cluster vpod base m stored wv wv',
    Get (p_host p) Cluster (cluster_key p) w = (Ok cluster, wv) ∧
    store w !! (("Cluster", cluster_key p) : ObjKey) = Some (OCluster cluster) ∧
    Get (p_virtual p) Pod (key_of (pod_Meta pod)) wv = (Ok vpod, wv') ∧
    base_pod (translator p) (agentHostname p) cluster vpod = Ok base ∧
    SetControllerReference (cluster_owner cluster) (pod_Meta base) = Ok m ∧
    let created := hardened_pod vpod (with_meta m (final_pod p vpod base)) in
    let key := (("Pod", NamespacedName_of (translator p) (pod_Meta vpod)) : ObjKey) in
    store w !! key = None ∧ store w' !! key = Some (OPod stored) ∧
    pod_content stored = pod_content created ∧
    ∀ i, i ≠ key → ¬ cluster_secrets p i → store w' !! i = store w !! i.
Proof using KL HL OL FV KP HC HT Hns.
  unfold createPod. intros (cluster & w1 & E1 & E)%bind_inv_ok. pose proof E1 as Hget.
  apply (Get_run (p_host p)) in E1 as (Hst1 & _ & Hcl & _).
  apply bind_inv_ok in E as (vpod & w2 & E2 & E).
  pose proof (silent_Get (p_host p) (p_virtual p) _ _ _ _ E2) as Hst2.
  apply bind_inv_ok in E as (base & w3 & E3 & E). injection E3 as Hb <-.
  apply bind_inv_ok in E as ([names hpod] & w4 & E4 & E). cbv beta iota in E.
  pose proof (confined_transform_tokens _ _ _ _ _ E4) as Hst4.
  apply (transformTokens_run p) in E4 as [_ ->].
  fold (final_pod p vpod base) in E. rewrite final_pod_meta in E.
  apply bind_inv_ok in E as (m & w5 & E5 & E). injection E5 as Hm <-.
  fold (hardened_pod vpod (with_meta m (final_pod p vpod base))) in E.
  set (created := hardened_pod vpod (with_meta m (final_pod p vpod base))) in *.
  apply bind_inv_ok in E as (stored & w6 & E6 & E).
  apply (Create_run (p_host p)) in E6 as (_ & Hnone & Hk & Hst6 & E6).
  apply (create_keeps (f:=pod_content)) in E6.
  pose proof (base_pod_inv _ _ _ _ _ Hb) as (scheduler & _ & Hmeta & _).
  assert (pod_Meta created = m) as Hcm by (unfold created; rewrite hardened_pod_meta; done).
  pose proof (SetControllerReference_ok _ _ _ Hm) as (rs & Hrs & _).
  assert (obj_key (inj created) = (("Pod", NamespacedName_of (translator p) (pod_Meta vpod)) : ObjKey)) as Hkey.
  { change (("Pod", key_of (pod_Meta created)) = (("Pod", NamespacedName_of (translator p) (pod_Meta vpod)) : ObjKey)).
    rewrite Hcm, Hrs, Hmeta. done. }
  rewrite Hkey in Hnone, Hst6.
  apply bind_inv_ok in E as (u & w7 & E7 & [= ->]).
  assert (Namespace (pod_Meta stored) = clusterNamespace p) as Hsn.
  { rewrite Hkey in Hk. rewrite Hns. by injection Hk. }
  assert (per_key (only (cluster_secrets p)) (store w6) (store w')) as Hst7.
  { refine (evolves_attempt _ _ _ _ _ _ _ E7). apply evolves_bind; [exact _| |intros; apply evolves_ret_err, _].
    apply evolves_join_all; [exact _|]. apply Forall_map, Forall_forall. intros name _. by apply confined_set_owner. }
  assert (∀ i, ¬ cluster_secrets p i → store w4 !! i = store w !! i) as Hframe4.
  { intros i Hi. destruct (Hst4 i) as [?|He]; [done|]. rewrite He. by rewrite Hst2, Hst1. }
  assert (∀ i, ¬ cluster_secrets p i → store w' !! i = store w6 !! i) as Hframe7.
  { intros i Hi. by destruct (Hst7 i) as [?|He]. }
  set (key := (("Pod", NamespacedName_of (translator p) (pod_Meta vpod)) : ObjKey)) in *.
  assert (¬ cluster_secrets p key) as Hnk by (by intros [? _]).
  exists cluster, vpod, base, m, stored, w1, w2. split_and!; try done.
  - rewrite <- Hframe4; done.
  - rewrite Hframe7, Hst6 by done. apply lookup_insert_eq.
  - intros i Hi Hs. rewrite Hframe7, Hst6 by done. rewrite lookup_insert_ne by done. by apply Hframe4.
Qed.

Context `{VL : !ClientLaws (p_virtual p)} `{FH : !Foreign (p_virtual p) (p_host p)}.
Context (Hcn : clusterName p = ClusterName (translator p)).

(** The labels of the pod that is created. *)
Lemma created_labels vpod base m cluster stored :
  base_pod (translator p) (agentHostname p) cluster vpod = Ok base →
  SetControllerReference (cluster_owner cluster) (pod_Meta base) = Ok m →
  pod_content stored = pod_content (hardened_pod vpod (with_meta m (final_pod p vpod base))) →
  let labels := Labels (pod_Meta stored) in let annotations := Annotations (pod_Meta stored) in
  map_get labels ClusterNameLabel = Some (ClusterName (translator p)) ∧
  map_get labels AgentNameLabel = Some (agentHostname p) ∧
  map_get annotations ResourceNameAnnotation = Some (Name (pod_Meta vpod)) ∧
  map_get annotations ResourceNamespaceAnnotation = Some (Namespace (pod_Meta vpod)) ∧
  pod_Spec stored = pod_Spec (hardened_pod vpod (with_meta m (final_pod p vpod base))).
Proof using KL.
  intros Hb Hm Hc labels annotations.
  assert (pod_Meta (hardened_pod vpod (with_meta m (final_pod p vpod base))) = m) as Hcm
    by (by rewrite hardened_pod_meta).
  revert Hc Hcm. generalize (hardened_pod vpod (with_meta m (final_pod p vpod base))). intros created Hc Hcm.
  pose proof (f_equal (λ c, c.1.1) Hc : pod_Spec stored = pod_Spec created) as Hs.
  pose proof (f_equal (λ c, c.1.2) Hc : Labels (pod_Meta stored) = Labels (pod_Meta created)) as Hl.
  pose proof (f_equal snd Hc : Annotations (pod_Meta stored) = Annotations (pod_Meta created)) as Ha.
  subst labels annotations. rewrite Hl, Ha, Hcm. clear Hc Hl Ha Hcm.
  pose proof (base_pod_inv _ _ _ _ _ Hb) as (scheduler & _ & Hmeta & _).
  apply SetControllerReference_ok in Hm as (rs & -> & _). rewrite Hmeta.
  cbn [Labels Annotations set_OwnerReferences host_pod_meta set_Labels TranslateTo].
  unfold map_get. cbn [default from_option id]. split_and!; [| | | |exact Hs].
  - rewrite lookup_insert_ne by done. apply lookup_insert_eq.
  - apply lookup_insert_eq.
  - rewrite lookup_insert_ne by done. apply lookup_insert_eq.
  - apply lookup_insert_eq.
Qed.

#[local] Abbreviation hstore := (store (ClientLaws := HL)).
#[local] Abbreviation vstore := (store (ClientLaws := VL)).

(** *** Properties of the creation *)


(** C16: once a pod is created it is reported under its own name and namespace:
    [GetPod] finds it, and [GetPods] lists it among the pods of this agent. *)
Theorem created_pod_reported pod w w' :
  clusterNamespace p ≠ "" →
  createPod p pod w = (Ok tt, w') → up (ClientLaws := HL) w' →
  ∃ pod' w1 pods w2,
    GetPod p (Namespace (pod_Meta pod)) (Name (pod_Meta pod)) w' = (Ok pod', w1) ∧
    GetPods p w' = (Ok pods, w2) ∧ pod' ∈ pods ∧
    Name (pod_Meta pod') = Name (pod_Meta pod) ∧ Namespace (pod_Meta pod') = Namespace (pod_Meta pod).
Proof using KL HL OL FV KP HC HT Hns VL Hcn.
  intros Hne E Hup. apply createPod_run in E
    as (cluster & vpod & base & m & stored & wv & wv' & _ & _ & E2 & Hb & Hm & _ & Hst & Hc & _).
  apply (Get_run (p_virtual p)) in E2 as (_ & _ & _ & Hk).
  pose proof (created_labels _ _ _ _ _ Hb Hm Hc) as (H1 & H2 & H3 & H4 & _).
  set (n := {| nn_Namespace := clusterNamespace p;
               nn_Name := TranslateName (translator p) (Namespace (pod_Meta pod)) (Name (pod_Meta pod)) |}).
  assert (NamespacedName_of (translator p) (pod_Meta vpod) = n) as Hn.
  { unfold NamespacedName_of, n. rewrite Hns. unfold key_of in Hk. by injection Hk as -> ->. }
  rewrite Hn in Hst.
  assert (store (ClientLaws := HL) w' !! (kind Pod, n) = Some (inj stored)) as Hst' by exact Hst.
  destruct (Get_found (p_host p) (T:=Pod) n w' stored Hup Hst') as (w1 & E1 & _ & _).
  destruct (listHostPods p w') as [r w2] eqn:El. pose proof El as El'.
  apply (List_run (p_host p)) in El as (_ & _ & Hr); [|done].
  destruct r as [pods|e|]; [|done..]. destruct Hr as [_ Hin].
  exists (translate_pod stored), w1, (map translate_pod pods), w2. split_and!.
  - unfold GetPod, getPodFromHostCluster. fold n. unfold mbind, M_bind. by rewrite E1.
  - unfold GetPods, mbind, M_bind. by rewrite El'.
  - apply list_elem_of_fmap. exists stored. split; [done|]. apply Hin.
    assert (obj_key (inj stored) = (("Pod", n) : ObjKey)) as Hok by exact (store_keys _ _ _ Hst).
    split; [by rewrite Hok|]. unfold selected. cbn [host_pods_options lo_Namespace lo_Selector forallb req_matches].
    change (obj_meta (inj stored)) with (pod_Meta stored).
    assert (Namespace (pod_Meta stored) = clusterNamespace p) as -> by (by injection Hok).
    rewrite H1, H2, Hcn. rewrite (bool_decide_false (clusterNamespace p = "")) by done. by rewrite !bool_decide_true.
  - change (map_str (Annotations (pod_Meta stored)) ResourceNameAnnotation = Name (pod_Meta pod)).
    unfold map_str. rewrite H3. by injection Hk.
  - change (map_str (Annotations (pod_Meta stored)) ResourceNamespaceAnnotation = Namespace (pod_Meta pod)).
    unfold map_str. rewrite H4. by injection Hk.
Qed.
End Laws.

(** ** The environment after a merge *)
(** The new variable of a name: the last one of the list. *)
Definition new_var (updated : list EnvVar) (k : string) : option EnvVar :=
  List.find (λ e, bool_decide (env_Name e = k)) (rev updated).

(** The reference: the first variable of each name gets its new value in place;
    [seen] are the names before it. *)
Fixpoint overridden (new : string → option EnvVar) (seen : list string) (orig : list EnvVar) : list EnvVar :=
  match orig with
  | [] => []
  | e :: rest =>
      (if decide (env_Name e ∈ seen) then e else default e (new (env_Name e)))
      :: overridden new (env_Name e :: seen) rest
  end.

Lemma env_map_lookup updated k : env_map updated !! k = new_var updated k.
Proof.
  change (env_map updated) with (filled env_Name id updated). rewrite filled_find. unfold new_var.
  by destruct (List.find (λ a, _) _).
Qed.

Lemma new_var_elem updated k e : new_var updated k = Some e → e ∈ updated ∧ env_Name e = k.
Proof. rewrite <- env_map_lookup. apply env_map_elem. Qed.

Lemma new_var_none updated k : new_var updated k = None ↔ k ∉ map env_Name updated.
Proof.
  unfold new_var. rewrite list_elem_of_fmap. split.
  - intros Hf (e & -> & He). apply list_elem_of_In, in_rev, (find_none _ _ Hf) in He.
    by rewrite bool_decide_true in He.
  - intros Hk. destruct (List.find _ _) as [e|] eqn:Hf; [|done]. destruct Hk. exists e.
    apply find_some in Hf as [He%in_rev%list_elem_of_In Hn%bool_decide_eq_true]. by split.
Qed.

Lemma merge_loop_spec new orig : ∀ m seen envs m',
  (∀ k, m !! k = if decide (k ∈ seen) then None else new k) → merge_loop m orig = (envs, m') →
  envs = overridden new seen orig ∧
  ∀ k, m' !! k = if decide (k ∈ seen ∨ k ∈ map env_Name orig) then None else new k.
Proof.
  induction orig as [|e orig IH]; intros m seen envs m' Hm; cbn [merge_loop map overridden].
  { intros [= <- <-]. split; [done|]. intros k. rewrite Hm. apply decide_ext. rewrite elem_of_nil. tauto. }
  assert (∀ m1, (∀ k, m1 !! k = if decide (k ∈ env_Name e :: seen) then None else new k) →
    ∀ rest m2, merge_loop m1 orig = (rest, m2) → rest = overridden new (env_Name e :: seen) orig ∧
      ∀ k, m2 !! k = if decide (k ∈ seen ∨ k ∈ env_Name e :: map env_Name orig) then None else new k) as Hrest.
  { intros m1 Hm1 rest m2 E. destruct (IH _ _ _ _ Hm1 E) as [-> H2]. split; [done|]. intros k. rewrite H2.
    apply decide_ext. rewrite !elem_of_cons. tauto. }
  pose proof (Hm (env_Name e)) as He. destruct (m !! env_Name e) as [u|] eqn:Hu.
  - destruct (merge_loop (delete (env_Name e) m) orig) as [rest m1] eqn:E. intros [= <- <-].
    case_decide as Hs; [done|]. rewrite <- He. cbn [default].
    destruct (Hrest (delete (env_Name e) m)) with rest m1 as [-> H2]; [|exact E|by split].
    intros k. destruct (decide (k = env_Name e)) as [->|Hk].
    + by rewrite lookup_delete_eq, decide_True by left.
    + rewrite lookup_delete_ne, Hm by done. apply decide_ext. rewrite elem_of_cons. tauto.
  - destruct (merge_loop m orig) as [rest m1] eqn:E. intros [= <- <-].
    destruct (Hrest m) with rest m1 as [-> H2]; [|exact E|].
    + intros k. rewrite Hm. destruct (decide (k = env_Name e)) as [->|Hk].
      * rewrite (decide_True (P := env_Name e ∈ env_Name e :: seen)) by left. by rewrite <- Hm.
      * apply decide_ext. rewrite elem_of_cons. tauto.
    + split; [|done]. f_equal. case_decide; [done|]. by rewrite <- He.
Qed.

(** Without a name twice, every variable is overridden. *)
Lemma overridden_NoDup new seen orig :
  NoDup (map env_Name orig) → (∀ e, e ∈ orig → env_Name e ∉ seen) →
  overridden new seen orig = map (λ e, default e (new (env_Name e))) orig.
Proof.
  revert seen. induction orig as [|e orig IH]; intros seen; cbn [overridden map]; [done|].
  intros [Hno Hnd]%NoDup_cons Hs. rewrite decide_False by (apply Hs; left). f_equal. apply IH; [done|].
  intros x Hx [Heq|Hin]%elem_of_cons.
  - apply Hno. rewrite <- Heq. by apply list_elem_of_fmap_2.
  - by apply (Hs x); [right|].
Qed.

(** C27: merging variables overrides those of the original list and adds the others.
    For every name the first variable of the original list gets the last new value
    of that name, in its place, and keeps its own when there is none; the new
    variables of the other names follow, once each, in some order.  (A second
    original variable of the same name keeps its own value, and it is the last one
    that counts for a container.)  So when the original names are distinct, the
    result holds every new variable once, and the original variables whose names
    are not overridden. *)
Theorem mergeEnvVars_spec `{MapRangeLaw} orig updated :
  let result := mergeEnvVars orig updated in
  (∃ added, result = (overridden (new_var updated) [] orig ++ added)%list ∧ NoDup (map env_Name added) ∧
     ∀ e, e ∈ added ↔ new_var updated (env_Name e) = Some e ∧ env_Name e ∉ map env_Name orig) ∧
  (NoDup (map env_Name orig) → NoDup (map env_Name result) ∧
     ∀ e, e ∈ result ↔ new_var updated (env_Name e) = Some e ∨ (e ∈ orig ∧ env_Name e ∉ map env_Name updated)).
Proof.
  intros result.
  assert (∃ added, result = (overridden (new_var updated) [] orig ++ added)%list ∧ NoDup (map env_Name added) ∧
     ∀ e, e ∈ added ↔ new_var updated (env_Name e) = Some e ∧ env_Name e ∉ map env_Name orig)
    as (added & Hres & Hnd & Hadd).
  { destruct (merge_loop (env_map updated) orig) as [envs m'] eqn:E.
    destruct (merge_loop_spec (new_var updated) orig (env_map updated) [] envs m') as [-> Hm]; [|exact E|].
    { intros k. rewrite decide_False by apply not_elem_of_nil. apply env_map_lookup. }
    assert (∀ k e, (k, e) ∈ map_to_list m' ↔ new_var updated k = Some e ∧ k ∉ map env_Name orig) as Hin.
    { intros k e. rewrite elem_of_map_to_list, Hm. pose proof (not_elem_of_nil k). case_decide; naive_solver. }
    exists ((range_map m').*2). split_and!.
    - subst result. unfold mergeEnvVars. destruct updated as [|u updated]; [|by rewrite E].
      assert (m' = ∅) as -> by (apply map_empty; intros k; rewrite Hm; by case_decide).
      assert (∀ l seen, overridden (new_var []) seen l = l) as Hid.
      { induction l as [|x l IH]; intros seen; [done|]. cbn. rewrite IH. by case_decide. }
      rewrite Hid. pose proof (range_map_perm (∅ : gmap string EnvVar)) as Hp. rewrite map_to_list_empty in Hp.
      apply Permutation_nil_r in Hp. rewrite Hp. by rewrite app_nil_r.
    - change (NoDup (env_Name <$> (range_map m').*2)). rewrite range_map_perm, <- list_fmap_compose.
      erewrite list_fmap_ext; [apply (NoDup_fst_map_to_list m')|].
      intros i [k e] Hi. apply list_elem_of_lookup_2, Hin in Hi as [[_ ?]%new_var_elem _]. done.
    - intros e. rewrite range_map_perm, list_elem_of_fmap. split.
      + intros ([k e'] & -> & [Hk Ho]%Hin). cbn. pose proof (new_var_elem _ _ _ Hk) as [_ ->]. done.
      + intros He. exists (env_Name e, e). split; [done|]. by apply Hin. }
  split; [by exists added|]. intros Ho. rewrite Hres, overridden_NoDup; [|done|intros ? _; apply not_elem_of_nil].
  set (f := λ e, default e (new_var updated (env_Name e))).
  assert (∀ e, env_Name (f e) = env_Name e) as Hf.
  { intros e. unfold f. destruct (new_var _ _) eqn:E; [|done]. by apply new_var_elem in E as [_ ?]. }
  assert (map env_Name (map f orig) = map env_Name orig) as Hnames by (rewrite map_map; by apply map_ext).
  split.
  - rewrite map_app, Hnames. apply NoDup_app. split_and!; [done| |done].
    intros k Hk (e & -> & [_ Hn]%Hadd)%list_elem_of_fmap. done.
  - intros e. rewrite elem_of_app, Hadd. split.
    + intros [(e0 & -> & He0)%list_elem_of_fmap|[? _]]; [|by left]. rewrite Hf. unfold f.
      destruct (new_var updated (env_Name e0)) as [u|] eqn:E; cbn; [by left|]. right. by apply new_var_none in E.
    + intros [He|[He Hn]].
      * destruct (decide (env_Name e ∈ map env_Name orig)) as [(e0 & Heq & He0)%list_elem_of_fmap|]; [left|by right].
        apply list_elem_of_fmap. exists e0. split; [|done]. unfold f. by rewrite <- Heq, He.
      * left. apply list_elem_of_fmap. exists e. split; [|done]. apply new_var_none in Hn. unfold f. by rewrite Hn.
Qed.

(** ** Retries end *)
(** [failures f es w w']: [f] fails with the errors [es], one after the other. *)
Inductive failures {W} (f : M W unit) : list error → W → W → Prop :=
| failures_nil w : failures f [] w w
| failures_cons e es w w1 w2 : f w = (Err e, w1) → failures f es w1 w2 → failures f (e :: es) w w2.

(** The errors as the closure accumulates them. *)
Definition accumulated (es : list error) (start : option error) : option error :=
  fold_left (λ acc e, errors_join [acc; Some e]) es start.

Section Retry.
Context {W : Type} `{PW : PollerLaw W} (f : Pod → M W unit) (pod : Pod).

Definition retry_condition : Condition W (option error) := λ allErrors,
  r ← attempt (f pod);
  match r with
  | inr lastErr => mret (false, None, errors_join [allErrors; Some lastErr])
  | inl _ => mret (true, None, allErrors)
  end.

Lemma retry_condition_loop stop n start w r w' :
  poll_loop stop n retry_condition start w = (r, w') →
  ∃ es w1, failures (f pod) es w w1 ∧ (length es ≤ n)%nat ∧
    match r with
    | Ok (None, _) => f pod w1 = (Ok tt, w') ∧ (length es < n)%nat
    | Ok (Some _, acc) => w' = w1 ∧ length es = n ∧ acc = accumulated es start
    | Err _ => False
    | Panic => f pod w1 = (Panic, w') ∧ (length es < n)%nat
    end.
Proof using.
  revert start w r w'. induction n as [|n IH]; intros start w r w'; cbn [poll_loop].
  { intros [= <- <-]. exists [], w. split; [constructor|]. done. }
  unfold mbind, M_bind, retry_condition, mbind, M_bind, attempt.
  destruct (f pod w) as [[[]|e|] w1] eqn:E; cbn.
  - intros [= <- <-]. exists [], w. split; [constructor|]. cbn. split; [lia|]. split; [done|lia].
  - intros (es & w2 & Hf & Hl & Hr)%IH. exists (e :: es), w2. split; [by econstructor|]. cbn. split; [lia|].
    destruct r as [[[e'|] acc]|e'|]; [|destruct Hr; split; [done|lia]|done|destruct Hr; split; [done|lia]].
    destruct Hr as (-> & <- & ->). done.
  - intros [= <- <-]. exists [], w. split; [constructor|]. cbn. split; [lia|]. split; [done|lia].
Qed.

Lemma accumulated_Some es start : es ≠ [] → is_Some (accumulated es start).
Proof using.
  destruct es as [|e es]; [done|]. intros _. cbn.
  assert (is_Some (errors_join [start; Some e])) as [x Hx] by (unfold errors_join; destruct start; cbn; eauto).
  cbn in Hx. rewrite Hx. clear. revert x. induction es as [|e' es IH]; intros x; cbn; [by eexists|]. apply IH.
Qed.

(** C17: an operation that is retried ends: it is called at least once and at most
    11 times, until it succeeds; when it never does, the error of the retry joins
    the errors of all the calls and [ErrRetryTimeout]. *)
Theorem withRetry_ends w r w' :
  withRetry f pod w = (r, w') →
  ∃ es w1, failures (f pod) es w w1 ∧ (length es ≤ 11)%nat ∧
    match r with
    | Ok _ => f pod w1 = (Ok tt, w') ∧ (length es ≤ 10)%nat
    | Err e => w' = w1 ∧ (1 ≤ length es)%nat ∧
               ∃ all, accumulated es None = Some all ∧ e = EJoin [all; ErrRetryTimeout]
    | Panic => f pod w1 = (Panic, w') ∧ (length es ≤ 10)%nat
    end.
Proof using PW.
  unfold withRetry. fold retry_condition. unfold mbind at 1, M_bind at 1.
  destruct (poll_timeout_spec Second (10 * Second) true retry_condition None w) as (n & stop & _ & [H1 H2] & ->); [done..|].
  change (Z.max 0 (10 * Second) / Second) with 10 in H2.
  destruct (poll_loop stop n retry_condition None w) as [r1 w1] eqn:E.
  apply retry_condition_loop in E as (es & w2 & Hf & Hl & Hr).
  destruct r1 as [[[e|] acc]|e|]; [| |done|].
  - destruct Hr as (-> & Hn & ->). assert (es ≠ []) as Hes by (destruct es; [cbn in Hn; lia|done]).
    destruct (accumulated_Some es None Hes) as [all Hall]. rewrite Hall. intros [= <- <-].
    exists es, w2. split; [done|]. split; [lia|]. split; [done|]. split; [lia|]. by exists all.
  - intros [= <- <-]. exists es, w2. destruct Hr. split; [done|]. split; [lia|]. split; [done|lia].
  - intros [= <- <-]. exists es, w2. destruct Hr. split; [done|]. split; [lia|]. split; [done|lia].
Qed.
End Retry.

(** ** Updates keep the identity of a host pod *)
Lemma managed_lookup dst src k :
  map_get (mergeManagedMetadata dst src) k =
  match map_get dst k with
  | Some v => if is_managed k then Some v else map_get src k
  | None => map_get src k
  end.
Proof.
  unfold mergeManagedMetadata, map_get.
  rewrite lookup_union, map_lookup_filter.
  destruct dst as [g|], src as [h|]; cbn [default from_option id]; rewrite ?lookup_empty; cbn -[is_managed].
  - destruct (g !! k) as [v|]; cbn -[is_managed]; [|by destruct (h !! k)].
    case_guard as Hk; cbn -[is_managed]; [rewrite Hk|apply not_true_is_false in Hk; rewrite Hk]; by destruct (h !! k).
  - destruct (g !! k) as [v|]; cbn -[is_managed]; [|done].
    case_guard as Hk; cbn -[is_managed]; [by rewrite Hk|apply not_true_is_false in Hk; by rewrite Hk].
  - by destruct (h !! k).
  - done.
Qed.

(** The image that a container gets: the one of the last virtual container of its
    name, the names of the containers of a pod being distinct. *)
Definition new_image (virtuals : list Container) (c : Container) : Container :=
  set_Image (match List.find (λ v, bool_decide (ct_Name v = ct_Name c)) (rev virtuals) with
             | Some v => ct_Image v
             | None => ""
             end) c.

Lemma updateContainerImages_spec hosts virtuals :
  updateContainerImages hosts virtuals = map (new_image virtuals) hosts.
Proof.
  apply map_ext. intros c. unfold new_image. f_equal. change (fold_left _ _ _) with (filled ct_Name ct_Image virtuals).
  rewrite filled_find. by destruct (List.find _ _).
Qed.

(** C18: an update of a host pod from its virtual pod keeps every label and
    annotation of k3k, so the pod stays listed for its agent and translates back
    to the same object; the other labels and annotations become those of the
    virtual pod; a container and an init container get the image of the virtual
    one of their name (none when there is none); the tolerations and the deadline
    become those of the virtual pod; and nothing else of the pod changes. *)
Theorem update_pod_spec hostPod pod :
  let updated := update_pod hostPod pod in
  let h := pod_Spec hostPod in let v := pod_Spec pod in let u := pod_Spec updated in
  (∀ k value, is_managed k = true → map_get (Labels (pod_Meta hostPod)) k = Some value →
     map_get (Labels (pod_Meta updated)) k = Some value) ∧
  (∀ k value, is_managed k = true → map_get (Annotations (pod_Meta hostPod)) k = Some value →
     map_get (Annotations (pod_Meta updated)) k = Some value) ∧
  (∀ k, is_managed k = false → map_get (Labels (pod_Meta updated)) k = map_get (Labels (pod_Meta pod)) k ∧
     map_get (Annotations (pod_Meta updated)) k = map_get (Annotations (pod_Meta pod)) k) ∧
  ps_Containers u = map (new_image (ps_Containers v)) (ps_Containers h) ∧
  ps_InitContainers (ps_Extra u) = map (new_image (ps_InitContainers (ps_Extra v))) (ps_InitContainers (ps_Extra h)) ∧
  ps_Tolerations (ps_Extra u) = ps_Tolerations (ps_Extra v) ∧
  ps_ActiveDeadlineSeconds (ps_Extra u) = ps_ActiveDeadlineSeconds (ps_Extra v) ∧
  (** Undoing these changes gives the host pod again. *)
  {| pod_Meta := set_Labels (Labels (pod_Meta hostPod))
                   (set_Annotations (Annotations (pod_Meta hostPod)) (pod_Meta updated));
     pod_Spec := set_deadline_tolerations (ps_ActiveDeadlineSeconds (ps_Extra h)) (ps_Tolerations (ps_Extra h))
                   (set_containers (ps_Containers h) (ps_InitContainers (ps_Extra h))
                      (ps_EphemeralContainers (ps_Extra u)) u);
     pod_PodIP := pod_PodIP updated; pod_Phase := pod_Phase updated |} = hostPod.
Proof.
  cbv zeta. change (Labels (pod_Meta (update_pod hostPod pod)))
    with (mergeManagedMetadata (Labels (pod_Meta hostPod)) (Labels (pod_Meta pod))).
  change (Annotations (pod_Meta (update_pod hostPod pod)))
    with (mergeManagedMetadata (Annotations (pod_Meta hostPod)) (Annotations (pod_Meta pod))).
  split_and!; try done.
  - intros k v Hk Hv. by rewrite managed_lookup, Hv, Hk.
  - intros k v Hk Hv. by rewrite managed_lookup, Hv, Hk.
  - intros k Hk. rewrite !managed_lookup, Hk. split; by case_match.
  - apply updateContainerImages_spec.
  - apply updateContainerImages_spec.
  - by destruct hostPod as [[] [? ? ? ? ? ? ? ? ? ? ? ? ? ? []] ? ?].
Qed.

(** ** The statistics of the pods *)
Section Stats.
Context {W : Type} `{KU : KubeUtil} (p : Provider W) `{SA : StatsAPI W} `{HL : !ClientLaws (p_host p)}.

(** the statistics that are reported are those of pods of this cluster and of
    this agent, under the name and the namespace of the virtual pod; the UID of
    the reference is always empty. *)
Theorem GetStatsSummary_scoped w summary w' :
  (∀ n, silent (p_host p) (stats_DoRaw n)) →
  GetStatsSummary p w = (Ok summary, w') →
  ∃ res raw, Unmarshal_Summary res = Ok raw ∧ sum_Node summary = sum_Node raw ∧
  ∀ st, st ∈ sum_Pods summary → ∃ hostPod st0,
    store w !! (("Pod", key_of (pod_Meta hostPod)) : ObjKey) = Some (OPod hostPod) ∧
    selected (host_pods_options p) (OPod hostPod) = true ∧
    st0 ∈ sum_Pods raw ∧ ref_Namespace (pst_PodRef st0) = clusterNamespace p ∧
    let m := TranslateFrom (pod_Meta hostPod) in
    ref_Name (pst_PodRef st0) = TranslateName (translator p) (Namespace m) (Name m) ∧
    st = set_PodRef {| ref_Name := Name m; ref_Namespace := Namespace m; ref_UID := "" |} st0.
Proof.
  intros Hsil. unfold GetStatsSummary. intros (node & w1 & E1 & E)%bind_inv_ok.
  apply (Get_run (p_host p)) in E1 as (Hs1 & _).
  apply bind_inv_ok in E as (res & w2 & E2 & E). apply Hsil in E2.
  apply bind_inv_ok in E as (raw & w3 & E3 & E). injection E3 as Hraw <-.
  unfold GetPods in E. apply bind_inv_ok in E as (pods & w4 & E4 & E).
  apply bind_inv_ok in E4 as (hostPods & w5 & E4 & [= <- <-]). injection E as <- <-.
  apply (List_run (p_host p)) in E4 as (_ & _ & _ & Hin); [|done]. rewrite E2, Hs1 in Hin.
  exists res, raw. split; [done|]. split; [done|]. cbn [sum_Pods]. intros st Hst.
  unfold filter_stats in Hst. apply list_elem_of_omap in Hst as (st0 & Hst0 & Hst).
  case_decide as Hns; [done|].
  destruct (pods_by_host_name p (map translate_pod hostPods) !! _) as [vp|] eqn:Hvp; [|done]. injection Hst as <-.
  apply (filled_elem (λ pod, TranslateName (translator p) (Namespace (pod_Meta pod)) (Name (pod_Meta pod))) id) in Hvp
    as (vp' & Hvp & Hname & <-).
  apply list_elem_of_fmap in Hvp as (hostPod & -> & Hhp). apply Hin in Hhp as [Hhp Hsel].
  exists hostPod, st0. split_and!; try done.
Qed.
End Stats.

(** ** A concrete environment *)
Import Lab.

#[export] Instance lab_range : MapRange := key_order.
#[export] Instance lab_range_law : MapRangeLaw := key_order_law.
#[export] Instance lab_poller : Poller world := loop_poller world 0.
#[export] Instance lab_poller_law : PollerLaw world := loop_poller_law world 0.

#[export] Instance lab_stats : StatsAPI world := {
  stats_DoRaw n := mret n;
  Unmarshal_Summary s := Ok {| sum_Node := {| nst_CPU := None; nst_Memory := None; nst_rest := JStr s |}; sum_Pods :=
    [{| pst_PodRef := {| ref_Name := TranslateName (translator lab_provider) "default" "web";
                         ref_Namespace := "team"; ref_UID := "u" |};
        pst_Containers := [{| cst_Name := "app"; cst_StartTime := 0;
          cst_CPU := Some {| cpu_Time := 2 * nano; cpu_UsageCoreNanoSeconds := Some 1500000000 |};
          cst_Memory := Some {| mem_Time := 2 * nano; mem_WorkingSetBytes := None |} |}];
        pst_CPU := None; pst_Memory := Some {| mem_Time := 2 * nano; mem_WorkingSetBytes := Some 4096 |};
        pst_rest := JNull |};
     {| pst_PodRef := {| ref_Name := "other"; ref_Namespace := "team"; ref_UID := "v" |};
        pst_Containers := []; pst_CPU := None; pst_Memory := None; pst_rest := JNull |}] |} }.

Lemma lab_silent_token ns n req : silent (p_host lab_provider) (CreateToken ns n req).
Proof. by intros w r w' [= _ <-]. Qed.
Lemma lab_silent_now : silent (p_host lab_provider) time_Now.
Proof. by intros w r w' [= _ <-]. Qed.

Lemma lab_silent_stats n : silent (p_host lab_provider) (stats_DoRaw n).
Proof. by intros w r w' [= _ <-]. Qed.

(** A pod with a second volume of the reserved name, whose secret is not one of
    the virtual cluster. *)
Definition intruder_pod : Pod := pod_with [
  access_volume "kube-api-access-a";
  {| vol_Name := "kube-api-access-b";
     vol_Source := SecretSource {| svs_SecretName := "k3k-dev-bootstrap"; svs_Items := []; svs_Optional := None |} |}].
Definition intruder_world : world := (objects [OCluster tenant], objects [root_ca; OPod intruder_pod]).
Definition created (w : world) (pod : Pod) : option Pod :=
  let n := NamespacedName_of (translator lab_provider) (pod_Meta pod) in
  match (createPod lab_provider pod w).2.1 with
  | m => mem_objects m !! (("Pod", n) : ObjKey) ≫= prj
  end.

(** the reserved prefix is a way around the translation: a pod with two volumes
    of that prefix is created with the second one as it is, and mounts a secret of
    the host namespace that belongs to the cluster itself. *)
Theorem second_access_volume_untranslated :
  (createPod lab_provider intruder_pod intruder_world).1 = Ok tt ∧
  ∃ stored, created intruder_world intruder_pod = Some stored ∧ "k3k-dev-bootstrap" ∈ pod_refs (pod_Spec stored).
Proof.
  split; [by vm_compute|]. destruct (created intruder_world intruder_pod) as [stored|] eqn:E.
  - exists stored. split; [done|].
    assert (existsb (λ r, bool_decide (r = "k3k-dev-bootstrap"))
              (from_option (λ s, pod_refs (pod_Spec s)) [] (created intruder_world intruder_pod)) = true) as H
      by (by vm_compute).
    rewrite E in H. apply existsb_true_iff in H as (r & Hr & ->%bool_decide_eq_true). done.
  - assert (bool_decide (created intruder_world intruder_pod = None) = false) as H by (by vm_compute).
    by rewrite E in H.
Qed.

(** ** Witnesses *)
Definition web_key : ObjKey := ("Pod", NamespacedName_of (translator lab_provider) (pod_Meta web_pod)).


Lemma created_pod_reported_witness :
  ∃ w' pod' w1, createPod lab_provider web_pod token_world = (Ok tt, w') ∧
    GetPod lab_provider "default" "web" w' = (Ok pod', w1) ∧ Name (pod_Meta pod') = "web".
Proof.
  destruct (createPod lab_provider web_pod token_world) as [r w'] eqn:E.
  assert (r = Ok tt) as ->. { change r with (r, w').1. rewrite <- E. vm_compute. reflexivity. }
  assert (mem_up w'.1 = true) as Hup.
  { change w' with (@Ok unit tt, w').2. rewrite <- E. vm_compute. reflexivity. }
  destruct (created_pod_reported lab_provider lab_silent_token lab_silent_now eq_refl eq_refl web_pod token_world w'
    ltac:(done) E Hup) as (pod' & w1 & pods & w2 & H1 & _ & _ & H2 & _).
  exists w', pod', w1. split; [reflexivity|]. split; [exact H1|exact H2].
Defined.

Lemma mergeEnvVars_spec_witness :
  let var n v := {| env_Name := n; env_Value := v; env_ValueFrom := None |} in
  let orig := [var "A" "1"; var "KUBERNETES_SERVICE_HOST" "mine"] in
  NoDup (map env_Name orig) ∧ NoDup (map env_Name (mergeEnvVars orig (updated_env_vars "10.43.0.1"))) ∧
  ∃ added, mergeEnvVars orig (updated_env_vars "10.43.0.1") =
    (var "A" "1" :: var "KUBERNETES_SERVICE_HOST" "10.43.0.1" :: added)%list.
Proof.
  intros var orig. assert (NoDup (map env_Name orig)) as Ho by (apply (bool_decide_unpack _); vm_compute; exact I).
  destruct (mergeEnvVars_spec orig (updated_env_vars "10.43.0.1")) as [(added & Hres & _) H2].
  split; [exact Ho|]. split; [exact (proj1 (H2 Ho))|]. exists added. exact Hres.
Defined.

(** An operation that fails while the host is down. *)
Lemma withRetry_ends_witness :
  let w : world := ({| mem_store := ∅; mem_up := false |}, objects []) in
  ∃ e, withRetry (deletePod lab_provider) web_pod w = (Err e, w) ∧
  ∃ es w1, failures (deletePod lab_provider web_pod) es w w1 ∧ (length es ≤ 11)%nat ∧ w = w1 ∧ (1 ≤ length es)%nat ∧
    ∃ all, accumulated es None = Some all ∧ e = EJoin [all; ErrRetryTimeout].
Proof.
  intros w. destruct (withRetry (deletePod lab_provider) web_pod w) as [r w'] eqn:E.
  assert (w' = w) as ->. { change w' with (r, w').2. rewrite <- E. vm_compute. reflexivity. }
  destruct r as [[]|e|]; [exfalso; apply (f_equal fst) in E; vm_compute in E; discriminate| |
    exfalso; apply (f_equal fst) in E; vm_compute in E; discriminate].
  exists e. split; [reflexivity|].
  destruct (withRetry_ends (deletePod lab_provider) web_pod w (Err e) w E) as (es & w1 & H1 & H2 & H3 & H4 & H5).
  by exists es, w1.
Defined.

Lemma GetStatsSummary_scoped_witness :
  ∃ summary w', GetStatsSummary lab_provider (objects [OPod host_web_pod; ONode {| node_Meta := meta_of "" "node-1";
      node_PodCIDR := ""; node_PodCIDRs := []; node_Addresses := []; node_Capacity := None; node_Allocatable := None;
      node_Extra := no_node_extra |}],
      objects []) = (Ok summary, w') ∧
  ∃ res raw, Unmarshal_Summary res = Ok raw ∧ sum_Node summary = sum_Node raw.
Proof.
  destruct (GetStatsSummary lab_provider _) as [r w'] eqn:E.
  assert (match r with Ok _ => true | _ => false end = true) as Hr.
  { change r with (r, w').1. rewrite <- E. vm_compute. reflexivity. }
  destruct r as [summary|e|]; [|done..]. exists summary, w'. split; [reflexivity|].
  destruct (GetStatsSummary_scoped lab_provider _ summary w' lab_silent_stats E)
    as (res & raw & H1 & H2 & _).
  exists res, raw. split; [exact H1|exact H2].
Defined.

End Pods.
