(* ===== verification/Metrics.v ===== *)
(** * The resource metrics of the virtual node
      (k3k-kubelet/provider/collectors/kubelet_resource_metrics.go and
      GetMetricsResource of k3k-kubelet/provider/provider.go)

    The values are IEEE 754 numbers of 64 bits, rounded to nearest even as Go
    rounds them; a metric is what the collector sends on its channel, in order.
    The registry that gathers them is a parameter. *)

From Stdlib Require Import SpecFloat.
From S2P Require Import Prelude GoStd GoDate Waiting K8s Types Kube Effects Names Translate Tokens Pods Lab.

Local Open Scope string_scope.
Local Open Scope Z_scope.

Module Metrics.
Import Names Translate GoDate Waiting Tokens Pods.

(** [float64(n)] and the division of two float64. *)
Definition float64 (n : Z) : spec_float := binary_normalize 53 1024 n 0 false.
Definition fdiv (x y : spec_float) : spec_float := SFdiv 53 1024 x y.

(** ** Metrics *)
Record Desc : Type := { desc_Name : string; desc_Help : string; desc_Labels : list string }.

Inductive ValueType : Set := CounterValue | GaugeValue.

Record Metric : Type := {
  met_Desc : Desc;
  met_Type : ValueType;
  met_Value : spec_float;
  met_Labels : list string;      (* the values of the labels *)
  met_Time : option Time;
}.

Definition NewLazyConstMetric (desc : Desc) (type : ValueType) (value : spec_float) (labels : list string) : Metric :=
  {| met_Desc := desc; met_Type := type; met_Value := value; met_Labels := labels; met_Time := None |}.
Definition NewLazyMetricWithTimestamp (t : Time) (m : Metric) : Metric :=
  {| met_Desc := met_Desc m; met_Type := met_Type m; met_Value := met_Value m; met_Labels := met_Labels m;
     met_Time := Some t |}.

Definition nodeCPUUsageDesc : Desc := {|
  desc_Name := "node_cpu_usage_seconds_total"; desc_Help := "Cumulative cpu time consumed by the node in core-seconds";
  desc_Labels := [] |}.
Definition nodeMemoryUsageDesc : Desc := {|
  desc_Name := "node_memory_working_set_bytes"; desc_Help := "Current working set of the node in bytes";
  desc_Labels := [] |}.
Definition containerCPUUsageDesc : Desc := {|
  desc_Name := "container_cpu_usage_seconds_total";
  desc_Help := "Cumulative cpu time consumed by the container in core-seconds";
  desc_Labels := ["container"; "pod"; "namespace"] |}.
Definition containerMemoryUsageDesc : Desc := {|
  desc_Name := "container_memory_working_set_bytes"; desc_Help := "Current working set of the container in bytes";
  desc_Labels := ["container"; "pod"; "namespace"] |}.
Definition podCPUUsageDesc : Desc := {|
  desc_Name := "pod_cpu_usage_seconds_total"; desc_Help := "Cumulative cpu time consumed by the pod in core-seconds";
  desc_Labels := ["pod"; "namespace"] |}.
Definition podMemoryUsageDesc : Desc := {|
  desc_Name := "pod_memory_working_set_bytes"; desc_Help := "Current working set of the pod in bytes";
  desc_Labels := ["pod"; "namespace"] |}.
Definition resourceScrapeResultDesc : Desc := {|
  desc_Name := "scrape_error"; desc_Help := "1 if there was an error while getting container metrics, 0 otherwise";
  desc_Labels := [] |}.
Definition containerStartTimeDesc : Desc := {|
  desc_Name := "container_start_time_seconds"; desc_Help := "Start time of the container since unix epoch in seconds";
  desc_Labels := ["container"; "pod"; "namespace"] |}.

Definition DescribeWithStability : list Desc := [
  nodeCPUUsageDesc; nodeMemoryUsageDesc; containerStartTimeDesc; containerCPUUsageDesc; containerMemoryUsageDesc;
  podCPUUsageDesc; podMemoryUsageDesc; resourceScrapeResultDesc].

(** ** The collector *)

(** The guards [s.CPU == nil || s.CPU.UsageCoreNanoSeconds == nil] and the like. *)
Definition cpu_metric (desc : Desc) (labels : list string) (cpu : option CPUStats) : list Metric :=
  match cpu with
  | Some {| cpu_Time := t; cpu_UsageCoreNanoSeconds := Some usage |} =>
      [NewLazyMetricWithTimestamp t
        (NewLazyConstMetric desc CounterValue (fdiv (float64 usage) (float64 Second)) labels)]
  | _ => []
  end.

Definition memory_metric (desc : Desc) (labels : list string) (memory : option MemoryStats) : list Metric :=
  match memory with
  | Some {| mem_Time := t; mem_WorkingSetBytes := Some bytes |} =>
      [NewLazyMetricWithTimestamp t (NewLazyConstMetric desc GaugeValue (float64 bytes) labels)]
  | _ => []
  end.

Definition collectNodeCPUMetrics (s : NodeStats) : list Metric := cpu_metric nodeCPUUsageDesc [] (nst_CPU s).
Definition collectNodeMemoryMetrics (s : NodeStats) : list Metric := memory_metric nodeMemoryUsageDesc [] (nst_Memory s).

Definition container_labels (pod : PodStats) (s : ContainerStats) : list string :=
  [cst_Name s; ref_Name (pst_PodRef pod); ref_Namespace (pst_PodRef pod)].
Definition pod_labels (pod : PodStats) : list string :=
  [ref_Name (pst_PodRef pod); ref_Namespace (pst_PodRef pod)].

(** [Unix] drops the fraction of a second, [UnixNano] is an int64. *)
Definition collectContainerStartTime (pod : PodStats) (s : ContainerStats) : list Metric :=
  if cst_StartTime s / nano <=? 0 then []
  else [NewLazyMetricWithTimestamp (cst_StartTime s)
         (NewLazyConstMetric containerStartTimeDesc GaugeValue
           (fdiv (float64 (int64 (cst_StartTime s))) (float64 Second)) (container_labels pod s))].
Definition collectContainerCPUMetrics (pod : PodStats) (s : ContainerStats) : list Metric :=
  cpu_metric containerCPUUsageDesc (container_labels pod s) (cst_CPU s).
Definition collectContainerMemoryMetrics (pod : PodStats) (s : ContainerStats) : list Metric :=
  memory_metric containerMemoryUsageDesc (container_labels pod s) (cst_Memory s).
Definition collectPodCPUMetrics (pod : PodStats) : list Metric := cpu_metric podCPUUsageDesc (pod_labels pod) (pst_CPU pod).
Definition collectPodMemoryMetrics (pod : PodStats) : list Metric :=
  memory_metric podMemoryUsageDesc (pod_labels pod) (pst_Memory pod).

Definition collect_container (pod : PodStats) (s : ContainerStats) : list Metric :=
  (collectContainerStartTime pod s ++ collectContainerCPUMetrics pod s ++ collectContainerMemoryMetrics pod s)%list.
Definition collect_pod (pod : PodStats) : list Metric :=
  ((pst_Containers pod ≫= collect_container pod) ++ collectPodCPUMetrics pod ++ collectPodMemoryMetrics pod)%list.

(** The count of the errors is sent last, by a deferred function; nothing
    increments it. *)
Definition CollectWithStability (summary : Summary) : list Metric :=
  (collectNodeCPUMetrics (sum_Node summary) ++ collectNodeMemoryMetrics (sum_Node summary) ++
   (sum_Pods summary ≫= collect_pod) ++
   [NewLazyConstMetric resourceScrapeResultDesc GaugeValue (float64 0) []])%list.

(** ** GetMetricsResource *)

(** [registry.Gather] over a new registry with one collector. *)
Class Registry (MetricFamily : Type) := { Gather : list Metric → outcome (list MetricFamily) }.

Definition GetMetricsResource {W MetricFamily} `{KubeUtil} (p : Provider W) `{StatsAPI W} `{Registry MetricFamily} :
    M W (list MetricFamily) :=
  statsSummary ← GetStatsSummary p;
  lift (Gather (CollectWithStability statsSummary)).

#[local] Set Default Proof Using "Type*".

(** ** What is collected *)

(** A time series: the name of a metric and the values of its labels. *)
Definition series (m : Metric) : string * list string := (desc_Name (met_Desc m), met_Labels m).

(** The value of a label. *)
Definition label (l : string) (m : Metric) : option string :=
  snd <$> List.find (λ kv, bool_decide (kv.1 = l)) (zip (desc_Labels (met_Desc m)) (met_Labels m)).

Lemma cpu_metric_elem m desc labels cpu :
  m ∈ cpu_metric desc labels cpu → met_Desc m = desc ∧ met_Labels m = labels.
Proof. destruct cpu as [[t [u|]]|]; cbn; try (by intros ?%elem_of_nil). by intros ->%list_elem_of_singleton. Qed.

Lemma memory_metric_elem m desc labels memory :
  m ∈ memory_metric desc labels memory → met_Desc m = desc ∧ met_Labels m = labels.
Proof. destruct memory as [[t [u|]]|]; cbn; try (by intros ?%elem_of_nil). by intros ->%list_elem_of_singleton. Qed.

Lemma start_metric_elem m pod s :
  m ∈ collectContainerStartTime pod s → met_Desc m = containerStartTimeDesc ∧ met_Labels m = container_labels pod s.
Proof.
  unfold collectContainerStartTime. case_match; [by intros ?%elem_of_nil|]. by intros ->%list_elem_of_singleton.
Qed.

Lemma collect_container_elem m pod s :
  m ∈ collect_container pod s →
  met_Desc m ∈ [containerStartTimeDesc; containerCPUUsageDesc; containerMemoryUsageDesc] ∧
  met_Labels m = container_labels pod s.
Proof.
  unfold collect_container. rewrite !elem_of_app.
  intros [[-> ->]%start_metric_elem|[[-> ->]%cpu_metric_elem|[-> ->]%memory_metric_elem]]; split; set_solver.
Qed.

Lemma collect_pod_elem m pod :
  m ∈ collect_pod pod →
  (∃ s, s ∈ pst_Containers pod ∧ m ∈ collect_container pod s) ∨
  (met_Desc m ∈ [podCPUUsageDesc; podMemoryUsageDesc] ∧ met_Labels m = pod_labels pod).
Proof.
  unfold collect_pod. rewrite !elem_of_app, list_elem_of_bind.
  intros [(s & Hm & Hs)|[[-> ->]%cpu_metric_elem|[-> ->]%memory_metric_elem]];
    [left; by exists s|right; split; set_solver..].
Qed.

(** Elements of a list whose keys are distinct are determined by their keys. *)
Lemma key_inj {A B} (key : A → B) (l : list A) x y :
  NoDup (key <$> l) → x ∈ l → y ∈ l → key x = key y → x = y.
Proof.
  intros Hnd (i & Hi)%list_elem_of_lookup (j & Hj)%list_elem_of_lookup Hk.
  assert (i = j) as ->; [|congruence].
  eapply NoDup_lookup; [exact Hnd| |]; rewrite list_lookup_fmap; [by rewrite Hi|by rewrite Hj, Hk].
Qed.

Lemma NoDup_bind_key {A B C} (key : A → B) (f : A → list C) (l : list A) :
  NoDup (key <$> l) →
  (∀ x, x ∈ l → NoDup (f x)) →
  (∀ x1 x2 y, y ∈ f x1 → y ∈ f x2 → key x1 = key x2) → NoDup (l ≫= f).
Proof.
  intros Hnd Hf Hk. apply NoDup_bind; [|done|by eapply NoDup_fmap_1].
  intros x1 x2 y H1 H2 Hy1 Hy2. eapply key_inj; [done..|]. by eapply Hk.
Qed.

Lemma fmap_bind_list {A B C} (g : B → C) (f : A → list B) (l : list A) :
  g <$> (l ≫= f) = l ≫= (λ x, g <$> f x).
Proof. induction l as [|x l IH]; [done|]. cbn. by rewrite fmap_app, IH. Qed.

Lemma one_metric_nodup (l : list Metric) : (length l ≤ 1)%nat → NoDup (series <$> l).
Proof. destruct l as [|m [|]]; cbn; [constructor|intros _; apply NoDup_singleton|lia]. Qed.
Lemma cpu_metric_length desc labels cpu : (length (cpu_metric desc labels cpu) ≤ 1)%nat.
Proof. destruct cpu as [[t [u|]]|]; cbn; lia. Qed.
Lemma memory_metric_length desc labels memory : (length (memory_metric desc labels memory) ≤ 1)%nat.
Proof. destruct memory as [[t [u|]]|]; cbn; lia. Qed.
Lemma start_metric_length pod s : (length (collectContainerStartTime pod s) ≤ 1)%nat.
Proof. unfold collectContainerStartTime. case_match; cbn; lia. Qed.

(** Two groups of metrics with other names do not meet. *)
Lemma nodup_series_app (l1 l2 : list Metric) :
  NoDup (series <$> l1) → NoDup (series <$> l2) →
  (∀ m1 m2, m1 ∈ l1 → m2 ∈ l2 → series m1 ≠ series m2) → NoDup (series <$> (l1 ++ l2)%list).
Proof.
  intros H1 H2 Hd. rewrite fmap_app. apply NoDup_app. split_and!; [done| |done].
  intros y (m1 & -> & Hm1)%list_elem_of_fmap (m2 & Heq & Hm2)%list_elem_of_fmap. by eapply Hd.
Qed.

Lemma container_nodup pod s : NoDup (series <$> collect_container pod s).
Proof.
  unfold collect_container. repeat apply nodup_series_app;
    try (apply one_metric_nodup; first [apply start_metric_length|apply cpu_metric_length|apply memory_metric_length]).
  - intros m1 m2 [H1 _]%cpu_metric_elem [H2 _]%memory_metric_elem. unfold series. by rewrite H1, H2.
  - intros m1 m2 [H1 _]%start_metric_elem. rewrite elem_of_app. unfold series. rewrite H1.
    intros [[H2 _]%cpu_metric_elem|[H2 _]%memory_metric_elem]; by rewrite H2.
Qed.

Lemma pod_nodup pod :
  NoDup (cst_Name <$> pst_Containers pod) → NoDup (series <$> collect_pod pod).
Proof.
  intros Hnd. unfold collect_pod. repeat apply nodup_series_app;
    try (apply one_metric_nodup; first [apply cpu_metric_length|apply memory_metric_length]).
  - rewrite fmap_bind_list. eapply NoDup_bind_key; [exact Hnd|intros s _; apply container_nodup|].
    intros s1 s2 y (m1 & -> & [_ H1]%collect_container_elem)%list_elem_of_fmap
      (m2 & Heq & [_ H2]%collect_container_elem)%list_elem_of_fmap.
    unfold series in Heq. rewrite H1, H2 in Heq. by injection Heq.
  - intros m1 m2 [H1 _]%cpu_metric_elem [H2 _]%memory_metric_elem. unfold series. by rewrite H1, H2.
  - intros m1 m2 (s & [_ H1]%collect_container_elem & _)%list_elem_of_bind. rewrite elem_of_app. unfold series.
    rewrite H1. intros [[_ H2]%cpu_metric_elem|[_ H2]%memory_metric_elem]; rewrite H2; by intros [= _ ?].
Qed.

Definition pod_key (pod : PodStats) : string * string :=
  (ref_Name (pst_PodRef pod), ref_Namespace (pst_PodRef pod)).

Lemma collect_pod_labels m pod :
  m ∈ collect_pod pod → ∃ pre, met_Labels m = (pre ++ pod_labels pod)%list ∧ (length pre ≤ 1)%nat ∧
    length (desc_Labels (met_Desc m)) = length (met_Labels m) ∧ met_Desc m ∈ DescribeWithStability ∧
    label "pod" m = Some (ref_Name (pst_PodRef pod)) ∧ label "namespace" m = Some (ref_Namespace (pst_PodRef pod)).
Proof.
  unfold label. intros [(s & _ & [Hd Hl]%collect_container_elem)|[Hd Hl]]%collect_pod_elem.
  - exists [cst_Name s]. rewrite Hl. split; [done|]. split; [done|].
    assert (met_Desc m ∈ DescribeWithStability) as Hin by set_solver.
    repeat apply elem_of_cons in Hd as [Hd|Hd]; [rewrite Hd in *; by split_and!..|by apply elem_of_nil in Hd].
  - exists []. rewrite Hl. split; [done|]. split; [cbn; lia|].
    assert (met_Desc m ∈ DescribeWithStability) as Hin by set_solver.
    repeat apply elem_of_cons in Hd as [Hd|Hd]; [rewrite Hd in *; by split_and!..|by apply elem_of_nil in Hd].
Qed.

Lemma pods_nodup pods :
  NoDup (pod_key <$> pods) → (∀ pod, pod ∈ pods → NoDup (cst_Name <$> pst_Containers pod)) →
  NoDup (series <$> (pods ≫= collect_pod)).
Proof.
  intros Hk Hc. rewrite fmap_bind_list. eapply NoDup_bind_key; [exact Hk|intros pod Hp; by apply pod_nodup, Hc|].
  intros p1 p2 y (m1 & -> & (l1 & E1 & _)%collect_pod_labels)%list_elem_of_fmap
    (m2 & Heq & (l2 & E2 & _)%collect_pod_labels)%list_elem_of_fmap.
  unfold series in Heq. rewrite E1, E2 in Heq. injection Heq as _ Heq.
  apply app_inj_2 in Heq as [_ Heq]; [|done]. injection Heq as Hn Hns. unfold pod_key. by rewrite Hn, Hns.
Qed.

(** The metrics of one collection: the series are distinct, and each metric has
    a value for every label of its description. *)
Lemma CollectWithStability_nodup summary :
  NoDup (pod_key <$> sum_Pods summary) →
  (∀ pod, pod ∈ sum_Pods summary → NoDup (cst_Name <$> pst_Containers pod)) →
  NoDup (series <$> CollectWithStability summary).
Proof.
  intros Hk Hc. unfold CollectWithStability, collectNodeCPUMetrics, collectNodeMemoryMetrics.
  repeat apply nodup_series_app;
    try (apply one_metric_nodup; first [apply cpu_metric_length|apply memory_metric_length|cbn; lia]).
  - by apply pods_nodup.
  - intros m1 m2 (pod & (pre & E1 & _)%collect_pod_labels & _)%list_elem_of_bind ->%list_elem_of_singleton.
    unfold series. rewrite E1. cbn. intros [= _ Hx]. by destruct pre.
  - intros m1 m2 [H1 H1']%memory_metric_elem. rewrite elem_of_app. unfold series. rewrite H1, H1'.
    intros [(pod & (pre & E1 & _)%collect_pod_labels & _)%list_elem_of_bind| ->%list_elem_of_singleton]; [|done].
    rewrite E1. intros [= _ Hx]. by destruct pre.
  - intros m1 m2 [H1 H1']%cpu_metric_elem. rewrite !elem_of_app. unfold series. rewrite H1, H1'.
    intros [[H2 _]%memory_metric_elem|[(pod & (pre & E1 & _)%collect_pod_labels & _)%list_elem_of_bind|
      ->%list_elem_of_singleton]]; [by rewrite H2| |done].
    rewrite E1. intros [= _ Hx]. by destruct pre.
Qed.

Lemma CollectWithStability_elem m summary :
  m ∈ CollectWithStability summary →
  met_Desc m ∈ DescribeWithStability ∧ length (desc_Labels (met_Desc m)) = length (met_Labels m) ∧
  (label "namespace" m = None ∨
   ∃ pod, pod ∈ sum_Pods summary ∧ label "pod" m = Some (ref_Name (pst_PodRef pod)) ∧
          label "namespace" m = Some (ref_Namespace (pst_PodRef pod))).
Proof.
  unfold CollectWithStability, collectNodeCPUMetrics, collectNodeMemoryMetrics. rewrite !elem_of_app.
  intros [[H1 H2]%cpu_metric_elem|[[H1 H2]%memory_metric_elem|[(pod & Hm & Hp)%list_elem_of_bind| ->%list_elem_of_singleton]]].
  - unfold label. rewrite H1, H2. split; [set_solver|]. split; [done|by left].
  - unfold label. rewrite H1, H2. split; [set_solver|]. split; [done|by left].
  - apply collect_pod_labels in Hm as (pre & _ & _ & Hl & Hd & Hn & Hns). split_and!; [done..|right]. by exists pod.
  - split; [set_solver|]. split; [done|by left].
Qed.

(** *** The pods of the summary *)
Section Scoped.
Context {W MetricFamily : Type} `{KU : KubeUtil} (p : Provider W) `{SA : StatsAPI W} `{RG : Registry MetricFamily}
        `{HL : !ClientLaws (p_host p)}.

(** The key of a virtual pod determines the host pod. *)
Lemma filter_stats_nodup pods l :
  NoDup (pod_key <$> l) → NoDup (pod_key <$> filter_stats p (pods_by_host_name p pods) l).
Proof using.
  intros Hnd. induction l as [|st l IH]; [constructor|]. apply NoDup_cons in Hnd as [Hno Hnd].
  unfold filter_stats in *. cbn [omap list_omap]. case_decide as Hns; [by apply IH|].
  destruct (_ !! _) as [vp|] eqn:Hvp; [|by apply IH]. cbn [mbind option_bind fmap list_fmap].
  apply NoDup_cons. split; [|by apply IH].
  intros (st' & Heq & (st0 & Hst0 & Hst')%list_elem_of_omap)%list_elem_of_fmap. apply Hno.
  case_decide as Hns'; [done|]. destruct (_ !! _) as [vp'|] eqn:Hvp' in Hst'; [|done]. injection Hst' as <-.
  cbn in Heq. injection Heq as Hn Hns2. apply list_elem_of_fmap. exists st0. split; [|done].
  apply (filled_elem _ id) in Hvp as (v & _ & Hk & <-). apply (filled_elem _ id) in Hvp' as (v' & _ & Hk' & <-).
  cbn in *. unfold pod_key. rewrite <- Hk, <- Hk', Hn, Hns2. by rewrite Hns, Hns'.
Qed.

Lemma GetStatsSummary_run w summary w' :
  GetStatsSummary p w = (Ok summary, w') →
  ∃ res raw pods, Unmarshal_Summary res = Ok raw ∧ sum_Node summary = sum_Node raw ∧
    sum_Pods summary = filter_stats p (pods_by_host_name p pods) (sum_Pods raw).
Proof using.
  unfold GetStatsSummary. intros (node & w1 & _ & E)%bind_inv_ok.
  apply bind_inv_ok in E as (res & w2 & _ & E). apply bind_inv_ok in E as (raw & w3 & [= Hraw <-] & E).
  apply bind_inv_ok in E as (pods & w4 & _ & [= <- <-]). by exists res, raw, pods.
Qed.

(** C34: the metrics of the virtual node: every metric is one that the collector
    describes and has a value for each of its labels; one that is labelled with
    a pod is labelled with the name and the namespace of a virtual pod whose
    host pod is in the store and belongs to this cluster and to this agent; and
    no two metrics are of the same series, so that the registry accepts them,
    as long as the host kubelet names a pod once and a container of it once.
    The last metric says that no error happened, always. *)
Theorem GetMetricsResource_scoped w families w' :
  (∀ n, silent (p_host p) (stats_DoRaw n)) →
  GetMetricsResource p w = (Ok families, w') →
  ∃ res raw metrics, Unmarshal_Summary res = Ok raw ∧ Gather metrics = Ok families ∧
  (∀ m, m ∈ metrics →
     met_Desc m ∈ DescribeWithStability ∧ length (desc_Labels (met_Desc m)) = length (met_Labels m) ∧
     (label "namespace" m = None ∨ ∃ hostPod,
        store w !! (("Pod", key_of (pod_Meta hostPod)) : ObjKey) = Some (OPod hostPod) ∧
        selected (host_pods_options p) (OPod hostPod) = true ∧
        label "pod" m = Some (Name (TranslateFrom (pod_Meta hostPod))) ∧
        label "namespace" m = Some (Namespace (TranslateFrom (pod_Meta hostPod))))) ∧
  (NoDup (pod_key <$> sum_Pods raw) →
   (∀ pod, pod ∈ sum_Pods raw → NoDup (cst_Name <$> pst_Containers pod)) → NoDup (series <$> metrics)) ∧
  last metrics = Some (NewLazyConstMetric resourceScrapeResultDesc GaugeValue (float64 0) []).
Proof.
  intros Hsil. unfold GetMetricsResource. intros (summary & w1 & E1 & [= Hg _])%bind_inv_ok.
  destruct (GetStatsSummary_run _ _ _ E1) as (res & raw & pods & Hraw & Hnode & Hpods).
  exists res, raw, (CollectWithStability summary). split_and!; [done|done| | |].
  - intros m (H1 & H2 & H3)%CollectWithStability_elem. split; [done|]. split; [done|].
    destruct H3 as [?|(pod & Hp & Hn & Hns)]; [by left|right].
    destruct (GetStatsSummary_scoped p w summary w1 Hsil E1) as (res0 & raw0 & _ & _ & Hin).
    destruct (Hin pod Hp) as (hostPod & st0 & Hst & Hsel & _ & _ & _ & E). rewrite E in Hn, Hns. exists hostPod. split_and!; [exact Hst|exact Hsel|exact Hn|exact Hns].
  - intros Hk Hc. apply CollectWithStability_nodup; rewrite Hpods; [by apply filter_stats_nodup|].
    intros pod (st0 & Hst0 & Hst)%list_elem_of_omap. case_decide; [done|].
    destruct (_ !! _) as [vp|]; [|done]. injection Hst as <-. exact (Hc st0 Hst0).
  - unfold CollectWithStability. by rewrite !app_assoc, last_snoc.
Qed.
End Scoped.

(** ** A concrete environment: the registry keeps the metrics as they are *)
Import Lab.

#[export] Instance lab_registry : Registry Metric := {| Gather := Ok |}.

Definition own_web_pod : Pod := with_meta {|
  Name := TranslateName (translator lab_provider) "default" "web"; Namespace := "team";
  Labels := map_lit [(ClusterNameLabel, "dev"); (AgentNameLabel, "node-1")];
  Annotations := map_lit [(ResourceNameAnnotation, "web"); (ResourceNamespaceAnnotation, "default")];
  OwnerReferences := []; Finalizers := []; ResourceVersion := "1"; UID := "u"; DeletionTimestamp := None |} host_web_pod.

Definition metered : world := (objects [OPod own_web_pod; ONode {| node_Meta := meta_of "" "node-1";
  node_PodCIDR := ""; node_PodCIDRs := []; node_Addresses := []; node_Capacity := None; node_Allocatable := None;
  node_Extra := no_node_extra |}],
  objects []).

(** One and a half seconds of processor time. *)
Example half_second : fdiv (float64 1500000000) (float64 Second) = S754_finite false 6755399441055744 (-52).
Proof. vm_compute. reflexivity. Qed.

Lemma GetMetricsResource_scoped_witness :
  ∃ metrics w', GetMetricsResource lab_provider metered = (Ok metrics, w') ∧
  length metrics = 3%nat ∧ last metrics = Some (NewLazyConstMetric resourceScrapeResultDesc GaugeValue (float64 0) []).
Proof.
  destruct (GetMetricsResource (MetricFamily := Metric) lab_provider metered) as [r w'] eqn:E.
  assert (match r with Ok l => bool_decide (length l = 3%nat) | _ => false end = true) as Hr.
  { change r with (r, w').1. rewrite <- E. vm_compute. reflexivity. }
  destruct r as [metrics|e|]; [|discriminate..]. exists metrics, w'. split; [reflexivity|].
  split; [exact (bool_decide_eq_true_1 _ Hr)|].
  destruct (GetMetricsResource_scoped lab_provider metered metrics w' lab_silent_stats E)
    as (res & raw & ms & _ & Hg & _ & _ & Hl).
  injection Hg as ->. exact Hl.
Defined.
End Metrics.
