(* ===== verification/Streams.v ===== *)
(** * The streams of a container (k3k-kubelet/provider/provider.go and util.go)

    The logs of a container, the commands run in it and the terminals attached to
    it: what the provider asks of the host cluster.  The requests themselves and
    the SPDY executors are parameters; the forwarding of ports is in Forward.v. *)

From S2P Require Import Prelude GoStd GoDate Sha256 Waiting K8s Types Kube Effects Names Translate Tokens Lab.

Local Open Scope string_scope.
Local Open Scope Z_scope.

Module Streams.
Import Names Translate GoDate Tokens.

(** ** Requests to the host cluster *)

(** A POST on a subresource of a pod, with its parameters. *)
Record PodExecOptions : Type := {
  po_Container : string; po_Command : list string; po_TTY : bool;
  po_Stdin : bool; po_Stdout : bool; po_Stderr : bool;
}.

Record PodRequest : Type := {
  rq_Name : string; rq_Namespace : string; rq_SubResource : string; rq_Params : option PodExecOptions;
}.

Record PodLogOptions : Type := {
  lg_Container : string; lg_Timestamps : bool; lg_Follow : bool; lg_Previous : bool;
  lg_TailLines : option Z; lg_LimitBytes : option Z; lg_SinceSeconds : option Z; lg_SinceTime : option Time;
}.

(** [api.ContainerLogOpts] of the virtual kubelet; the zero time is [None]. *)
Record ContainerLogOpts : Type := {
  Tail : Z; LimitBytes : Z; SinceSeconds : Z; Timestamps : bool; Follow : bool; Previous : bool;
  SinceTime : option Time;
}.

(** [api.AttachIO]: the ends that are nil are [None]; the channel of the sizes
    of the terminal is the list of what it will deliver before it is closed. *)
Record TermSize : Type := { Width : Z; Height : Z }.

Record AttachIO (stream : Type) : Type := {
  io_Stdin : option stream; io_Stdout : option stream; io_Stderr : option stream;
  io_TTY : bool; io_Resize : list TermSize;
}.
Arguments io_Stdin {stream}. Arguments io_Stdout {stream}. Arguments io_Stderr {stream}.
Arguments io_TTY {stream}. Arguments io_Resize {stream}.

(** [translatorSizeQueue.Next] receives from the channel: nil once it is
    closed. *)
Definition Next (resizeChan : list TermSize) : option TermSize * list TermSize :=
  match resizeChan with
  | size :: rest => (Some {| Width := Width size; Height := Height size |}, rest)
  | [] => (None, [])
  end.

(** [remotecommand.StreamOptions], with the sizes the executor will read. *)
Record StreamOptions (stream : Type) : Type := {
  so_Stdin : option stream; so_Stdout : option stream; so_Stderr : option stream; so_Tty : bool;
  so_TerminalSizeQueue : list TermSize;
}.
Arguments so_Stdin {stream}. Arguments so_Stdout {stream}. Arguments so_Stderr {stream}.
Arguments so_Tty {stream}. Arguments so_TerminalSizeQueue {stream}.

(** [GetLogs(...).Stream], [remotecommand.NewSPDYExecutor] with the URL of a
    request, and [StreamWithContext] of the executor; [streamed] is the list of
    the requests that were streamed. *)
Class PodStreams (W stream : Type) := {
  logs_Stream : string → string → PodLogOptions → M W stream;
  NewSPDYExecutor : PodRequest → outcome PodRequest;
  StreamWithContext : PodRequest → StreamOptions stream → M W unit;
  streamed : W → list PodRequest;
}.

(** An executor sends the request it was made for; its stream, whether it fails
    or not, is one request. *)
Class PodStreamsLaws (W stream : Type) `{PodStreams W stream} : Prop := {
  executor_url req e : NewSPDYExecutor req = Ok e → e = req;
  stream_once req opts w r w' : StreamWithContext req opts w = (r, w') →
    streamed w' = (streamed w ++ [req])%list;
}.

Section Provider.
Context {W stream : Type} `{PS : PodStreams W stream} (p : Provider W).

Definition non_zero (n : Z) : option Z := if decide (n ≠ 0) then Some n else None.

(** ** GetContainerLogs *)
Definition log_options (containerName : string) (opts : ContainerLogOpts) : PodLogOptions := {|
  lg_Container := containerName; lg_Timestamps := Timestamps opts; lg_Follow := Follow opts;
  lg_Previous := Previous opts; lg_TailLines := non_zero (Tail opts); lg_LimitBytes := non_zero (LimitBytes opts);
  lg_SinceSeconds := non_zero (SinceSeconds opts); lg_SinceTime := SinceTime opts |}.

Definition GetContainerLogs (namespace name containerName : string) (opts : ContainerLogOpts) : M W stream :=
  let hostPodName := TranslateName (translator p) namespace name in
  logs_Stream (clusterNamespace p) hostPodName (log_options containerName opts).

(** ** RunInContainer and AttachToContainer *)
Definition is_some {A} (o : option A) : bool := match o with Some _ => true | None => false end.

Definition pod_request (subResource containerName namespace name : string) (cmd : list string)
    (attach : AttachIO stream) : PodRequest := {|
  rq_Name := TranslateName (translator p) namespace name; rq_Namespace := clusterNamespace p;
  rq_SubResource := subResource;
  rq_Params := Some {|
    po_Container := containerName; po_Command := cmd; po_TTY := io_TTY attach; po_Stdin := is_some (io_Stdin attach);
    po_Stdout := is_some (io_Stdout attach); po_Stderr := is_some (io_Stderr attach) |} |}.

Definition stream_options (attach : AttachIO stream) : StreamOptions stream := {|
  so_Stdin := io_Stdin attach; so_Stdout := io_Stdout attach; so_Stderr := io_Stderr attach;
  so_Tty := io_TTY attach; so_TerminalSizeQueue := io_Resize attach |}.

Definition RunInContainer (namespace name containerName : string) (cmd : list string) (attach : AttachIO stream)
    : M W unit :=
  exec ← lift (NewSPDYExecutor (pod_request "exec" containerName namespace name cmd attach));
  StreamWithContext exec (stream_options attach).

(** The parameters of attach have no command. *)
Definition AttachToContainer (namespace name containerName : string) (attach : AttachIO stream) : M W unit :=
  exec ← lift (NewSPDYExecutor (pod_request "attach" containerName namespace name [] attach));
  StreamWithContext exec (stream_options attach).

(** ** PortForward: the request that is dialed (the rest is in Forward.v). *)
Definition port_forward_request (namespace name : string) : PodRequest := {|
  rq_Name := TranslateName (translator p) namespace name; rq_Namespace := clusterNamespace p;
  rq_SubResource := "portforward"; rq_Params := None |}.
End Provider.

(** ** Which pod is reached *)
Section Reach.
Context {W stream : Type} `{PL : PodStreamsLaws W stream} (p : Provider W).

(** The names of the virtual pods that the API server accepts. *)
Definition names_ok (namespace name : string) : Prop := plain name ∧ (namespace = "" ∨ plain namespace).

(** Their full paths are too long for a name, and their digests agree on the
    first 20 bits. *)
Definition collide (ns n ns' n' : string) : Prop :=
  (64 ≤ String.length (host_path (translator p) ns n))%nat ∧ (64 ≤ String.length (host_path (translator p) ns' n'))%nat ∧
  str_take 5 (hex_encode (sha256_Sum256 (host_path (translator p) ns n))) =
  str_take 5 (hex_encode (sha256_Sum256 (host_path (translator p) ns' n'))).

(** a command or a terminal for a container of a virtual pod makes at most one
    request, in the namespace of the cluster, with the streams that the caller
    has; the pod it reaches is the host pod of no other virtual pod, unless two
    shortened names collide.  Without an executor no request is made. *)
Theorem container_streams_reach_own_pod sub ns n c cmd (io : AttachIO stream) w r w' :
  plain (ClusterName (translator p)) → names_ok ns n →
  (sub = "exec" ∧ RunInContainer p ns n c cmd io w = (r, w')) ∨
  (sub = "attach" ∧ cmd = [] ∧ AttachToContainer p ns n c io w = (r, w')) →
  (w' = w ∧ ∃ e, NewSPDYExecutor (pod_request p sub c ns n cmd io) = Err e ∧ r = Err e) ∨
  (w' = w ∧ NewSPDYExecutor (pod_request p sub c ns n cmd io) = Panic ∧ r = Panic) ∨
  ∃ req params, streamed w' = (streamed w ++ [req])%list ∧ rq_SubResource req = sub ∧
    rq_Namespace req = clusterNamespace p ∧ rq_Params req = Some params ∧ po_Command params = cmd ∧
    (po_Stdin params = true ↔ io_Stdin io ≠ None) ∧
    ∀ ns' n', names_ok ns' n' → TranslateName (translator p) ns' n' = rq_Name req →
      (ns' = ns ∧ n' = n) ∨ collide ns' n' ns n.
Proof.
  intros Hcl [Hn Hns] Hrun.
  assert ((e ← lift (NewSPDYExecutor (pod_request p sub c ns n cmd io)); StreamWithContext e (stream_options io)) w
          = (r, w')) as E by (destruct Hrun as [[-> E]|(-> & -> & E)]; exact E).
  unfold mbind, M_bind, lift in E.
  destruct (NewSPDYExecutor _) as [req|e|] eqn:Ex.
  - right; right. apply executor_url in Ex. subst req. apply stream_once in E.
    eexists _, _. split; [exact E|]. split; [done|]. split; [done|]. split; [done|]. split; [done|].
    split; [cbn; by destruct (io_Stdin io)|].
    intros ns' n' [Hn' Hns'] Heq. unfold collide. cbn in Heq.
    destruct (translate_inj (translator p) ns' n' ns n) as [[-> ->]|Hc]; auto.
  - left. injection E as <- <-. split; [done|]. by exists e.
  - right; left. by injection E as <- <-.
Qed.
End Reach.

(** ** A concrete environment *)
Import Lab.

(** A world and the requests streamed in it. *)
Definition terminal : Type := Lab.world * list PodRequest.

#[export] Instance terminal_streams : PodStreams terminal string := {
  logs_Stream ns n opts := mret "log line";
  NewSPDYExecutor req := Ok req;
  StreamWithContext req opts := λ w, (Ok tt, (w.1, (w.2 ++ [req])%list));
  streamed w := w.2;
}.
#[export] Instance terminal_streams_laws : PodStreamsLaws terminal string.
Proof. split; [by intros req e [= ->]|by intros req opts w r w' [= _ <-]]. Qed.

Definition sh : AttachIO string := {|
  io_Stdin := Some "stdin"; io_Stdout := Some "stdout"; io_Stderr := None; io_TTY := true;
  io_Resize := [{| Width := 80; Height := 24 |}] |}.

Definition console : Provider terminal := {|
  p_host := fst_client (p_host lab_provider); p_virtual := fst_client (p_virtual lab_provider);
  translator := {| ClusterName := "dev"; ClusterNamespace := "team" |}; clusterNamespace := "team"; clusterName := "dev";
  serverIP := ""; dnsIP := ""; agentHostname := "node-1" |}.

Definition idle : terminal := ((objects [], objects []), []).

Lemma container_streams_reach_own_pod_witness :
  ∃ w', RunInContainer console "default" "web" "app" ["sh"] sh idle = (Ok tt, w') ∧
  ∃ req, w'.2 = [req] ∧ rq_SubResource req = "exec" ∧ rq_Namespace req = "team".
Proof.
  destruct (RunInContainer console "default" "web" "app" ["sh"] sh idle) as [r w'] eqn:E.
  exists w'. split; [by injection E as <- <-|].
  destruct (container_streams_reach_own_pod console "exec" "default" "web" "app" ["sh"] sh idle r w')
    as [(_ & e & He & _)|[(_ & He & _)|(req & params & H1 & H2 & H3 & _)]].
  - unfold plain, str_elem; cbn; split; [discriminate|set_solver].
  - split; [|right]; unfold plain, str_elem; cbn; (split; [discriminate|set_solver]).
  - left. split; [reflexivity|exact E].
  - discriminate He.
  - discriminate He.
  - exists req. split; [exact H1|]. split; [exact H2|exact H3].
Defined.
End Streams.
