(* ===== verification/Forward.v ===== *)
(** * Port forwarding (k3k-kubelet/provider/provider.go, PortForward)

    The call runs on four goroutines: its own, one that reads the error stream
    and two that copy the data in both directions.  A state holds what they
    share; [step g s s'] is one move of the goroutine [g], where [Remote] stands
    for what they do not decide: the bytes that the two ends write, the faults of
    the network and the end of the context.  The order of the moves is free.

    [io.Copy] is code of the standard library: its rules are what it documents
    (it moves bytes in order until the end of its source or an error).  What a
    copy has written to a stream need not have reached the other end: the reset
    of the data stream discards what was not sent. *)

From S2P Require Import Prelude GoStd Runs K3s.

Local Open Scope string_scope.
Local Open Scope list_scope.

Module Forward.
Import Runs K3s.

Abbreviation bytes := (list ascii).

(** ** The streams of a connection *)

(** The names of core/v1 and of the protocol. *)
Definition StreamType : string := "streamType".
Definition StreamTypeError : string := "error".
Definition StreamTypeData : string := "data".
Definition PortHeader : string := "port".
Definition PortForwardRequestIDHeader : string := "requestID".

(** The headers of [createPortForwardStream]. *)
Definition createPortForwardStream (streamType : string) (port : Z) : Header :=
  Header_Set PortForwardRequestIDHeader "0" (Header_Set PortHeader (strconv_Itoa port)
    (Header_Set StreamType streamType ∅)).

(** ** States *)
Inductive goroutine : Set := Main | ReadErrors | CopyDown | CopyUp | Remote.

#[export] Instance goroutine_eq_dec : EqDecision goroutine.
Proof. solve_decision. Defined.

(** What [defer] has registered, the last first. *)
Inductive deferred : Set := CloseConn | CloseClient.

(** Where the call is; [Returning r] runs the deferred closes. *)
Inductive place : Type :=
| GettingRoundTripper
| Dialing
| CreatingErrorStream
| ClosingErrorStream
| CreatingDataStream
| Selecting
| Resetting
| Receiving
| Returning (r : option error).

(** A goroutine: not started, running, closing the data stream (the copy to the
    host does), over with the error of its call. *)
Inductive task : Type :=
| Idle
| Running
| Closing (r : option error)
| Over (r : option error).

(** What the two ends and the network have done. *)
Record network : Type := {
  host_sent : bytes;      host_eof : bool;     (* written by the pod to the data stream *)
  client_sent : bytes;    client_eof : bool;   (* written by the client *)
  down_fault : option error;                   (* a read or a write of a copy that fails *)
  up_fault : option error;
  err_sent : bytes;                            (* written by the host to the error stream *)
  err_end : option (option error);             (* its end: closed, or a failed read *)
  ctx_err : option error;                      (* the error of the context when it is done *)
}.

Record state : Type := {
  main : place;
  defers : list deferred;
  opened : list Header;          (* the headers of the streams created *)
  client_open : bool;
  conn_open : bool;
  error_write_open : bool;
  data_write_open : bool;
  data_reset : bool;
  reader : task;
  errorChan : option (bytes * option error);   (* a buffer of one *)
  down : task;
  up : task;
  remoteDone : bool;                           (* closed channels *)
  localError : bool;
  client_written : bytes;                      (* by the copy to the client, to its stream *)
  host_written : bytes;                        (* by the copy to the pod, to the data stream *)
  net : network;
}.

(** The call starts with the stream of the client open, its close deferred. *)
Definition start : state := {|
  main := GettingRoundTripper; defers := [CloseClient]; opened := []; client_open := true; conn_open := false;
  error_write_open := false; data_write_open := false; data_reset := false; reader := Idle; errorChan := None;
  down := Idle; up := Idle; remoteDone := false; localError := false; client_written := []; host_written := [];
  net := {| host_sent := []; host_eof := false; client_sent := []; client_eof := false; down_fault := None;
            up_fault := None; err_sent := []; err_end := None; ctx_err := None |} |}.

(** *** Changes *)
Definition goto (p : place) (s : state) : state := {|
  main := p; defers := defers s; opened := opened s; client_open := client_open s; conn_open := conn_open s;
  error_write_open := error_write_open s; data_write_open := data_write_open s; data_reset := data_reset s;
  reader := reader s; errorChan := errorChan s; down := down s; up := up s; remoteDone := remoteDone s;
  localError := localError s; client_written := client_written s; host_written := host_written s; net := net s |}.

Definition dialed (s : state) : state := {|
  main := CreatingErrorStream; defers := CloseConn :: defers s; opened := opened s; client_open := client_open s;
  conn_open := true; error_write_open := error_write_open s; data_write_open := data_write_open s;
  data_reset := data_reset s; reader := reader s; errorChan := errorChan s; down := down s; up := up s;
  remoteDone := remoteDone s; localError := localError s; client_written := client_written s; host_written := host_written s;
  net := net s |}.

Definition error_stream_opened (headers : Header) (s : state) : state := {|
  main := ClosingErrorStream; defers := defers s; opened := opened s ++ [headers]; client_open := client_open s;
  conn_open := conn_open s; error_write_open := true; data_write_open := data_write_open s;
  data_reset := data_reset s; reader := reader s; errorChan := errorChan s; down := down s; up := up s;
  remoteDone := remoteDone s; localError := localError s; client_written := client_written s; host_written := host_written s;
  net := net s |}.

(** The write side is closed and the reader is started. *)
Definition reading (s : state) : state := {|
  main := CreatingDataStream; defers := defers s; opened := opened s; client_open := client_open s;
  conn_open := conn_open s; error_write_open := false; data_write_open := data_write_open s;
  data_reset := data_reset s; reader := Running; errorChan := errorChan s; down := down s; up := up s;
  remoteDone := remoteDone s; localError := localError s; client_written := client_written s; host_written := host_written s;
  net := net s |}.

(** Both copies are started. *)
Definition copying (headers : Header) (s : state) : state := {|
  main := Selecting; defers := defers s; opened := opened s ++ [headers]; client_open := client_open s;
  conn_open := conn_open s; error_write_open := error_write_open s; data_write_open := true;
  data_reset := data_reset s; reader := reader s; errorChan := errorChan s; down := Running; up := Running;
  remoteDone := remoteDone s; localError := localError s; client_written := client_written s; host_written := host_written s;
  net := net s |}.

Definition reset (p : place) (s : state) : state := {|
  main := p; defers := defers s; opened := opened s; client_open := client_open s; conn_open := conn_open s;
  error_write_open := error_write_open s; data_write_open := data_write_open s; data_reset := true;
  reader := reader s; errorChan := errorChan s; down := down s; up := up s; remoteDone := remoteDone s;
  localError := localError s; client_written := client_written s; host_written := host_written s; net := net s |}.

Definition received (r : option error) (s : state) : state := {|
  main := Returning r; defers := defers s; opened := opened s; client_open := client_open s; conn_open := conn_open s;
  error_write_open := error_write_open s; data_write_open := data_write_open s; data_reset := data_reset s;
  reader := reader s; errorChan := None; down := down s; up := up s; remoteDone := remoteDone s;
  localError := localError s; client_written := client_written s; host_written := host_written s; net := net s |}.

Definition closed (d : deferred) (ds : list deferred) (s : state) : state := {|
  main := main s; defers := ds; opened := opened s;
  client_open := match d with CloseClient => false | CloseConn => client_open s end;
  conn_open := match d with CloseClient => conn_open s | CloseConn => false end;
  error_write_open := error_write_open s; data_write_open := data_write_open s; data_reset := data_reset s;
  reader := reader s; errorChan := errorChan s; down := down s; up := up s; remoteDone := remoteDone s;
  localError := localError s; client_written := client_written s; host_written := host_written s; net := net s |}.

Definition error_read (message : bytes) (r : option error) (s : state) : state := {|
  main := main s; defers := defers s; opened := opened s; client_open := client_open s; conn_open := conn_open s;
  error_write_open := error_write_open s; data_write_open := data_write_open s; data_reset := data_reset s;
  reader := Over r; errorChan := Some (message, r); down := down s; up := up s; remoteDone := remoteDone s;
  localError := localError s; client_written := client_written s; host_written := host_written s; net := net s |}.

(** The copy from the host pod: what it has written, and its state. *)
Definition set_down (got : bytes) (t : task) (ended : bool) (s : state) : state := {|
  main := main s; defers := defers s; opened := opened s; client_open := client_open s; conn_open := conn_open s;
  error_write_open := error_write_open s; data_write_open := data_write_open s; data_reset := data_reset s;
  reader := reader s; errorChan := errorChan s; down := t; up := up s; remoteDone := ended;
  localError := localError s; client_written := got; host_written := host_written s; net := net s |}.

(** The copy to the host pod: what it has written, its state, whether
    [localError] and the write side of the data stream are closed. *)
Definition set_up (got : bytes) (t : task) (failed write_open : bool) (s : state) : state := {|
  main := main s; defers := defers s; opened := opened s; client_open := client_open s; conn_open := conn_open s;
  error_write_open := error_write_open s; data_write_open := write_open; data_reset := data_reset s;
  reader := reader s; errorChan := errorChan s; down := down s; up := t; remoteDone := remoteDone s;
  localError := failed; client_written := client_written s; host_written := got; net := net s |}.

Definition with_net (n : network) (s : state) : state := {|
  main := main s; defers := defers s; opened := opened s; client_open := client_open s; conn_open := conn_open s;
  error_write_open := error_write_open s; data_write_open := data_write_open s; data_reset := data_reset s;
  reader := reader s; errorChan := errorChan s; down := down s; up := up s; remoteDone := remoteDone s;
  localError := localError s; client_written := client_written s; host_written := host_written s; net := n |}.

(** ** Moves *)

(** No byte goes through the data stream any more. *)
Definition broken (s : state) : Prop := data_reset s = true ∨ conn_open s = false ∨ client_open s = false.

(** [err != nil && !errors.Is(err, net.ErrClosed)] *)
Definition counts (r : option error) : bool :=
  match r with
  | Some e => negb (errors_is "net.ErrClosed" e)
  | None => false
  end.

(** What the call returns for the content of the error stream. *)
Definition reply (message : bytes) (r : option error) : option error :=
  match r with
  | Some e => Some e
  | None => if decide (0 < length message)%nat then Some (EText (String.string_of_list_ascii message)) else None
  end.

(** What the ends and the network can do: write, end, fail; the context can
    end. *)
Inductive env_step : network → network → Prop :=
| Env_host_writes n (b : bytes) (HE : host_eof n = false) :
    env_step n {| host_sent := host_sent n ++ b; host_eof := false; client_sent := client_sent n;
      client_eof := client_eof n; down_fault := down_fault n; up_fault := up_fault n; err_sent := err_sent n;
      err_end := err_end n; ctx_err := ctx_err n |}
| Env_host_closes n :
    env_step n {| host_sent := host_sent n; host_eof := true; client_sent := client_sent n;
      client_eof := client_eof n; down_fault := down_fault n; up_fault := up_fault n; err_sent := err_sent n;
      err_end := err_end n; ctx_err := ctx_err n |}
| Env_client_writes n (b : bytes) (HE : client_eof n = false) :
    env_step n {| host_sent := host_sent n; host_eof := host_eof n; client_sent := client_sent n ++ b;
      client_eof := false; down_fault := down_fault n; up_fault := up_fault n; err_sent := err_sent n;
      err_end := err_end n; ctx_err := ctx_err n |}
| Env_client_closes n :
    env_step n {| host_sent := host_sent n; host_eof := host_eof n; client_sent := client_sent n;
      client_eof := true; down_fault := down_fault n; up_fault := up_fault n; err_sent := err_sent n;
      err_end := err_end n; ctx_err := ctx_err n |}
| Env_faults n (fd fu : option error) :
    env_step n {| host_sent := host_sent n; host_eof := host_eof n; client_sent := client_sent n;
      client_eof := client_eof n; down_fault := fd; up_fault := fu; err_sent := err_sent n;
      err_end := err_end n; ctx_err := ctx_err n |}
| Env_reports n (b : bytes) (HE : err_end n = None) :
    env_step n {| host_sent := host_sent n; host_eof := host_eof n; client_sent := client_sent n;
      client_eof := client_eof n; down_fault := down_fault n; up_fault := up_fault n; err_sent := err_sent n ++ b;
      err_end := None; ctx_err := ctx_err n |}
| Env_report_ends n (r : option error) (HE : err_end n = None) :
    env_step n {| host_sent := host_sent n; host_eof := host_eof n; client_sent := client_sent n;
      client_eof := client_eof n; down_fault := down_fault n; up_fault := up_fault n; err_sent := err_sent n;
      err_end := Some r; ctx_err := ctx_err n |}
| Env_context_ends n (e : error) (HE : ctx_err n = None) :
    env_step n {| host_sent := host_sent n; host_eof := host_eof n; client_sent := client_sent n;
      client_eof := client_eof n; down_fault := down_fault n; up_fault := up_fault n; err_sent := err_sent n;
      err_end := err_end n; ctx_err := Some e |}.

Section Step.
Variable port : Z.

Inductive step : goroutine → state → state → Prop :=
(* the call: every call of the set-up can fail *)
| Main_round_tripper s (H : main s = GettingRoundTripper) : step Main s (goto Dialing s)
| Main_dials s (H : main s = Dialing) : step Main s (dialed s)
| Main_error_stream s (H : main s = CreatingErrorStream) :
    step Main s (error_stream_opened (createPortForwardStream StreamTypeError port) s)
| Main_reads s (H : main s = ClosingErrorStream) : step Main s (reading s)
| Main_data_stream s (H : main s = CreatingDataStream) :
    step Main s (copying (createPortForwardStream StreamTypeData port) s)
| Main_fails s e (H : main s = GettingRoundTripper ∨ main s = Dialing ∨ main s = CreatingErrorStream ∨
                      main s = CreatingDataStream) :
    step Main s (goto (Returning (Some e)) s)
(* the select takes any branch that is ready *)
| Main_remote_done s (H : main s = Selecting) (R : remoteDone s = true) : step Main s (goto Resetting s)
| Main_local_error s (H : main s = Selecting) (R : localError s = true) : step Main s (goto Resetting s)
| Main_context s e (H : main s = Selecting) (R : ctx_err (net s) = Some e) :
    step Main s (reset (Returning (Some e)) s)
| Main_resets s (H : main s = Resetting) : step Main s (reset Receiving s)
| Main_receives s message r (H : main s = Receiving) (R : errorChan s = Some (message, r)) :
    step Main s (received (reply message r) s)
| Main_unwinds s r d ds (H : main s = Returning r) (R : defers s = d :: ds) : step Main s (closed d ds s)
(* io.ReadAll(errorStream), then the result is sent; a closed connection ends the stream *)
| Reader_ends s r (H : reader s = Running) (E : err_end (net s) = Some r) (C : errorChan s = None) :
    step ReadErrors s (error_read (err_sent (net s)) r s)
| Reader_broken s e (H : reader s = Running) (B : conn_open s = false) (C : errorChan s = None) :
    step ReadErrors s (error_read (err_sent (net s)) (Some e) s)
(* io.Copy(stream, dataStream), then close(remoteDone) *)
| Down_copies s (b : bytes) (H : down s = Running) (B : ¬ broken s) (L : b ≠ [])
    (P : (client_written s ++ b) `prefix_of` host_sent (net s)) :
    step CopyDown s (set_down (client_written s ++ b) Running (remoteDone s) s)
| Down_ends s (H : down s = Running) (E : host_eof (net s) = true) (L : client_written s = host_sent (net s)) :
    step CopyDown s (set_down (client_written s) (Over None) true s)
| Down_fails s (b : bytes) e (H : down s = Running) (F : down_fault (net s) = Some e)
    (P : (client_written s ++ b) `prefix_of` host_sent (net s)) :
    step CopyDown s (set_down (client_written s ++ b) (Over (Some e)) true s)
| Down_broken s e (H : down s = Running) (B : broken s) :
    step CopyDown s (set_down (client_written s) (Over (Some e)) true s)
(* io.Copy(dataStream, stream), then close(localError) and the deferred close *)
| Up_copies s (b : bytes) (H : up s = Running) (B : ¬ broken s) (L : b ≠ [])
    (P : (host_written s ++ b) `prefix_of` client_sent (net s)) :
    step CopyUp s (set_up (host_written s ++ b) Running (localError s) (data_write_open s) s)
| Up_ends s (H : up s = Running) (E : client_eof (net s) = true) (L : host_written s = client_sent (net s)) :
    step CopyUp s (set_up (host_written s) (Closing None) (localError s) (data_write_open s) s)
| Up_fails s (b : bytes) e (H : up s = Running) (F : up_fault (net s) = Some e)
    (P : (host_written s ++ b) `prefix_of` client_sent (net s)) :
    step CopyUp s (set_up (host_written s ++ b) (Closing (Some e)) (localError s || counts (Some e)) (data_write_open s) s)
| Up_broken s e (H : up s = Running) (B : broken s) :
    step CopyUp s (set_up (host_written s) (Closing (Some e)) (localError s || counts (Some e)) (data_write_open s) s)
| Up_closes s r (H : up s = Closing r) :
    step CopyUp s (set_up (host_written s) (Over r) (localError s) false s)
(* the rest of the world *)
| Remote_moves s n (E : env_step (net s) n) : step Remote s (with_net n s).
End Step.

Definition returned (s : state) (r : option error) : Prop := main s = Returning r ∧ defers s = [].

#[local] Set Default Proof Using "Type*".

(** ** The invariant of the states

    It is in four parts: the deferred closes, the channel of the error stream,
    the copies, and the reason why the call returns. *)
Definition closes (s : state) : Prop :=
  match main s with
  | GettingRoundTripper | Dialing => defers s = [CloseClient] ∧ client_open s = true ∧ conn_open s = false
  | Returning _ =>
      (length (defers s) ≤ 2)%nat ∧ (client_open s = true → CloseClient ∈ defers s) ∧
      (conn_open s = true → CloseConn ∈ defers s)
  | _ => defers s = [CloseConn; CloseClient] ∧ client_open s = true ∧ conn_open s = true
  end.

(** The reader is not started yet; the call is about to return. *)
Definition early (p : place) : bool :=
  match p with
  | GettingRoundTripper | Dialing | CreatingErrorStream | ClosingErrorStream => true
  | _ => false
  end.
Definition returning (p : place) : bool :=
  match p with
  | Returning _ => true
  | _ => false
  end.

Definition errors_in_order (s : state) : Prop :=
  match reader s with
  | Idle => errorChan s = None ∧ (returning (main s) || early (main s)) = true
  | Running => errorChan s = None ∧ early (main s) = false
  | Closing _ => False
  | Over r => early (main s) = false ∧
      (returning (main s) = true ∨ (errorChan s = Some (err_sent (net s), r) ∧ err_end (net s) = Some r))
  end.

Definition copies (s : state) : Prop :=
  client_written s `prefix_of` host_sent (net s) ∧ host_written s `prefix_of` client_sent (net s) ∧
  match down s with
  | Idle | Running => remoteDone s = false
  | Closing _ => False
  | Over r => remoteDone s = true ∧
      (r = None → host_eof (net s) = true ∧ client_written s = host_sent (net s))
  end ∧
  match up s with
  | Idle | Running => localError s = false
  | Closing r | Over r => localError s = counts r ∧
      (r = None → client_eof (net s) = true ∧ host_written s = client_sent (net s))
  end.

Definition reasons (s : state) : Prop :=
  match main s with
  | Selecting => True
  | Resetting | Receiving => remoteDone s = true ∨ localError s = true
  | Returning None => err_end (net s) = Some None ∧ err_sent (net s) = [] ∧
      (remoteDone s = true ∨ localError s = true)
  | Returning (Some e) =>
      ctx_err (net s) = Some e ∨ down s = Idle ∨
      ((∃ r, err_end (net s) = Some r ∧ reply (err_sent (net s)) r = Some e) ∧
       (remoteDone s = true ∨ localError s = true))
  | _ => down s = Idle ∧ up s = Idle
  end.

Record wf (s : state) : Prop := {
  wf_closes : closes s;
  wf_errors : errors_in_order s;
  wf_copies : copies s;
  wf_reasons : reasons s;
}.

Lemma wf_start : wf start.
Proof. by split; cbn. Qed.

(** The world cannot take back what it has done. *)
Record grows (n n' : network) : Prop := {
  grows_down : host_sent n `prefix_of` host_sent n';
  grows_down_eof : host_eof n = true → host_eof n' = true ∧ host_sent n' = host_sent n;
  grows_up : client_sent n `prefix_of` client_sent n';
  grows_up_eof : client_eof n = true → client_eof n' = true ∧ client_sent n' = client_sent n;
  grows_err : ∀ r, err_end n = Some r → err_end n' = Some r ∧ err_sent n' = err_sent n;
  grows_ctx : ∀ e, ctx_err n = Some e → ctx_err n' = Some e;
}.

Lemma env_step_grows n n' : env_step n n' → grows n n'.
Proof.
  destruct 1; split; cbn; try done; try (intros; congruence); try (by apply prefix_app_r); try (intros; split; congruence).
Qed.

Section Invariant.
Context (port : Z).
Implicit Types s : state.

(** The moves of [Main] change the place; the others do not. *)
Lemma step_closes g s s' : step port g s s' → closes s → closes s'.
Proof.
  destruct 1; unfold closes; cbn in *;
    repeat match goal with H : main _ = _ ∨ _ |- _ => destruct H as [H|H] end;
    try rewrite H; try (by intros; case_match; auto); try done.
  all: try (intros (-> & -> & ->); cbn; split_and!; [lia|set_solver..]).
  - by intros (-> & ? & ?).
  - rewrite R. cbn. intros (HL & H1 & H2). split_and!; [lia| |]; destruct d; try done; intros E; set_solver.
Qed.

Lemma step_errors g s s' : step port g s s' → closes s → errors_in_order s → errors_in_order s'.
Proof.
  intros Hst Hc. unfold errors_in_order.
  destruct Hst; cbn in *;
    repeat match goal with H : main _ = _ ∨ _ |- _ => destruct H as [H|H] end;
    try rewrite H; cbn; try done.
  all: try (destruct (reader s) eqn:Er; naive_solver).
  - intros [_ He]. split; [done|]. left. unfold closes in Hc.
    destruct (main s); try done; destruct_and!; congruence.
  - apply env_step_grows in E. destruct (reader s) as [| | |r]; try done.
    intros [He [Hr|[Hch Hend]]]; (split; [done|]); [by left|right].
    by destruct (grows_err _ _ E _ Hend) as [-> ->].
Qed.

Lemma step_copies g s s' : step port g s s' → reasons s → copies s → copies s'.
Proof.
  intros Hst Hr. unfold copies.
  destruct Hst; cbn in *; try rewrite H; cbn; try done.
  all: try (intros (H1 & H2 & Hd & Hu); try rewrite Hu; split_and!; naive_solver).
  { unfold reasons in Hr. rewrite H in Hr. destruct Hr as [-> ->]. by intros (? & ? & ? & ?). }
  apply env_step_grows in E as [Gd Gde Gu Gue _ _]. intros (H1 & H2 & Hd & Hu).
  split_and!; [by etrans..| |].
  - destruct (down s) as [| | |r]; try done. destruct Hd as [? Hd]. split; [done|]. intros Hn.
    destruct (Hd Hn) as [He ->]. by destruct (Gde He) as [-> ->].
  - destruct (up s) as [| |r|r]; try done; (destruct Hu as [? Hu]; split; [done|]; intros Hn;
      destruct (Hu Hn) as [He ->]; by destruct (Gue He) as [-> ->]).
Qed.

Lemma step_reasons g s s' :
  step port g s s' → errors_in_order s → copies s → reasons s → reasons s'.
Proof.
  intros Hst He Hc. unfold reasons.
  destruct Hst; cbn in *;
    repeat match goal with H : main _ = _ ∨ _ |- _ => destruct H as [H|H] end;
    try rewrite H; cbn; try done.
  all: try naive_solver.
  all: try (destruct (main s) as [| | | | | | | |[?|]]; rewrite ?orb_true_iff; naive_solver).
  - unfold errors_in_order in He. rewrite H in He. cbn in He.
    assert (err_end (net s) = Some r ∧ err_sent (net s) = message) as [-> ->].
    { destruct (reader s) as [| | |r']; try done; destruct He as [He He']; [done|congruence|].
      destruct He' as [|[E1 E2]]; [done|]. rewrite R in E1. by injection E1 as -> ->. }
    intros Hor. destruct (reply message r) as [e|] eqn:Er; [naive_solver|].
    unfold reply in Er. destruct r; [done|]. case_decide; [done|]. destruct message; [done|]. cbn in *; lia.
  - apply env_step_grows in E as [_ _ _ _ Ge Gc].
    destruct (main s) as [| | | | | | | |[e|]]; try done.
    + intros [Hx|[Hx|[(r & Hx & Hy) Hz]]]; [left; by apply Gc|by right; left|].
      right; right. split; [|done]. exists r. by destruct (Ge _ Hx) as [-> ->].
    + intros (Hx & Hy & Hz). by destruct (Ge _ Hx) as [-> ->].
Qed.

Lemma step_wf g s s' : step port g s s' → wf s → wf s'.
Proof.
  intros Hst [H1 H2 H3 H4]. split;
    eauto using step_closes, step_errors, step_copies, step_reasons.
Qed.

Lemma running_dec s : {reader s = Running} + {reader s ≠ Running}.
Proof. destruct (reader s); auto; by right. Qed.

Lemma reachable_wf s : reachable (step port) start s → wf s.
Proof. apply reachable_ind; [apply wf_start|apply step_wf]. Qed.

(** ** What the call promises *)

(** The place of the call goes down. *)
Definition rank (s : state) : nat :=
  match main s with
  | GettingRoundTripper => 12 | Dialing => 11 | CreatingErrorStream => 10 | ClosingErrorStream => 9
  | CreatingDataStream => 8 | Selecting => 7 | Resetting => 6 | Receiving => 5
  | Returning _ => length (defers s)
  end.

Lemma main_step_rank s s' : step port Main s s' → closes s → (rank s' < rank s)%nat.
Proof.
  unfold closes, rank. inversion 1; subst; cbn;
    repeat match goal with H : main _ = _ ∨ _ |- _ => destruct H as [H|H] end;
    repeat match goal with H : main _ = _ |- _ => rewrite H end; cbn;
    try (intros (-> & _)); cbn; try lia.
  rewrite R. cbn. lia.
Qed.

Lemma other_step_rank g s s' : step port g s s' → g ≠ Main → rank s' = rank s.
Proof. by destruct 1. Qed.

(** After the return nothing is left open, and no goroutine is stuck. *)
Definition is_over (t : task) : bool :=
  match t with
  | Idle | Over _ => true
  | Running | Closing _ => false
  end.

(** What wakes the select up, in the channels and in what the copies have done. *)
Definition woken (s : state) : Prop :=
  remoteDone s = true ∨ localError s = true ∨ ctx_err (net s) ≠ None.
Definition wakes (s : state) : Prop :=
  (∃ r, down s = Over r) ∨
  (∃ e, (up s = Closing (Some e) ∨ up s = Over (Some e)) ∧ errors_is "net.ErrClosed" e = false) ∨
  ctx_err (net s) ≠ None.
Definition answered (s : state) : Prop := err_end (net s) ≠ None.

Lemma wakes_woken s : wf s → wakes s → woken s.
Proof.
  intros [_ _ (_ & _ & Hd & Hu) _] [[r E]|[(e & E & He)|Hc]]; [left|right; left|by right; right].
  - rewrite E in Hd. by destruct Hd.
  - by destruct E as [E|E]; rewrite E in Hu; destruct Hu as [-> _]; cbn; rewrite He.
Qed.

Lemma woken_wakes s : wf s → woken s → wakes s.
Proof.
  intros [_ _ (_ & _ & Hd & Hu) _] [E|[E|Hc]]; [left|right; left|by right; right].
  - destruct (down s); try congruence; [done|by eexists].
  - destruct (up s) as [| |[e|]|[e|]]; try congruence; destruct Hu as [Hu _]; rewrite E in Hu; try done;
      exists e; (split; [auto|]); cbn in Hu; by destruct (errors_is _ e).
Qed.

Lemma returned_wakes s r : wf s → returned s r → wakes s ∨ down s = Idle.
Proof.
  intros Hwf [Hm _]. pose proof (wf_reasons _ Hwf) as Hr. unfold reasons in Hr. rewrite Hm in Hr.
  destruct r as [e|].
  - destruct Hr as [Hc|[Hd|[_ Hd]]]; [left; right; right; congruence|by right|left].
    apply woken_wakes; [done|]. unfold woken. tauto.
  - left. apply woken_wakes; [done|]. unfold woken. tauto.
Qed.

Lemma step_woken g s s' : step port g s s' → woken s → woken s'.
Proof.
  unfold woken. destruct 1; cbn; rewrite ?orb_true_iff; try tauto.
  intros [?|[?|Hc]]; [tauto|tauto|]. right; right. apply env_step_grows in E as [_ _ _ _ _ Gc].
  destruct (ctx_err (net s)) as [e|]; [|done]. by rewrite (Gc _ eq_refl).
Qed.

Lemma step_answered g s s' : step port g s s' → answered s → answered s'.
Proof.
  unfold answered. destruct 1; cbn; try tauto.
  apply env_step_grows in E as [_ _ _ _ Ge _]. destruct (err_end (net s)) as [r|]; [|done].
  by destruct (Ge _ eq_refl) as [-> _].
Qed.

Lemma main_enabled s :
  wf s → woken s → (0 < rank s)%nat → (main s = Receiving → reader s ≠ Running) → enabled (step port) Main s.
Proof.
  intros [Hc He _ _] Hw Hk Hr. destruct (main s) eqn:Em.
  - eexists. by apply Main_round_tripper.
  - eexists. by apply Main_dials.
  - eexists. by apply Main_error_stream.
  - eexists. by apply Main_reads.
  - eexists. by apply Main_data_stream.
  - destruct Hw as [Hw|[Hw|Hw]]; [eexists; by apply Main_remote_done|eexists; by apply Main_local_error|].
    destruct (ctx_err (net s)) as [e|] eqn:Ec; [|done]. eexists. by eapply Main_context.
  - eexists. by apply Main_resets.
  - unfold errors_in_order in He. rewrite Em in He. cbn in He. destruct (reader s) as [| | |r].
    + by destruct He.
    + by destruct (Hr eq_refl).
    + done.
    + destruct He as [_ [?|[Hch _]]]; [done|]. eexists. by eapply Main_receives.
  - unfold rank in Hk. rewrite Em in Hk. destruct (defers s) as [|d ds] eqn:Ed; [cbn in Hk; lia|].
    eexists. by eapply Main_unwinds.
Qed.

Lemma reader_enabled s : wf s → answered s → reader s = Running → enabled (step port) ReadErrors s.
Proof.
  intros [_ He _ _] Ha Hr. unfold errors_in_order, answered in *. rewrite Hr in He. destruct He as [He _].
  destruct (err_end (net s)) as [r|] eqn:E; [|done]. eexists. by eapply Reader_ends.
Qed.

(** The call is due to return, and is at the distance [k] of it. *)
Definition due (k : nat) (s : state) : Prop := wf s ∧ woken s ∧ answered s ∧ rank s = k.

Lemma step_due k g s s' : step port g s s' → due k s → due k s' ∨ (rank s' < k)%nat.
Proof.
  intros Hst (HA & HB & HC & <-). destruct (decide (g = Main)) as [->|Hg].
  - right. eapply main_step_rank; [done|apply HA].
  - left. split_and!; [by eapply step_wf|by eapply step_woken|by eapply step_answered|by eapply other_step_rank].
Qed.

Section Progress.
Variable r : nat → state.
Hypothesis Hrun : run (step port) start r.
Hypothesis Hmain : fair (step port) Main r.
Hypothesis Hreader : fair (step port) ReadErrors r.

Lemma main_progress k m :
  due k (r m) → (0 < k)%nat → (k = 5 → reader (r m) ≠ Running) → ∃ m', (m ≤ m')%nat ∧ (rank (r m') < k)%nat.
Proof.
  intros HP Hk Hrd.
  apply (leads_to (step port) start r Main (λ s, due k s ∧ (k = 5 → reader s ≠ Running)) (λ s, rank s < k)%nat m);
    [done|done| | | |done].
  - intros g s s' Hst [HPs Hs]. destruct (step_due _ _ _ _ Hst HPs) as [HP'|?]; [left; split; [done|]|by right].
    intros ->. specialize (Hs eq_refl). destruct HPs as (HA & _ & _ & Hk5).
    destruct Hst; cbn; try done. unfold rank in Hk5. by rewrite H in Hk5.
  - intros s s' Hst [(HA & _ & _ & <-) _]. eapply main_step_rank; [done|apply HA].
  - intros s [(HA & HB & _ & Hkk) Hs]. apply main_enabled; [done|done|lia|]. intros E. apply Hs.
    rewrite <- Hkk. unfold rank. by rewrite E.
Qed.

Lemma reader_progress k m :
  due k (r m) → reader (r m) = Running →
  ∃ m', (m ≤ m')%nat ∧ ((rank (r m') < k)%nat ∨ (due k (r m') ∧ reader (r m') ≠ Running)).
Proof.
  intros HP Hrd.
  apply (leads_to (step port) start r ReadErrors (λ s, due k s ∧ reader s = Running)
    (λ s, (rank s < k)%nat ∨ (due k s ∧ reader s ≠ Running)) m); [done|done| | | |done].
  - intros g s s' Hst [HPs Hs]. destruct (step_due _ _ _ _ Hst HPs) as [HP'|?]; [|by right; left].
    destruct (running_dec s'); [by left|by right; right].
  - intros s s' Hst [HPs Hs]. destruct (step_due _ _ _ _ Hst HPs) as [HP'|?]; [|by left].
    right. split; [done|]. by inversion Hst.
  - intros s [(HA & _ & HC' & _) Hs]. by apply reader_enabled.
Qed.

Lemma progress m :
  woken (r m) → answered (r m) → (0 < rank (r m))%nat → ∃ m', (m ≤ m')%nat ∧ (rank (r m') < rank (r m))%nat.
Proof.
  intros HB HC Hpos.
  assert (due (rank (r m)) (r m)) as HP by (split_and!; [by eapply reachable_wf, run_reachable|done..]).
  destruct (running_dec (r m)) as [Hrd|Hrd]; [|by apply (main_progress (rank (r m)))].
  destruct (reader_progress _ _ HP Hrd) as (m1 & Hm1 & [?|[HP1 Hr1]]); [by exists m1|].
  destruct (main_progress _ _ HP1 Hpos (λ _, Hr1)) as (m2 & Hm2 & Hlt). exists m2. split; [lia|done].
Qed.
End Progress.

(** C30: when PortForward has returned, the stream of the client and the
    connection are closed, and each of the three goroutines it started is over
    or can go on, so that none is left blocked.  It returns without error only
    when the host has closed the error stream without a message and one of the
    two copies was over; an error it returns is the one of the context, the
    answer of the host on the error stream (its message, or the failed read),
    or the one of a call of the set-up, before any byte was copied. *)
Theorem PortForward_result s r :
  reachable (step port) start s → returned s r →
  client_open s = false ∧ conn_open s = false ∧
  (∀ g t, (g, t) ∈ [(ReadErrors, reader s); (CopyDown, down s); (CopyUp, up s)] →
     is_over t = true ∨ enabled (step port) g s) ∧
  match r with
  | None => err_end (net s) = Some None ∧ err_sent (net s) = [] ∧ (remoteDone s = true ∨ localError s = true)
  | Some e => ctx_err (net s) = Some e ∨ down s = Idle ∨
      ∃ r', err_end (net s) = Some r' ∧ reply (err_sent (net s)) r' = Some e
  end.
Proof.
  intros Hr [Hm Hd]. destruct (reachable_wf s Hr) as [Hc He Hcp Hre].
  unfold closes in Hc. rewrite Hm, Hd in Hc. destruct Hc as (_ & H1 & H2).
  assert (client_open s = false) as Hcl by (apply not_true_is_false; intros E%H1; set_solver).
  assert (conn_open s = false) as Hco by (apply not_true_is_false; intros E%H2; set_solver).
  split_and!; [done|done| |].
  - assert (broken s) as Hb by (right; by left). unfold errors_in_order in He.
    destruct Hcp as (_ & _ & Hdn & _).
    intros g t [[= -> ->]|[[= -> ->]|[[= -> ->]|[]%elem_of_nil]%elem_of_cons]%elem_of_cons]%elem_of_cons.
    + destruct (reader s) eqn:E; try (by left). destruct He. right. eexists. by apply (Reader_broken port s (EText "")).
    + destruct (down s) eqn:E; try (by left). right. eexists. by apply (Down_broken port s (EText "")).
    + destruct (up s) eqn:E; try (by left); right; eexists.
      * by apply (Up_broken port s (EText "")).
      * by eapply Up_closes.
  - unfold reasons in Hre. rewrite Hm in Hre. destruct r as [e|]; [|done]. destruct Hre as [?|[?|[? _]]]; tauto.
Qed.

(** C31: PortForward returns: on every run that is fair to its own goroutine and
    to the reader of the error stream, if at some moment the copy from the pod is
    over, or the copy to the pod has failed with another error than the one of a
    closed connection, or the context is done, and the host ends the error
    stream, then the call returns, with everything it deferred run.  It returns
    for no other reason once the copies are started: a copy to the pod that ends
    well does not end the call. *)
Theorem PortForward_returns r :
  run (step port) start r → fair (step port) Main r → fair (step port) ReadErrors r →
  (∃ n, wakes (r n)) → (∃ n, answered (r n)) →
  (∃ m e, returned (r m) e) ∧ ∀ m e, returned (r m) e → wakes (r m) ∨ down (r m) = Idle.
Proof.
  intros Hrun Hfm Hfr [n1 Hw] [n2 Ha].
  split; [|intros m e; eapply returned_wakes, reachable_wf, run_reachable, Hrun]. apply wakes_woken in Hw; [|by eapply reachable_wf, run_reachable].
  destruct (eventually_zero (step port) r rank (n1 `max` n2)) as (m & Hm & Hz).
  - intros m Hm Hpos. apply progress; try done.
    + eapply (run_stable (step port) start r woken n1); [done|apply step_woken|lia|done].
    + eapply (run_stable (step port) start r answered n2); [done|apply step_answered|lia|done].
  - destruct (reachable_wf (r m)) as [Hc _ _ _]; [by eapply run_reachable|]. unfold rank in Hz. unfold closes in Hc.
    destruct (main (r m)) as [| | | | | | | |e] eqn:E; try done.
    exists m, e. split; [done|]. by apply length_zero_iff_nil.
Qed.
End Invariant.

(** ** A run: the pod answers and closes, the client does not *)
Definition hi : bytes := ["h"; "i"]%char.

Definition answering : network := {|
  host_sent := hi; host_eof := false; client_sent := []; client_eof := false; down_fault := None; up_fault := None;
  err_sent := []; err_end := None; ctx_err := None |}.
Definition answered_hi : network := {|
  host_sent := hi; host_eof := true; client_sent := []; client_eof := false; down_fault := None; up_fault := None;
  err_sent := []; err_end := None; ctx_err := None |}.
Definition all_ended : network := {|
  host_sent := hi; host_eof := true; client_sent := []; client_eof := false; down_fault := None; up_fault := None;
  err_sent := []; err_end := Some None; ctx_err := None |}.

Definition connected : state :=
  copying (createPortForwardStream StreamTypeData 80)
    (reading (error_stream_opened (createPortForwardStream StreamTypeError 80) (dialed (goto Dialing start)))).
Definition copied : state :=
  set_down hi (Over None) true (set_down hi Running false (with_net answered_hi (with_net answering connected))).
Definition drained : state := error_read [] None (with_net all_ended (reset Receiving (goto Resetting copied))).
Definition finished : state := closed CloseClient [] (closed CloseConn [CloseClient] (received None drained)).

Definition session : list state := [
  goto Dialing start; dialed (goto Dialing start);
  error_stream_opened (createPortForwardStream StreamTypeError 80) (dialed (goto Dialing start));
  reading (error_stream_opened (createPortForwardStream StreamTypeError 80) (dialed (goto Dialing start)));
  connected; with_net answering connected; with_net answered_hi (with_net answering connected);
  set_down hi Running false (with_net answered_hi (with_net answering connected)); copied;
  goto Resetting copied; reset Receiving (goto Resetting copied);
  with_net all_ended (reset Receiving (goto Resetting copied)); drained; received None drained;
  closed CloseConn [CloseClient] (received None drained); finished].

Lemma session_path : path (step 80) start session.
Proof.
  assert (∀ s, data_reset s = false → conn_open s = true → client_open s = true → ¬ broken s) as Hb
    by (intros s H1 H2 H3 [|[|]]; congruence).
  repeat split; eexists.
  - by apply Main_round_tripper.
  - by apply Main_dials.
  - by apply Main_error_stream.
  - by apply Main_reads.
  - by apply Main_data_stream.
  - apply Remote_moves, (Env_host_writes (net connected) hi). reflexivity.
  - apply Remote_moves, (Env_host_closes answering).
  - refine (Down_copies 80 (with_net answered_hi (with_net answering connected)) hi _ _ _ _);
      [done|by apply Hb|done|by exists []].
  - by apply Down_ends.
  - by apply Main_remote_done.
  - by apply Main_resets.
  - apply Remote_moves, (Env_report_ends answered_hi None). reflexivity.
  - by refine (Reader_ends 80 (with_net all_ended (reset Receiving (goto Resetting copied))) None _ _ _).
  - by refine (Main_receives 80 drained [] None _ _).
  - by refine (Main_unwinds 80 (received None drained) None CloseConn [CloseClient] _ _).
  - by refine (Main_unwinds 80 (closed CloseConn [CloseClient] (received None drained)) None CloseClient [] _ _).
Qed.

Lemma session_reachable : reachable (step 80) start finished.
Proof. apply (path_reachable (step 80) start session), session_path. Qed.

Lemma PortForward_result_witness :
  returned finished None ∧ conn_open finished = false ∧ err_end (net finished) = Some None.
Proof.
  assert (returned finished None) as Hr by (split; reflexivity).
  destruct (PortForward_result 80 finished None session_reachable Hr) as (_ & H2 & _ & H3 & _).
  split; [exact Hr|]. split; [exact H2|exact H3].
Defined.

Lemma PortForward_returns_witness : ∃ m e, returned (through start session m) e.
Proof.
  refine (proj1 (PortForward_returns 80 (through start session) _ _ _ _ _)).
  - apply through_run, session_path.
  - apply through_fair. intros [s' Hs]. inversion Hs; try discriminate.
    repeat match goal with H : _ ∨ _ |- _ => destruct H as [H|H] end; discriminate.
  - apply through_fair. intros [s' Hs]. inversion Hs; discriminate.
  - exists 16%nat. left. by eexists.
  - exists 16%nat. discriminate.
Defined.
End Forward.
