(* ===== verification/Kubelet.v ===== *)
(** * The virtual kubelet (k3k-kubelet/main.go, kubelet.go, node.go, config.go,
      provider/configure.go and provider/node.go)

    The node that the kubelet registers, the way it is put together, the watch of
    the virtual API server, and the goroutines that it runs: the last as a
    transition system, since their order is not determined.  The managers, the
    node of the virtual kubelet library and the TLS files are parameters. *)

From S2P Require Import Prelude GoStd GoDate Waiting Runs K8s Types Kube Effects Names K3s Translate Expose Tokens Lab.

Local Open Scope string_scope.
Local Open Scope Z_scope.

(** ** The virtual node *)
Module VirtualNode.
Import Names GoDate Tokens.

Definition ConditionFalse : string := "False".

Section Configure.
Context {W : Type} `{KU : KubeUtil} `{TK : TokenAPI W} (p : Provider W).

(** A condition, with the two calls of [metav1.Now]. *)
Definition condition (type status reason message : string) : M W NodeCondition :=
  heartbeat ← time_Now;
  transition ← time_Now;
  mret {| nc_Type := type; nc_Status := status; nc_LastHeartbeatTime := heartbeat;
          nc_LastTransitionTime := transition; nc_Reason := reason; nc_Message := message |}.

Definition nodeConditions : M W (list NodeCondition) :=
  ready ← condition "Ready" ConditionTrue "KubeletReady" "kubelet is ready.";
  disk ← condition "OutOfDisk" ConditionFalse "KubeletHasSufficientDisk" "kubelet has sufficient disk space available";
  memory ← condition "MemoryPressure" ConditionFalse "KubeletHasSufficientMemory" "kubelet has sufficient memory available";
  pressure ← condition "DiskPressure" ConditionFalse "KubeletHasNoDiskPressure" "kubelet has no disk pressure";
  network ← condition "NetworkUnavailable" ConditionFalse "RouteCreated" "RouteController created a route";
  mret [ready; disk; memory; pressure; network].

(** The specification, the status, the labels, the annotations and the
    finalizers of the host node, with the port of this kubelet. *)
Definition mirrored (hostNode : Node) (servicePort : Z) (node : Node) : Node := {|
  node_Meta := set_Finalizers (Finalizers (node_Meta hostNode))
    (set_Annotations (Annotations (node_Meta hostNode)) (set_Labels (Labels (node_Meta hostNode)) (node_Meta node)));
  node_PodCIDR := node_PodCIDR hostNode; node_PodCIDRs := node_PodCIDRs hostNode;
  node_Addresses := node_Addresses hostNode; node_Capacity := node_Capacity hostNode;
  node_Allocatable := node_Allocatable hostNode;
  node_Extra := {| ne_Conditions := ne_Conditions (node_Extra hostNode); ne_KubeletPort := int32 servicePort;
                   ne_KubeletVersion := ne_KubeletVersion (node_Extra hostNode); ne_rest := ne_rest (node_Extra hostNode) |} |}.

Definition configured (conditions : list NodeCondition) (hostname : string) (servicePort : Z) (ip version : string)
    (labels : gomap string) (node : Node) : Node := {|
  node_Meta := set_Labels labels (node_Meta node);
  node_PodCIDR := node_PodCIDR node; node_PodCIDRs := node_PodCIDRs node;
  node_Addresses := [{| na_Type := "Hostname"; na_Address := hostname |};
                     {| na_Type := "InternalIP"; na_Address := ip |}];
  node_Capacity := node_Capacity node; node_Allocatable := node_Allocatable node;
  node_Extra := {| ne_Conditions := conditions; ne_KubeletPort := int32 servicePort;
                   ne_KubeletVersion := version; ne_rest := ne_rest (node_Extra node) |} |}.

(** The answer is the node and whether the updater of its capacity
    ([Capacity.startNodeCapacityUpdater]) is started for it. *)
Definition ConfigureNode (node : Node) (hostname : string) (servicePort : Z) (ip version : string)
    (mirrorHostNodes : bool) : M W (Node * bool) :=
  if mirrorHostNodes then
    hostNode ← Get (p_host p) Node {| nn_Namespace := ""; nn_Name := Name (node_Meta node) |};
    mret (mirrored hostNode servicePort node, false)
  else
    conditions ← nodeConditions;
    labels ← lift (map_set (Labels (node_Meta node)) "node.kubernetes.io/exclude-from-external-load-balancers" "true");
    labels ← lift (map_set labels "kubernetes.io/os" "linux");
    mret (configured conditions hostname servicePort ip version labels node, true).
End Configure.

(** [Node] of node.go: it is always healthy, and keeps the callback. *)
Record NodeProvider (F : Type) : Type := { notifyCallback : option F }.
Arguments notifyCallback {F}.
Definition Ping {F} (n : NodeProvider F) : outcome unit := Ok tt.
Definition NotifyNodeStatus {F} (cb : F) (n : NodeProvider F) : NodeProvider F := {| notifyCallback := Some cb |}.

#[local] Set Default Proof Using "Type*".

Section Spec.
Context {W : Type} `{KU : KubeUtil} `{TK : TokenAPI W} (p : Provider W) `{HL : !ClientLaws (p_host p)}.

Lemma condition_run t s r m w c w' :
  condition t s r m w = (Ok c, w') → nc_Type c = t ∧ nc_Status c = s ∧ nc_Reason c = r ∧ nc_Message c = m.
Proof using.
  unfold condition. intros (h & w1 & _ & E)%bind_inv_ok. apply bind_inv_ok in E as (tr & w2 & _ & [= <- _]).
  done.
Qed.

Lemma nodeConditions_run w l w' :
  nodeConditions w = (Ok l, w') →
  map (λ c, (nc_Type c, nc_Status c)) l =
  [("Ready", ConditionTrue); ("OutOfDisk", ConditionFalse); ("MemoryPressure", ConditionFalse);
   ("DiskPressure", ConditionFalse); ("NetworkUnavailable", ConditionFalse)].
Proof using.
  unfold nodeConditions.
  intros (c1 & w1 & (Ht1 & Hs1 & _)%condition_run & E)%bind_inv_ok.
  apply bind_inv_ok in E as (c2 & w2 & (Ht2 & Hs2 & _)%condition_run & E).
  apply bind_inv_ok in E as (c3 & w3 & (Ht3 & Hs3 & _)%condition_run & E).
  apply bind_inv_ok in E as (c4 & w4 & (Ht4 & Hs4 & _)%condition_run & E).
  apply bind_inv_ok in E as (c5 & w5 & (Ht5 & Hs5 & _)%condition_run & [= <- _]).
  cbn. by rewrite Ht1, Hs1, Ht2, Hs2, Ht3, Hs3, Ht4, Hs4, Ht5, Hs5.
Qed.

(** the node that the kubelet registers keeps its name, and its kubelet listens
    at the port of this kubelet.  With mirroring it has the labels, the
    annotations, the addresses, the capacity, the conditions and the version of
    the host node of the same name, and its capacity is not updated; without,
    its addresses are the name and the address of the agent, Ready is its only
    condition that is true, its other labels are kept, and its capacity is
    updated. *)
Theorem ConfigureNode_spec node hostname port ip version mirror w node' updater w' :
  - 2 ^ 31 ≤ port < 2 ^ 31 →
  ConfigureNode p node hostname port ip version mirror w = (Ok (node', updater), w') →
  Name (node_Meta node') = Name (node_Meta node) ∧ ne_KubeletPort (node_Extra node') = port ∧
  updater = negb mirror ∧
  if mirror then ∃ hostNode,
    store w !! (("Node", {| nn_Namespace := ""; nn_Name := Name (node_Meta node) |}) : ObjKey) = Some (ONode hostNode) ∧
    Labels (node_Meta node') = Labels (node_Meta hostNode) ∧
    Annotations (node_Meta node') = Annotations (node_Meta hostNode) ∧
    node_Addresses node' = node_Addresses hostNode ∧ node_Capacity node' = node_Capacity hostNode ∧
    node_Allocatable node' = node_Allocatable hostNode ∧
    ne_Conditions (node_Extra node') = ne_Conditions (node_Extra hostNode) ∧
    ne_KubeletVersion (node_Extra node') = ne_KubeletVersion (node_Extra hostNode)
  else
    node_Addresses node' = [{| na_Type := "Hostname"; na_Address := hostname |};
                            {| na_Type := "InternalIP"; na_Address := ip |}] ∧
    ne_KubeletVersion (node_Extra node') = version ∧
    (∀ c, c ∈ ne_Conditions (node_Extra node') → nc_Status c = ConditionTrue ↔ nc_Type c = "Ready") ∧
    (∃ c, c ∈ ne_Conditions (node_Extra node') ∧ nc_Type c = "Ready") ∧
    (∃ labels, Labels (node_Meta node) = Some labels ∧
       Labels (node_Meta node') = Some (<["kubernetes.io/os" := "linux"]>
         (<["node.kubernetes.io/exclude-from-external-load-balancers" := "true"]> labels))).
Proof.
  intros Hport. unfold ConfigureNode. destruct mirror.
  - intros (hostNode & w1 & E1 & [= <- <- <-])%bind_inv_ok.
    apply (Get_run (p_host p)) in E1 as (_ & _ & Hn & _). cbn. rewrite int32_small by done.
    split_and!; [done..|]. exists hostNode. by split_and!.
  - intros (cs & w1 & Hc%nodeConditions_run & E)%bind_inv_ok.
    apply bind_inv_ok in E as (l1 & w2 & [= Hl1 <-] & E). apply bind_inv_ok in E as (l2 & w3 & [= Hl2 <-] & E).
    injection E as <- <- <-. cbn. rewrite int32_small by done.
    unfold map_set in Hl1. destruct (Labels (node_Meta node)) as [labels|]; [|done]. injection Hl1 as <-.
    injection Hl2 as <-. split_and!; try done; [| |by exists labels].
    + intros c Hin. apply (list_elem_of_fmap_2 (λ c, (nc_Type c, nc_Status c))) in Hin.
      change (fmap (M := list) ?f ?l) with (map f l) in Hin. rewrite Hc in Hin.
      repeat apply elem_of_cons in Hin as [[= -> ->]|Hin]; try done. by apply elem_of_nil in Hin.
    + assert (("Ready", ConditionTrue) ∈ map (λ c, (nc_Type c, nc_Status c)) cs) as Hin by (rewrite Hc; left).
      apply list_elem_of_fmap in Hin as (c & [= E1 _] & Hin). by exists c.
Qed.
End Spec.

(** ** A concrete node *)
Import Lab.

Definition fresh_node : Node := {|
  node_Meta := set_Labels (map_lit [("type", "virtual-kubelet")]) (meta_of "" "node-1");
  node_PodCIDR := ""; node_PodCIDRs := []; node_Addresses := []; node_Capacity := None; node_Allocatable := None;
  node_Extra := no_node_extra |}.

Lemma ConfigureNode_spec_witness :
  ∃ node' w', ConfigureNode lab_provider fresh_node "node-1" 10250 "10.43.0.5" "v1.33.1" false (objects [], objects [])
    = (Ok (node', true), w') ∧
  ne_KubeletPort (node_Extra node') = 10250 ∧ ne_KubeletVersion (node_Extra node') = "v1.33.1".
Proof.
  destruct (ConfigureNode lab_provider fresh_node "node-1" 10250 "10.43.0.5" "v1.33.1" false (objects [], objects []))
    as [r w'] eqn:E.
  assert (match r with Ok (_, true) => true | _ => false end = true) as Hr.
  { change r with (r, w').1. rewrite <- E. vm_compute. reflexivity. }
  destruct r as [[node' [|]]|e|]; [|discriminate..]. exists node', w'. split; [reflexivity|].
  destruct (ConfigureNode_spec lab_provider fresh_node "node-1" 10250 "10.43.0.5" "v1.33.1" false
    (objects [], objects []) node' true w') as (_ & H1 & _ & _ & H2 & _); [lia|exact E|].
  split; [exact H1|exact H2].
Defined.
End VirtualNode.

(** ** The process *)
Module Kubelet.
Import Names GoDate Waiting Tokens.

Record config : Type := {
  ClusterName : string; ClusterNamespace : string; ServiceName : string; Token : string; AgentHostname : string;
  HostKubeconfig : string; VirtKubeconfig : string; KubeletPort : Z; ServerIP : string; Version : string;
  MirrorHostNodes : bool;
}.

Definition validate (c : config) : outcome unit :=
  if decide (ClusterName c = "") then Err (EText "cluster name is not provided")
  else if decide (ClusterNamespace c = "") then Err (EText "cluster namespace is not provided")
  else if decide (AgentHostname c = "") then Err (EText "agent Hostname is not provided")
  else Ok tt.

(** The options of a manager that the kubelet sets. *)
Record ManagerOptions : Type := {
  mo_LeaderElection : bool; mo_LeaderElectionNamespace : string; mo_LeaderElectionID : string;
  mo_BindAddress : string; mo_CacheNamespaces : option (list string);
}.

(** What the process calls: kubeconfigs, clients, managers, and the
    registration of the seven syncers of Syncers.v with the two managers. *)
Class KubeletLib (W RestConfig Manager : Type) := {
  BuildConfigFromFlags : string → outcome RestConfig;
  RESTConfigFromKubeConfig : string → outcome RestConfig;
  client_New : RestConfig → outcome (Client W);
  kubernetes_NewForConfig : RestConfig → outcome unit;
  NewManager : RestConfig → ManagerOptions → M W Manager;
  AddSyncer : string → Manager → Manager → string → string → M W unit;
}.

Definition Backoff_Steps : nat := 5.

Definition wrapped {W A} (msg : string) (m : M W A) : M W A :=
  r ← attempt m;
  match r with
  | inl a => mret a
  | inr err => fail (EFmt [EText msg; err])
  end.

Section Process.
Context {W RestConfig Manager : Type} `{KU : KubeUtil} `{KL : KubeletLib W RestConfig Manager} `{RT : Retrier W}.

Definition clusterIP (serviceName clusterNamespace : string) (hostClient : Client W) : M W string :=
  service ← Get hostClient Service {| nn_Namespace := clusterNamespace; nn_Name := serviceName |};
  mret (ss_ClusterIP (svc_Spec service)).

(** Every error is retried. *)
Definition virtRestConfig (virtualConfigPath : string) (hostClient : Client W) (clusterName clusterNamespace : string)
    : M W RestConfig :=
  if decide (virtualConfigPath ≠ "") then lift (BuildConfigFromFlags virtualConfigPath)
  else
    clusterKubeConfig ← wrapped "unable to decode bootstrap: " (retry_OnError Backoff_Steps (λ _, true)
      (Get hostClient Secret {| nn_Namespace := clusterNamespace;
                                nn_Name := SafeConcatNameWithPrefix [clusterName; "kubeconfig"] |}));
    wrapped "failed to create config from kubeconfig file: "
      (lift (RESTConfigFromKubeConfig (map_str (sec_Data clusterKubeConfig) "kubeconfig.yaml"))).

(** The syncers, in order, with the text of the error when one fails. *)
Definition syncers : list (string * string) := [
  ("configmap", "failed to add configmap global syncer: ");
  ("secret", "failed to add secret global syncer: ");
  ("service", "failed to add service syncer controller: ");
  ("ingress", "failed to add ingress syncer controller: ");
  ("pvc", "failed to add pvc syncer controller: ");
  ("priorityclass", "failed to add priorityclass controller: ");
  ("event", "failed to add event syncer controller: ")].

Definition addControllers (hostMgr virtualMgr : Manager) (c : config) (hostClient : Client W) : M W unit :=
  _ ← Get hostClient Cluster {| nn_Namespace := ClusterNamespace c; nn_Name := ClusterName c |};
  for_each syncers (λ s, wrapped s.2 (AddSyncer s.1 virtualMgr hostMgr (ClusterName c) (ClusterNamespace c))).

Record kubelet : Type := {
  k_virtualCluster : Cluster; k_name : string; k_hostConfig : RestConfig; k_hostClient : Client W;
  k_virtConfig : RestConfig; k_hostMgr : Manager; k_virtualMgr : Manager; k_agentIP : string; k_token : string;
  k_dnsIP : string; k_port : Z;
}.

Definition newKubelet (c : config) : M W kubelet :=
  hostConfig ← lift (BuildConfigFromFlags (HostKubeconfig c));
  hostClient ← lift (client_New hostConfig);
  virtConfig ← virtRestConfig (VirtKubeconfig c) hostClient (ClusterName c) (ClusterNamespace c);
  lift (kubernetes_NewForConfig virtConfig) ;;
  let hostMetricsBindAddress := if MirrorHostNodes c then "0" else ":8083" in
  let virtualMetricsBindAddress := if MirrorHostNodes c then "0" else ":8084" in
  hostMgr ← wrapped "unable to create controller-runtime mgr for host cluster: " (NewManager hostConfig {|
    mo_LeaderElection := true; mo_LeaderElectionNamespace := ClusterNamespace c; mo_LeaderElectionID := ClusterName c;
    mo_BindAddress := hostMetricsBindAddress; mo_CacheNamespaces := Some [ClusterNamespace c] |});
  virtualMgr ← wrapped "unable to create controller-runtime mgr for virtual cluster: " (NewManager virtConfig {|
    mo_LeaderElection := true; mo_LeaderElectionNamespace := "kube-system"; mo_LeaderElectionID := ClusterName c;
    mo_BindAddress := virtualMetricsBindAddress; mo_CacheNamespaces := None |});
  wrapped "failed to add controller: " (addControllers hostMgr virtualMgr c hostClient) ;;
  ip ← wrapped "failed to extract the clusterIP for the agent service: "
         (clusterIP (ServiceName c) (ClusterNamespace c) hostClient);
  dnsService ← wrapped "failed to get the DNS service for the cluster: " (Get hostClient Service {|
    nn_Namespace := ClusterNamespace c; nn_Name := SafeConcatNameWithPrefix [ClusterName c; "kube-dns"] |});
  virtualCluster ← wrapped "failed to get virtualCluster spec: " (Get hostClient Cluster {|
    nn_Namespace := ClusterNamespace c; nn_Name := ClusterName c |});
  mret {| k_virtualCluster := virtualCluster; k_name := AgentHostname c; k_hostConfig := hostConfig;
          k_hostClient := hostClient; k_virtConfig := virtConfig; k_hostMgr := hostMgr; k_virtualMgr := virtualMgr;
          k_agentIP := ip; k_token := Token c; k_dnsIP := ss_ClusterIP (svc_Spec dnsService); k_port := KubeletPort c |}.

(** ** The node *)

(** [provider.New] with the clients of the managers; the pod provider and the
    node it configures. *)
Definition newProviderFunc `{TokenAPI W} (k : kubelet) (cfg : config) (virtualClient : Client W) (node : Node)
    : M W (Provider W * (Node * bool)) :=
  let utilProvider := Tokens.New (k_hostClient k) virtualClient {|
    pc_ClusterNamespace := ClusterNamespace cfg; pc_ClusterName := ClusterName cfg; pc_ServerIP := ServerIP cfg;
    pc_DNSIP := k_dnsIP k; pc_AgentHostname := AgentHostname cfg |} in
  configured ← VirtualNode.ConfigureNode utilProvider node (AgentHostname cfg) (k_port k) (k_agentIP k) (Version cfg)
    (MirrorHostNodes cfg);
  mret (utilProvider, configured).

(** [nodeOpt]: the address it listens at and the labels of the node. *)
Definition nodeOpt (port : Z) (labels : gomap string) : outcome (string * gomap string * bool) :=
  labels ← map_set labels "kubernetes.io/role" "worker";
  labels ← map_set labels "node-role.kubernetes.io/worker" "true";
  mret (":" +:+ strconv_Itoa port, labels, true).

(** [err == k3s.ErrServerNotReady], not [errors.Is]. *)
Definition is_not_ready (err : error) : bool :=
  match err with
  | ESentinel name _ => bool_decide (name = "ErrServerNotReady")
  | _ => false
  end.

Definition kubelet_client (cfg : config) (token agentIP podIP : string) : K3s.Client :=
  K3s.New {| K3s.ServerIP := Expose.ServiceName (ClusterName cfg) +:+ "." +:+ ClusterNamespace cfg;
             K3s.Token := token; K3s.AgentIP := agentIP; K3s.PodIP := podIP;
             K3s.NodeName := SafeConcatName [ClusterName cfg; "server-0"] |}.

Definition loadTLSConfig {Cert} `{K3s.Transport W} `{K3s.Codec} (X509KeyPair : string → string → outcome Cert)
    (cfg : config) (token agentIP podIP : string) : M W (list Cert) :=
  tlsCrt ← wrapped "unable to request serving kubelet certificate: "
    (retry_OnError Backoff_Steps is_not_ready
      (K3s.GetServingKubeletCrt X509KeyPair (kubelet_client cfg token agentIP podIP)));
  mret [tlsCrt].

(** The handler of /readyz, given the outcome of the TCP probe of the server:
    the status code and the body. *)
Definition readyz (probe : bool * string) : Z * string :=
  if probe.1 then (200, "ok") else (503, probe.2 +:+ String (ascii_of_nat 10) "").

(** [nodeutil.NewNode] with its options: it calls the provider function with the
    node it makes, and the options with its configuration. *)
Class NodeUtil (Cert Handle : Type) := {
  NewNode : string → (Node → M W (Provider W * (Node * bool))) → (gomap string → outcome (string * gomap string * bool)) →
            list Cert → M W Handle;
}.

Definition registerNode {Cert Handle} `{TokenAPI W} `{K3s.Transport W} `{K3s.Codec} `{!NodeUtil Cert Handle}
    (X509KeyPair : string → string → outcome Cert) (virtualClient : Client W) (k : kubelet) (agentIP podIP : string)
    (cfg : config) : M W Handle :=
  tlsConfig ← wrapped "unable to get tls config: " (loadTLSConfig X509KeyPair cfg (k_token k) agentIP podIP);
  wrapped "unable to start kubelet: "
    (NewNode (k_name k) (newProviderFunc k cfg virtualClient) (nodeOpt (KubeletPort cfg)) tlsConfig).

(** [run] of main.go, given what [start] does with the node (see [Start]). *)
Definition run {Cert Handle} `{TokenAPI W} `{K3s.Transport W} `{K3s.Codec} `{!NodeUtil Cert Handle}
    (X509KeyPair : string → string → outcome Cert) (virtualClient : Client W) (start : kubelet → Handle → M W unit)
    (podIP : string) (cfg : config) : M W unit :=
  wrapped "failed to validate config: " (lift (validate cfg)) ;;
  k ← wrapped "failed to create new virtual kubelet instance: " (newKubelet cfg);
  node ← wrapped "failed to register new node: "
    (registerNode X509KeyPair virtualClient k (k_agentIP k) podIP cfg);
  start k node.

(** ** The watch of the virtual API server *)
Definition probeAPIFailureThreshold : Z := 3.
Definition probeAPIPeriod : Duration := 10 * Second.
Definition probeAPITimeout : Duration := 5 * Second.

(** The GET of /readyz under a timeout. *)
Variable probe : M W unit.

Definition watch_condition : Condition W Z := λ failures,
  r ← attempt probe;
  match r with
  | inl _ => mret (false, None, 0)
  | inr err =>
      let failures := failures + 1 in
      if probeAPIFailureThreshold <=? failures then
        mret (true, Some (EFmt [EText "failure threshold reached for probing virtual API server: "; err]), failures)
      else mret (false, None, failures)
  end.

Definition watchVirtualAPI `{Poller W} : M W unit :=
  '(lastErr, _) ← PollUntilContextCancel probeAPIPeriod true watch_condition 0;
  match lastErr with
  | Some err => if errors_is "context.Canceled" err then mret tt else fail err
  | None => mret tt
  end.
End Process.

#[local] Set Default Proof Using "Type*".

(** ** When the watch ends *)
Section Watch.
Local Open Scope list_scope.
Context {W : Type} (probe : M W unit) `{PL : PollerLaw W}.

(** The outcomes of [n] probes: the error of each, if any. *)
Fixpoint probes (n : nat) (w : W) : list (option error) * W :=
  match n with
  | O => ([], w)
  | S n =>
      let '(r, w1) := probe w in
      let '(l, w2) := probes n w1 in
      ((match r with Err e => Some e | _ => None end) :: l, w2)
  end.

(** Three failures in a row. *)
Definition outage (l : list (option error)) : Prop :=
  ∃ l1 e1 e2 e3 l2, l = l1 ++ [Some e1; Some e2; Some e3] ++ l2.

(** The failures at the end of a list, and the list with one more probe. *)
Definition streak (l : list (option error)) : nat :=
  fold_left (λ n o, match o with None => 0 | Some _ => S n end)%nat l 0%nat.

Lemma streak_snoc l o : streak (l ++ [o]) = match o with None => 0%nat | Some _ => S (streak l) end.
Proof using. unfold streak. by rewrite fold_left_app. Qed.

Lemma streak_suffix l k : (k ≤ streak l)%nat → ∃ l1 l2, l = l1 ++ l2 ∧ length l2 = k ∧ Forall is_Some l2.
Proof using.
  revert k. induction l as [|o l IH] using rev_ind; intros k Hk.
  - cbn in Hk. exists [], []. split_and!; [done|cbn; lia|constructor].
  - rewrite streak_snoc in Hk. destruct k as [|k].
    { exists (l ++ [o]), []. by rewrite app_nil_r. }
    destruct o as [e|]; [|lia]. destruct (IH k) as (l1 & l2 & -> & <- & Hf); [lia|].
    exists l1, (l2 ++ [Some e]). rewrite app_assoc, length_app, Forall_app. cbn.
    split_and!; [done|lia|done|by repeat constructor].
Qed.

Lemma outage_snoc l o : outage (l ++ [o]) → outage l ∨ (3 ≤ streak (l ++ [o]))%nat.
Proof using.
  intros (l1 & e1 & e2 & e3 & l2 & E). destruct l2 as [|o' l3 _] using rev_ind.
  - right. rewrite E, app_nil_r. unfold streak. rewrite fold_left_app. cbn. lia.
  - left. rewrite !app_assoc in E. apply app_inj_2 in E as [-> _]; [|done]. rewrite <- !app_assoc. by eexists _, _, _, _, _.
Qed.

Lemma probes_snoc n w l w' :
  probes n w = (l, w') → ∀ r w2, probe w' = (r, w2) →
  probes (S n) w = (l ++ [match r with Err e => Some e | _ => None end], w2).
Proof using.
  revert w l w'. induction n as [|n IH]; intros w l w' E r w2 E2.
  - injection E as <- <-. cbn. by rewrite E2.
  - cbn [probes] in E. destruct (probe w) as [r1 w1] eqn:E1. destruct (probes n w1) as [l1 w3] eqn:E3.
    injection E as <- <-. specialize (IH _ _ _ E3 _ _ E2).
    cbn [probes] in *. rewrite E1. cbn in IH. destruct (probe w1) as [r4 w4]. destruct (probes n w4) as [l4 w5].
    by injection IH as -> ->.
Qed.

Lemma probes_add n m w :
  probes (n + m) w = let '(l, w1) := probes n w in let '(l', w2) := probes m w1 in (l ++ l', w2).
Proof using.
  revert w. induction n as [|n IH]; intros w; cbn; [by destruct (probes m w)|].
  destruct (probe w) as [r w1]. rewrite IH. destruct (probes n w1) as [l w2]. by destruct (probes m w2).
Qed.

Lemma probes_length n w : length (probes n w).1 = n.
Proof using.
  revert w. induction n as [|n IH]; intros w; cbn; [done|]. destruct (probe w) as [r w1].
  specialize (IH w1). destruct (probes n w1). cbn in *. by f_equal.
Qed.

(** How the poll goes on from [n0] probes without an outage. *)
Lemma watch_loop stop n w0 n0 l0 w o w' :
  (∀ w, (probe w).1 ≠ Panic) →
  probes n0 w0 = (l0, w) → ¬ outage l0 → (streak l0 < 3)%nat →
  poll_loop stop n (watch_condition probe) (Z.of_nat (streak l0)) w = (o, w') →
  ∃ k l err s, o = Ok (err, s) ∧ probes k w0 = (l, w') ∧
    ((k = (n0 + n)%nat ∧ ¬ outage l ∧ err = Some stop) ∨
     ∃ l1 e1 e2 e, (k ≤ n0 + n)%nat ∧ l = l1 ++ [Some e1; Some e2; Some e] ∧ ¬ outage (l1 ++ [Some e1; Some e2]) ∧
       err = Some (EFmt [EText "failure threshold reached for probing virtual API server: "; e])).
Proof using.
  intros Hp. revert n0 l0 w. induction n as [|n IH]; intros n0 l0 w Hpr Hno Hst E.
  - injection E as <- <-. exists n0, l0, (Some stop), (Z.of_nat (streak l0)). rewrite Nat.add_0_r. auto 10.
  - rewrite <- Nat.add_succ_comm. cbn [poll_loop] in E. unfold watch_condition, mbind at 1, M_bind at 1, mbind at 1, M_bind at 1, attempt in E.
    destruct (probe w) as [[[]|e|] w1] eqn:E1; [| |by destruct (Hp w); rewrite E1].
    + apply (IH (S n0) (l0 ++ [None]) w1).
      * by apply (probes_snoc _ _ _ _ Hpr _ _ E1).
      * intros [?|Hs]%outage_snoc; [done|]. rewrite streak_snoc in Hs. lia.
      * rewrite streak_snoc. lia.
      * by rewrite streak_snoc.
    + pose proof (probes_snoc _ _ _ _ Hpr _ _ E1) as Hpr1. cbn in Hpr1.
      destruct (Z.leb_spec probeAPIFailureThreshold (Z.of_nat (streak l0) + 1)) as [Ht|Ht]; unfold probeAPIFailureThreshold in Ht.
      * injection E as <- <-. eexists (S n0), (l0 ++ [Some e]), _, _. split; [done|]. split; [done|]. right.
        destruct (streak_suffix l0 2) as (l1 & l2 & -> & Hl2 & Hf); [lia|].
        destruct l2 as [|[e1|] [|[e2|] [|]]]; try done.
        -- exists l1, e1, e2, e. split; [lia|]. by rewrite <- app_assoc.
        -- by apply Forall_cons in Hf as [_ [[? ?] _]%Forall_cons].
        -- by apply Forall_cons in Hf as [[? ?] _].
        -- by apply Forall_cons in Hf as [[? ?] _].
      * apply (IH (S n0) (l0 ++ [Some e]) w1); [done| | |].
        -- intros [?|Hs]%outage_snoc; [done|]. rewrite streak_snoc in Hs. lia.
        -- rewrite streak_snoc. lia.
        -- rewrite streak_snoc. replace (Z.of_nat (S (streak l0))) with (Z.of_nat (streak l0) + 1) by lia. exact E.
Qed.

(** The context lets the watch poll [n] times and is then over with [stop]. *)
Definition lasts (n : nat) (stop : error) (w : W) : Prop :=
  context_error stop ∧ (0 < n)%nat ∧
  PollUntilContextCancel probeAPIPeriod true (watch_condition probe) 0 w = poll_loop stop n (watch_condition probe) 0 w.

(** C32: the watch of the virtual API server goes on as long as its context does,
    through any number of probes that fail, but for three failures in a row: when
    the context lets it poll [n] times and no three probes in a row of these fail,
    it makes all of them and ends without error when the context was cancelled,
    with its error otherwise; when three in a row fail, it ends at the first such
    moment, with the error of the third one.  (An outage whose last error says
    that the context was cancelled counts as a normal end.) *)
Theorem watchVirtualAPI_spec w r w' :
  (∀ w, (probe w).1 ≠ Panic) →
  watchVirtualAPI probe w = (r, w') →
  (∃ n stop, lasts n stop w) ∧
  ∀ n stop, lasts n stop w →
    (¬ outage (probes n w).1 ∧ w' = (probes n w).2 ∧
     (stop = context_Canceled → r = Ok tt) ∧ (stop ≠ context_Canceled → r = Err stop)) ∨
    ∃ l e1 e2 e rest, (probes n w).1 = l ++ [Some e1; Some e2; Some e] ++ rest ∧ ¬ outage (l ++ [Some e1; Some e2]) ∧
      probes (length l + 3) w = (l ++ [Some e1; Some e2; Some e], w') ∧
      r = if errors_is "context.Canceled" e then Ok tt
          else Err (EFmt [EText "failure threshold reached for probing virtual API server: "; e]).
Proof.
  intros Hp Ew. split.
  { destruct (poll_cancel_spec probeAPIPeriod true (watch_condition probe) 0 w) as (n & stop & ? & ? & ?); [done|].
    exists n, stop. split_and!; [done|lia|done]. }
  intros n stop (Hstop & _ & Ep). unfold watchVirtualAPI, mbind, M_bind in Ew. rewrite Ep in Ew.
  destruct (poll_loop stop n (watch_condition probe) 0 w) as [o w1] eqn:E.
  apply (watch_loop stop n w 0 [] w o w1 Hp) in E as (k & l & err & s & -> & Hk & Hl);
    [|done|intros (l1 & ? & ? & ? & l2 & ?); by destruct l1|cbn; lia].
  destruct Hl as [(-> & Hno & ->)|(l1 & e1 & e2 & e & Hle & -> & Hno & ->)].
  - left. rewrite Nat.add_0_l in Hk. rewrite Hk. by destruct Hstop as [->| ->]; injection Ew as <- <-.
  - right. replace n with (k + (n - k))%nat by lia. rewrite probes_add, Hk.
    destruct (probes (n - k) w1) as [rest w2]. exists l1, e1, e2, e, rest.
    split; [cbn; by rewrite <- app_assoc|]. split; [done|]. cbn in Ew. rewrite orb_false_r in Ew.
    assert (k = (length l1 + 3)%nat) as <-.
    { apply (f_equal fst), (f_equal length) in Hk. cbn [fst] in Hk. rewrite probes_length, length_app in Hk. done. }
    destruct (errors_is "context.Canceled" e); by injection Ew as <- <-.
Qed.
End Watch.

(** A server that answers twice, then no more, and one that fails two times out of
    three. *)
Definition failing_probe : M nat unit := λ n,
  if decide (n < 2)%nat then (Ok tt, S n) else (Err (EText "connection refused"), S n).
Definition flaky_probe : M nat unit := λ n,
  if decide (n `mod` 3 = 0)%nat then (Ok tt, S n) else (Err (EText "connection refused"), S n).

#[export] Instance patient : Poller nat := loop_poller nat 20.
#[export] Instance patient_law : PollerLaw nat := loop_poller_law nat 20.

Lemma patient_lasts probe w : lasts probe 21 context_Canceled w.
Proof. split; [by left|]. split; [lia|reflexivity]. Qed.

Lemma outages l : outage l → existsb (λ i, forallb (λ o, bool_decide (is_Some o)) (firstn 3 (skipn i l)) && (i + 3 <=? length l)%nat)
                               (seq 0 (length l)) = true.
Proof.
  intros (l1 & e1 & e2 & e3 & l2 & ->). apply existsb_exists. exists (length l1).
  rewrite !length_app. cbn [length]. rewrite skipn_app, skipn_all, Nat.sub_diag. cbn.
  split; [apply in_seq; lia|]. apply Nat.leb_le. lia.
Qed.

Lemma watchVirtualAPI_spec_witness :
  (∃ e, watchVirtualAPI failing_probe 0%nat = (Err e, 5%nat) ∧ outage (probes failing_probe 21 0%nat).1) ∧
  watchVirtualAPI flaky_probe 0%nat = (Ok tt, 21%nat).
Proof.
  split.
  - destruct (watchVirtualAPI failing_probe 0%nat) as [r w'] eqn:E.
    assert (r = (watchVirtualAPI failing_probe 0%nat).1) as Hr by (rewrite E; reflexivity).
    assert (w' = 5%nat) as -> by (change w' with (r, w').2; rewrite <- E; vm_compute; reflexivity).
    vm_compute in Hr. subst r. eexists. split; [reflexivity|].
    assert (∀ n, (failing_probe n).1 ≠ Panic) as Hp by (intros n; unfold failing_probe; case_decide; discriminate).
    destruct (proj2 (watchVirtualAPI_spec failing_probe 0%nat _ _ Hp E) _ _ (patient_lasts _ _))
      as [(_ & Hw & _)|(l & e1 & e2 & e & rest & Hl & _)].
    + discriminate Hw.
    + exists l, e1, e2, e, rest. exact Hl.
  - destruct (watchVirtualAPI flaky_probe 0%nat) as [r w'] eqn:E.
    assert (∀ n, (flaky_probe n).1 ≠ Panic) as Hp by (intros n; unfold flaky_probe; case_decide; discriminate).
    destruct (proj2 (watchVirtualAPI_spec flaky_probe 0%nat _ _ Hp E) _ _ (patient_lasts _ _))
      as [(_ & -> & Hr & _)|(l & e1 & e2 & e & rest & Hl & _)].
    + rewrite (Hr eq_refl). reflexivity.
    + exfalso. assert (outage (probes flaky_probe 21 0%nat).1) as Ho%outages by (exists l, e1, e2, e, rest; exact Hl).
      vm_compute in Ho. discriminate Ho.
Defined.
End Kubelet.

(** ** The goroutines of the process ([kubelet.start]) *)
Module Start.
Import Runs.

(** The tasks that report on [errChan], whose buffer holds three errors. *)
Inductive component : Set := HostManager | VirtualManager | WatchAPI.
#[export] Instance component_eq_dec : EqDecision component.
Proof. solve_decision. Defined.
Definition components : list component := [HostManager; VirtualManager; WatchAPI].

Inductive thread : Set := Main | Task (c : component) | World.
#[export] Instance thread_eq_dec : EqDecision thread.
Proof. solve_decision. Defined.

Inductive task : Type :=
| NotStarted
| Running
| Stopped (r : option error)    (* its call has returned, the error is not sent yet *)
| Sent (r : option error).

Inductive place : Type :=
| WaitingReady
| Selecting
| Returned (r : option error).

Record state : Type := {
  main : place;
  tasks : component → task;
  errChan : list (option error);
  node_ready : bool;
  node_done : option (option error);   (* [node.Done] is closed, with [node.Err] *)
  timed_out : bool;                    (* the minute of WaitReady is over, or its context *)
  recorder_down : bool;                (* [eb.Shutdown] was called *)
}.

Definition start : state := {|
  main := WaitingReady;
  tasks := λ c, match c with WatchAPI => NotStarted | _ => Running end;
  errChan := []; node_ready := false; node_done := None; timed_out := false; recorder_down := false |}.

Definition set_task (c : component) (t : task) (f : component → task) : component → task :=
  λ c', if decide (c' = c) then t else f c'.

Definition with_main (p : place) (s : state) : state := {|
  main := p; tasks := tasks s; errChan := errChan s; node_ready := node_ready s; node_done := node_done s;
  timed_out := timed_out s; recorder_down := recorder_down s |}.
Definition with_task (c : component) (t : task) (ch : list (option error)) (s : state) : state := {|
  main := main s; tasks := set_task c t (tasks s); errChan := ch; node_ready := node_ready s; node_done := node_done s;
  timed_out := timed_out s; recorder_down := recorder_down s |}.
Definition with_node (ready : bool) (stopped : option (option error)) (late : bool) (s : state) : state := {|
  main := main s; tasks := tasks s; errChan := errChan s; node_ready := ready; node_done := stopped;
  timed_out := late; recorder_down := recorder_down s |}.

(** The watch is started once the node is ready. *)
Definition watching (s : state) : state := {|
  main := Selecting; tasks := set_task WatchAPI Running (tasks s); errChan := errChan s; node_ready := node_ready s;
  node_done := node_done s; timed_out := timed_out s; recorder_down := recorder_down s |}.
Definition received (r : option error) (rest : list (option error)) (s : state) : state := {|
  main := Returned r; tasks := tasks s; errChan := rest; node_ready := node_ready s; node_done := node_done s;
  timed_out := timed_out s; recorder_down := recorder_down s |}.
Definition exited (s : state) : state := {|
  main := Returned None; tasks := tasks s; errChan := errChan s; node_ready := node_ready s; node_done := node_done s;
  timed_out := timed_out s; recorder_down := true |}.

Inductive step : thread → state → state → Prop :=
(* node.WaitReady *)
| Main_ready s (H : main s = WaitingReady) (R : node_ready s = true) : step Main s (watching s)
| Main_not_ready s e (H : main s = WaitingReady) (R : timed_out s = true ∨ node_done s ≠ None) :
    step Main s (with_main (Returned (Some e)) s)
(* the select *)
| Main_node_failed s e (H : main s = Selecting) (R : node_done s = Some (Some e)) :
    step Main s (with_main (Returned (Some e)) s)
| Main_node_exited s (H : main s = Selecting) (R : node_done s = Some None) : step Main s (exited s)
| Main_receives s r rest (H : main s = Selecting) (R : errChan s = r :: rest) : step Main s (received r rest s)
(* errChan <- err *)
| Task_sends s c r (H : tasks s c = Stopped r) (R : (length (errChan s) < 3)%nat) :
    step (Task c) s (with_task c (Sent r) (errChan s ++ [r])%list s)
(* what the process does not decide *)
| Task_stops s c r (H : tasks s c = Running) : step World s (with_task c (Stopped r) (errChan s) s)
| Node_gets_ready s (H : node_done s = None) : step World s (with_node true (node_done s) (timed_out s) s)
| Node_stops s r (H : node_done s = None) : step World s (with_node (node_ready s) (Some r) (timed_out s) s)
| Minute_passes s : step World s (with_node (node_ready s) (node_done s) true s).

#[local] Set Default Proof Using "Type*".

Definition is_sent (t : task) : bool := match t with Sent _ => true | _ => false end.
Definition sent (s : state) : nat := sum_list_with (λ c, if is_sent (tasks s c) then 1 else 0)%nat components.
Definition has_returned (s : state) : bool := match main s with Returned _ => true | _ => false end.

Record wf (s : state) : Prop := {
  wf_room : (length (errChan s) ≤ sent s)%nat;
  wf_full : has_returned s = false → length (errChan s) = sent s;
  wf_from : ∀ r, r ∈ errChan s → ∃ c, tasks s c = Sent r;
  wf_result : match main s with
              | WaitingReady => tasks s WatchAPI = NotStarted
              | Selecting => True
              | Returned (Some e) => tasks s WatchAPI = NotStarted ∨ node_done s = Some (Some e) ∨
                                     ∃ c, tasks s c = Sent (Some e)
              | Returned None => (node_done s = Some None ∧ recorder_down s = true) ∨ ∃ c, tasks s c = Sent None
              end;
}.

Lemma set_task_eq c t f : set_task c t f c = t.
Proof. unfold set_task. by rewrite decide_True. Qed.
Lemma set_task_ne c c' t f : c' ≠ c → set_task c t f c' = f c'.
Proof. intros. unfold set_task. by rewrite decide_False. Qed.

(** A task that has sent its error stays so. *)
Lemma step_sent_stays t s s' c r : step t s s' → tasks s c = Sent r → wf s → tasks s' c = Sent r.
Proof.
  intros Hs Hc Hw. destruct Hs; cbn; try done; unfold set_task; case_decide; subst; try done; try congruence.
  pose proof (wf_result _ Hw) as Hr. rewrite H in Hr. congruence.
Qed.

(** The count goes up by one when a task sends. *)
Lemma sent_with_task c t ch s :
  is_sent (tasks s c) = false →
  sent (with_task c t ch s) = (sent s + if is_sent t then 1 else 0)%nat.
Proof.
  intros Hc. unfold sent, with_task. cbn.
  destruct c; rewrite Hc, ?set_task_eq, ?set_task_ne by done; destruct (is_sent t); lia.
Qed.

Lemma sent_bound s c : is_sent (tasks s c) = false → (sent s < 3)%nat.
Proof. intros Hc. unfold sent. destruct c; cbn; rewrite Hc; repeat case_match; lia. Qed.

Lemma start_wf : wf start.
Proof. split; cbn; try done. by intros r ?%elem_of_nil. Qed.

Arguments sent : simpl never.

Lemma step_result t s s' :
  step t s s' → wf s →
  match main s' with
  | WaitingReady => tasks s' WatchAPI = NotStarted
  | Selecting => True
  | Returned (Some e) => tasks s' WatchAPI = NotStarted ∨ node_done s' = Some (Some e) ∨
                         ∃ c, tasks s' c = Sent (Some e)
  | Returned None => (node_done s' = Some None ∧ recorder_down s' = true) ∨ ∃ c, tasks s' c = Sent None
  end.
Proof.
  intros Hs Hw. pose proof (wf_result _ Hw) as Hr. pose proof Hs as Hs'.
  destruct Hs; cbn; try rewrite H; try done; try rewrite H in Hr.
  - by left.
  - by right; left.
  - by left.
  - destruct (wf_from _ Hw r) as [c Hc]; [rewrite R; left|]. destruct r; [right; right|right]; by exists c.
  - unfold set_task. destruct (main s) as [| |[e|]]; [|done| |].
    + case_decide as Hc; [subst; congruence|done].
    + destruct Hr as [Hr|[Hr|[c' Hr]]]; [|by right; left|].
      * left. case_decide as Hc; [subst; congruence|done].
      * right; right. exists c'. by apply (step_sent_stays _ _ _ _ _ Hs').
    + destruct Hr as [Hr|[c' Hr]]; [by left|right]. exists c'. by apply (step_sent_stays _ _ _ _ _ Hs').
  - unfold set_task. destruct (main s) as [| |[e|]]; [|done| |].
    + case_decide as Hc; [subst; congruence|done].
    + destruct Hr as [Hr|[Hr|[c' Hr]]]; [|by right; left|].
      * left. case_decide as Hc; [subst; congruence|done].
      * right; right. exists c'. by apply (step_sent_stays _ _ _ _ _ Hs').
    + destruct Hr as [Hr|[c' Hr]]; [by left|right]. exists c'. by apply (step_sent_stays _ _ _ _ _ Hs').
  - destruct (main s) as [| |[e|]]; naive_solver.
  - destruct (main s) as [| |[e|]]; naive_solver.
Qed.

Lemma sent_watching s : tasks s WatchAPI = NotStarted → sent (watching s) = sent s.
Proof.
  intros E. change (sent (watching s)) with (sent (with_task WatchAPI Running [] s)).
  rewrite sent_with_task by (by rewrite E). cbn. lia.
Qed.

Lemma start_step_wf t s s' : step t s s' → wf s → wf s'.
Proof.
  intros Hs Hw. pose proof Hw as [Hroom Hfull Hfrom Hres].
  split; [| |intros r Hr|by eapply step_result].
  - destruct Hs; try exact Hroom.
    + rewrite H in Hres. rewrite sent_watching by done. exact Hroom.
    + change (sent (received r rest s)) with (sent s). rewrite R in Hroom. cbn in *. lia.
    + rewrite sent_with_task by (by rewrite H). cbn. rewrite length_app. cbn. lia.
    + rewrite sent_with_task by (by rewrite H). cbn. lia.
  - destruct Hs; try exact Hfull; try done.
    + rewrite H in Hres. intros _. rewrite sent_watching by done. apply Hfull. unfold has_returned. by rewrite H.
    + intros Hm. rewrite sent_with_task by (by rewrite H). cbn. rewrite length_app, Hfull by done. cbn. lia.
    + intros Hm. rewrite sent_with_task by (by rewrite H). cbn. rewrite Hfull by done. lia.
  - pose proof Hs as Hs'. assert (r ∈ errChan s → ∃ c, tasks s' c = Sent r) as Hkeep.
    { intros (c & Hc)%Hfrom. exists c. by eapply step_sent_stays. }
    destruct Hs; cbn in *; try (by apply Hkeep).
    + apply Hkeep. rewrite R. by right.
    + apply elem_of_app in Hr as [Hr| ->%list_elem_of_singleton]; [by apply Hkeep|]. exists c. apply set_task_eq.
Qed.

Lemma start_reachable_wf s : reachable step start s → wf s.
Proof. apply reachable_ind; [apply start_wf|apply start_step_wf]. Qed.

(** a task of the kubelet that stops is never blocked on the channel on which
    it reports, even when nobody receives any more; and what [start] returns is
    the error of a task that has stopped: the node's or one of the three that
    report, or, before the watch was started, that the node was not ready.  It
    returns without error only when one of them ended without error. *)
Theorem start_result s :
  reachable step start s →
  (∀ c r, tasks s c = Stopped r → enabled step (Task c) s) ∧
  match main s with
  | Returned (Some e) => tasks s WatchAPI = NotStarted ∨ node_done s = Some (Some e) ∨
                         ∃ c, tasks s c = Sent (Some e)
  | Returned None => (node_done s = Some None ∧ recorder_down s = true) ∨ ∃ c, tasks s c = Sent None
  | _ => True
  end.
Proof.
  intros [Hroom _ _ Hres]%start_reachable_wf. split; [|by destruct (main s)].
  intros c r Hc. eexists. eapply Task_sends; [done|].
  assert (sent s < 3)%nat by (apply (sent_bound s c); by rewrite Hc). lia.
Qed.

(** *** It returns *)
Definition over (s : state) : Prop := node_done s ≠ None ∨ ∃ c r, tasks s c = Sent r.
Definition can_wake (s : state) : Prop := node_ready s = true ∨ timed_out s = true ∨ node_done s ≠ None.
Definition rank (s : state) : nat :=
  match main s with WaitingReady => 2 | Selecting => 1 | Returned _ => 0 end.

Lemma step_over t s s' : step t s s' → wf s ∧ over s → wf s' ∧ over s'.
Proof.
  intros Hs [Hw Ho]. split; [by eapply start_step_wf|]. destruct Ho as [Ho|(c & r & Hc)].
  - left. destruct Hs; cbn; done.
  - right. exists c, r. by eapply step_sent_stays.
Qed.

Lemma step_can_wake t s s' : step t s s' → can_wake s → can_wake s'.
Proof. unfold can_wake. destruct 1; cbn; try tauto. Qed.

Lemma step_rank t s s' : step t s s' → rank s' = rank s ∨ (rank s' < rank s)%nat.
Proof. unfold rank. destruct 1; cbn; try rewrite H; auto; right; lia. Qed.

Lemma start_main_step_rank s s' : step Main s s' → (rank s' < rank s)%nat.
Proof. unfold rank. inversion 1; subst; cbn; rewrite H0; lia. Qed.

Lemma start_main_enabled s : wf s → over s → can_wake s → (0 < rank s)%nat → enabled step Main s.
Proof.
  intros Hw Ho Hc Hk. unfold rank in Hk. destruct (main s) eqn:Em; [| |lia].
  - destruct Hc as [Hc|Hc]; [eexists; by apply Main_ready|]. exists (with_main (Returned (Some (EText ""))) s).
    by apply Main_not_ready.
  - destruct Ho as [Ho|(c & r & Hs)].
    + destruct (node_done s) as [[e|]|] eqn:E; [| |done]; eexists; [by apply Main_node_failed|by apply Main_node_exited].
    + assert (errChan s ≠ []) as Hne.
      { intros E. pose proof (wf_full _ Hw) as Hf. unfold has_returned in Hf. rewrite Em, E in Hf.
        specialize (Hf eq_refl). cbn in Hf. unfold sent in Hf. destruct c; cbn in Hf; rewrite Hs in Hf; cbn in Hf; lia. }
      destruct (errChan s) as [|r' rest] eqn:E; [done|]. eexists. by apply Main_receives.
Qed.

Section Run.
Variable r : nat → state.
Hypothesis Hrun : run step start r.
Hypothesis Hmain : fair step Main r.

Lemma start_main_progress m :
  over (r m) → can_wake (r m) → (0 < rank (r m))%nat → ∃ m', (m ≤ m')%nat ∧ (rank (r m') < rank (r m))%nat.
Proof.
  intros Ho Hc Hk. set (k := rank (r m)).
  apply (leads_to step start r Main (λ s, (wf s ∧ over s) ∧ can_wake s ∧ rank s = k) (λ s, rank s < k)%nat m);
    [done|done| | | |].
  - intros t s s' Hs (Hw & Hcw & Hkk). destruct (step_rank _ _ _ Hs) as [E|?]; [left|right; lia].
    split; [by eapply step_over|]. split; [by eapply step_can_wake|lia].
  - intros s s' Hs (_ & _ & Hkk). pose proof (start_main_step_rank _ _ Hs). lia.
  - intros s ([Hw Hos] & Hcw & Hkk). apply start_main_enabled; [done..|lia].
  - split; [split; [by eapply start_reachable_wf, run_reachable|done]|]. split; [done|reflexivity].
Qed.

(** A task that has stopped sends its error. *)
Lemma task_sends c n e :
  fair step (Task c) r → tasks (r n) c = Stopped e → ∃ m, (n ≤ m)%nat ∧ over (r m).
Proof.
  intros Hf Hc.
  destruct (leads_to step start r (Task c) (λ s, wf s ∧ tasks s c = Stopped e) (λ s, tasks s c = Sent e) n)
    as (m & Hm & Hs); [done|done| | | | |].
  - intros t s s' Hs [Hw Ht]. destruct (decide (t = Task c)) as [->|Hne].
    + right. inversion Hs; subst. cbn. rewrite set_task_eq. congruence.
    + left. split; [by eapply start_step_wf|]. destruct Hs; cbn; try done; unfold set_task; case_decide; subst; try congruence.
      pose proof (wf_result _ Hw) as Hr. rewrite H in Hr. congruence.
  - intros s s' Hs [Hw Ht]. inversion Hs; subst. cbn. rewrite set_task_eq. congruence.
  - intros s [[Hroom _ _ _] Ht]. eexists. eapply Task_sends; [done|].
    assert (sent s < 3)%nat by (apply (sent_bound s c); by rewrite Ht). lia.
  - split; [by eapply start_reachable_wf, run_reachable|done].
  - exists m. split; [done|]. right. by exists c, e.
Qed.
End Run.

(** C33: [start] returns: on every run that is fair to it and to the tasks that
    report, if at some moment the node or one of the tasks has stopped, and at
    some moment the node is ready, or has stopped, or the minute it is given is
    over, then [start] returns.  (Before that moment a task that has stopped is
    not noticed.) *)
Theorem start_returns r :
  run step start r → fair step Main r → (∀ c, fair step (Task c) r) →
  (∃ n, node_done (r n) ≠ None ∨ ∃ c e, tasks (r n) c = Stopped e) →
  (∃ n, can_wake (r n)) →
  ∃ m res, main (r m) = Returned res.
Proof.
  intros Hrun Hm Ht [n Hn] [n2 Hc].
  assert (∃ n, over (r n)) as [n1 Ho].
  { destruct Hn as [Hn|(c & e & Hn)]; [by exists n; left|].
    destruct (task_sends r Hrun Hm c n e (Ht c) Hn) as (m & _ & Hov). by exists m. }
  destruct (eventually_zero step r rank (n1 `max` n2)) as (m & _ & Hz).
  - intros m Hle Hk. apply start_main_progress; [done|done| | |done].
    + apply (run_stable step start r (λ s, wf s ∧ over s) n1); [done|apply step_over|lia|].
      split; [by eapply start_reachable_wf, run_reachable|done].
    + apply (run_stable step start r can_wake n2); [done|apply step_can_wake|lia|done].
  - unfold rank in Hz. destruct (main (r m)) as [| |res] eqn:E; try lia. by exists m, res.
Qed.

(** ** A run: the host manager stops, then the node is ready *)
Definition lost : option error := Some (EText "leader election lost").
Definition s1 : state := with_task HostManager (Stopped lost) [] start.
Definition s2 : state := with_task HostManager (Sent lost) [lost] s1.
Definition s3 : state := with_node true None false s2.
Definition s4 : state := watching s3.
Definition s5 : state := received lost [] s4.

Lemma lost_path : path step start [s1; s2; s3; s4; s5].
Proof.
  repeat split; eexists.
  - by refine (Task_stops start HostManager lost _).
  - by refine (Task_sends s1 HostManager lost _ _); [|cbn; lia].
  - by refine (Node_gets_ready s2 _).
  - by refine (Main_ready s3 _ _).
  - by refine (Main_receives s4 lost [] _ _).
Qed.

Lemma start_result_witness : main s5 = Returned lost ∧ ∃ c, tasks s5 c = Sent lost.
Proof.
  split; [reflexivity|].
  destruct (start_result s5 (path_reachable step start _ lost_path)) as [_ [H|[H|H]]]; [discriminate H|discriminate H|exact H].
Defined.

Lemma start_returns_witness : ∃ m res, main (through start [s1; s2; s3; s4; s5] m) = Returned res.
Proof.
  apply (start_returns (through start [s1; s2; s3; s4; s5])).
  - apply through_run, lost_path.
  - apply through_fair. intros [s' Hs]. inversion Hs; subst; try discriminate.
  - intros c. apply through_fair. intros [s' Hs]. inversion Hs; subst. destruct c; discriminate.
  - exists 1%nat. right. exists HostManager, lost. reflexivity.
  - exists 3%nat. left. reflexivity.
Defined.
End Start.
