(* ===== verification/Controller.v ===== *)
(** * The controller process (main.go), the binding of its flags (cli/cmds/root.go)
      and its logger (pkg/logging/zap.go)

    What the process refuses before it starts, and the order in which it puts its
    controllers together.  viper, the parsers of the flags and the registration
    of the controllers with the manager are parameters. *)

From S2P Require Import Prelude GoStd.

Local Open Scope string_scope.

Module Controller.

(** ** Flags *)
Record Flag : Type := { f_Name : string; f_Value : string; f_Changed : bool }.

Section Flags.
(** [viper.IsSet] with [viper.Get], printed; and whether the flag of a name can be
    set to a value. *)
Context (viper_Get : string → option string) (accepts : string → string → bool).

(** [_ = cmd.Flags().Set(f.Name, val)]: a value that is refused is dropped. *)
Definition bind_flag (f : Flag) : Flag :=
  if f_Changed f then f
  else match viper_Get (f_Name f) with
       | Some val => if accepts (f_Name f) val then {| f_Name := f_Name f; f_Value := val; f_Changed := true |} else f
       | None => f
       end.

Definition InitializeConfig (flags : list Flag) : list Flag := map bind_flag flags.
End Flags.

(** ** The logger: its level and its encoder *)
Definition logging_New (debug : bool) (format : string) : string * string :=
  (if debug then "debug" else "info", if decide (format = "text") then "console" else "json").

(** ** Validation *)
Record Config : Type := {
  c_ClusterCIDR : string; c_SharedAgentImage : string; c_SharedAgentImagePullPolicy : string;
  c_VirtualAgentImagePullPolicy : string; c_K3SServerImagePullPolicy : string;
}.

Definition PullAlways : string := "Always".
Definition PullIfNotPresent : string := "IfNotPresent".
Definition PullNever : string := "Never".

Definition validate (config : Config) : outcome unit :=
  let policy := c_SharedAgentImagePullPolicy config in
  if decide (policy ≠ "") then
    if decide (policy ≠ PullAlways ∧ policy ≠ PullIfNotPresent ∧ policy ≠ PullNever) then
      Err (EText "invalid value for shared agent image policy")
    else Ok tt
  else Ok tt.

(** ** The process *)
Class ManagerLib (W Manager : Type) := {
  BuildConfigFromFlags : string → outcome string;
  NewManager : string → M W Manager;
  NewPortAllocator : Manager → M W nat;
  (* the runnable of InitPortAllocatorConfig, added to the manager *)
  AddPortAllocatorConfig : Manager → nat → string → M W unit;
  (* the Add function of a controller *)
  AddController : string → Manager → Config → Z → nat → M W unit;
  Start : Manager → M W unit;
}.

Definition wrap_v {W A} (msg : string) (m : M W A) : M W A :=
  r ← attempt m;
  match r with
  | inl a => mret a
  | inr err => fail (EText (msg +:+ error_text err))
  end.

(** The controllers, in order, with the text of the error when one fails. *)
Definition controllers : list (string * string) := [
  ("cluster", "failed to add cluster controller: ");
  ("statefulset", "failed to add statefulset controller: ");
  ("service", "failed to add service controller: ");
  ("pod", "failed to add pod controller: ");
  ("policy", "failed to add clusterpolicy controller: ");
  ("snapshot", "failed to add snapshot controller: ")].

Section Run.
Context {W Manager : Type} `{ML : ManagerLib W Manager}.

Definition run (config : Config) (kubeconfig kubeletPortRange : string) (maxConcurrentReconciles : Z) : M W unit :=
  restConfig ← wrap_v "failed to create config from kubeconfig file: " (lift (BuildConfigFromFlags kubeconfig));
  mgr ← wrap_v "failed to create new controller runtime manager: " (NewManager restConfig);
  portAllocator ← NewPortAllocator mgr;
  AddPortAllocatorConfig mgr portAllocator kubeletPortRange ;;
  for_each controllers (λ c, wrap_v c.2 (AddController c.1 mgr config maxConcurrentReconciles portAllocator)) ;;
  wrap_v "failed to start manager: " (Start mgr).

(** [main]: the flags, the check of the flags, then [run]; an error is logged and
    the process ends as if there were none. *)
Definition main (config : Config) (kubeconfig kubeletPortRange : string) (maxConcurrentReconciles : Z) : M W unit :=
  r ← attempt (lift (validate config) ;; run config kubeconfig kubeletPortRange maxConcurrentReconciles);
  mret tt.
End Run.

#[local] Set Default Proof Using "Type*".

(** A flag given on the command line is kept, and a value that the flag does not
    accept changes nothing. *)
Lemma InitializeConfig_lookup viper_Get accepts flags i f :
  flags !! i = Some f →
  InitializeConfig viper_Get accepts flags !! i = Some (bind_flag viper_Get accepts f) ∧
  (f_Changed f = true → bind_flag viper_Get accepts f = f) ∧
  (∀ v, viper_Get (f_Name f) = Some v → accepts (f_Name f) v = false → bind_flag viper_Get accepts f = f).
Proof.
  intros Hf. unfold InitializeConfig, bind_flag. split; [|split].
  - change (map ?g ?l) with (g <$> l). by rewrite list_lookup_fmap, Hf.
  - by intros ->.
  - intros v -> ->. by destruct (f_Changed f).
Qed.

(** The flags are bound once: binding them again changes nothing. *)
Lemma InitializeConfig_idempotent viper_Get accepts flags :
  InitializeConfig viper_Get accepts (InitializeConfig viper_Get accepts flags) = InitializeConfig viper_Get accepts flags.
Proof.
  unfold InitializeConfig. rewrite map_map. apply map_ext. intros f. unfold bind_flag.
  destruct (f_Changed f) eqn:E; [by rewrite E|]. destruct (viper_Get (f_Name f)) as [v|] eqn:Ev; [|by rewrite E, Ev].
  destruct (accepts (f_Name f) v) eqn:Ea; cbn; [done|by rewrite E, Ev, Ea].
Qed.

(** No error of the process reaches its caller: the status of the process does not
    tell that it failed. *)
Lemma main_never_fails {W Manager} `{ML : ManagerLib W Manager} config kubeconfig range n (w : W) e w' :
  main (Manager := Manager) config kubeconfig range n w ≠ (Err e, w').
Proof.
  unfold main. generalize (lift (validate config) ;; run (Manager := Manager) config kubeconfig range n). intros m.
  unfold mbind, M_bind, attempt. by destruct (m w) as [[]].
Qed.
End Controller.
