(* ===== verification/Manage.v ===== *)
(** * k3kcli: deleting, updating and listing clusters, policies, kubeconfigs

    cli/cmds/cluster_delete.go, cluster_update.go, diff_printer.go,
    kubeconfig.go, policy_create.go, policy_delete.go, completion.go,
    table_printer.go, cluster_list.go and policy_list.go.  The owner references
    helpers, the semantic versions, the answer of the user and the JSON paths are
    parameters; what is only logged or printed is left out. *)

From S2P Require Import Prelude GoStd GoNet GoDate Waiting K8s Types Kube Effects Names Translate K3s Expose Access UserConfig Policy Lab Cluster Cli Tokens.

Local Open Scope string_scope.
Local Open Scope Z_scope.

Module Manage.
Import Names GoDate Waiting UserConfig Cli.

(** ** cluster delete *)

(** [controllerutil.HasControllerReference] and [RemoveOwnerReference]. *)
Class OwnerUtil := {
  HasControllerReference : ObjectMeta → bool;
  RemoveOwnerReference : OwnerReference → ObjectMeta → outcome ObjectMeta;
}.

Section Delete.
Context {W : Type} (client : Client W) `{OwnerUtil} `{ConfigFiles W}.

(** [cluster] is passed by value. *)
Definition RemoveOwnerReferenceFromSecret (name : string) (cluster : Cluster) : M W unit :=
  r ← attempt (Get client Secret {| nn_Namespace := Namespace (cl_Meta cluster); nn_Name := name |});
  match r with
  | inr err => if IsNotFound err then mret tt else fail err
  | inl secret =>
      if HasControllerReference (sec_Meta secret) then
        m ← lift (RemoveOwnerReference (cluster_owner cluster) (sec_Meta secret));
        Update client {| sec_Meta := m; sec_Type := sec_Type secret; sec_Data := sec_Data secret |} ;;
        mret tt
      else mret tt
  end.

Definition server_claims (cluster : Cluster) : ListOptions :=
  {| lo_Namespace := Namespace (cl_Meta cluster);
     lo_Selector := [ReqEquals "cluster" (Name (cl_Meta cluster)); ReqEquals "role" "server"]; lo_Fields := [] |}.

(** A claims deletion that answers NotFound ends the call, before the cluster is
    deleted. *)
Definition deleteCluster (keepData : bool) (cluster : Cluster) : M W unit :=
  if keepData then
    RemoveOwnerReferenceFromSecret (Token.TokenSecretName (Name (cl_Meta cluster))) cluster ;;
    ignore_not_found (Delete client cluster)
  else
    r ← attempt (DeleteAllOf client PersistentVolumeClaim (server_claims cluster));
    match r with
    | inr err => if IsNotFound err then mret tt else fail err
    | inl _ => ignore_not_found (Delete client cluster)
    end.

(** A failure is only logged. *)
Definition removeKubeconfigContexts (appCtx : AppContext) (clusters : list Cluster) : M W unit :=
  attempt (Remove (New (Kubeconfig_path appCtx))
             (map (λ c, ContextName (Namespace (cl_Meta c)) (Name (cl_Meta c))) clusters)) ;;
  mret tt.

Definition clusterDelete (appCtx : AppContext) (deleteAll keepData : bool) (args : list string) : M W unit :=
  if deleteAll then
    match args with
    | _ :: _ => fail (EText "cannot specify a cluster name together with --all")
    | [] =>
        if decide (namespace appCtx = "") then
          fail (EText "--all requires a namespace, set it with --namespace/-n")
        else
          clusters ← List_ client Cluster (InNamespace (namespace appCtx));
          match clusters with
          | [] => mret tt
          | _ =>
              for_each clusters (deleteCluster keepData) ;;
              removeKubeconfigContexts appCtx clusters
          end
    end
  else
    match args with
    | [arg] =>
        '(ns, name) ← lift (resolveClusterArg appCtx arg);
        if decide (name = Cluster.ClusterInvalidName) then fail (EText "invalid cluster name")
        else
          r ← attempt (Get client Cluster {| nn_Namespace := ns; nn_Name := name |});
          match r with
          | inr err =>
              if IsNotFound err
              then fail (EText ("cluster " +:+ fmt_q name +:+ " not found in namespace " +:+ fmt_q ns))
              else fail err
          | inl cluster =>
              deleteCluster keepData cluster ;;
              removeKubeconfigContexts appCtx [cluster]
          end
    | _ => fail (EText "expected exactly one cluster name")
    end.
End Delete.

(** ** cluster update *)

(** The flags: [None] for one that was not given. *)
Record UpdateConfig : Type := {
  up_servers : option Z;
  up_agents : option Z;
  up_labels : option (list string);
  up_annotations : option (list string);
  up_version : option string;
  up_noConfirm : bool;
}.

Record change : Type := { field : string; oldValue : string; newValue : string }.

(** [semver.ParseTolerant] and [LT]; [labels.Merge]. *)
Class Semver (version : Type) := {
  ParseTolerant : string → outcome version;
  LT : version → version → bool;
  labels_Merge : gomap string → gomap string → gomap string;
}.

Definition diffMaps `{MapRange} (oldMap newMap : gomap string) : list change :=
  omap (λ '(k, newVal),
    match map_get oldMap k with
    | Some oldVal => if decide (oldVal ≠ newVal)
                     then Some {| field := k; oldValue := oldVal; newValue := newVal |} else None
    | None => Some {| field := k; oldValue := ""; newValue := newVal |}
    end) (range_map (default ∅ newMap)).

Definition set_counts_version (version : string) (servers agents : option Z) (s : ClusterSpec) : ClusterSpec := {|
  Version := version; Mode := Mode s; Servers := servers; Agents := agents;
  ClusterCIDR := ClusterCIDR s; ServiceCIDR := ServiceCIDR s; ClusterDNS := ClusterDNS s;
  Persistence := Persistence s; Expose := Expose s; NodeSelector := NodeSelector s;
  PriorityClass := PriorityClass s; TokenSecretRef := TokenSecretRef s; TLSSANs := TLSSANs s;
  ServerArgs := ServerArgs s; AgentArgs := AgentArgs s; ServerEnvs := ServerEnvs s;
  AgentEnvs := AgentEnvs s; Addons := Addons s; ServerLimit := ServerLimit s;
  WorkerLimit := WorkerLimit s; ServerResources := ServerResources s;
  WorkerResources := WorkerResources s; ServerAffinity := ServerAffinity s;
  AgentAffinity := AgentAffinity s; MirrorHostNodes := MirrorHostNodes s;
  CustomCAs_ := CustomCAs_ s; Sync := Sync s; SecretMounts := SecretMounts s;
  PodSecurityContext := PodSecurityContext s; SecurityContext_ := SecurityContext_ s;
  RuntimeClassName := RuntimeClassName s; HostUsers := HostUsers s;
  AllowedHostSchedulers := AllowedHostSchedulers s |}.

Section Update.
Context {W : Type} (client : Client W) {version : Type} `{Semver version} `{MapRange}.

(** A line of the standard input, [None] at its end. *)
Context (Scan : M W (option string)).

(** The new version: the change, and the version of the specification. *)
Definition update_version (config : UpdateConfig) (cluster : Cluster) : outcome (list change * string) :=
  let current := Version (cl_Spec cluster) in
  match up_version config with
  | Some new =>
      if decide (new ≠ current) then
        let currentVersion := if decide (current = "") then st_HostVersion (cl_Status cluster) else current in
        currentVersionSemver ← match ParseTolerant currentVersion : outcome version with
                               | Err err => Err (EFmt [EText "failed to parse current cluster version "; err])
                               | o => o
                               end;
        newVersionSemver ← match ParseTolerant new : outcome version with
                           | Err err => Err (EFmt [EText "failed to parse new cluster version "; err])
                           | o => o
                           end;
        if LT newVersionSemver currentVersionSemver
        then Err (EText "downgrading cluster version is not supported")
        else Ok ([{| field := "Version"; oldValue := currentVersion; newValue := new |}], new)
      else Ok ([], current)
  | None => Ok ([], current)
  end.

(** The new number of servers, or of agents. *)
Definition update_count (name : string) (flag current : option Z) : list change * option Z :=
  match flag with
  | Some n =>
      let old := default 0 current in
      if decide (old ≠ n)
      then ([{| field := name; oldValue := strconv_Itoa old; newValue := strconv_Itoa n |}], Some n)
      else ([], current)
  | None => ([], current)
  end.

Definition update_map (flag : option (list string)) (current : gomap string) : list change * gomap string :=
  match flag with
  | Some pairs =>
      let old := labels_Merge None current in
      let new := labels_Merge current (parseKeyValuePairs pairs) in
      (diffMaps old new, new)
  | None => ([], current)
  end.

Definition updated_cluster (config : UpdateConfig) (cluster : Cluster) : outcome (list change * Cluster) :=
  '(versionChanges, version) ← update_version config cluster;
  let '(serverChanges, servers) := update_count "Servers" (up_servers config) (Servers (cl_Spec cluster)) in
  let '(agentChanges, agents) := update_count "Agents" (up_agents config) (Agents (cl_Spec cluster)) in
  let '(labelChanges, labels) := update_map (up_labels config) (Labels (cl_Meta cluster)) in
  let '(annotationChanges, annotations) := update_map (up_annotations config) (Annotations (cl_Meta cluster)) in
  mret ((versionChanges ++ serverChanges ++ agentChanges ++ labelChanges ++ annotationChanges)%list,
        {| cl_Meta := set_Annotations annotations (set_Labels labels (cl_Meta cluster));
           cl_Spec := set_counts_version version servers agents (cl_Spec cluster);
           cl_Status := cl_Status cluster |}).

(** The prompt shows [getClusterDetails] of the cluster. *)
Definition confirmClusterUpdate : M W bool :=
  text ← Scan;
  mret (match text with
        | Some text => bool_decide (Tokens.strings_ToLower (strings_TrimSpace text) = "y")
        | None => false
        end).

Definition updateAction (appCtx : AppContext) (config : UpdateConfig) (arg : string) : M W unit :=
  '(ns, name) ← lift (resolveClusterArg appCtx arg);
  if decide (name = Cluster.ClusterInvalidName) then fail (EText "invalid cluster name")
  else
    r ← attempt (Get client Cluster {| nn_Namespace := ns; nn_Name := name |});
    match r with
    | inr err =>
        if IsNotFound err then fail (EText ("cluster " +:+ name +:+ " not found in namespace " +:+ ns))
        else fail (EFmt [EText "failed to fetch cluster: "; err])
    | inl virtualCluster =>
        '(changes, virtualCluster) ← lift (updated_cluster config virtualCluster);
        match changes with
        | [] => mret tt
        | _ =>
            confirmed ← (if up_noConfirm config then mret true else confirmClusterUpdate);
            if confirmed : bool then Update client virtualCluster ;; mret tt else mret tt
        end
    end.
End Update.

(** ** kubeconfig generate *)
Record GenerateKubeconfigConfig : Type := {
  gk_out : kubeconfigOutFlags;
  gk_name : string;
  gk_cn : string;
  gk_org : list string;
  gk_altNames : list string;
  gk_expirationDays : Z;
  gk_kubeconfigServerHost : string;
}.

(** [controller.Backoff.Steps] *)
Definition Backoff_Steps : nat := 5.

Definition resolveServerHost `{CliLib} (restConfigHost override : string) : outcome string :=
  if decide (override ≠ "") then Ok override
  else host ← url_Parse_Host restConfigHost; mret (Hostname host).

Definition generate_config (cfg : GenerateKubeconfigConfig) : Kubeconfig.KubeConfig :=
  let altNames := (gk_altNames cfg ++ (if decide (gk_kubeconfigServerHost cfg ≠ "")
                                       then [gk_kubeconfigServerHost cfg] else []))%list in {|
  Kubeconfig.kc_AltNames := Kubeconfig.AddSANs altNames;
  Kubeconfig.kc_CN := gk_cn cfg;
  Kubeconfig.kc_ORG := match gk_org cfg with [] => [Kubeconfig.SystemPrivilegedGroup] | l => l end;
  Kubeconfig.kc_ExpiryDate := mul64 (mul64 Hour 24) (gk_expirationDays cfg) |}.

Section Generate.
Context {W : Type} (client : Client W) `{KubeUtil} `{CliLib} `{K3s.Codec} `{Retrier W} `{ConfigFiles W}.
Context {Cert Key : Type} `{Kubeconfig.CertUtil W Cert Key}.

Definition cluster_of_args (appCtx : AppContext) (cfg : GenerateKubeconfigConfig) (args : list string)
  : outcome (string * string) :=
  match args with
  | [arg] => resolveClusterArg appCtx arg
  | _ => if decide (gk_name cfg ≠ "") then Ok (AppContext_Namespace appCtx (gk_name cfg), gk_name cfg)
         else Err (EText "expected exactly one cluster name")
  end.

Definition generate (appCtx : AppContext) (cfg : GenerateKubeconfigConfig) (args : list string) : M W unit :=
  '(ns, name) ← lift (cluster_of_args appCtx cfg args);
  r ← attempt (Get client Cluster {| nn_Namespace := ns; nn_Name := name |});
  match r with
  | inr err =>
      if IsNotFound err
      then fail (EText ("cluster " +:+ fmt_q name +:+ " not found in namespace " +:+ fmt_q ns))
      else fail err
  | inl cluster =>
      host ← lift (resolveServerHost (RestConfig_Host appCtx) (gk_kubeconfigServerHost cfg));
      kubeConfig ← retry_OnError Backoff_Steps IsNotFound
                     (Kubeconfig.Generate client (generate_config cfg) cluster host);
      writeKubeconfig appCtx cluster kubeConfig (standalonePath (gk_out cfg) cluster)
  end.
End Generate.

(** ** policies *)
Record VirtualClusterPolicyCreateConfig : Type := {
  vc_mode : string;
  vc_labels : list string;
  vc_annotations : list string;
  vc_namespaces : list string;
  vc_overwrite : bool;
}.

Definition validate_policy_mode (config : VirtualClusterPolicyCreateConfig) : outcome unit :=
  if decide (vc_mode config ∈ [VirtualClusterMode; SharedClusterMode; HCPClusterMode]) then Ok tt
  else Err (EText ("mode must be one of " +:+ fmt_q "shared" +:+ ", " +:+ fmt_q "virtual" +:+ " or " +:+ fmt_q "hcp")).

Definition new_policy (config : VirtualClusterPolicyCreateConfig) (policyName : string) : VirtualClusterPolicy := {|
  vcp_Meta := set_Annotations (parseKeyValuePairs (vc_annotations config))
                (set_Labels (parseKeyValuePairs (vc_labels config)) (meta_of "" policyName));
  vcp_Spec := {|
    Quota := None; Limit := None; DefaultNodeSelector := None; DefaultPriorityClass := "";
    DefaultServerAffinity := None; DefaultAgentAffinity := None; AllowedMode := vc_mode config;
    DisableNetworkPolicy := false; PodSecurityAdmissionLevel_ := None; vcp_Sync := None;
    vcp_RuntimeClassName := None; vcp_SecurityContext := None; vcp_HostUsers := None;
    vcp_AllowedHostSchedulers := [] |};
  vcp_Status := {| vps_ObservedGeneration := 0; vps_LastUpdate := ""; vps_Summary := ""; vps_Conditions := [] |} |}.

(** The namespace with the label of a policy. *)
Definition bound_to (policyName : string) (ns : NamespaceObj) : NamespaceObj :=
  {| ns_Meta := set_Labels (Some (<[Policy.PolicyNameLabelKey := policyName]> (default ∅ (Labels (ns_Meta ns)))))
                  (ns_Meta ns) |}.

Section Policies.
Context {W : Type} (client : Client W).

Definition createPolicy (config : VirtualClusterPolicyCreateConfig) (policyName : string) : M W VirtualClusterPolicy :=
  let policy := new_policy config policyName in
  r ← attempt (Create client policy);
  match r with
  | inl policy => mret policy
  | inr err => if negb (IsAlreadyExists err) then fail err else mret policy
  end.

(** The body of the loop: what it appends to the errors. *)
Definition bind_namespace (config : VirtualClusterPolicyCreateConfig) (policyName namespace : string) : M W unit :=
  r ← attempt (Get client NamespaceObj {| nn_Namespace := ""; nn_Name := namespace |});
  match r with
  | inr err => if IsNotFound err then mret tt else fail err
  | inl ns =>
      let oldPolicy := Policy.ns_policy ns in
      if decide (oldPolicy = policyName) then mret tt
      else if decide (oldPolicy = "") then Update client (bound_to policyName ns) ;; mret tt
      else if vc_overwrite config then Update client (bound_to policyName ns) ;; mret tt
      else mret tt
  end.

Definition bindPolicyToNamespaces (config : VirtualClusterPolicyCreateConfig) (policyName : string) : M W unit :=
  errs ← join_all (map (bind_namespace config policyName) (vc_namespaces config));
  ret_err (errors_join errs).

Definition policyCreateAction (config : VirtualClusterPolicyCreateConfig) (policyName : string) : M W unit :=
  createPolicy config policyName ;;
  bindPolicyToNamespaces config policyName.

Definition policyDeleteAction (name : string) : M W unit :=
  ignore_not_found (client_Delete client "VirtualClusterPolicy" {| nn_Namespace := ""; nn_Name := name |}).
End Policies.

(** ** Completions *)
Inductive ShellCompDirective : Set := ShellCompDirectiveError | ShellCompDirectiveNoFileComp.

Definition completeClusterMode : list string := [SharedClusterMode; VirtualClusterMode; HCPClusterMode].
Definition completePersistenceMode : list string := [DynamicPersistenceMode; EphemeralPersistenceMode].

Section Complete.
Context {W : Type} `{KubeUtil}.

(** [completionClient]: the client that the flags of a command lead to. *)
Context (completionClient : M W (Client W)).

Definition with_client (f : Client W → M W (list string * ShellCompDirective)) : M W (list string * ShellCompDirective) :=
  r ← attempt completionClient;
  match r with
  | inr _ => mret ([], ShellCompDirectiveError)
  | inl client => f client
  end.

(** The names of the objects that a list call answers with. *)
Definition listed {T} `{Resource T} (client : Client W) (opts : ListOptions) (f : list T → list string)
  : M W (list string * ShellCompDirective) :=
  r ← attempt (List_ client T opts);
  match r with
  | inr _ => mret ([], ShellCompDirectiveError)
  | inl items => mret (f items, ShellCompDirectiveNoFileComp)
  end.

(** [selected]: the values of the namespace flag. *)
Definition namespaceCompletions (selected : list string) (client : Client W) : M W (list string * ShellCompDirective) :=
  listed client list_all (λ namespaces : list NamespaceObj,
    sets_List (List.filter (λ n, negb (bool_decide (n ∈ selected))) (map (λ ns, Name (ns_Meta ns)) namespaces))).

Definition clusterNamespaceCompletions (client : Client W) : M W (list string * ShellCompDirective) :=
  listed client list_all (λ clusters : list Cluster, sets_List (map (λ c, Namespace (cl_Meta c)) clusters)).

Definition clusterNameCompletions (namespace : string) (client : Client W) : M W (list string * ShellCompDirective) :=
  listed client (if decide (namespace ≠ "") then InNamespace namespace else list_all) (λ clusters : list Cluster,
    map (λ c, Namespace (cl_Meta c) +:+ "/" +:+ Name (cl_Meta c)) clusters).

Definition policyNameCompletions (client : Client W) : M W (list string * ShellCompDirective) :=
  listed client list_all (λ policies : list VirtualClusterPolicy, map (λ p, Name (vcp_Meta p)) policies).

Definition completeNamespaces (selected : list string) : M W (list string * ShellCompDirective) :=
  with_client (namespaceCompletions selected).
Definition completeClusterNamespaces : M W (list string * ShellCompDirective) :=
  with_client clusterNamespaceCompletions.
Definition completePolicyNames : M W (list string * ShellCompDirective) := with_client policyNameCompletions.

(** Only the first argument is completed, and none with --all. *)
Definition completeClusterNames (args : list string) (all : bool) (namespace : string)
  : M W (list string * ShellCompDirective) :=
  match args with
  | _ :: _ => mret ([], ShellCompDirectiveNoFileComp)
  | [] => if all then mret ([], ShellCompDirectiveNoFileComp) else with_client (clusterNameCompletions namespace)
  end.

Definition completePolicyNameArg (args : list string) : M W (list string * ShellCompDirective) :=
  match args with
  | _ :: _ => mret ([], ShellCompDirectiveNoFileComp)
  | [] => completePolicyNames
  end.
End Complete.

(** ** Tables *)
Record CustomResourceColumnDefinition : Type := {
  col_Name : string; col_Type : string; col_Format : string; col_Description : string; col_Priority : Z;
  col_JSONPath : string;
}.
Record CRDVersion : Type := { crd_Name : string; crd_Columns : list CustomResourceColumnDefinition }.
Record TableColumn : Type := {
  tc_Name : string; tc_Type : string; tc_Format : string; tc_Description : string; tc_Priority : Z;
}.
Record TableRow (T : Type) : Type := { row_Cells : list json; row_Object : option T }.
Arguments row_Cells {T}. Arguments row_Object {T}.
Record Table (T : Type) : Type := { tab_Columns : list TableColumn; tab_Rows : list (TableRow T) }.
Arguments tab_Columns {T}. Arguments tab_Rows {T}.

Definition name_column : CustomResourceColumnDefinition := {|
  col_Name := "Name"; col_Type := "string"; col_Format := "name"; col_Description := "Name of the Resource";
  col_Priority := 0; col_JSONPath := ".metadata.name" |}.

(** The columns of the first version of that name. *)
Definition getPrinterColumnsFromCRD (crd : list CRDVersion) : list CustomResourceColumnDefinition :=
  name_column :: match List.find (λ v, bool_decide (crd_Name v = "v1beta1")) crd with
                 | Some v => crd_Columns v
                 | None => []
                 end.

Definition convertToTableColumns (printerColumns : list CustomResourceColumnDefinition) : list TableColumn :=
  map (λ col, {| tc_Name := col_Name col; tc_Type := col_Type col; tc_Format := col_Format col;
                 tc_Description := col_Description col; tc_Priority := col_Priority col |}) printerColumns.

(** [jsonpath]: the parsing of a path and its results on a document;
    [DefaultUnstructuredConverter.ToUnstructured]. *)
Class JsonPath := {
  jsonpath : Type;
  jsonpath_Parse : string → outcome jsonpath;
  FindResults : jsonpath → json → outcome (list (list json));
}.

Section Table.
Context `{JsonPath} {T : Type} (ToUnstructured : T → outcome json).

Definition build_cell (objMap : json) (printCol : CustomResourceColumnDefinition) : json :=
  match jsonpath_Parse ("{" +:+ col_JSONPath printCol +:+ "}") with
  | Ok j => match FindResults j objMap with
            | Ok ((x :: _) :: _) => x
            | _ => JStr "<none>"
            end
  | _ => JStr "<error>"
  end.

Definition buildRowCells (objMap : json) (printerColumns : list CustomResourceColumnDefinition) : list json :=
  map (build_cell objMap) printerColumns.

Definition createTableRows (objs : list T) (printerColumns : list CustomResourceColumnDefinition) : list (TableRow T) :=
  map (λ obj, match ToUnstructured obj with
              | Ok objMap => {| row_Cells := buildRowCells objMap printerColumns; row_Object := Some obj |}
              | Err err => {| row_Cells := [JStr ("<error: " +:+ error_text err +:+ ">")]; row_Object := None |}
              | Panic => {| row_Cells := []; row_Object := None |}
              end) objs.

Definition createTable (crd : list CRDVersion) (objs : list T) : Table T :=
  let printerColumns := getPrinterColumnsFromCRD crd in
  {| tab_Columns := convertToTableColumns printerColumns; tab_Rows := createTableRows objs printerColumns |}.
End Table.

Section Lists.
Context {W : Type} (client : Client W) `{JsonPath}.

(** The definition of a custom resource, and the printing of a table. *)
Context (get_crd : string → M W (list CRDVersion)).
Context (ToUnstructured : ∀ {T}, T → outcome json) (PrintObj : ∀ {T}, Table T → M W unit).

Definition list_ (appCtx : AppContext) : M W unit :=
  clusters ← List_ client Cluster (InNamespace (namespace appCtx));
  crd ← get_crd "clusters.k3k.io";
  PrintObj _ (createTable (ToUnstructured _) crd clusters).

Definition policyList : M W unit :=
  policies ← List_ client VirtualClusterPolicy list_all;
  crd ← get_crd "virtualclusterpolicies.k3k.io";
  PrintObj _ (createTable (ToUnstructured _) crd policies).
End Lists.

(** ** cluster delete *)

(** What the documentation says: the controller flag of an owner; the reference
    to an owner is found by its kind, its name and the group of its version. *)
Definition api_group (apiVersion : string) : string :=
  match cut apiVersion "/" with Some (group, _) => group | None => "" end.
Definition same_owner (owner r : OwnerReference) : Prop :=
  or_Kind r = or_Kind owner ∧ or_Name r = or_Name owner ∧
  api_group (or_APIVersion r) = api_group (or_APIVersion owner).
#[export] Instance same_owner_dec owner r : Decision (same_owner owner r).
Proof. unfold same_owner. apply _. Defined.

Class OwnerUtilLaws `{OwnerUtil} : Prop := {
  HasControllerReference_spec m :
    HasControllerReference m = existsb (λ r, bool_decide (or_Controller r = Some true)) (OwnerReferences m);
  RemoveOwnerReference_ok owner m m' :
    RemoveOwnerReference owner m = Ok m' →
    ∃ pre r post, OwnerReferences m = (pre ++ r :: post)%list ∧ same_owner owner r ∧
      m' = set_OwnerReferences (pre ++ post)%list m;
}.

Section DeleteRun.
Context {W : Type} (client : Client W) `{!ClientLaws client} `{OwnerUtilLaws}.

Definition token_key (cluster : Cluster) : ObjKey :=
  ("Secret", {| nn_Namespace := Namespace (cl_Meta cluster);
                nn_Name := Token.TokenSecretName (Name (cl_Meta cluster)) |}).
Definition own_key (cluster : Cluster) : ObjKey := ("Cluster", key_of (cl_Meta cluster)).

(** What the deletion of a cluster may change. *)
Definition deletes (keepData : bool) (cluster : Cluster) (i : ObjKey) (v v' : option Obj) : Prop :=
  v' = v ∨ i = own_key cluster ∨ (keepData = true ∧ i = token_key cluster) ∨
  (keepData = false ∧ ∃ o, v = Some o ∧ obj_kind o = "PersistentVolumeClaim" ∧
                           selected (server_claims cluster) o = true).
#[local] Instance deletes_preorder keepData cluster i : PreOrder (deletes keepData cluster i).
Proof using.
  split; [by left|]. intros v1 v2 v3 [->|[?|[?|?]]] H2; [done|by right; left|by do 2 right; left|by do 3 right].
Qed.

Lemma deletes_key keepData cluster {A} (m : M W A) (K : ObjKey → Prop) :
  (∀ i, K i → i = own_key cluster ∨ (keepData = true ∧ i = token_key cluster)) →
  confined client K m → evolves client (per_key (deletes keepData cluster)) m.
Proof using.
  intros HK. apply evolves_weaken. intros s s' Hs i. destruct (Hs i) as [Hi|Hi]; [|by left].
  destruct (HK i Hi); [by right; left|by do 2 right; left].
Qed.

Lemma confined_RemoveOwner cluster :
  confined client (λ i, i = token_key cluster)
    (RemoveOwnerReferenceFromSecret client (Token.TokenSecretName (Name (cl_Meta cluster))) cluster).
Proof using H0.
  apply evolves_Get_bind; [exact _| |].
  - intros secret Hk. destruct (HasControllerReference _); [|apply evolves_mret, _].
    apply evolves_bind_lift; [exact _|]. intros m Hm. apply evolves_bind; [exact _| |intros; apply evolves_mret, _].
    apply confined_Update. apply RemoveOwnerReference_ok in Hm as (pre & r & post & _ & _ & ->).
    unfold obj_key; cbn. unfold key_of in *. cbn in *. by rewrite Hk.
  - intros e. destruct (IsNotFound e); [apply evolves_mret, _|apply evolves_fail, _].
Qed.

Lemma deletes_own keepData cluster :
  evolves client (per_key (deletes keepData cluster)) (ignore_not_found (Delete client cluster)).
Proof using.
  apply evolves_ignore_not_found; [exact _|]. apply (deletes_key _ _ _ (λ i, i = own_key cluster)); [by left|].
  by apply confined_Delete.
Qed.

Lemma evolves_deleteCluster keepData cluster :
  evolves client (per_key (deletes keepData cluster)) (deleteCluster client keepData cluster).
Proof using H0.
  unfold deleteCluster. destruct keepData.
  - apply evolves_bind; [exact _| |intros; apply deletes_own].
    apply (deletes_key _ _ _ (λ i, i = token_key cluster)); [by right|apply confined_RemoveOwner].
  - apply evolves_bind; [exact _| |].
    + apply evolves_attempt. apply per_key_DeleteAllOf; [exact _|done|]. intros i o v Hk Hi Hs Hr.
      do 3 right. split; [done|]. by exists o.
    + intros [u|e]; [apply deletes_own|]. destruct (IsNotFound e); [apply evolves_mret, _|apply evolves_fail, _].
Qed.

(** What is left of an object once its deletion was asked for. *)
Definition gone (w w' : W) (i : ObjKey) : Prop :=
  match store w !! i with Some o => removed o (store w' !! i) | None => store w' !! i = None end.

Lemma delete_gone cluster w w' :
  ignore_not_found (Delete client cluster) w = (Ok tt, w') → gone w w' (own_key cluster).
Proof using.
  unfold ignore_not_found, Delete, mbind, M_bind, attempt, gone, own_key. cbn [kind meta].
  destruct (delete_spec "Cluster" (key_of (cl_Meta cluster)) w) as (r & w1 & E & _ & Hr).
  change (kind Cluster) with "Cluster". change (meta cluster) with (cl_Meta cluster). rewrite E.
  destruct r as [u|e|]; [| |done].
  - intros [= <-]. destruct Hr as (old & Ho & Hs). change (store w !! own_key cluster = Some old) in Ho.
    unfold own_key in *. rewrite Ho. unfold removed. case_decide.
    + rewrite Hs. apply lookup_delete_eq.
    + destruct Hs as [now ->]. exists now. apply lookup_insert_eq.
  - destruct Hr as [Hs He]. destruct (IsNotFound e) eqn:Hn; [|done]. intros [= <-].
    change (store w !! own_key cluster = None) in He. unfold own_key in *. by rewrite Hs, He.
Qed.

(** deleting a cluster from the command line touches the cluster, and with its
    data the volume claims of its servers, without it its token secret: no other
    object of the host is changed or removed, whatever the outcome. *)
Theorem deleteCluster_confined keepData cluster w r w' :
  deleteCluster client keepData cluster w = (r, w') →
  ∀ i, store w' !! i = store w !! i ∨ i = own_key cluster ∨ (keepData = true ∧ i = token_key cluster) ∨
    (keepData = false ∧ ∃ o, store w !! i = Some o ∧ obj_kind o = "PersistentVolumeClaim" ∧
                             selected (server_claims cluster) o = true).
Proof using H0. intros E i. exact (evolves_deleteCluster _ _ _ _ _ E i). Qed.

Definition content_of (s : Secret) : list OwnerReference * gomap string := (OwnerReferences (sec_Meta s), sec_Data s).

Lemma RemoveOwner_run cluster w w' s `{!Keeps client content_of} :
  RemoveOwnerReferenceFromSecret client (Token.TokenSecretName (Name (cl_Meta cluster))) cluster w = (Ok tt, w') →
  store w !! token_key cluster = Some (OSecret s) → is_deleting (sec_Meta s) = false →
  ∃ s', store w' !! token_key cluster = Some (OSecret s') ∧ sec_Data s' = sec_Data s ∧
    if HasControllerReference (sec_Meta s)
    then ∃ pre r post, OwnerReferences (sec_Meta s) = (pre ++ r :: post)%list ∧ same_owner (cluster_owner cluster) r ∧
           OwnerReferences (sec_Meta s') = (pre ++ post)%list
    else s' = s.
Proof using H0.
  unfold RemoveOwnerReferenceFromSecret. intros (r & w1 & E1 & E)%bind_inv_ok Hs Hd. apply attempt_inv in E1.
  destruct r as [secret|e].
  - apply (Get_run client) in E1 as (Hst & _ & Hg & Hk).
    pose proof (eq_trans (eq_sym Hs) Hg) as Heq. injection Heq as <-.
    destruct (HasControllerReference (sec_Meta s)).
    + apply bind_inv_ok in E as (m & w2 & E2 & E). unfold lift in E2. injection E2 as Hm <-.
      apply RemoveOwnerReference_ok in Hm as (pre & r & post & Ho & Hr & ->).
      apply bind_inv_ok in E as (s' & w3 & E3 & E). injection E as <-.
      apply (Update_run client) in E3 as (_ & _ & Hk' & _ & Hw & Hc). pose proof (update_keeps _ _ _ _ Hc) as Hkeep.
      unfold content_of in Hkeep. cbn in Hkeep. injection Hkeep as Hk1 Hk2. unfold meta in Hw. cbn in Hw.
      unfold is_deleting in Hd, Hw. cbn in Hw. rewrite Hd in Hw. cbn in Hw. exists s'. split.
      * rewrite Hw. change (meta s) with (sec_Meta s) in Hk. unfold token_key. rewrite <- Hk.
        unfold obj_key, key_of; cbn. apply lookup_insert_eq.
      * split; [done|]. exists pre, r, post. done.
    + injection E as <-. exists s. by rewrite Hst.
  - apply (Get_run client) in E1 as (_ & _ & Hg). destruct (IsNotFound e); [|done].
    pose proof (eq_trans (eq_sym Hs) Hg) as Heq. done.
Qed.

(** a deletion that succeeds deletes the cluster, unless the deletion of its
    claims was answered with NotFound; the claims of its servers go with it, or,
    when the data are kept, they stay, and the token secret that the cluster
    controls stays with its content and without that owner. *)
Theorem deleteCluster_spec `{!Keeps client content_of} keepData cluster w w' :
  deleteCluster client keepData cluster w = (Ok tt, w') →
  (if keepData then
     gone w w' (own_key cluster) ∧
     (∀ i o, store w !! i = Some o → obj_kind o = "PersistentVolumeClaim" → store w' !! i = Some o) ∧
     (∀ s, store w !! token_key cluster = Some (OSecret s) → is_deleting (sec_Meta s) = false →
        ∃ s', store w' !! token_key cluster = Some (OSecret s') ∧ sec_Data s' = sec_Data s ∧
          if HasControllerReference (sec_Meta s)
          then ∃ pre r post, OwnerReferences (sec_Meta s) = (pre ++ r :: post)%list ∧
                 same_owner (cluster_owner cluster) r ∧ OwnerReferences (sec_Meta s') = (pre ++ post)%list
          else s' = s)
   else
     (gone w w' (own_key cluster) ∧
      ∀ i o, store w !! i = Some o → obj_kind o = "PersistentVolumeClaim" →
             selected (server_claims cluster) o = true → removed o (store w' !! i)) ∨
     (∃ e w1, client_DeleteAllOf client "PersistentVolumeClaim" (server_claims cluster) w = (Err e, w1) ∧
              IsNotFound e = true)).
Proof using H0.
  intros E. pose proof (evolves_deleteCluster keepData cluster _ _ _ E) as Hev.
  unfold deleteCluster in E. destruct keepData.
  - apply bind_inv_ok in E as ([] & w1 & E1 & E).
    pose proof (confined_RemoveOwner cluster _ _ _ E1) as Hc1.
    pose proof (deletes_own true cluster _ _ _ E) as Hc2.
    pose proof (confined_Delete client (λ i, i = own_key cluster) cluster eq_refl) as Hc3.
    apply (evolves_ignore_not_found client (per_key (only (λ i, i = own_key cluster))) _) in Hc3.
    specialize (Hc3 _ _ _ E). split; [|split].
    + apply delete_gone in E. unfold gone in *. destruct (Hc1 (own_key cluster)) as [Hx|Hx]; [done|]. by rewrite Hx in E.
    + intros i o Hi Hk. destruct (Hev i) as [->|[->|[[_ ->]|[? _]]]]; [done| | |done];
        by apply store_keys in Hi; unfold obj_key in Hi; rewrite Hk in Hi.
    + intros s Hs Hd. destruct (RemoveOwner_run _ _ _ _ E1 Hs Hd) as (s' & Hs' & Hr). exists s'. split; [|done].
      destruct (Hc3 (token_key cluster)) as [Hx|Hx]; [done|by rewrite Hx].
  - apply bind_inv_ok in E as (r & w1 & E1 & E). apply attempt_inv in E1. unfold DeleteAllOf in E1.
    change (kind PersistentVolumeClaim) with "PersistentVolumeClaim" in E1.
    destruct (delete_all_spec "PersistentVolumeClaim" (server_claims cluster) w eq_refl) as (r0 & w0 & E0 & _ & _ & Hf & Ha).
    destruct r as [[]|e].
    + left. rewrite E0 in E1. injection E1 as -> ->. specialize (Ha eq_refl).
      pose proof (confined_Delete client (λ i, i = own_key cluster) cluster eq_refl) as Hc3.
      apply (evolves_ignore_not_found client (per_key (only (λ i, i = own_key cluster))) _) in Hc3.
      specialize (Hc3 _ _ _ E). split.
      * apply delete_gone in E. unfold gone in *. destruct (Hf (own_key cluster)) as [Hx|(o & Ho & Hk & _)].
        -- by rewrite Hx in E.
        -- apply store_keys in Ho. unfold obj_key in Ho. by rewrite Hk in Ho.
      * intros i o Hi Hk Hs. specialize (Ha i o Hi Hk Hs). destruct (Hc3 i) as [Hx|Hx]; [|by rewrite Hx].
        apply store_keys in Hi. unfold obj_key in Hi. rewrite Hk, Hx in Hi. done.
    + right. destruct (IsNotFound e) eqn:He; [|done]. by exists e, w1.
Qed.
End DeleteRun.

(** ** cluster update *)
Class SemverLaws (version : Type) `{Semver version} : Prop :=
  labels_Merge_spec a b : labels_Merge a b = Some (default ∅ b ∪ default ∅ a).

Section UpdateRun.
Context {W : Type} (client : Client W) `{!ClientLaws client} {version : Type} `{SemverLaws version} `{MapRange}.
Context (Scan : M W (option string)) (Hscan : silent client Scan).

(** The server stores the specification, the labels and the annotations of a
    cluster as it receives them. *)
Definition cluster_data (cluster : Cluster) : ClusterSpec * gomap string * gomap string :=
  (cl_Spec cluster, Labels (cl_Meta cluster), Annotations (cl_Meta cluster)).
Context `{!Keeps client cluster_data}.

(** The version of a cluster that an update compares with. *)
Definition currentVersion (cluster : Cluster) : string :=
  if decide (Version (cl_Spec cluster) = "") then st_HostVersion (cl_Status cluster) else Version (cl_Spec cluster).

(** The pairs of a flag over what is there. *)
Definition overlaid (flag : option (list string)) (old new : gomap string) : Prop :=
  ∀ k, map_get new k = match map_get (from_option parseKeyValuePairs None flag) k with
                       | Some v => Some v
                       | None => map_get old k
                       end.

(** The cluster [new] is [old] with what the flags ask for; the version does not
    go back. *)
Record as_asked (config : UpdateConfig) (old new : Cluster) : Prop := {
  asked_version : Version (cl_Spec new) = default (Version (cl_Spec old)) (up_version config);
  asked_forward : Version (cl_Spec new) = Version (cl_Spec old) ∨
    ∃ vo vn, ParseTolerant (currentVersion old) = Ok vo ∧ ParseTolerant (Version (cl_Spec new)) = Ok vn ∧ LT vn vo = false;
  asked_servers : default 0 (Servers (cl_Spec new)) = default (default 0 (Servers (cl_Spec old))) (up_servers config);
  asked_agents : default 0 (Agents (cl_Spec new)) = default (default 0 (Agents (cl_Spec old))) (up_agents config);
  asked_rest : cl_Spec new = set_counts_version (Version (cl_Spec new)) (Servers (cl_Spec new)) (Agents (cl_Spec new))
                               (cl_Spec old);
  asked_labels : overlaid (up_labels config) (Labels (cl_Meta old)) (Labels (cl_Meta new));
  asked_annotations : overlaid (up_annotations config) (Annotations (cl_Meta old)) (Annotations (cl_Meta new));
}.

Lemma update_version_spec config cluster changes v :
  update_version config cluster = Ok (changes, v) →
  v = default (Version (cl_Spec cluster)) (up_version config) ∧
  (v = Version (cl_Spec cluster) ∨
   ∃ old new, ParseTolerant (currentVersion cluster) = Ok old ∧ ParseTolerant v = Ok new ∧ LT new old = false).
Proof using.
  unfold update_version. destruct (up_version config) as [new|]; [|by intros [= _ <-]; auto].
  destruct (decide _) as [Hne|Heq]; [|apply dec_stable in Heq; intros [= _ <-]; by auto].
  fold (currentVersion cluster).
  intros (old & E1 & E)%outcome_bind_ok. apply outcome_bind_ok in E as (nv & E2 & E).
  destruct (LT nv old) eqn:Hl; [done|]. injection E as _ <-. split; [done|]. right. exists old, nv.
  destruct (ParseTolerant (currentVersion cluster)); [|done..]. destruct (ParseTolerant new); [|done..].
  injection E1 as ->. by injection E2 as ->.
Qed.

Lemma update_count_spec name flag current : default 0 (update_count name flag current).2 = default (default 0 current) flag.
Proof using. unfold update_count. destruct flag as [n|]; [|done]. by destruct (decide _) as [|<-%dec_stable]. Qed.

Lemma update_map_spec flag current : overlaid flag current (update_map flag current).2.
Proof using H0.
  intros k. unfold update_map. destruct flag as [pairs|]; [|done]. cbn. rewrite labels_Merge_spec. cbn.
  rewrite lookup_union. destruct (parseKeyValuePairs pairs) as [g|], current as [h|]; cbn; rewrite ?lookup_empty;
    try destruct (g !! k); try destruct (h !! k); done.
Qed.

Lemma updated_cluster_spec config cluster changes cluster' :
  updated_cluster config cluster = Ok (changes, cluster') →
  as_asked config cluster cluster' ∧ set_Annotations None (set_Labels None (cl_Meta cluster')) =
                                     set_Annotations None (set_Labels None (cl_Meta cluster)).
Proof using H0.
  unfold updated_cluster. intros ([vc v] & Hv & E)%outcome_bind_ok. apply update_version_spec in Hv as [Hv1 Hv2].
  pose proof (update_count_spec "Servers" (up_servers config) (Servers (cl_Spec cluster))) as HS.
  pose proof (update_count_spec "Agents" (up_agents config) (Agents (cl_Spec cluster))) as HG.
  pose proof (update_map_spec (up_labels config) (Labels (cl_Meta cluster))) as HL.
  pose proof (update_map_spec (up_annotations config) (Annotations (cl_Meta cluster))) as HA.
  destruct (update_count "Servers" _ _) as [sc servers]. destruct (update_count "Agents" _ _) as [ac agents].
  destruct (update_map (up_labels config) _) as [lc labels]. destruct (update_map (up_annotations config) _) as [nc annots].
  injection E as <- <-. split; [|done]. by split.
Qed.

Lemma as_asked_data config old new stored :
  cluster_data stored = cluster_data new → as_asked config old new → as_asked config old stored.
Proof using. intros [= E1 E2 E3] []. split; by rewrite ?E1, ?E2, ?E3. Qed.

(** The answer of the user, and whether the update needs none or got it. *)
Definition agrees (answer : option string) : bool :=
  match answer with
  | Some text => bool_decide (Tokens.strings_ToLower (strings_TrimSpace text) = "y")
  | None => false
  end.
Definition consent (config : UpdateConfig) (w : W) : Prop :=
  up_noConfirm config = true ∨ ∃ answer w', Scan w = (Ok answer, w') ∧ agrees answer = true.
Definition refused (config : UpdateConfig) (w : W) : Prop :=
  up_noConfirm config = false ∧ ∃ answer w', Scan w = (Ok answer, w') ∧ agrees answer = false.

Lemma confirm_run config w r w' :
  (if up_noConfirm config then mret true else confirmClusterUpdate Scan) w = (r, w') →
  store w' = store w ∧
  match r with
  | Ok b => if b : bool then consent config w else refused config w
  | _ => True
  end.
Proof using Hscan.
  unfold consent, refused. destruct (up_noConfirm config); [intros [= <- <-]; by auto|].
  unfold confirmClusterUpdate, mbind, M_bind. destruct (Scan w) as [[answer|e|] w1] eqn:E; intros [= <- <-];
    (split; [exact (Hscan _ _ _ E)|]); [|done..].
  change (if agrees answer then false = true ∨ (∃ a w', (Ok answer, w1) = (Ok a, w') ∧ agrees a = true)
          else false = false ∧ ∃ a w', (Ok answer, w1) = (Ok a, w') ∧ agrees a = false).
  destruct (agrees answer) eqn:Ha; [right|split; [done|]]; by exists answer, w1.
Qed.

Definition cluster_name (ns name : string) : NamespacedName := {| nn_Namespace := ns; nn_Name := name |}.

Lemma updateAction_run appCtx config arg w r w' :
  updateAction client Scan appCtx config arg w = (r, w') →
  (store w' = store w ∧ r ≠ Ok tt) ∨
  ∃ ns name cluster w1 changes cluster',
    resolveClusterArg appCtx arg = Ok (ns, name) ∧ Get client Cluster (cluster_name ns name) w = (Ok cluster, w1) ∧
    updated_cluster config cluster = Ok (changes, cluster') ∧
    (store w' = store w ∧ (changes = [] ∨ refused config w1) ∨
     changes ≠ [] ∧ consent config w1 ∧ r = Ok tt ∧ ∃ w2 y, store w2 = store w ∧ Update client cluster' w2 = (Ok y, w')).
Proof using ClientLaws0 Hscan.
  unfold updateAction, mbind at 1, M_bind at 1, lift at 1.
  destruct (resolveClusterArg appCtx arg) as [[ns name]|e|]; [|by intros [= <- <-]; left..].
  destruct (decide _); [by intros [= <- <-]; left|]. unfold mbind at 1, M_bind at 1, attempt.
  fold (cluster_name ns name).
  destruct (Get client Cluster _ w) as [[cluster|e|] w1] eqn:E1; pose proof E1 as (Hs1 & _)%(Get_run client);
    [|by destruct (IsNotFound e); intros [= <- <-]; left|by intros [= <- <-]; left].
  unfold mbind at 1, M_bind at 1, lift at 1.
  destruct (updated_cluster config cluster) as [[changes cluster']|e|] eqn:Hu; [|by intros [= <- <-]; left..].
  destruct changes as [|c changes].
  { intros [= <- <-]. right. exists ns, name, cluster, w1, [], cluster'. auto 10. }
  unfold mbind at 1, M_bind at 1.
  destruct ((if up_noConfirm config then mret true else confirmClusterUpdate Scan) w1) as [[b|e|] w2] eqn:Ec;
    apply confirm_run in Ec as [Hs2 Hb]; [|intros [= <- <-]; left; split; [congruence|done]..].
  destruct b; [|intros [= <- <-]; right; exists ns, name, cluster, w1, (c :: changes), cluster'; auto 10 with congruence].
  unfold mbind, M_bind. destruct (Update client cluster' w2) as [ru w3] eqn:E3.
  destruct ru as [y|e|]; intros [= <- <-].
  - right. exists ns, name, cluster, w1, (c :: changes), cluster'. split_and!; try done. right. split_and!; try done.
    exists w2, y. split; [congruence|done].
  - left. apply (Update_run client) in E3 as [_ Hs3]. split; [congruence|done].
  - by apply (Update_run client) in E3 as [_ Hs3].
Qed.

(** C38: an update changes the cluster that it names and nothing else, when the
    user agrees, or need not be asked: what is then stored has the version, the
    numbers of servers and agents, the labels and the annotations that the flags
    ask for and all the others as they were, and its version has not gone back (a
    cluster without finalizers that is being deleted is gone instead).  An update
    that succeeds without a change found nothing to change or was refused. *)
Theorem updateAction_guarded appCtx config arg w r w' :
  updateAction client Scan appCtx config arg w = (r, w') →
  (store w' = store w ∧ r ≠ Ok tt) ∨
  ∃ ns name cluster w1,
    let i := (("Cluster", cluster_name ns name) : ObjKey) in
    resolveClusterArg appCtx arg = Ok (ns, name) ∧ Get client Cluster (cluster_name ns name) w = (Ok cluster, w1) ∧
    store w !! i = Some (OCluster cluster) ∧
    ((store w' = store w ∧
      ((∃ cluster', updated_cluster config cluster = Ok ([], cluster')) ∨ refused config w1)) ∨
     consent config w1 ∧
     (if is_deleting (cl_Meta cluster) && bool_decide (Finalizers (cl_Meta cluster) = []) then store w' = delete i (store w)
      else ∃ y, store w' = <[i := OCluster y]> (store w) ∧ as_asked config cluster y)).
Proof.
  intros [?|(ns & name & cluster & w1 & changes & cluster' & Hr & Hg & Hu & Hrun)]%updateAction_run; [by left|right].
  pose proof Hg as (Hs1 & _ & Hst & Hkey)%(Get_run client). exists ns, name, cluster, w1.
  apply updated_cluster_spec in Hu as Hspec. destruct Hspec as [Hasked Hmeta].
  split_and!; [done..|]. destruct Hrun as [[Hs [->|Href]]|(Hne & Hc & _ & w2 & y & Hs2 & Eu)].
  - left. split; [done|left]. by exists cluster'.
  - left. auto.
  - right. split; [done|]. apply (Update_run client) in Eu as (_ & _ & _ & _ & Hs & Eu). rewrite Hs2 in Hs.
    assert (obj_key (OCluster cluster') = ("Cluster", cluster_name ns name)) as Hk.
    { change (obj_key (OCluster cluster')) with ("Cluster", key_of (cl_Meta cluster')). rewrite <- Hkey.
      change (meta cluster) with (cl_Meta cluster). unfold key_of. by injection Hmeta as -> -> _. }
    change (obj_key (inj cluster')) with (obj_key (OCluster cluster')) in Hs.
    change (meta cluster') with (cl_Meta cluster') in Hs. rewrite Hk in Hs.
    replace (is_deleting (cl_Meta cluster')) with (is_deleting (cl_Meta cluster)) in Hs
      by (unfold is_deleting; injection Hmeta as ?????? ->; done).
    replace (Finalizers (cl_Meta cluster')) with (Finalizers (cl_Meta cluster)) in Hs by (by injection Hmeta).
    destruct (_ && _); [done|]. exists y. split; [done|]. eapply as_asked_data; [|exact Hasked].
    exact (update_keeps (f:=cluster_data) _ _ _ _ Eu).
Qed.
End UpdateRun.

(** ** policies *)
Section PolicyRun.
Context {W : Type} (client : Client W) `{!ClientLaws client}.
Context `{HK : !Keeps client (λ ns : NamespaceObj, Labels (ns_Meta ns))}.
Context (config : VirtualClusterPolicyCreateConfig) (policyName : string) (Hname : policyName ≠ "").

Definition namespace_key (n : string) : ObjKey := ("Namespace", {| nn_Namespace := ""; nn_Name := n |}).

(** A namespace that the command may bind: one without a policy, or with
    another one when it is told to overwrite. *)
Definition bindable (ns : NamespaceObj) : Prop :=
  Policy.ns_policy ns ≠ policyName ∧ (Policy.ns_policy ns = "" ∨ vc_overwrite config = true).

Definition bound (v : option Obj) : Prop := ∃ ns, v = Some (ONamespace ns) ∧ Policy.ns_policy ns = policyName.

Definition binds (l : list string) (i : ObjKey) (v v' : option Obj) : Prop :=
  v' = v ∨
  ((∃ n, n ∈ l ∧ i = namespace_key n) ∧
   ∃ ns, v = Some (ONamespace ns) ∧ bindable ns ∧ (is_deleting (ns_Meta ns) = false → bound v')).

#[local] Instance binds_preorder l i : PreOrder (binds l i).
Proof using.
  split; [by left|]. intros v1 v2 v3 [->|(Hn & ns & -> & Hb & Hd)] H2; [done|].
  destruct H2 as [->|(_ & ns2 & -> & Hb2 & Hd2)]; [right; by eauto 6|].
  right. split; [done|]. exists ns. split; [done|]. split; [done|]. intros Hdel.
  destruct (Hd Hdel) as (ns' & [= <-] & Hp). by destruct Hb2.
Qed.

Lemma binds_mono l l' i v v' : (∀ n, n ∈ l → n ∈ l') → binds l i v v' → binds l' i v v'.
Proof using. intros Hl [->|((n & Hn & ->) & Hr)]; [by left|right]. split; [|done]. exists n. by auto. Qed.

Lemma bound_to_policy ns : Policy.ns_policy (bound_to policyName ns) = policyName.
Proof using. unfold Policy.ns_policy, bound_to, map_str, map_get. cbn. by rewrite lookup_insert_eq. Qed.

(** One namespace: either it stays as it is, and then it was not to be bound
    when the call succeeds, or it is bound. *)
Lemma bind_namespace_run n w r w' :
  bind_namespace client config policyName n w = (r, w') →
  (∀ i, i ≠ namespace_key n → store w' !! i = store w !! i) ∧
  binds [n] (namespace_key n) (store w !! namespace_key n) (store w' !! namespace_key n) ∧
  (r = Ok tt → ∀ ns, store w !! namespace_key n = Some (ONamespace ns) → is_deleting (ns_Meta ns) = false →
     bindable ns ∨ Policy.ns_policy ns = policyName → bound (store w' !! namespace_key n)).
Proof using HK.
  unfold bind_namespace, mbind at 1, M_bind at 1, attempt.
  destruct (Get client NamespaceObj _ w) as [[ns|e|] w1] eqn:E1; apply (Get_run client) in E1 as (Hs & _ & Hg); [| |done].
  2:{ intros E. assert (w1 = w') as -> by (destruct (IsNotFound e); by injection E). rewrite Hs.
      split; [done|]. split; [by left|]. intros -> ns Hns. destruct (IsNotFound e) eqn:He; [|done].
      change (store w !! namespace_key n = None) in Hg. congruence. }
  destruct Hg as [Hg Hk]. change (store w !! namespace_key n = Some (ONamespace ns)) in Hg. cbv zeta.
  destruct (decide (Policy.ns_policy ns = policyName)) as [Hp|Hp].
  { intros [= <- <-]. rewrite Hs. split; [done|]. split; [by left|]. intros _ ns' Hns _ _. rewrite Hg in Hns.
    injection Hns as <-. rewrite Hg. by exists ns. }
  assert (∀ r, (Update client (bound_to policyName ns) ;; mret tt) w1 = (r, w') → bindable ns →
    (∀ i, i ≠ namespace_key n → store w' !! i = store w !! i) ∧
    binds [n] (namespace_key n) (store w !! namespace_key n) (store w' !! namespace_key n) ∧
    (r = Ok tt → is_deleting (ns_Meta ns) = false → bound (store w' !! namespace_key n))) as Hup.
  { intros r0 E Hb. unfold mbind, M_bind in E. destruct (Update client _ w1) as [ru w2] eqn:E2.
    assert (w2 = w') as -> by (destruct ru; by injection E).
    assert (obj_key (inj (bound_to policyName ns)) = namespace_key n) as Hkey.
    { unfold obj_key; cbn. change (key_of (meta ns)) with (key_of (ns_Meta ns)) in Hk. unfold key_of in *. cbn. by rewrite Hk. }
    apply (Update_run client) in E2 as [_ Hr]. destruct ru as [ns'|e|]; [| |done].
    - destruct Hr as (_ & _ & _ & Hst & Hc). rewrite Hkey, Hs in Hst.
      assert (Policy.ns_policy ns' = policyName) as Hp'.
      { unfold Policy.ns_policy. apply update_keeps in Hc. cbn in Hc. rewrite Hc. apply bound_to_policy. }
      change (is_deleting (meta (bound_to policyName ns))) with (is_deleting (ns_Meta ns)) in Hst.
      assert (is_deleting (ns_Meta ns) = false → bound (store w' !! namespace_key n)) as Hbound.
      { intros Hd. rewrite Hd in Hst. cbn in Hst. rewrite Hst, lookup_insert_eq. by exists ns'. }
      split; [|split; [|by intros _]].
      + intros i Hi. destruct (_ && _) in Hst; rewrite Hst; [by rewrite lookup_delete_ne|by rewrite lookup_insert_ne].
      + right. split; [exists n; split; [by left|done]|]. exists ns. done.
    - injection E as <-. rewrite Hr, Hs. split; [done|]. split; [by left|done]. }
  assert (∀ r, (Update client (bound_to policyName ns) ;; mret tt) w1 = (r, w') → bindable ns →
    (∀ i, i ≠ namespace_key n → store w' !! i = store w !! i) ∧
    binds [n] (namespace_key n) (store w !! namespace_key n) (store w' !! namespace_key n) ∧
    (r = Ok tt → ∀ ns, store w !! namespace_key n = Some (ONamespace ns) → is_deleting (ns_Meta ns) = false →
       bindable ns ∨ Policy.ns_policy ns = policyName → bound (store w' !! namespace_key n))) as Hup'.
  { intros r0 E Hb. destruct (Hup r0 E Hb) as (H1 & H2 & H3). split; [done|]. split; [done|].
    intros Hr ns' Hns Hd _. rewrite Hg in Hns. injection Hns as <-. by apply H3. }
  destruct (decide (Policy.ns_policy ns = "")) as [He|He].
  { intros E. apply (Hup' r E). split; [done|by left]. }
  destruct (vc_overwrite config) eqn:Ho.
  { intros E. apply (Hup' r E). split; [done|by right]. }
  intros [= <- <-]. rewrite Hs. split; [done|]. split; [by left|]. intros _ ns' Hns _ Hb. rewrite Hg in Hns.
  injection Hns as <-. destruct Hb as [[_ [Hb|Hb]]|Hb]; [done|congruence|done].
Qed.

Lemma evolves_bind_namespace n : evolves client (per_key (binds [n])) (bind_namespace client config policyName n).
Proof using HK.
  intros w r w' (H1 & H2 & _)%bind_namespace_run i. destruct (decide (i = namespace_key n)) as [->|Hi]; [done|].
  left. by apply H1.
Qed.

Lemma evolves_bind_all l :
  evolves client (per_key (binds l)) (join_all (map (bind_namespace client config policyName) l)).
Proof using HK.
  apply evolves_join_all; [exact _|]. apply Forall_map, Forall_forall. intros n Hn.
  eapply evolves_weaken; [|apply evolves_bind_namespace]. intros s s' Hs i. eapply binds_mono; [|apply Hs].
  intros m ->%list_elem_of_singleton. done.
Qed.

Lemma bound_stays l i v v' : binds l i v v' → bound v → bound v'.
Proof using. intros [->|(_ & ns & -> & [Hb _] & _)]; [done|]. intros (ns' & [= <-] & Hp). done. Qed.

Lemma bind_all_done l w es w' :
  join_all (map (bind_namespace client config policyName) l) w = (Ok es, w') → Forall (λ e, e = None) es →
  ∀ n ns, n ∈ l → store w !! namespace_key n = Some (ONamespace ns) → is_deleting (ns_Meta ns) = false →
    bindable ns ∨ Policy.ns_policy ns = policyName → bound (store w' !! namespace_key n).
Proof using HK.
  revert w es. induction l as [|m l IH]; intros w es; cbn [map join_all]; [by intros _ _ n ns ?%not_elem_of_nil|].
  intros (r & w1 & E1 & E)%bind_inv_ok. apply bind_inv_ok in E as (es1 & w2 & E2 & E). injection E as <- <-.
  intros [Hr Hes]%Forall_cons n ns Hn Hst Hd Hb. apply attempt_inv in E1.
  pose proof (evolves_bind_all l _ _ _ E2 (namespace_key n)) as Hlater.
  destruct r as [[]|e]; [|done]. apply bind_namespace_run in E1 as (Hf & Hb1 & H1).
  apply elem_of_cons in Hn as [->|Hn]; [apply (bound_stays _ _ _ _ Hlater); by eapply H1|].
  destruct (decide (n = m)) as [->|Hm]; [apply (bound_stays _ _ _ _ Hlater); by eapply H1|].
  eapply (IH _ _ E2 Hes n ns Hn); [|done|done]. rewrite Hf; [done|]. unfold namespace_key. congruence.
Qed.

(** What creating a policy may change. *)
Definition policy_changes (i : ObjKey) (v v' : option Obj) : Prop :=
  binds (vc_namespaces config) i v v' ∨
  (i = ("VirtualClusterPolicy", {| nn_Namespace := ""; nn_Name := policyName |}) ∧ v = None).

Lemma createPolicy_run w r w' :
  createPolicy client config policyName w = (r, w') →
  ∀ i, store w' !! i = store w !! i ∨
       (i = (("VirtualClusterPolicy", {| nn_Namespace := ""; nn_Name := policyName |}) : ObjKey) ∧ store w !! i = None).
Proof using.
  unfold createPolicy, mbind, M_bind, attempt. destruct (Create client _ w) as [[p|e|] w1] eqn:E1;
    apply (Create_run client) in E1 as [_ Hr]; [| |done].
  - intros [= <- <-] i. destruct Hr as (Hn & _ & Hs & _). cbn in Hn, Hs. rewrite Hs.
    match type of Hn with _ !! ?k = None => destruct (decide (i = k)) as [->|Hi] end; [by right|].
    left. by rewrite lookup_insert_ne.
  - intros E i. assert (w1 = w') as <- by (destruct (negb _); by injection E). rewrite Hr. by left.
Qed.

(** C39: creating a policy from the command line binds it to the namespaces it is
    given and to no other; a namespace that has another policy keeps it unless
    the command is told to overwrite, and every namespace that may be bound is,
    when the command succeeds. *)
Theorem policyCreateAction_spec w r w' :
  policyCreateAction client config policyName w = (r, w') →
  (∀ i, store w' !! i = store w !! i ∨ policy_changes i (store w !! i) (store w' !! i)) ∧
  (∀ n ns, store w !! namespace_key n = Some (ONamespace ns) → Policy.ns_policy ns ≠ "" → vc_overwrite config = false →
     store w' !! namespace_key n = Some (ONamespace ns)) ∧
  (r = Ok tt → ∀ n ns, n ∈ vc_namespaces config → store w !! namespace_key n = Some (ONamespace ns) →
     is_deleting (ns_Meta ns) = false → bindable ns → bound (store w' !! namespace_key n)).
Proof using HK.
  unfold policyCreateAction, mbind at 1, M_bind at 1. destruct (createPolicy client config policyName w) as [rp w1] eqn:E1.
  pose proof (createPolicy_run _ _ _ E1) as Hc. intros E.
  assert (∀ n, store w1 !! namespace_key n = store w !! namespace_key n) as Hns.
  { intros n. by destruct (Hc (namespace_key n)) as [?|[? _]]. }
  assert (per_key (binds (vc_namespaces config)) (store w1) (store w') ∧
    (r = Ok tt → ∀ n ns, n ∈ vc_namespaces config → store w1 !! namespace_key n = Some (ONamespace ns) →
       is_deleting (ns_Meta ns) = false → bindable ns → bound (store w' !! namespace_key n))) as [Hb Hd].
  { destruct rp as [p|e|]; [|by injection E as <- <-|by injection E as <- <-].
    unfold bindPolicyToNamespaces in E. split.
    - assert (evolves client (per_key (binds (vc_namespaces config)))
        (errs ← join_all (map (bind_namespace client config policyName) (vc_namespaces config));
         ret_err (errors_join errs))) as He
        by (apply evolves_bind; [exact _|apply evolves_bind_all|intros; apply evolves_ret_err, _]).
      exact (He _ _ _ E).
    - intros ->. apply bind_inv_ok in E as (es & w2 & E2 & E). apply ret_err_ok in E as [Hes ->].
      apply errors_join_None in Hes. intros n ns Hn Hs Hdel Hbi. eapply bind_all_done; eauto. }
  split; [|split].
  - intros i. destruct (Hb i) as [Hi|Hi]; destruct (Hc i) as [Hx|[-> Hx]].
    + left. congruence.
    + right. right. by split.
    + right. left. right. by rewrite <- Hx.
    + destruct Hi as ((n & _ & Hn) & _). done.
  - intros n ns Hs Hp Ho. rewrite <- Hns in Hs. destruct (Hb (namespace_key n)) as [->|(_ & ns' & Hs' & [Hn [He|He]] & _)].
    + by rewrite Hs.
    + rewrite Hs in Hs'. injection Hs' as <-. done.
    + congruence.
  - intros Hr n ns Hn Hs. rewrite <- Hns in Hs. by apply (Hd Hr n ns Hn).
Qed.
End PolicyRun.

(** ** Completions, tables and certificates *)
Section CompleteRun.
Context {W : Type} (client : Client W) `{!ClientLaws client}.

(** the names that the shell completes an argument with are names the commands
    accept: each resolves, under the same namespace flag, to a cluster that
    exists. *)
Theorem clusterNameCompletions_resolve appCtx w names d w' :
  clusterNameCompletions (namespace appCtx) client w = (Ok (names, d), w') →
  (∀ c, store w !! own_key c = Some (OCluster c) → ¬ str_elem "/" (Namespace (cl_Meta c))) →
  store w' = store w ∧
  ∀ arg, arg ∈ names → ∃ c, store w !! own_key c = Some (OCluster c) ∧
    resolveClusterArg appCtx arg = Ok (Namespace (cl_Meta c), Name (cl_Meta c)).
Proof.
  unfold clusterNameCompletions, listed. intros (r & w1 & E1 & E)%bind_inv_ok Hslash. apply attempt_inv in E1.
  set (opts := if decide (namespace appCtx ≠ "") then InNamespace (namespace appCtx) else list_all) in *.
  assert (lo_Fields opts = []) as Hf by (by subst opts; destruct (decide _)).
  destruct r as [clusters|e]; apply (List_run client) in E1 as (Hs & _ & Hr); [|done| |done];
    [|injection E as <- <- <-; split; [done|by intros arg ?%not_elem_of_nil]].
  injection E as <- <- <-. split; [done|]. intros arg (c & -> & Hc)%list_elem_of_fmap.
  destruct Hr as [_ Hr]. apply Hr in Hc as [Hst Hsel].
  change (store w !! own_key c = Some (OCluster c)) in Hst. exists c. split; [done|].
  unfold resolveClusterArg, strings_Cut.
  change ("/" +:+ Name (cl_Meta c)) with (String "/" (Name (cl_Meta c))).
  rewrite cut_char_first by (by apply Hslash). rewrite decide_False; [done|].
  intros [Hne Hns]. subst opts. rewrite decide_True in Hsel by done. unfold selected in Hsel. cbn in Hsel.
  rewrite andb_true_r in Hsel. apply orb_true_iff in Hsel as [Hx|Hx]; apply bool_decide_eq_true in Hx; [done|].
  congruence.
Qed.
End CompleteRun.

(** the table of a list has one row for each object, in order, and each row that
    could be made has one cell for each column, the first being the name. *)
Theorem createTable_shape `{JsonPath} {T} (ToUnstructured : T → outcome json) crd objs :
  let table := createTable ToUnstructured crd objs in
  length (tab_Rows table) = length objs ∧
  (∃ columns, map tc_Name (tab_Columns table) = "Name" :: columns) ∧
  ∀ n row obj, tab_Rows table !! n = Some row → row_Object row = Some obj →
    objs !! n = Some obj ∧ length (row_Cells row) = length (tab_Columns table).
Proof.
  intros table. split; [|split].
  - unfold table, createTable, createTableRows. cbn. by rewrite length_map.
  - by eexists.
  - intros n row obj Hn Ho. unfold table, createTable, createTableRows in *. cbn [tab_Rows tab_Columns] in *.
    apply list_lookup_fmap_Some in Hn as (x & -> & Hx).
    cbn beta in Ho |- *. destruct (ToUnstructured x) as [m|e|]; cbn in Ho |- *; [|congruence..]. injection Ho as <-. split; [done|].
    unfold buildRowCells, convertToTableColumns. by rewrite !length_map.
Qed.

(** the days of a certificate are counted in 64-bit nanoseconds: up to 106751
    days, about 292 years, the lifetime is what was asked for; one day more and it
    is negative. *)
Theorem generate_config_expiry cfg :
  (0 ≤ gk_expirationDays cfg ≤ 106751 →
   Kubeconfig.kc_ExpiryDate (generate_config cfg) = gk_expirationDays cfg * 24 * Hour) ∧
  (gk_expirationDays cfg = 106752 → Kubeconfig.kc_ExpiryDate (generate_config cfg) < 0).
Proof.
  unfold generate_config. cbn [Kubeconfig.kc_ExpiryDate]. change (mul64 Hour 24) with 86400000000000.
  unfold mul64, int64. split.
  - intros Hd. unfold Hour, nano. rewrite Z.mod_small by lia. lia.
  - intros ->. by vm_compute.
Qed.

(** ** A concrete environment *)
Import Lab.

Fixpoint drop_owner (owner : OwnerReference) (l : list OwnerReference) : option (list OwnerReference) :=
  match l with
  | [] => None
  | r :: l => if decide (same_owner owner r) then Some l else (r ::.) <$> drop_owner owner l
  end.

#[export] Instance lab_owners : OwnerUtil := {
  HasControllerReference m := existsb (λ r, bool_decide (or_Controller r = Some true)) (OwnerReferences m);
  RemoveOwnerReference owner m :=
    match drop_owner owner (OwnerReferences m) with
    | Some l => Ok (set_OwnerReferences l m)
    | None => Err (EText "no owner reference")
    end;
}.
Lemma drop_owner_spec owner l l' :
  drop_owner owner l = Some l' → ∃ pre r post, l = (pre ++ r :: post)%list ∧ same_owner owner r ∧ l' = (pre ++ post)%list.
Proof.
  revert l'. induction l as [|r l IH]; intros l'; cbn; [done|]. destruct (decide (same_owner owner r)) as [Hr|Hr].
  - intros [= <-]. by exists [], r, l.
  - destruct (drop_owner owner l) as [l0|]; [|done]. intros [= <-].
    destruct (IH l0 eq_refl) as (pre & r0 & post & -> & Hs & ->). by exists (r :: pre), r0, post.
Qed.

#[export] Instance lab_owners_laws : OwnerUtilLaws.
Proof.
  split; [done|]. intros owner m m'. cbn. destruct (drop_owner owner (OwnerReferences m)) as [l|] eqn:E; [|done].
  intros [= <-]. apply drop_owner_spec in E as (pre & r & post & H1 & H2 & ->). by exists pre, r, post.
Qed.

#[export] Instance lab_semver : Semver string := {
  ParseTolerant s := if decide (s = "") then Err (EText "empty version") else Ok s;
  LT := String.ltb;
  labels_Merge a b := Some (default ∅ b ∪ default ∅ a);
}.
#[export] Instance lab_semver_laws : SemverLaws string.
Proof. by intros a b. Qed.

Definition owned_token : Secret := {|
  sec_Meta := set_OwnerReferences [ {| or_APIVersion := "k3k.io/v1beta1"; or_Kind := "Cluster"; or_Name := "dev";
                                       or_UID := ""; or_Controller := Some true |} ]
                (meta_of "team" (Token.TokenSecretName "dev"));
  sec_Type := ""; sec_Data := map_lit [("token", "t")] |}.
Definition owned_desk : station := (Lab.objects [OCluster ready_tenant; OSecret owned_token], user_disk).

Lemma deleteCluster_confined_witness :
  let w' := (deleteCluster Cli.host true ready_tenant owned_desk).2 in
  ∀ i, store w' !! i = store owned_desk !! i ∨ i = own_key ready_tenant ∨ (true = true ∧ i = token_key ready_tenant) ∨
    (true = false ∧ ∃ o, store owned_desk !! i = Some o ∧ obj_kind o = "PersistentVolumeClaim" ∧
                         selected (server_claims ready_tenant) o = true).
Proof.
  intros w'. apply (deleteCluster_confined Cli.host true ready_tenant owned_desk
    (deleteCluster Cli.host true ready_tenant owned_desk).1 w').
  subst w'. by destruct (deleteCluster _ _ _ _).
Defined.

Lemma deleteCluster_spec_witness :
  ∃ w' : station, gone Cli.host owned_desk w' (own_key ready_tenant) ∧
    ∃ s', store w' !! token_key ready_tenant = Some (OSecret s') ∧ sec_Data s' = sec_Data owned_token.
Proof.
  destruct (deleteCluster Cli.host true ready_tenant owned_desk) as [r w'] eqn:E.
  assert (r = Ok tt) as ->. { change r with (r, w').1. rewrite <- E. vm_compute. reflexivity. }
  destruct (deleteCluster_spec Cli.host true ready_tenant owned_desk w' E) as (H1 & _ & H3).
  exists w'. split; [exact H1|].
  destruct (H3 owned_token) as (s' & Hs & Hd & _); [vm_compute; reflexivity|reflexivity|].
  exists s'. split; [exact Hs|exact Hd].
Defined.

Definition upgrade : UpdateConfig := {|
  up_servers := Some 3; up_agents := None; up_labels := Some ["tier=gold"]; up_annotations := None;
  up_version := Some "v1.34.0-k3s1"; up_noConfirm := false |}.
Definition answer_yes : M station (option string) := mret (Some " Y ").
Lemma answer_yes_silent : silent Cli.host answer_yes.
Proof. by intros w r w' [= _ <-]. Qed.

Lemma updateAction_guarded_witness :
  ∃ (w' : station) y, store w' !! own_key ready_tenant = Some (OCluster y) ∧
    Version (cl_Spec y) = "v1.34.0-k3s1" ∧ map_get (Labels (cl_Meta y)) "tier" = Some "gold".
Proof.
  destruct (updateAction Cli.host answer_yes session upgrade "dev" desk) as [r w'] eqn:E. exists w'.
  assert (bool_decide (store w' !! own_key ready_tenant = store desk !! own_key ready_tenant) = false) as Hne.
  { change w' with (r, w').2. rewrite <- E. vm_compute. reflexivity. }
  apply bool_decide_eq_false in Hne.
  destruct (updateAction_guarded Cli.host answer_yes answer_yes_silent session upgrade "dev" desk r w' E)
    as [[Hs _]|(ns & name & cluster & w1 & Hr & _ & Hst & [[Hs _]|[_ Hdone]])];
    [exact (False_ind _ (Hne (f_equal (.!! own_key ready_tenant) Hs)))..|].
  vm_compute in Hr. injection Hr as <- <-.
  assert (is_deleting (cl_Meta cluster) = false) as Hd.
  { vm_compute in Hst. by injection Hst as <-. }
  rewrite Hd in Hdone. destruct Hdone as (y & Hs & Hy). exists y.
  split; [exact (eq_trans (f_equal (.!! own_key ready_tenant) Hs) (lookup_insert_eq _ _ _))|]. split.
  - rewrite (asked_version _ _ _ Hy). reflexivity.
  - rewrite (asked_labels _ _ _ Hy "tier"). vm_compute. reflexivity.
Defined.

Definition gold : VirtualClusterPolicyCreateConfig := {|
  vc_mode := "shared"; vc_labels := []; vc_annotations := []; vc_namespaces := ["team"; "taken"; "missing"];
  vc_overwrite := false |}.
Definition taken : NamespaceObj :=
  {| ns_Meta := set_Labels (map_lit [(Policy.PolicyNameLabelKey, "silver")]) (meta_of "" "taken") |}.
Definition team : NamespaceObj := {| ns_Meta := meta_of "" "team" |}.
Definition policy_desk : station := (Lab.objects [ONamespace team; ONamespace taken], ∅).

Lemma policyCreateAction_spec_witness :
  ∃ w' : station, bound "gold" (store w' !! namespace_key "team") ∧
    store w' !! namespace_key "taken" = Some (ONamespace taken).
Proof.
  destruct (policyCreateAction Cli.host gold "gold" policy_desk) as [r w'] eqn:E.
  assert (r = Ok tt) as ->. { change r with (r, w').1. rewrite <- E. vm_compute. reflexivity. }
  destruct (policyCreateAction_spec Cli.host gold "gold" policy_desk (Ok tt) w' E) as (_ & H2 & H3).
  exists w'. split.
  - apply (H3 eq_refl "team" team); [by left|vm_compute; reflexivity|reflexivity|].
    split; [by vm_compute|left; by vm_compute].
  - apply H2; [vm_compute; reflexivity|by vm_compute|reflexivity].
Defined.

Definition no_slash (o : Obj) : bool :=
  match o with
  | OCluster c => bool_decide ("/"%char ∉ String.list_ascii_of_string (Namespace (cl_Meta c)))
  | _ => true
  end.

Lemma clusterNameCompletions_resolve_witness :
  ∃ w' : station, store w' = store desk ∧ ∃ c, store desk !! own_key c = Some (OCluster c) ∧
    resolveClusterArg session "team/dev" = Ok (Namespace (cl_Meta c), Name (cl_Meta c)).
Proof.
  destruct (clusterNameCompletions (namespace session) Cli.host desk) as [r w'] eqn:E.
  assert (r = Ok (["team/dev"], ShellCompDirectiveNoFileComp)) as ->.
  { change r with (r, w').1. rewrite <- E. vm_compute. reflexivity. }
  destruct (clusterNameCompletions_resolve Cli.host session desk _ _ w' E) as [H1 H2].
  - intros c Hc.
    assert (forallb (λ p, no_slash p.2) (map_to_list (store desk)) = true) as Hall by (vm_compute; reflexivity).
    rewrite forallb_forall in Hall. apply elem_of_map_to_list, list_elem_of_In, Hall in Hc.
    unfold no_slash in Hc. cbn [snd] in Hc. by apply bool_decide_eq_true in Hc.
  - exists w'. split; [exact H1|]. apply H2. by left.
Defined.
End Manage.
